(* ===== verification/_CoqProject ===== *)
-Q . S2P
Prelude.v
GoStrings.v
Base64.v
GoInt.v
Sha512.v
GoJSON.v
JSONParse.v
JSONFacts.v
Types.v
External.v
Utils.v
Policy.v
Proto.v
PolicyClient.v
CatalogClient.v
AdminConfig.v
AdminQuery.v
SelectModules.v
World.v
MultiCluster.v
Razee.v
Storage.v
PlotterGen.v
Conditions.v
ResourceGen.v
AppController.v
Connectors.v
OpenAPIClient.v
OpenAPIFacts.v
Nullable.v
OpenAPIRuntime.v
OpenAPIRuntimeFacts.v
OpenAPICatalog.v
AppFacts.v
Mockup.v
AppExamples.v
AppLiveness.v
PlotterController.v
PlotterFacts.v
PlotterCtlExamples.v
PlotterLiveness.v
ControlPlane.v
ControlPlaneExamples.v
ModuleController.v
BlueprintController.v
BlueprintFacts.v
ClusterFacts.v
EndToEnd.v
EndToEndExamples.v
BlueprintLiveness.v
HelmImpl.v
BlueprintExamples.v
Vault.v
Startup.v
Taxonomy.v
TaxonomyCompile.v
TaxonomyFacts.v
TaxonomyProps.v
GoHeap.v
GoHeapFacts.v
DeepCopy.v
DeepCopyFacts.v
DeepCopyTypes.v
DeepCopyProps.v
DeepCopyReflect.v
DeepCopyExamples.v
RestServer.v
RestFacts.v
RestExamples.v
