(* ===== verification/Prelude.v ===== *)
(** * Verification of the Fybrik manager

    Fybrik gives a workload access to data under governance policies.  A user
    declares a FybrikApplication; the manager asks a data catalog and a policy
    manager about each asset, selects modules that can read, copy and transform the
    data, and deploys them on the clusters.  This development models the control
    loop of the manager, the connectors and their clients, the cluster managers, the
    Vault and Helm clients, the taxonomy compiler, the deep copies of the resources and the
    sample server of the repository, and proves what they promise.

    ** The program and the files

    The parts call each other in this order:

    - [Reconcile] of the application controller (manager/controllers/app/
      fybrikapplication_controller.go) validates the application, collects the
      requirements of its datasets, builds a plotter and tracks its status:
      AppController.v, with the conditions of the status in Conditions.v
      (fybrikapplication_conditions.go) and the generated resource in ResourceGen.v
      (resource_gen.go).
    - The governance actions of an asset come from the policy manager: Policy.v
      (policy_compiler_interface.go, pkg/taxonomy/validate).
    - The decisions of the administrator's configuration policies are evaluated and
      merged: AdminConfig.v (pkg/adminconfig, pkg/model/adminrules).
    - Data paths are searched and validated: SelectModules.v (select_modules.go).
    - The flow of an asset is added to the plotter, with storage for its copies:
      PlotterGen.v (plotter_generator.go, storage.go), Storage.v (pkg/storage).
    - The plotter controller turns the plotter into one blueprint per cluster and
      reconciles the blueprints: PlotterController.v (plotter_controller.go,
      blueprint_mgr.go), through a cluster manager: MultiCluster.v (pkg/multicluster,
      with the local cluster), Razee.v (pkg/multicluster/razee).
    - The blueprint controller installs the charts of the modules with Helm and
      follows the status of the releases: BlueprintController.v
      (blueprint_controller.go, pkg/helm, utils/unstructured.go); HelmImpl.v has the
      implementation of the Helm interface on the Helm SDK.
    - The module controller validates modules against the taxonomy:
      ModuleController.v (fybrikmodule_controller.go, fybrikmodule_webhook.go).
    - The manager is started by manager/main.go: Startup.v.  The configuration policies
      are compiled by pkg/adminconfig/compile.go: AdminQuery.v.
    - The policy manager and the catalog are reached over gRPC (PolicyClient.v,
      CatalogClient.v, with the messages of pkg/connectors/protobuf in Proto.v) or over
      REST.  OpenAPIClient.v has the path through the generated clients of
      pkg/connectors/*/openapiclient that the manager takes; OpenAPIRuntime.v has all of
      client.go, configuration.go, response.go and api_default.go (bodies, forms and files,
      credentials from the context, every kind of result, the builders of the requests),
      Nullable.v the nullable types of utils.go, and OpenAPICatalog.v gives the names of the
      second package, which differs in names only.
      Connectors.v has the two connectors that come with the program, connectors/opa and
      connectors/katalog; Mockup.v has the catalog, the policy manager and the list of
      clusters of manager/controllers/mockup.
    - Secrets are kept by Vault: Vault.v (pkg/vault, data_catalog_interface.go).
    - Taxonomies are merged, transformed and converted by pkg/taxonomy: Taxonomy.v (the
      documents), TaxonomyCompile.v (compile), TaxonomyProps.v (model, validate).
    - The objects are copied by the generated functions DeepCopyInto, DeepCopy and
      DeepCopyObject (zz_generated.deepcopy.go of manager/apis/app/v1alpha1, pkg/model/* and
      connectors/katalog): DeepCopyTypes.v has them for every type, from the blocks of
      DeepCopy.v, on the heap of GoHeap.v (variables, slices with an offset and a length,
      maps).  There aliasing matters, and values are not threaded as elsewhere.
    - samples/rest-server lets a user manage applications and credentials over HTTP:
      RestServer.v.
    - Types.v has the custom resources and the models exchanged with the connectors
      (manager/apis/app/v1alpha1, pkg/model), Utils.v the helpers of the manager
      (manager/controllers/utils), GoStrings.v, GoInt.v, Base64.v, GoJSON.v, JSONParse.v
      (the text of JSON, written and read) and Sha512.v what the code uses of Go's standard
      library, World.v the clients of the Kubernetes API and the retried updates.
    - AppFacts.v, PlotterFacts.v, BlueprintFacts.v, AppLiveness.v, PlotterLiveness.v and
      BlueprintLiveness.v have the theorems about the controllers, ControlPlane.v those about
      the application and plotter controllers running together, EndToEnd.v the one that
      goes through all of them, ClusterFacts.v those about the plotter controller
      on the local cluster, OpenAPIFacts.v and OpenAPIRuntimeFacts.v those about the REST
      clients, alone and with the OPA connector, JSONFacts.v those about JSON, TaxonomyFacts.v those about the compiler, GoHeapFacts.v,
      DeepCopyFacts.v, DeepCopyProps.v and DeepCopyReflect.v those about copies, RestFacts.v
      those about the sample server; the files and modules called Examples have the
      instances on which the theorems are applied.

    ** Modelling conventions

    - A Go function that can panic returns [outcome]; code that talks to the API
      server, the clusters or the storage is in the monad [M W] over an abstract
      world [W]; errors are values of type [error].  A pointer that may be nil is an
      [option], a map that may be nil a [gomap].  Objects the code updates in place
      are threaded through the functions.
    - The order of iteration over a Go map is unspecified: the class [MapRange] gives
      some order for each map, and every theorem holds for all of them.
    - Third-party code is a parameter: the classes of External.v, the records
      [ObjectClient], [Client], [Provision], [ClusterManager], [ContextInterface],
      [Helm], [SDK], [SatCon] (the Razee server), [Connection.Client] (the Vault API),
      [NetURL] and the functions for the policy manager, the catalog, OPA and the Rego
      engine.  Classes ending in [Laws] state documented behaviour of such code
      ([ProvisionLaws] only collects what the storage of the tests does).
    - Record updates are written [r <| f := v |>] for a projection [f].
    - Recursions of the source that are not structural take fuel: the search for
      paths is structural in the limit on the length of a path; [CheckDependencies] takes
      fuel, which the rank of the dependency graph bounds; the conversions of taxonomies
      take fuel for the references they follow, which the rank of the definitions bounds,
      and running out of it is a result of its own; the rounds of the controllers are counted
      by [poll].
    - Equality by reflect.DeepEqual is equality; a nil and an empty slice are
      identified, except where the code tells them apart (the compiler of taxonomies).
      A 64-bit [int] is a [Z] with the wrap-around of [int64] where it is computed with.  Log messages and traces are left
      out.

    ** What the theorems show

    - Enforcement: [action_reaches_chart] (an action the policies demand for an asset is in
      the values of a chart that is deployed), from [FindPaths_valid] (a selected path applies every governance action,
      at a capability that supports it, on allowed clusters),
      [AddFlowInfoForAsset_enforces] (the flow of the plotter carries the actions),
      [buildSolution_serves] and [getBlueprintsMap_enforces] (they reach the
      blueprints of the clusters), [chart_values_carry_actions] (and the values of the
      charts), [denied_asset_excluded]; [access_needs_verdict] (through the REST client and
      the OPA connector only an answer of OPA with a status below 300 gives access, and with
      the status 200 only a verdict), [grpc_denial_enforced].
    - The system: [control_plane_safe].  The state is what the API server and the clusters
      store; a step is a pass of the application controller, a pass of the plotter
      controller (each over any key) or a change by somebody else: applications are created,
      changed or deleted by users, plotters are changed outside their specification and labels
      or deleted, blueprints are deleted.  The invariant of all reachable states says that
      every stored plotter serves the application its labels name, in a version that has been
      stored (its flows are for datasets of this application and enforce what was decided about
      them for it), that every deployed blueprint comes from such a plotter, and that both
      controllers return.  A pass is one step: nothing else
      writes to the objects in the middle of it, and the record [laws] states what the API
      server and the cluster manager do under this reading.
    - The connectors: [openapi_client_exact], [grpc_GetPoliciesDecisions_exact],
      [grpc_GetAssetInfo_exact] (what is sent and what is made of the answer),
      [decisions_roundtrip], [request_roundtrip], [MergePoliciesDecisions_exact] (the merge
      keeps every decision, once per dataset and operation), [opa_relays_verdict],
      [katalog_serves_asset]; [authenticate_exact], [parseCacheControl_roundtrip],
      [nullable_laws], [decisions_of_mockup].  [generated_client_refines] relates the two
      definitions of the generated clients (the whole of them, and the part the manager uses),
      [json_roundtrip] and [base64_roundtrip] check the models of the standard library.
    - Storage of secrets and clusters: [vault_refines_map] (both implementations behave like
      a map of secrets, the one on Vault over a server that stores what it is given),
      [SecretToCredentialMap_exact], [razee_create_publishes_or_rolls_back],
      [razee_next_version_fresh], [razee_delete_exact], [pull_then_load].
    - The taxonomy compiler: [mergeDefinitions_exact], [union_becomes_structural],
      [codegen_removes_validation], [flat_taxonomy].
    - Start-up: [startup_correct] (the order of the steps, every facade that was opened is
      closed), [getConnectionTimeout_bounds], [PrepareQuery_exact].
    - Liveness: [blueprint_becomes_ready], [plotter_becomes_ready] and
      [application_becomes_ready] (polling a controller ends with a ready resource when what
      it waits for becomes ready).
    - Copies: [generated_DeepCopy_independent] (a generated copy has the contents of the
      original, but for the restrictions of policies, and shares no memory with it).
    - The sample server: [server_implements_registry] (a registry of applications, for every
      sequence of requests), [credentials_roundtrip], [server_answers_once].
    - Completeness of the search: [findPathsWithinLimit_exact] and
      [FindPaths_complete]; of the policy merge: [Evaluate_conjunction].
    - Readiness: [blueprint_ready_sound] (releases and their resources),
      [reconcile_ready_sound] and [asset_ready_sound] (blueprints),
      [checkReadiness_correct], [isReady_correct], [error_is_reported] (application),
      [validateModule_current] (modules).
    - Ownership of resources: [reconcile_tracks_blueprints],
      [updateProvisionedStorageStatus_exact], [deleteExternalResources_exact],
      [reconcileFinalizers_protects], [plotter_finalizer_protects],
      [blueprint_releases_exact], [CreateDataset_idempotent], [Local_update_get],
      [SetMapField_exact], [CreateOrUpdateResource_unchanged].
    - No panic and termination: [reconcile_safe], [AddFlowInfoForAsset_returns],
      [generated_plotter_converts] (what the application controller plans, the plotter
      controller can convert), [getBlueprintsMap_returns], [blueprint_reconcile_returns],
      [CheckDependencies_correct].
    - Behaviour that differs from the intention or the documentation:
      [selectStorage_ignores_failure], [CheckDependencies_cyclic],
      [copies_share_location], [template_last_wins], [invalid_configuration_is_used],
      [refused_application_keeps_plotter], [failed_creation_reports_ready],
      [unset_scope_loses_copies], [backoff_has_no_effect], [plotter_name_collision],
      [Restriction_DeepCopy_drops_values], [FindPaths_not_sorted],
      [logout_failure_is_hidden], [unspecified_failure_condition_fails],
      [blueprint_deletion_ignores_failure], [lost_blueprint_not_recreated],
      [lost_blueprint_blocks_deletion], [removal_crashes_client], [allow_shifts_policies],
      [grpc_GetAssetInfo_failure], [katalog_invalid_id_panics],
      [razee_decode_failure_hidden], [compile_order_dependent],
      [recursive_taxonomy_diverges], [dangling_reference_panics], [flatten_cyclic],
      [path_is_ignored], [nil_client_panics], [applications_alone_panic],
      [multipart_length_short], [parameter_list_ambiguous],
      [empty_restriction_is_replaced], [accepted_gives_access].

    ** Not modelled

    The labels the controllers add to the maps of the objects they have read are not
    written back into those objects: only their status is sent to the API server.
    The steps of two controllers inside a pass are not interleaved.  The serialisation of
    messages is generated code of a library; time.Parse, the encoding of XML and of query
    parameters, the sniffing of content types, the set-up of controllers
    with the controller runtime, the command lines, logging and the readers and writers of
    files only call libraries. *)
From stdpp Require Import base gmap strings list fin_maps sets numbers.

(** ** Go runtime

    A Go computation either completes or panics (index out of range, nil
    dereference, assignment to an entry of a nil map, explicit [panic]). *)

Inductive outcome (A : Type) : Type :=
| Done (a : A)
| Panic (why : string).
Arguments Done {_} _.
Arguments Panic {_} _.

#[export] Instance outcome_ret : MRet outcome := fun _ a => Done a.
#[export] Instance outcome_bind : MBind outcome := fun _ _ k c =>
  match c with Done a => k a | Panic why => Panic why end.
#[export] Instance outcome_fmap : FMap outcome := fun _ _ f c =>
  match c with Done a => Done (f a) | Panic why => Panic why end.

(** A computation over a world [W] (the Kubernetes API server, the clusters,
    Helm, ...: everything outside the process) is a state transformer that may
    panic. *)
Definition M (W A : Type) : Type := W -> outcome (A * W).

#[export] Instance M_ret W : MRet (M W) := fun _ a w => Done (a, w).
#[export] Instance M_bind W : MBind (M W) := fun _ _ k c w =>
  match c w with Done (a, w') => k a w' | Panic why => Panic why end.

Definition lift {W A} (c : outcome A) : M W A := fun w =>
  match c with Done a => Done (a, w) | Panic why => Panic why end.

Definition panic {W A} (why : string) : M W A := fun _ => Panic why.

Definition returns {A} (c : outcome A) : Prop := exists a, c = Done a.

(** Running a sequence of computations, backwards and forwards. *)
Lemma M_bind_inv {W A B} (c : M W A) (k : A -> M W B) w r :
  (c ≫= k) w = Done r -> exists a w', c w = Done (a, w') /\ k a w' = Done r.
Proof. unfold mbind, M_bind. destruct (c w) as [[a w']|]; [eauto|done]. Qed.

Lemma M_bind_run {W A B} (c : M W A) (k : A -> M W B) w a w' :
  c w = Done (a, w') -> (c ≫= k) w = k a w'.
Proof. unfold mbind, M_bind. by intros ->. Qed.

Lemma M_ret_inv {W A} (a b : A) (w w' : W) : (mret a : M W A) w = Done (b, w') -> a = b /\ w = w'.
Proof. unfold mret, M_ret. by intros [= -> ->]. Qed.

Lemma lift_inv {W A} (c : outcome A) (w : W) a w' : lift c w = Done (a, w') -> c = Done a /\ w' = w.
Proof. unfold lift. destruct c; naive_solver. Qed.

(** Step through an equation [m w = Done r] of a monadic computation. *)
Ltac m_step H :=
  lazymatch type of H with
  | (_ ≫= _) _ = Done _ =>
      let a := fresh "a" in let w := fresh "w" in let E := fresh "E" in
      apply M_bind_inv in H as (a & w & E & H)
  | (mret _) _ = Done _ => apply M_ret_inv in H as [? ?]; simplify_eq/=
  | lift _ _ = Done _ => apply lift_inv in H as [? ?]; simplify_eq/=
  | panic _ _ = Done _ => discriminate H
  end.

(** Computations that return from every world, and whose result satisfies [P]. *)
Definition returning {W A} (P : A -> Prop) (c : M W A) : Prop :=
  forall w, exists a w', c w = Done (a, w') /\ P a.
Notation total c := (returning (fun _ => True) c).

Lemma returning_ret {W A} (P : A -> Prop) (a : A) : P a -> returning P (mret a : M W A).
Proof. intros Ha w. by exists a, w. Qed.

Lemma returning_bind {W A B} (P : A -> Prop) (Q : B -> Prop) (c : M W A) (k : A -> M W B) :
  returning P c -> (forall a, P a -> returning Q (k a)) -> returning Q (c ≫= k).
Proof.
  intros Hc Hk w. destruct (Hc w) as (a & w1 & E & Ha). destruct (Hk a Ha w1) as (b & w2 & E2 & Hb).
  exists b, w2. by rewrite (M_bind_run _ _ _ _ _ E).
Qed.

Lemma total_ret {W A} (a : A) : total (mret a : M W A).
Proof. by apply returning_ret. Qed.

Lemma total_bind {W A B} (c : M W A) (k : A -> M W B) : total c -> (forall a, total (k a)) -> total (c ≫= k).
Proof. intros Hc Hk. eapply returning_bind; [exact Hc|auto]. Qed.

Lemma total_lift {W A} (c : outcome A) : returns c -> total (lift c : M W A).
Proof. intros (a & ->) w. by exists a, w. Qed.

Create HintDb go_total.
#[export] Hint Resolve total_ret total_bind total_lift : go_total.

(** Totality of straight-line code, by its structure. *)
Ltac go_total := repeat first
  [ solve [eauto 2 with go_total]
  | apply total_bind; [|intros ?]
  | match goal with |- returning _ (match ?x with _ => _ end) => destruct x end ].

(** ** Total correctness *)

(** From the world [w], [c] returns, and its result and the world it leaves satisfy [P]. *)
Definition reaches {W A} (c : M W A) (w : W) (P : A -> W -> Prop) : Prop :=
  exists a w', c w = Done (a, w') /\ P a w'.

Lemma reaches_ret {W A} (a : A) (w : W) P : P a w -> reaches (mret a) w P.
Proof. intros Hp. by exists a, w. Qed.

(** A run that can be evaluated. *)
Lemma reaches_run {W A} (c : M W A) w (P : A -> W -> Prop) :
  match c w with Done (a, w') => P a w' | Panic _ => False end -> reaches c w P.
Proof. unfold reaches. destruct (c w) as [[a w']|]; [eauto|done]. Qed.

Lemma reaches_bind {W A B} (c : M W A) (k : A -> M W B) w P :
  reaches c w (fun a w' => reaches (k a) w' P) -> reaches (c ≫= k) w P.
Proof.
  intros (a & w1 & E & b & w2 & E2 & Hp). exists b, w2. by rewrite (M_bind_run _ _ _ _ _ E).
Qed.

Lemma reaches_mono {W A} (c : M W A) w (P Q : A -> W -> Prop) :
  reaches c w P -> (forall a w', P a w' -> Q a w') -> reaches c w Q.
Proof. intros (a & w' & E & Hp) Hpq. exists a, w'. auto. Qed.

Lemma reaches_then {W A B} (c : M W A) (k : A -> M W B) w P Q :
  reaches c w P -> (forall a w', P a w' -> reaches (k a) w' Q) -> reaches (c ≫= k) w Q.
Proof. intros Hc Hk. by apply reaches_bind, (reaches_mono _ _ _ _ Hc). Qed.

Lemma outcome_mapM_Forall2 {A B} (f : A -> outcome B) (P : A -> B -> Prop) (l : list A) :
  (forall x, x ∈ l -> exists y, f x = Done y /\ P x y) ->
  exists ys, mapM f l = Done ys /\ Forall2 P l ys.
Proof.
  induction l as [|x l IH]; intros Hl; [by exists []|].
  destruct (Hl x) as (y & Ey & Hy); [set_solver|].
  destruct IH as (ys & Eys & Hys); [set_solver|].
  exists (y :: ys). split; [|by constructor].
  simpl. rewrite Ey. simpl. by rewrite Eys.
Qed.

Lemma outcome_mapM_inv {A B} (f : A -> outcome B) (l : list A) ys :
  mapM f l = Done ys -> Forall2 (fun x y => f x = Done y) l ys.
Proof.
  revert ys. induction l as [|x l IH]; intros ys E.
  { change (Done (@nil B) = Done ys) in E. by simplify_eq. }
  simpl in E. destruct (f x) as [y|] eqn:Ey; [|done].
  simpl in E. destruct (mapM f l) as [ys'|] eqn:El; [|done].
  change (Done (y :: ys') = Done ys) in E. simplify_eq. constructor; auto.
Qed.

(** Collecting the results of a loop whose body returns a list. *)
Lemma outcome_collect {A B} (f : A -> outcome (list B)) (Q : A -> B -> Prop) (l : list A) :
  (forall x, x ∈ l -> exists ys, f x = Done ys /\ forall s, s ∈ ys <-> Q x s) ->
  exists zs, mjoin <$> mapM f l = Done zs /\ forall s, s ∈ zs <-> exists x, x ∈ l /\ Q x s.
Proof.
  intros Hl. apply outcome_mapM_Forall2 in Hl as (yss & E & Hys).
  exists (mjoin yss). rewrite E. split; [done|]. intros s.
  rewrite list_elem_of_join. split.
  - intros (ys & Hs & Hin). apply list_elem_of_lookup in Hin as (i & Hi).
    destruct (Forall2_lookup_r _ _ _ _ _ Hys Hi) as (x & Hx & Hx').
    exists x. split; [by eapply list_elem_of_lookup_2|]. by apply Hx'.
  - intros (x & Hx & HQ). apply list_elem_of_lookup in Hx as (i & Hi).
    destruct (Forall2_lookup_l _ _ _ _ _ Hys Hi) as (ys & Hy & Hy').
    exists ys. split; [by apply Hy'|]. by eapply list_elem_of_lookup_2.
Qed.

(** ** Errors

    A Go [error] is observed through its [Error()] text and, for errors of the
    Kubernetes API machinery, through the status reason it carries. *)
Record error := mkError { Error : string; StatusReason : string }.

#[export] Instance error_eq_dec : EqDecision error.
Proof. solve_decision. Defined.

(** [errors.New msg] *)
Definition newError (msg : string) : error := {| Error := msg; StatusReason := "" |}.

(** [errors.Wrap(err, msg)]: the text is prefixed, the cause is kept. *)
Definition wrapError (msg : string) (err : error) : error :=
  {| Error := msg +:+ ": " +:+ Error err; StatusReason := StatusReason err |}.

(** ** Maps

    [gomap A] is a Go [map[string]A]: [None] is the nil map.  Reading a nil map
    finds nothing, writing to it panics, deleting from it does nothing. *)
Notation gomap A := (option (gmap string A)).

Definition gm {A} (m : gomap A) : gmap string A := default ∅ m.
Definition mget {A} (m : gomap A) (k : string) : option A := gm m !! k.
Definition mset {A} (m : gomap A) (k : string) (v : A) : outcome (gomap A) :=
  match m with
  | Some g => Done (Some (<[k := v]> g))
  | None => Panic "assignment to entry in nil map"
  end.
Definition mdelete {A} (m : gomap A) (k : string) : gomap A := delete k <$> m.

(** Go iterates over a map in an unspecified order.  [range] is any such order:
    the theorems hold for every instance of the class. *)
Class MapRange := {
  range : forall {A : Type}, gmap string A -> list (string * A);
  range_perm : forall {A : Type} (m : gmap string A), range m ≡ₚ map_to_list m
}.

(** The order of [map_to_list], used where a definition is evaluated. *)
Definition canonical_range : MapRange :=
  {| range := fun A m => map_to_list m; range_perm := fun A m => reflexivity _ |}.

Lemma range_Forall `{MapRange} {A} (P : string -> A -> Prop) (m : gmap string A) :
  Forall (fun kv => P kv.1 kv.2) (range m) <-> map_Forall P m.
Proof.
  rewrite range_perm, map_Forall_to_list. apply Forall_iff. by intros [k x].
Qed.

Lemma range_elem `{MapRange} {A} (m : gmap string A) k x :
  (k, x) ∈ range m <-> m !! k = Some x.
Proof. by rewrite range_perm, elem_of_map_to_list. Qed.

Lemma range_NoDup `{MapRange} {A} (m : gmap string A) : NoDup (range m).*1.
Proof. rewrite range_perm. apply NoDup_fst_map_to_list. Qed.

Lemma range_empty `{MapRange} {A} : range (∅ : gmap string A) = [].
Proof. apply Permutation_nil_r. by rewrite range_perm, map_to_list_empty. Qed.

Lemma range_singleton `{MapRange} {A} (k : string) (x : A) :
  range ({[ k := x ]} : gmap string A) = [(k, x)].
Proof. apply Permutation_singleton_r. by rewrite range_perm, map_to_list_singleton. Qed.

(** A fold of insertions, at a key. *)
Lemma foldl_insert_lookup {A B} (f : A -> string) (g : A -> B) l (m : gmap string B) k b :
  foldl (fun m a => <[f a := g a]> m) m l !! k = Some b ->
  (exists a, a ∈ l /\ f a = k /\ g a = b) \/ (m !! k = Some b /\ forall a, a ∈ l -> f a <> k).
Proof.
  revert m. induction l as [|a l IH]; intros m; simpl; [right; set_solver|].
  intros [(a' & Ha & ?)|[Hm Hl]]%IH; [left; exists a'; set_solver|].
  apply lookup_insert_Some in Hm as [[<- <-]|[Hne Hm]]; [left; exists a; set_solver|].
  right. split; [done|]. intros a' [->|Ha]%elem_of_cons; auto.
Qed.

Lemma foldl_insert_present {A B} (f : A -> string) (g : A -> B) l (m : gmap string B) a :
  a ∈ l -> is_Some (foldl (fun m a => <[f a := g a]> m) m l !! f a).
Proof.
  assert (Hkeep : forall l (m : gmap string B) k, is_Some (m !! k) -> is_Some (foldl (fun m a => <[f a := g a]> m) m l !! k)).
  { clear. induction l as [|b l IH]; intros m k Hk; [done|]. simpl. apply IH, lookup_insert_is_Some'. by right. }
  revert m. induction l as [|b l IH]; intros m; [set_solver|]. intros [->|Ha]%elem_of_cons; simpl; [|auto].
  apply Hkeep. rewrite lookup_insert_eq. eauto.
Qed.

(** ** Record update: [r <| field := v |>] *)
Definition Setter {R E : Type} (proj : R -> E) : Type := (E -> E) -> R -> R.
Existing Class Setter.
Definition set {R E : Type} (proj : R -> E) {S : Setter proj} : (E -> E) -> R -> R := S.
Arguments set {R E} proj {S} _ _ /.

Ltac record_eta R :=
  let t := constr:(ltac:(let r := fresh "r" in
                         intro r; unshelve eexists;
                         [ econstructor; destruct r | destruct r; reflexivity ])
                   : forall x : R, { s : R | s = x }) in
  lazymatch t with fun x => exist _ (@?e x) _ => e end.

Ltac head_of t := lazymatch t with ?f _ => head_of f | _ => t end.

Ltac derive_setter :=
  lazymatch goal with
  | |- @Setter ?R ?E ?proj =>
    let e := record_eta R in
    let h := head_of proj in
    exact (fun (upd : E -> E) (r : R) => ltac:(
      let body := eval cbv beta in (e r) in
      let field := eval cbv beta delta [h] in (proj r) in
      match body with
      | context B [?x] => constr_eq x field; let b := context B [upd x] in exact b
      end))
  end.
#[export] Hint Extern 1 (@Setter _ _ _) => derive_setter : typeclass_instances.

Declare Scope go_scope.
Delimit Scope go_scope with go.
Notation "r <| f := v |>" := (set f (fun _ => v) r)
  (at level 1, left associativity, f at next level, v at level 99,
   format "r  <| f  :=  v |>") : go_scope.
Notation "x =? y" := (String.eqb x y) : go_scope.
Notation "x <>? y" := (negb (String.eqb x y)) (at level 70) : go_scope.
Open Scope go_scope.

(** ** Unstructured values

    [interface{}] values as they come out of [encoding/json]: object members are
    a Go [map[string]interface{}], a number is kept as its literal. *)
Inductive value : Type :=
| VNull
| VBool (b : bool)
| VNumber (literal : string)
| VString (s : string)
| VList (l : list value)
| VMap (m : gmap string value).

Section value_ind.
Context (P : value -> Prop)
  (Hnull : P VNull) (Hbool : forall b, P (VBool b))
  (Hnum : forall s, P (VNumber s)) (Hstr : forall s, P (VString s))
  (Hlist : forall l, Forall P l -> P (VList l))
  (Hmap : forall m, map_Forall (fun _ => P) m -> P (VMap m)).

Fixpoint value_size (v : value) : nat :=
  match v with
  | VList l => S (sum_list_with value_size l)
  | VMap m => S (map_fold (fun _ x n => value_size x + n) 0 m)
  | _ => 1
  end.

Lemma value_size_elem l x : x ∈ l -> value_size x < value_size (VList l).
Proof.
  induction 1 as [|y x l _ IH]; simpl in *; lia.
Qed.

Lemma value_size_lookup m k x : m !! k = Some x -> value_size x < value_size (VMap m).
Proof.
  intros Hk. simpl. rewrite (map_fold_delete_L _ _ k x m); [lia | lia | done].
Qed.

Lemma value_ind' v : P v.
Proof using Hnull Hbool Hnum Hstr Hlist Hmap.
  remember (value_size v) as n eqn:Hn. revert v Hn.
  induction (lt_wf n) as [n _ IH]. intros v ->.
  destruct v as [| | | |l|m]; auto.
  - apply Hlist, list.Forall_forall. intros x Hx. eapply IH; [|reflexivity].
    apply value_size_elem; exact Hx.
  - apply Hmap. intros k x Hx. eapply IH; [|reflexivity]. eapply value_size_lookup; exact Hx.
Qed.
End value_ind.

(** Equality of values is decided on an encoding as a tree of strings. *)
Fixpoint value_tree (v : value) : gen_tree string :=
  match v with
  | VNull => GenNode 0 []
  | VBool b => GenNode 1 [GenLeaf (if b then "true" else "false")]
  | VNumber s => GenNode 2 [GenLeaf s]
  | VString s => GenNode 3 [GenLeaf s]
  | VList l => GenNode 4 (value_tree <$> l)
  | VMap m => GenNode 5 (map_fold (fun k x acc => GenLeaf k :: value_tree x :: acc) [] m)
  end.

Lemma value_tree_list l1 l2 :
  Forall (fun v => forall w, value_tree v = value_tree w -> v = w) l1 ->
  value_tree <$> l1 = value_tree <$> l2 -> l1 = l2.
Proof.
  intros Hl. revert l2.
  induction Hl as [|v l1 Hv _ IH]; intros [|w l2] E; simplify_eq/=; f_equal; auto.
Qed.

Lemma value_tree_entries (l1 l2 : list (string * value)) :
  Forall (fun kv => forall w, value_tree kv.2 = value_tree w -> kv.2 = w) l1 ->
  foldr (fun kv acc => GenLeaf kv.1 :: value_tree kv.2 :: acc) [] l1 =
  foldr (fun kv acc => GenLeaf kv.1 :: value_tree kv.2 :: acc) [] l2 -> l1 = l2.
Proof.
  intros Hl. revert l2.
  induction Hl as [|[k v] l1 Hv _ IH]; intros [|[k' w] l2] E; simplify_eq/=; [done|].
  f_equal; [f_equal|]; auto.
Qed.

#[export] Instance value_tree_inj : Inj (=) (=) value_tree.
Proof.
  intros v. induction v as [|b|s|s|l Hl|m Hm] using value_ind'; intros w E;
    destruct w as [|b'| | | |m']; simplify_eq/=; try done.
  - destruct b, b'; done.
  - f_equal. by apply value_tree_list.
  - f_equal. apply map_to_list_inj.
    rewrite !map_fold_foldr in E.
    rewrite (value_tree_entries (map_to_list m) (map_to_list m')); [done| |].
    + apply map_Forall_to_list in Hm. eapply list.Forall_impl; [exact Hm|]. by intros [k x].
    + etrans; [|etrans; [exact E|]]; apply foldr_ext; try done; by intros [].
Qed.

#[export] Instance value_eq_dec : EqDecision value := fun v w =>
  match decide (value_tree v = value_tree w) with
  | left E => left (inj value_tree v w E)
  | right N => right (fun H => N (f_equal value_tree H))
  end.
