(* ===== verification/GoStrings.v ===== *)
(** * The parts of Go's [strings] and [strconv] packages the program uses

    A Go string is a byte string; [String.string] is a list of bytes.  Every
    separator the program splits or joins at is a single byte. *)
From stdpp Require Import base strings list numbers.
From Stdlib Require Import Ascii.
From S2P Require Import Prelude.

(** [strings.Split(s, sep)] for a one-byte separator: the accumulated piece is
    closed at each separator, so there is always at least one piece. *)
Fixpoint Split (s : string) (sep : ascii) : list string :=
  match s with
  | EmptyString => [EmptyString]
  | String c s' =>
      if Ascii.eqb c sep then EmptyString :: Split s' sep
      else match Split s' sep with
           | p :: ps => String c p :: ps
           | [] => [String c EmptyString]
           end
  end.

(** [strings.SplitN(s, sep, 2)]: at most one cut, at the first separator. *)
Fixpoint SplitN2 (s : string) (sep : ascii) : list string :=
  match s with
  | EmptyString => [EmptyString]
  | String c s' =>
      if Ascii.eqb c sep then [EmptyString; s']
      else match SplitN2 s' sep with
           | p :: ps => String c p :: ps
           | [] => [String c EmptyString]
           end
  end.

(** [strings.Join(elems, sep)] *)
Fixpoint Join (elems : list string) (sep : string) : string :=
  match elems with
  | [] => ""
  | [e] => e
  | e :: es => e +:+ sep +:+ Join es sep
  end.

(** [strings.ReplaceAll(s, old, new)] for one-byte [old] and [new]. *)
Fixpoint ReplaceAll (s : string) (old new : ascii) : string :=
  match s with
  | EmptyString => EmptyString
  | String c s' =>
      String (if Ascii.eqb c old then new else c) (ReplaceAll s' old new)
  end.

(** [strings.HasPrefix(s, prefix)] *)
Definition HasPrefix (s prefix : string) : bool := String.prefix prefix s.

(** [strings.HasSuffix(s, suffix)] *)
Definition HasSuffix (s suffix : string) : bool :=
  let n := String.length s in
  let k := String.length suffix in
  Nat.leb k n && String.eqb (String.substring (n - k) k s) suffix.

(** [strings.EqualFold(s, t)] for an [s] of ASCII letters other than k and s, which are
    the only ones that have a case variant outside of ASCII. *)
Definition lower (c : ascii) : ascii :=
  let n := Ascii.nat_of_ascii c in
  if Nat.leb 65 n && Nat.leb n 90 then Ascii.ascii_of_nat (n + 32) else c.
Fixpoint ToLower (s : string) : string :=
  match s with EmptyString => EmptyString | String c s' => String (lower c) (ToLower s') end.
Definition EqualFold (s t : string) : bool := String.eqb (ToLower s) (ToLower t).

(** [s[:n]] and [s[n:]] of a slice expression within bounds. *)
Definition str_take (n : nat) (s : string) : string := String.substring 0 n s.
Fixpoint str_drop (n : nat) (s : string) : string :=
  match n, s with
  | 0, _ => s
  | S n', String _ s' => str_drop n' s'
  | S _, EmptyString => EmptyString
  end.

(** What follows the last slash: [s[strings.LastIndex(s, "/")+1:]]. *)
Fixpoint afterLastSlash (s : string) : string :=
  match s with
  | EmptyString => EmptyString
  | String c s' =>
      if existsb (Ascii.eqb "/") (String.list_ascii_of_string s') then afterLastSlash s'
      else if Ascii.eqb c "/" then s' else s
  end.

(** [strings.TrimSpace] on the ASCII white space the mounted files contain. *)
Definition is_space (c : ascii) : bool :=
  let n := nat_of_ascii c in
  (Nat.eqb n 32) || ((Nat.leb 9 n) && (Nat.leb n 13)).
Fixpoint TrimLeftSpace (s : string) : string :=
  match s with
  | String c s' => if is_space c then TrimLeftSpace s' else s
  | EmptyString => EmptyString
  end.
Fixpoint TrimRightSpace (s : string) : string :=
  match s with
  | EmptyString => EmptyString
  | String c s' =>
      match TrimRightSpace s' with
      | EmptyString => if is_space c then EmptyString else String c EmptyString
      | t => String c t
      end
  end.
Definition TrimSpace (s : string) : string := TrimRightSpace (TrimLeftSpace s).

(** [strconv.Atoi]: an optional sign, at least one decimal digit, nothing else,
    and a value in the range of a 64-bit [int]. *)
Definition digit (c : ascii) : option Z :=
  let n := nat_of_ascii c in
  if (Nat.leb 48 n) && (Nat.leb n 57) then Some (Z.of_nat (n - 48)) else None.
Fixpoint digits (s : string) (acc : Z) : option Z :=
  match s with
  | EmptyString => Some acc
  | String c s' => match digit c with Some d => digits s' (10 * acc + d)%Z | None => None end
  end.
Definition unsigned (s : string) : option Z :=
  match s with EmptyString => None | _ => digits s 0%Z end.
Definition in_int64 (z : Z) : bool := (Z.leb (- 2 ^ 63) z) && (Z.ltb z (2 ^ 63)).
Definition Atoi (s : string) : option Z :=
  let parsed :=
    match s with
    | String "-" s' => Z.opp <$> unsigned s'
    | String "+" s' => unsigned s'
    | _ => unsigned s
    end in
  match parsed with
  | Some z => if in_int64 z then Some z else None
  | None => None
  end.

(** ** Lemmas *)

Lemma Split_nonempty s sep : Split s sep <> [].
Proof. destruct s as [|c s]; simpl; [done|]. destruct (Ascii.eqb c sep); [done|]. by destruct (Split s sep). Qed.

(** Splitting loses nothing: joining the pieces with the separator gives the
    string back. *)
Lemma Join_Split s sep : Join (Split s sep) (String sep EmptyString) = s.
Proof.
  induction s as [|c s IH]; [done|]. simpl.
  pose proof (Split_nonempty s sep) as Hne.
  destruct (Ascii.eqb_spec c sep) as [->|_]; destruct (Split s sep) as [|p [|q ps]]; try done;
    simpl in *; by rewrite <- IH.
Qed.

Lemma str_app_cons c (s t : string) : String c s +:+ t = String c (s +:+ t).
Proof. done. Qed.

Lemma str_length_app (s t : string) : String.length (s +:+ t) = String.length s + String.length t.
Proof. induction s; simpl; auto. Qed.

Lemma str_take_length n s : n <= String.length s -> String.length (str_take n s) = n.
Proof.
  unfold str_take. revert n. induction s as [|c s IH]; intros [|n]; simpl; try lia.
  intros. f_equal. apply IH. lia.
Qed.

Lemma str_take_drop n s : str_take n s +:+ str_drop n s = s.
Proof.
  unfold str_take. revert n. induction s as [|c s IH]; intros [|n]; simpl; try done.
  rewrite str_app_cons. by rewrite IH.
Qed.

Lemma ReplaceAll_length s a b : String.length (ReplaceAll s a b) = String.length s.
Proof. induction s; simpl; auto. Qed.

Lemma str_app_inj_l (s t u : string) : s +:+ t = s +:+ u -> t = u.
Proof. induction s; [done|]. rewrite !str_app_cons. intros [=]. auto. Qed.

Lemma str_app_assoc (s t u : string) : (s +:+ t) +:+ u = s +:+ (t +:+ u).
Proof. induction s; [done|]. rewrite !str_app_cons. by f_equal. Qed.

Lemma str_app_nil_r (s : string) : s +:+ "" = s.
Proof. induction s; [done|]. rewrite !str_app_cons. by f_equal. Qed.

#[export] Hint Rewrite str_length_app ReplaceAll_length str_app_assoc str_app_nil_r : go_str.
