(* ===== verification/Base64.v ===== *)
(** * The standard base64 encoding

    [base64.StdEncoding] of Go, which the JSON encoder uses for byte slices and the REST
    clients for credentials: the encoder, a decoder of what it writes, and the round trip. *)
From stdpp Require Import base strings list numbers.
From Stdlib Require Import Ascii.
From S2P Require Import Prelude.

(** [base64.StdEncoding.EncodeToString] *)
Definition sextet (n : nat) : ascii :=
  default "="%char (String.get n "ABCDEFGHIJKLMNOPQRSTUVWXYZabcdefghijklmnopqrstuvwxyz0123456789+/").
Definition sextets (a b c : nat) : nat * nat * nat * nat :=
  (a / 4, a mod 4 * 16 + b / 16, b mod 16 * 4 + c / 64, c mod 64).
Fixpoint base64 (s : string) : string :=
  match s with
  | EmptyString => ""
  | String a EmptyString =>
      let '(w, x, _, _) := sextets (nat_of_ascii a) 0 0 in String (sextet w) (String (sextet x) "==")
  | String a (String b EmptyString) =>
      let '(w, x, y, _) := sextets (nat_of_ascii a) (nat_of_ascii b) 0 in
      String (sextet w) (String (sextet x) (String (sextet y) "="))
  | String a (String b (String c s')) =>
      let '(w, x, y, z) := sextets (nat_of_ascii a) (nat_of_ascii b) (nat_of_ascii c) in
      String (sextet w) (String (sextet x) (String (sextet y) (String (sextet z) (base64 s'))))
  end.

(** [base64.StdEncoding.DecodeString] of a padded text. *)
Definition alphabet : list nat := seq 0 64.
Definition unsextet (c : ascii) : option nat := list.head (filter (fun n => sextet n = c) alphabet).
Definition unsextets (w x y z : nat) : nat * nat * nat :=
  (w * 4 + x / 16, x mod 16 * 16 + y / 4, y mod 4 * 64 + z).
Fixpoint DecodeString (s : string) : option string :=
  match s with
  | EmptyString => Some ""
  | String cw (String cx (String cy (String cz s'))) =>
      w ← unsextet cw; x ← unsextet cx;
      if Ascii.eqb cy "=" then Some (String (ascii_of_nat (unsextets w x 0 0).1.1) "")
      else
        y ← unsextet cy;
        let '(a, b, _) := unsextets w x y 0 in
        if Ascii.eqb cz "=" then Some (String (ascii_of_nat a) (String (ascii_of_nat b) ""))
        else
          z ← unsextet cz; rest ← DecodeString s';
          let '(a, b, c) := unsextets w x y z in
          Some (String (ascii_of_nat a) (String (ascii_of_nat b) (String (ascii_of_nat c) rest)))
  | _ => None
  end.

Lemma unsextet_sextet n : n < 64 -> unsextet (sextet n) = Some n /\ Ascii.eqb (sextet n) "=" = false.
Proof.
  intros Hn. assert (forallb (fun n => bool_decide (unsextet (sextet n) = Some n) && negb (Ascii.eqb (sextet n) "="))
    alphabet = true) as Hall by (vm_compute; reflexivity).
  rewrite forallb_forall in Hall. specialize (Hall n). rewrite <- list_elem_of_In in Hall.
  destruct (andb_prop _ _ (Hall ltac:(apply elem_of_seq; lia))) as [E1%bool_decide_eq_true E2%negb_true_iff]. done.
Qed.

Lemma sextets_bounds a b c : a < 256 -> b < 256 -> c < 256 ->
  let '(w, x, y, z) := sextets a b c in w < 64 /\ x < 64 /\ y < 64 /\ z < 64.
Proof.
  unfold sextets. intros Ha Hb Hc.
  assert (a / 4 < 64 /\ b / 16 < 16 /\ c / 64 < 4) as (? & ? & ?)
    by (repeat split; apply Nat.Div0.div_lt_upper_bound; lia).
  pose proof (Nat.mod_upper_bound a 4). pose proof (Nat.mod_upper_bound b 16). pose proof (Nat.mod_upper_bound c 64). lia.
Qed.

Lemma unsextets_sextets a b c : a < 256 -> b < 256 -> c < 256 ->
  let '(w, x, y, z) := sextets a b c in unsextets w x y z = (a, b, c).
Proof.
  unfold sextets, unsextets. intros Ha Hb Hc.
  pose proof (Nat.div_mod_eq a 4). pose proof (Nat.div_mod_eq b 16). pose proof (Nat.div_mod_eq c 64). f_equal; [f_equal|].
  - rewrite Nat.div_add_l by lia. rewrite (Nat.div_small (b / 16)) by (apply Nat.Div0.div_lt_upper_bound; lia). lia.
  - rewrite (Nat.add_comm (a mod 4 * 16)), Nat.Div0.mod_add, (Nat.mod_small (b / 16))
      by (apply Nat.Div0.div_lt_upper_bound; lia).
    rewrite Nat.div_add_l by lia. rewrite (Nat.div_small (c / 64)) by (apply Nat.Div0.div_lt_upper_bound; lia). lia.
  - rewrite (Nat.add_comm (b mod 16 * 4)), Nat.Div0.mod_add, (Nat.mod_small (c / 64))
      by (apply Nat.Div0.div_lt_upper_bound; lia). lia.
Qed.

(** Every text is read back from its encoding. *)
Theorem base64_roundtrip s : DecodeString (base64 s) = Some s.
Proof.
  induction s as [s IH] using (induction_ltof1 _ String.length). unfold ltof in IH.
  assert (forall a, nat_of_ascii a < 256) as Hb by apply nat_ascii_bounded.
  destruct s as [|a [|b [|c s]]]; [done|..]; cbn [base64].
  - pose proof (sextets_bounds (nat_of_ascii a) 0 0 (Hb a) ltac:(lia) ltac:(lia)) as Hs.
    pose proof (unsextets_sextets (nat_of_ascii a) 0 0 (Hb a) ltac:(lia) ltac:(lia)) as Hu.
    destruct (sextets _ _ _) as [[[w x] y] z] eqn:E. destruct Hs as (Hw & Hx & _ & _).
    assert (y = 0 /\ z = 0) as [-> ->] by (unfold sextets in E; by injection E as _ _ <- <-).
    cbn [DecodeString]. rewrite (proj1 (unsextet_sextet w Hw)), (proj1 (unsextet_sextet x Hx)).
    cbn [mbind option_bind Ascii.eqb Bool.eqb]. rewrite Hu. simpl. by rewrite ascii_nat_embedding.
  - pose proof (sextets_bounds (nat_of_ascii a) (nat_of_ascii b) 0 (Hb a) (Hb b) ltac:(lia)) as Hs.
    pose proof (unsextets_sextets (nat_of_ascii a) (nat_of_ascii b) 0 (Hb a) (Hb b) ltac:(lia)) as Hu.
    destruct (sextets _ _ _) as [[[w x] y] z] eqn:E. destruct Hs as (Hw & Hx & Hy & _).
    assert (z = 0) as -> by (unfold sextets in E; by injection E as _ _ _ <-).
    destruct (unsextet_sextet y Hy) as [Ey Ny].
    cbn [DecodeString]. rewrite (proj1 (unsextet_sextet w Hw)), (proj1 (unsextet_sextet x Hx)).
    cbn [mbind option_bind]. rewrite Ny, Ey. cbn [mbind option_bind].
    rewrite Hu. by rewrite !ascii_nat_embedding.
  - pose proof (sextets_bounds (nat_of_ascii a) (nat_of_ascii b) (nat_of_ascii c) (Hb a) (Hb b) (Hb c)) as Hs.
    pose proof (unsextets_sextets (nat_of_ascii a) (nat_of_ascii b) (nat_of_ascii c) (Hb a) (Hb b) (Hb c)) as Hu.
    destruct (sextets _ _ _) as [[[w x] y] z] eqn:E. destruct Hs as (Hw & Hx & Hy & Hz).
    destruct (unsextet_sextet y Hy) as [Ey Ny], (unsextet_sextet z Hz) as [Ez Nz].
    cbn [DecodeString]. rewrite (proj1 (unsextet_sextet w Hw)), (proj1 (unsextet_sextet x Hx)).
    cbn [mbind option_bind]. rewrite Ny, Ey. cbn [mbind option_bind].
    destruct (unsextets w x y 0) as [[a0 b0] c0]. rewrite Nz, Ez. cbn [mbind option_bind]. rewrite (IH s) by (simpl; lia). cbn [mbind option_bind].
    rewrite Hu. by rewrite !ascii_nat_embedding.
Qed.
