(* ===== verification/GoInt.v ===== *)
(** * Integers

    64-bit [int] arithmetic and [strconv.Itoa]. *)
From stdpp Require Import base strings list numbers.
From Stdlib Require Import Ascii.
From S2P Require Import Prelude GoStrings.
Local Open Scope Z_scope.

(** The value of a 64-bit signed integer: overflow wraps around. *)
Definition int64 (z : Z) : Z := (z + 2 ^ 63) mod 2 ^ 64 - 2 ^ 63.

(** Decimal digits, least significant first into an accumulator; nineteen digits are
    enough for a 64-bit integer. *)
Definition digit_char (d : Z) : ascii := ascii_of_nat (Z.to_nat (48 + d)).
Fixpoint decimal (fuel : nat) (n : Z) (acc : string) : string :=
  match fuel with
  | O => acc
  | S fuel =>
      if n <? 10 then String (digit_char n) acc
      else decimal fuel (n / 10) (String (digit_char (n mod 10)) acc)
  end.

(** [strconv.Itoa] *)
Definition Itoa (z : Z) : string :=
  if z <? 0 then String "-" (decimal 19 (- z) "") else decimal 19 z "".

(** ** Lemmas *)

Lemma int64_range z : - 2 ^ 63 <= int64 z < 2 ^ 63.
Proof. unfold int64. pose proof (Z.mod_pos_bound (z + 2 ^ 63) (2 ^ 64)). lia. Qed.

Lemma int64_small z : - 2 ^ 63 <= z < 2 ^ 63 -> int64 z = z.
Proof. intros Hz. unfold int64. rewrite Z.mod_small by lia. lia. Qed.

Lemma in_int64_spec z : in_int64 z = true <-> - 2 ^ 63 <= z < 2 ^ 63.
Proof. unfold in_int64. lia. Qed.

Lemma digit_digit_char d : 0 <= d < 10 -> digit (digit_char d) = Some d.
Proof.
  intros Hd. assert (d ∈ (seqZ 0 10)) as Hin by (apply elem_of_seqZ; lia).
  assert (Forall (fun d => digit (digit_char d) = Some d) (seqZ 0 10)) as HF by (by repeat constructor).
  rewrite list.Forall_forall in HF. auto.
Qed.

Lemma digits_decimal fuel n acc :
  0 <= n < 10 ^ Z.of_nat fuel -> digits (decimal fuel n acc) 0 = digits acc n.
Proof.
  revert n acc. induction fuel as [|fuel IH]; intros n acc Hn; [simpl in *; f_equal; lia|].
  cbn [decimal]. destruct (Z.ltb_spec n 10) as [Hlt|Hge].
  - cbn [digits]. rewrite digit_digit_char by lia. f_equal; lia.
  - rewrite IH.
    + cbn [digits]. rewrite digit_digit_char by (apply Z.mod_pos_bound; lia). f_equal.
      pose proof (Z.div_mod n 10). lia.
    + rewrite Nat2Z.inj_succ, Z.pow_succ_r in Hn by lia. split; [apply Z.div_pos; lia|].
      apply Z.div_lt_upper_bound; lia.
Qed.

(** A number starts with a digit. *)
Lemma decimal_first fuel n acc :
  0 <= n < 10 ^ Z.of_nat fuel -> (0 < fuel)%nat -> exists d s, decimal fuel n acc = String (digit_char d) s /\ 0 <= d < 10.
Proof.
  revert n acc. induction fuel as [|fuel IH]; intros n acc Hn Hf; [lia|]. cbn [decimal].
  destruct (Z.ltb_spec n 10) as [Hlt|Hge]; [exists n, acc; split; [done|lia]|].
  rewrite Nat2Z.inj_succ, Z.pow_succ_r in Hn by lia. apply IH.
  - split; [apply Z.div_pos; lia|]. apply Z.div_lt_upper_bound; lia.
  - destruct fuel; [simpl in Hn; lia|lia].
Qed.

Lemma digit_char_plain d : 0 <= d < 10 -> digit_char d <> "-"%char /\ digit_char d <> "+"%char.
Proof.
  intros Hd. assert (d ∈ (seqZ 0 10)) as Hin by (apply elem_of_seqZ; lia).
  assert (Forall (fun d => digit_char d <> "-"%char /\ digit_char d <> "+"%char) (seqZ 0 10)) as HF
    by (by repeat constructor).
  rewrite list.Forall_forall in HF. auto.
Qed.

Lemma Atoi_unsigned c s : c <> "-"%char -> c <> "+"%char ->
  Atoi (String c s) = match digits (String c s) 0 with Some z => if in_int64 z then Some z else None | None => None end.
Proof.
  intros Hm Hp. unfold Atoi, unsigned. destruct c as [[] [] [] [] [] [] [] []]; try done.
Qed.

(** Printing a natural number and reading it gives it back. *)
Lemma Atoi_Itoa z : 0 <= z < 2 ^ 63 -> Atoi (Itoa z) = Some z.
Proof.
  intros Hz. unfold Itoa. destruct (Z.ltb_spec z 0) as [|_]; [lia|].
  assert (Hf : 0 <= z < 10 ^ Z.of_nat 19) by (split; [lia|]; transitivity (2 ^ 63); [lia|reflexivity]).
  destruct (decimal_first 19 z "" Hf ltac:(lia)) as (d & s & E & Hd). rewrite E.
  destruct (digit_char_plain d Hd). rewrite Atoi_unsigned by done. rewrite <- E, digits_decimal by done. simpl.
  assert (in_int64 z = true) as -> by (apply in_int64_spec; lia). done.
Qed.

Lemma Atoi_range s z : Atoi s = Some z -> - 2 ^ 63 <= z < 2 ^ 63.
Proof.
  unfold Atoi. destruct (match s with String _ _ => _ | _ => _ end) as [z'|]; [|done].
  destruct (in_int64 z') eqn:E; [|done]. intros [= ->]. by apply in_int64_spec.
Qed.
