(* ===== verification/Sha512.v ===== *)
(** * SHA-512 and hexadecimal encoding

    [crypto/sha512.Sum512] and [encoding/hex.EncodeToString] of Go's standard
    library (FIPS 180-4), which [utils.Hash] is built on.  Words are 64-bit
    integers in [Z], additions wrap around. *)
From stdpp Require Import base strings list numbers.
From Stdlib Require Import Ascii.
From S2P Require Import Prelude GoStrings.
Local Open Scope Z_scope.

Module Sha512.

Definition w64 (x : Z) : Z := x mod 2 ^ 64.
Definition add64 (x y : Z) : Z := w64 (x + y).
Definition rotr (n x : Z) : Z := Z.lor (Z.shiftr x n) (w64 (Z.shiftl x (64 - n))).
Definition not64 (x : Z) : Z := Z.lxor x (2 ^ 64 - 1).

Definition Ch (x y z : Z) : Z := Z.lxor (Z.land x y) (Z.land (not64 x) z).
Definition Maj (x y z : Z) : Z := Z.lxor (Z.lxor (Z.land x y) (Z.land x z)) (Z.land y z).
Definition Sigma0 (x : Z) : Z := Z.lxor (Z.lxor (rotr 28 x) (rotr 34 x)) (rotr 39 x).
Definition Sigma1 (x : Z) : Z := Z.lxor (Z.lxor (rotr 14 x) (rotr 18 x)) (rotr 41 x).
Definition sigma0 (x : Z) : Z := Z.lxor (Z.lxor (rotr 1 x) (rotr 8 x)) (Z.shiftr x 7).
Definition sigma1 (x : Z) : Z := Z.lxor (Z.lxor (rotr 19 x) (rotr 61 x)) (Z.shiftr x 6).

(** The round constants: the first 64 bits of the fractional parts of the cube
    roots of the first eighty primes. *)
Definition K : list Z :=
  [0x428a2f98d728ae22; 0x7137449123ef65cd; 0xb5c0fbcfec4d3b2f; 0xe9b5dba58189dbbc;
   0x3956c25bf348b538; 0x59f111f1b605d019; 0x923f82a4af194f9b; 0xab1c5ed5da6d8118;
   0xd807aa98a3030242; 0x12835b0145706fbe; 0x243185be4ee4b28c; 0x550c7dc3d5ffb4e2;
   0x72be5d74f27b896f; 0x80deb1fe3b1696b1; 0x9bdc06a725c71235; 0xc19bf174cf692694;
   0xe49b69c19ef14ad2; 0xefbe4786384f25e3; 0x0fc19dc68b8cd5b5; 0x240ca1cc77ac9c65;
   0x2de92c6f592b0275; 0x4a7484aa6ea6e483; 0x5cb0a9dcbd41fbd4; 0x76f988da831153b5;
   0x983e5152ee66dfab; 0xa831c66d2db43210; 0xb00327c898fb213f; 0xbf597fc7beef0ee4;
   0xc6e00bf33da88fc2; 0xd5a79147930aa725; 0x06ca6351e003826f; 0x142929670a0e6e70;
   0x27b70a8546d22ffc; 0x2e1b21385c26c926; 0x4d2c6dfc5ac42aed; 0x53380d139d95b3df;
   0x650a73548baf63de; 0x766a0abb3c77b2a8; 0x81c2c92e47edaee6; 0x92722c851482353b;
   0xa2bfe8a14cf10364; 0xa81a664bbc423001; 0xc24b8b70d0f89791; 0xc76c51a30654be30;
   0xd192e819d6ef5218; 0xd69906245565a910; 0xf40e35855771202a; 0x106aa07032bbd1b8;
   0x19a4c116b8d2d0c8; 0x1e376c085141ab53; 0x2748774cdf8eeb99; 0x34b0bcb5e19b48a8;
   0x391c0cb3c5c95a63; 0x4ed8aa4ae3418acb; 0x5b9cca4f7763e373; 0x682e6ff3d6b2b8a3;
   0x748f82ee5defb2fc; 0x78a5636f43172f60; 0x84c87814a1f0ab72; 0x8cc702081a6439ec;
   0x90befffa23631e28; 0xa4506cebde82bde9; 0xbef9a3f7b2c67915; 0xc67178f2e372532b;
   0xca273eceea26619c; 0xd186b8c721c0c207; 0xeada7dd6cde0eb1e; 0xf57d4f7fee6ed178;
   0x06f067aa72176fba; 0x0a637dc5a2c898a6; 0x113f9804bef90dae; 0x1b710b35131c471b;
   0x28db77f523047d84; 0x32caab7b40c72493; 0x3c9ebe0a15c9bebc; 0x431d67c49c100d4c;
   0x4cc5d4becb3e42b6; 0x597f299cfc657e2a; 0x5fcb6fab3ad6faec; 0x6c44198c4a475817].

(** The initial hash value: fractional parts of the square roots of the first
    eight primes. *)
Definition H0 : list Z :=
  [0x6a09e667f3bcc908; 0xbb67ae8584caa73b; 0x3c6ef372fe94f82b; 0xa54ff53a5f1d36f1;
   0x510e527fade682d1; 0x9b05688c2b3e6c1f; 0x1f83d9abfb41bd6b; 0x5be0cd19137e2179].

(** ** Padding: a 1 bit, zeros, and the bit length on 128 bits. *)
Definition byte_of (c : ascii) : Z := Z.of_nat (nat_of_ascii c).
Fixpoint bytes_of (s : string) : list Z :=
  match s with EmptyString => [] | String c s' => byte_of c :: bytes_of s' end.
Definition be_bytes (n : nat) (x : Z) : list Z :=
  rev (map (fun i => (Z.shiftr x (8 * Z.of_nat i)) mod 256) (seq 0 n)).
Definition pad (m : list Z) : list Z :=
  let len := Z.of_nat (length m) in
  let zeros := Z.to_nat ((111 - len) mod 128) in
  m ++ [128] ++ replicate zeros 0 ++ be_bytes 16 (8 * len).

(** Big-endian 64-bit words of a byte list. *)
Fixpoint words (fuel : nat) (m : list Z) : list Z :=
  match fuel, m with
  | S f, b0 :: b1 :: b2 :: b3 :: b4 :: b5 :: b6 :: b7 :: rest =>
      foldl (fun acc b => acc * 256 + b) 0 [b0; b1; b2; b3; b4; b5; b6; b7] :: words f rest
  | _, _ => []
  end.

(** The message schedule, newest word first. *)
Fixpoint schedule (n : nat) (ws : list Z) : list Z :=
  match n with
  | O => ws
  | S n' =>
      let w i := nth i ws 0 in
      schedule n' (add64 (add64 (sigma1 (w 1%nat)) (w 6%nat)) (add64 (sigma0 (w 14%nat)) (w 15%nat)) :: ws)
  end.

Definition round (st : list Z) (kw : Z * Z) : list Z :=
  match st with
  | [a; b; c; d; e; f; g; h] =>
      let t1 := add64 (add64 (add64 h (Sigma1 e)) (add64 (Ch e f g) kw.1)) kw.2 in
      let t2 := add64 (Sigma0 a) (Maj a b c) in
      [add64 t1 t2; a; b; c; add64 d t1; e; f; g]
  | _ => st
  end.

Definition compress (h : list Z) (block : list Z) : list Z :=
  let w := rev (schedule 64 (rev block)) in
  zip_with add64 h (foldl round h (zip K w)).

Fixpoint blocks (fuel : nat) (h : list Z) (ws : list Z) : list Z :=
  match fuel with
  | O => h
  | S f => match ws with [] => h | _ => blocks f (compress h (take 16 ws)) (drop 16 ws) end
  end.

(** [sha512.Sum512]: the 64 bytes of the digest. *)
Definition Sum512 (s : string) : list Z :=
  let m := pad (bytes_of s) in
  let ws := words (length m) m in
  blocks (length ws) H0 ws ≫= be_bytes 8.

(** [hex.EncodeToString] *)
Definition hex_digit (n : Z) : ascii :=
  ascii_of_nat (Z.to_nat (if n <? 10 then 48 + n else 87 + n)).
Fixpoint EncodeToString (bs : list Z) : string :=
  match bs with
  | [] => ""
  | b :: bs' => String (hex_digit (b / 16)) (String (hex_digit (b mod 16)) (EncodeToString bs'))
  end.

(** ** The digest is always 64 bytes long *)

Lemma be_bytes_length n x : length (be_bytes n x) = n.
Proof. unfold be_bytes. by rewrite length_rev, length_map, length_seq. Qed.

Lemma round_length st kw : length (round st kw) = length st.
Proof. by destruct st as [|? [|? [|? [|? [|? [|? [|? [|? [|? ?]]]]]]]]]. Qed.

Lemma rounds_length kws st : length (foldl round st kws) = length st.
Proof. revert st. induction kws; intros; simpl; [done|]. by rewrite IHkws, round_length. Qed.

Lemma compress_length h b : length h = 8%nat -> length (compress h b) = 8%nat.
Proof. intros E. unfold compress. by rewrite length_zip_with, rounds_length, E. Qed.

Lemma blocks_length f h ws : length h = 8%nat -> length (blocks f h ws) = 8%nat.
Proof.
  revert h ws. induction f; intros h ws E; simpl; [done|].
  destruct ws; [done|]. apply IHf. by apply compress_length.
Qed.

Lemma words_bytes_length (ws : list Z) : length (ws ≫= be_bytes 8) = (8 * length ws)%nat.
Proof.
  induction ws as [|w ws IH]; [done|].
  rewrite bind_cons, length_app, be_bytes_length, IH. simpl. lia.
Qed.

Lemma Sum512_length s : length (Sum512 s) = 64%nat.
Proof. unfold Sum512. by rewrite words_bytes_length, blocks_length. Qed.

Lemma EncodeToString_length bs : String.length (EncodeToString bs) = (2 * length bs)%nat.
Proof. induction bs; simpl; [done|]. lia. Qed.

(** Test vectors: the empty message and "abc" (FIPS 180-4), and a message that
    takes two blocks. *)
Example Sum512_empty : EncodeToString (Sum512 "") =
  "cf83e1357eefb8bdf1542850d66d8007d620e4050b5715dc83f4a921d36ce9ce47d0d13c5d85f2b0ff8318d2877eec2f63b931bd47417a81a538327af927da3e".
Proof. vm_compute. reflexivity. Qed.

Example Sum512_abc : EncodeToString (Sum512 "abc") =
  "ddaf35a193617abacc417349ae20413112e6fa4e89a97ea20a9eeee64b55d39a2192992a274fc1a836ba3c23a3feebbd454d4423643ce80e2a9ac94fa54ca49f".
Proof. vm_compute. reflexivity. Qed.

Example Sum512_two_blocks : EncodeToString (Sum512
  "abcdefghbcdefghicdefghijdefghijkefghijklfghijklmghijklmnhijklmnoijklmnopjklmnopqklmnopqrlmnopqrsmnopqrstnopqrstu") =
  "8e959b75dae313da8cf4f72814fc143f8f7779c6eb9f7fa17299aeadb6889018501d289e4900f7e4331b99dec4b5433ac7d329eeb6dd26545e96e55b874be909".
Proof. vm_compute. reflexivity. Qed.

End Sha512.
