(* ===== verification/GoJSON.v ===== *)
(** * JSON text

    [json.Marshal] of Go's standard library on unstructured values: members sorted by
    name, characters escaped for use in HTML, numbers as their literals.  A string is
    taken to be valid UTF-8, whose bytes above 127 are copied, except for the two line
    separators of Unicode. *)
From stdpp Require Import base gmap strings list numbers.
From Stdlib Require Import Ascii.
From S2P Require Import Prelude GoStrings Sha512.

(** ** Escapes *)
Definition backslash : ascii := "092".
Definition quote : ascii := "034".
Definition escape (s : string) : string := String backslash s.

Definition unicode_escape (n : nat) : string :=
  escape ("u00" +:+ String (Sha512.hex_digit (Z.of_nat (n / 16)))
                      (String (Sha512.hex_digit (Z.of_nat (n mod 16))) EmptyString)).

Definition escape_ascii (c : ascii) : string :=
  let n := nat_of_ascii c in
  if Ascii.eqb c backslash || Ascii.eqb c quote then escape (String c EmptyString)
  else if Nat.eqb n 10 then escape "n"
  else if Nat.eqb n 13 then escape "r"
  else if Nat.eqb n 9 then escape "t"
  else if Nat.ltb n 32 || Ascii.eqb c "<" || Ascii.eqb c ">" || Ascii.eqb c "&" then unicode_escape n
  else String c EmptyString.

(** U+2028 and U+2029, the bytes 226, 128 and 168 or 169, are written as escapes. *)
Definition lineSeparator (c d e : ascii) : bool :=
  Nat.eqb (nat_of_ascii c) 226 && Nat.eqb (nat_of_ascii d) 128 &&
  (Nat.eqb (nat_of_ascii e) 168 || Nat.eqb (nat_of_ascii e) 169).
Definition escape_separator (e : ascii) : string :=
  escape ("u202" +:+ String (if Nat.eqb (nat_of_ascii e) 168 then "8" else "9")%char EmptyString).

Fixpoint escape_string (s : string) : string :=
  match s with
  | EmptyString => EmptyString
  | String c s1 =>
      match s1 with
      | String d (String e s3) =>
          if lineSeparator c d e then escape_separator e +:+ escape_string s3
          else escape_ascii c +:+ escape_string s1
      | _ => escape_ascii c +:+ escape_string s1
      end
  end.

Definition json_string (s : string) : string :=
  String quote EmptyString +:+ escape_string s +:+ String quote EmptyString.

(** ** Members in the order of their names *)

(** [bytes.Compare(a, b) < 0], and the order of strings *)
Definition str_lt (a b : string) : bool := match String.compare a b with Lt => true | _ => false end.

Fixpoint insert_sorted {A} (lt : A -> A -> bool) (x : A) (l : list A) : list A :=
  match l with
  | [] => [x]
  | y :: l' => if lt y x then y :: insert_sorted lt x l' else x :: l
  end.
Definition sort {A} (lt : A -> A -> bool) (l : list A) : list A := foldr (insert_sorted lt) [] l.

(** ** [json.Marshal] *)
Fixpoint json_Marshal (v : value) : string :=
  match v with
  | VNull => "null"
  | VBool b => if b then "true" else "false"
  | VNumber literal => literal
  | VString s => json_string s
  | VList l => "[" +:+ Join (json_Marshal <$> l) "," +:+ "]"
  | VMap m =>
      let members := sort (fun a b => str_lt a.1 b.1) (map_to_list (json_Marshal <$> m)) in
      "{" +:+ Join ((fun kv => json_string kv.1 +:+ ":" +:+ kv.2) <$> members) "," +:+ "}"
  end.

(** A map that may be nil. *)
Definition json_map (m : gomap value) : value := match m with Some m => VMap m | None => VNull end.

Example json_Marshal_object :
  json_Marshal (VMap {[ "b" := VList [VNumber "1"; VNull]; "a" := VString "x<y" ]}) =
  "{" +:+ json_string "a" +:+ ":" +:+ json_string "x<y" +:+ "," +:+ json_string "b" +:+ ":[1,null]}".
Proof. vm_compute. reflexivity. Qed.
