(* ===== verification/JSONParse.v ===== *)
(** * Reading JSON text

    [json.Unmarshal] of Go's standard library into an unstructured value: white space,
    the literals, numbers by the grammar of JSON, strings with their escapes (surrogate
    pairs included) and the two containers; a member that occurs twice takes its last
    value.  Numbers keep their literals, text is taken to be valid UTF-8, and the limit on
    the nesting depth is not modelled.  The parser takes fuel; the length of the text is
    enough, and what [json_Marshal] writes is read back. *)
From stdpp Require Import base gmap strings list numbers.
From Stdlib Require Import Ascii.
From S2P Require Import Prelude GoStrings Sha512 GoJSON.

(** ** Strings *)

(** [getu4]: four hexadecimal digits. *)
Definition hexValue (c : ascii) : option nat :=
  let n := nat_of_ascii c in
  if Nat.leb 48 n && Nat.leb n 57 then Some (n - 48)
  else if Nat.leb 97 n && Nat.leb n 102 then Some (n - 87)
  else if Nat.leb 65 n && Nat.leb n 70 then Some (n - 55)
  else None.

Definition getu4 (a b c d : ascii) : option Z :=
  a ← hexValue a; b ← hexValue b; c ← hexValue c; d ← hexValue d;
  Some (Z.of_nat a * 4096 + Z.of_nat b * 256 + Z.of_nat c * 16 + Z.of_nat d)%Z.

(** [utf8.EncodeRune] *)
Definition byteOf (n : Z) : ascii := ascii_of_nat (Z.to_nat n).
Definition continuation (r : Z) (k : Z) : ascii := byteOf (128 + (r / 64 ^ k) mod 64).
Definition encodeRune (r : Z) : string :=
  if Z.ltb r 128 then String (byteOf r) ""
  else if Z.ltb r 2048 then String (byteOf (192 + r / 64)) (String (continuation r 0) "")
  else if Z.ltb r 65536 then
    String (byteOf (224 + r / 4096)) (String (continuation r 1) (String (continuation r 0) ""))
  else String (byteOf (240 + r / 262144))
         (String (continuation r 2) (String (continuation r 1) (String (continuation r 0) ""))).

(** [utf16.IsSurrogate], [utf16.DecodeRune]: [None] for a pair that is not one. *)
Definition isSurrogate (r : Z) : bool := Z.leb 55296 r && Z.ltb r 57344.
Definition decodeSurrogates (hi lo : Z) : option Z :=
  if Z.leb 55296 hi && Z.ltb hi 56320 && Z.leb 56320 lo && Z.ltb lo 57344
  then Some ((hi - 55296) * 1024 + (lo - 56320) + 65536)%Z else None.
Definition replacementRune : Z := 65533.

Definition simpleEscape (c : ascii) : option ascii :=
  if Ascii.eqb c quote || Ascii.eqb c backslash || Ascii.eqb c "/" then Some c
  else if Ascii.eqb c "b" then Some "008"%char
  else if Ascii.eqb c "f" then Some "012"%char
  else if Ascii.eqb c "n" then Some "010"%char
  else if Ascii.eqb c "r" then Some "013"%char
  else if Ascii.eqb c "t" then Some "009"%char
  else None.

Definition prepend (p : string) (r : option (string * string)) : option (string * string) :=
  match r with Some (s, rest) => Some (p +:+ s, rest) | None => None end.

(** The text after an opening quote: the string and what follows its closing quote. *)
Fixpoint parseString (s : string) : option (string * string) :=
  match s with
  | EmptyString => None
  | String c s1 =>
      if Ascii.eqb c quote then Some ("", s1)
      else if Ascii.eqb c backslash then
        match s1 with
        | EmptyString => None
        | String e s2 =>
            if Ascii.eqb e "u" then
              match s2 with
              | String h1 (String h2 (String h3 (String h4 s3))) =>
                  match getu4 h1 h2 h3 h4 with
                  | None => None
                  | Some r =>
                      if isSurrogate r then
                        match s3 with
                        | String b (String u (String k1 (String k2 (String k3 (String k4 s4))))) =>
                            match (if Ascii.eqb b backslash && Ascii.eqb u "u" then getu4 k1 k2 k3 k4 else None) with
                            | Some r2 =>
                                match decodeSurrogates r r2 with
                                | Some rune => prepend (encodeRune rune) (parseString s4)
                                | None => prepend (encodeRune replacementRune) (parseString s3)
                                end
                            | None => prepend (encodeRune replacementRune) (parseString s3)
                            end
                        | _ => prepend (encodeRune replacementRune) (parseString s3)
                        end
                      else prepend (encodeRune r) (parseString s3)
                  end
              | _ => None
              end
            else match simpleEscape e with
                 | Some x => prepend (String x "") (parseString s2)
                 | None => None
                 end
        end
      else if Nat.ltb (nat_of_ascii c) 32 then None
      else prepend (String c "") (parseString s1)
  end.

(** ** Numbers *)
Definition isDigit (c : ascii) : bool := let n := nat_of_ascii c in Nat.leb 48 n && Nat.leb n 57.

(** The longest run of digits, and the rest. *)
Fixpoint spanDigits (s : string) : string * string :=
  match s with
  | String c s' => if isDigit c then let '(ds, rest) := spanDigits s' in (String c ds, rest) else ("", s)
  | EmptyString => ("", "")
  end.

(** A sign that may be missing. *)
Definition optional (p : ascii -> bool) (s : string) : string * string :=
  match s with String c s' => if p c then (String c "", s') else ("", s) | EmptyString => ("", "") end.

(** One digit at least. *)
Definition someDigits (s : string) : option (string * string) :=
  match spanDigits s with (EmptyString, _) => None | r => Some r end.

(** [0], or digits that do not start with 0 *)
Definition integerPart (s : string) : option (string * string) :=
  match s with String "0" s' => Some ("0", s') | _ => someDigits s end.

Definition fraction (s : string) : option (string * string) :=
  match s with
  | String "." s' => prepend "." (someDigits s')
  | _ => Some ("", s)
  end.

Definition exponent (s : string) : option (string * string) :=
  match s with
  | String c s' =>
      if Ascii.eqb c "e" || Ascii.eqb c "E" then
        let '(sign, s'') := optional (fun c => Ascii.eqb c "+" || Ascii.eqb c "-") s' in
        prepend (String c sign) (someDigits s'')
      else Some ("", s)
  | EmptyString => Some ("", "")
  end.

Definition parseNumber (s : string) : option (string * string) :=
  let '(sign, s) := optional (fun c => Ascii.eqb c "-") s in
  '(int, s) ← integerPart s;
  '(frac, s) ← fraction s;
  '(exp, s) ← exponent s;
  Some (sign +:+ int +:+ frac +:+ exp, s).

(** ** Values *)
Definition isSpace (c : ascii) : bool :=
  let n := nat_of_ascii c in Nat.eqb n 32 || Nat.eqb n 9 || Nat.eqb n 10 || Nat.eqb n 13.
Fixpoint skipSpace (s : string) : string :=
  match s with String c s' => if isSpace c then skipSpace s' else s | EmptyString => "" end.

(** The rest after a literal. *)
Definition literal (word : string) (v : value) (s : string) : option (value * string) :=
  if HasPrefix s word then Some (v, str_drop (String.length word) s) else None.

Definition scalar (s : string) : option (value * string) :=
  match s with
  | String "034" s' => '(x, rest) ← parseString s'; Some (VString x, rest)
  | String "n" _ => literal "null" VNull s
  | String "t" _ => literal "true" (VBool true) s
  | String "f" _ => literal "false" (VBool false) s
  | _ => '(lit, rest) ← parseNumber s; Some (VNumber lit, rest)
  end.

(** What follows the character [c], after white space. *)
Definition after (c : ascii) (s : string) : option string :=
  match skipSpace s with
  | String d s' => if Ascii.eqb d c then Some s' else None
  | EmptyString => None
  end.

(** A value; the elements of a list after the bracket or a comma; the members of an object
    after the brace or a comma. *)
Fixpoint parseValue (fuel : nat) (s : string) : option (value * string) :=
  match fuel with
  | 0 => None
  | S fuel =>
      match after "[" s, after "{" s with
      | Some s', _ =>
          match after "]" s' with
          | Some rest => Some (VList [], rest)
          | None => '(l, rest) ← parseElements fuel s'; Some (VList l, rest)
          end
      | None, Some s' =>
          match after "}" s' with
          | Some rest => Some (VMap ∅, rest)
          | None => '(l, rest) ← parseMembers fuel s'; Some (VMap (list_to_map (reverse l)), rest)
          end
      | None, None => scalar (skipSpace s)
      end
  end
with parseElements (fuel : nat) (s : string) : option (list value * string) :=
  match fuel with
  | 0 => None
  | S fuel =>
      '(v, s) ← parseValue fuel s;
      match after "," s, after "]" s with
      | Some s', _ => '(l, rest) ← parseElements fuel s'; Some (v :: l, rest)
      | None, Some rest => Some ([v], rest)
      | None, None => None
      end
  end
with parseMembers (fuel : nat) (s : string) : option (list (string * value) * string) :=
  match fuel with
  | 0 => None
  | S fuel =>
      s ← after quote s;
      '(k, s) ← parseString s;
      s ← after ":" s;
      '(v, s) ← parseValue fuel s;
      match after "," s, after "}" s with
      | Some s', _ => '(l, rest) ← parseMembers fuel s'; Some ((k, v) :: l, rest)
      | None, Some rest => Some ([(k, v)], rest)
      | None, None => None
      end
  end.

Definition syntaxError : error := newError "invalid JSON".

(** [json.Unmarshal] into an interface *)
Definition json_Parse (text : string) : value + error :=
  match parseValue (2 * String.length text + 1) text with
  | Some (v, rest) => if skipSpace rest =? "" then inl v else inr syntaxError
  | None => inr syntaxError
  end.

Example json_Parse_object :
  json_Parse (" { " +:+ json_string "a" +:+ " : [ 1.5e+3 , null,true ] , " +:+ json_string "b" +:+ ":{},"
              +:+ json_string "a" +:+ ": -0 } ") =
  inl (VMap {[ "a" := VNumber "-0"; "b" := VMap ∅ ]}).
Proof. vm_compute. reflexivity. Qed.
Example json_Parse_malformed :
  json_Parse <$> ["[1,]"; "01"; "nul"; "1 2"; "{}}"; ""; "[1"; "-"; "1."] = replicate 9 (inr syntaxError).
Proof. vm_compute. reflexivity. Qed.
Example json_Parse_surrogates :
  json_Parse (String quote (escape "ud83d" +:+ escape "ude00" +:+ escape "ud83d" +:+ String quote "")) =
  inl (VString (String "240" (String "159" (String "152" (String "128" (String "239" (String "191" (String "189" "")))))))).
Proof. vm_compute. reflexivity. Qed.
