(* ===== verification/JSONFacts.v ===== *)
(** * What is written is read back

    [json_Parse] inverts [json_Marshal] on every value whose numbers are JSON numbers,
    and its fuel is enough for every text. *)
From stdpp Require Import base gmap strings list numbers.
From Stdlib Require Import Ascii.
From S2P Require Import Prelude GoStrings Sha512 GoJSON JSONParse.

(** ** Strings *)
Lemma parse_escaped c t : parseString (escape_ascii c +:+ t) = prepend (String c "") (parseString t).
Proof. destruct c as [[] [] [] [] [] [] [] []]; reflexivity. Qed.

Lemma parse_separator c d e t :
  lineSeparator c d e = true ->
  parseString (escape_separator e +:+ t) = prepend (String c (String d (String e ""))) (parseString t).
Proof.
  intros [[Hc%Nat.eqb_eq Hd%Nat.eqb_eq]%andb_prop He%orb_prop]%andb_prop.
  assert (Hx : forall x n, nat_of_ascii x = n -> x = ascii_of_nat n).
  { intros x n <-. by rewrite ascii_nat_embedding. }
  rewrite (Hx c _ Hc), (Hx d _ Hd).
  destruct He as [He%Nat.eqb_eq|He%Nat.eqb_eq]; rewrite (Hx e _ He); reflexivity.
Qed.

Lemma parseString_escape s rest : parseString (escape_string s +:+ String quote rest) = Some (s, rest).
Proof.
  remember (String.length s) as n eqn:Hn. revert s Hn. induction (lt_wf n) as [n _ IH]. intros s ->.
  destruct s as [|c s]; [done|]. simpl String.length in IH.
  assert (parseString ((escape_ascii c +:+ escape_string s) +:+ String quote rest) = Some (String c s, rest)) as Hc.
  { rewrite str_app_assoc, parse_escaped, (IH (String.length s)) by lia. done. }
  destruct s as [|d [|e s]]; [exact Hc..|]. cbn [escape_string] in *.
  destruct (lineSeparator c d e) eqn:E; [|exact Hc].
  rewrite str_app_assoc, (parse_separator c d), (IH (String.length s)) by (done || (simpl; lia)). done.
Qed.

Lemma parseString_length s x rest : parseString s = Some (x, rest) -> String.length rest < String.length s.
Proof.
  assert (Hpre : forall p r y t, prepend p r = Some (y, t) -> exists z, r = Some (z, t)).
  { intros p [[z t']|] y t; [|done]. intros [= _ <-]. eauto. }
  remember (String.length s) as n eqn:Hn. revert s x Hn. induction (lt_wf n) as [n _ IH]. intros s x ->.
  assert (IH' : forall p s' y, String.length s' < String.length s -> prepend p (parseString s') = Some (y, rest) ->
    String.length rest < String.length s).
  { intros p s' y Hl (z & E)%Hpre. specialize (IH _ Hl s' z eq_refl E). lia. }
  destruct s as [|c s]; [done|]. simpl. simpl String.length in IH'.
  repeat case_match; intros E; try done;
    first [ injection E as _ <-; simpl; lia | eapply IH'; [|exact E]; simpl; lia ].
Qed.

(** ** Numbers *)

(** What may follow a number: nothing that would make it longer. *)
Definition numberByte (c : ascii) : bool :=
  isDigit c || Ascii.eqb c "-" || Ascii.eqb c "+" || Ascii.eqb c "." || Ascii.eqb c "e" || Ascii.eqb c "E".
Definition ends (rest : string) : Prop :=
  match rest with String c _ => numberByte c = false | EmptyString => True end.

(** A parser that does not look beyond the end of a number, and drops a part of the text. *)
Record stable (f : string -> option (string * string)) : Prop := {
  stable_app s x t rest : f s = Some (x, t) -> ends rest -> f (s +:+ rest) = Some (x, t +:+ rest);
  stable_length s x t : f s = Some (x, t) -> String.length t <= String.length s
}.

Lemma ends_digit rest : ends rest -> spanDigits rest = ("", rest).
Proof.
  destruct rest as [|c rest]; [done|]. simpl. unfold numberByte. intros E. by destruct (isDigit c).
Qed.

Lemma spanDigits_app s rest :
  ends rest -> spanDigits (s +:+ rest) = ((spanDigits s).1, (spanDigits s).2 +:+ rest).
Proof.
  intros Hr. induction s as [|c s IH]; simpl; [by rewrite ends_digit|].
  change (String c s +:+ rest) with (String c (s +:+ rest)). cbn [spanDigits].
  destruct (isDigit c); [|done]. rewrite IH. by destruct (spanDigits s).
Qed.

Lemma spanDigits_length s :
  String.length (spanDigits s).1 + String.length (spanDigits s).2 = String.length s.
Proof.
  induction s as [|c s IH]; simpl; [done|]. destruct (isDigit c); simpl; [|done].
  destruct (spanDigits s); simpl in *; lia.
Qed.

Lemma someDigits_stable : stable someDigits.
Proof.
  split.
  - intros s x t rest E Hr. unfold someDigits in *. rewrite spanDigits_app by done.
    destruct (spanDigits s) as [[|d ds] r]; [done|]. by simplify_eq/=.
  - intros s x t E. unfold someDigits in E. pose proof (spanDigits_length s) as Hl.
    destruct (spanDigits s) as [[|d ds] r]; simplify_eq/=. lia.
Qed.

Lemma integerPart_stable : stable integerPart.
Proof.
  destruct someDigits_stable as [Happ Hlen]. split.
  - intros [|c s] x t rest E Hr; [done|]. destruct (decide (c = "0"%char)) as [->|Hc]; [by simplify_eq/=|].
    change (String c s +:+ rest) with (String c (s +:+ rest)).
    assert (forall u, integerPart (String c u) = someDigits (String c u)) as Hi.
    { intros u. destruct c as [[] [] [] [] [] [] [] []]; first [reflexivity|by destruct Hc]. }
    rewrite Hi in *. by apply (Happ (String c s)).
  - intros [|c s] x t E; [done|]. destruct (decide (c = "0"%char)) as [->|Hc]; [simplify_eq/=; lia|].
    apply (Hlen _ x). destruct c as [[] [] [] [] [] [] [] []]; first [exact E|by destruct Hc].
Qed.

Lemma prepend_Some p r x t : prepend p r = Some (x, t) <-> exists y, r = Some (y, t) /\ x = p +:+ y.
Proof.
  destruct r as [[y u]|]; simpl; split; [|naive_solver|done|naive_solver]. intros [= <- <-]. eauto.
Qed.

Lemma fraction_stable : stable fraction.
Proof.
  destruct someDigits_stable as [Happ Hlen]. split.
  - intros [|c s] x t rest E Hr.
    { simplify_eq/=. destruct rest as [|c r]; [done|]. simpl in Hr.
      destruct c as [[] [] [] [] [] [] [] []]; first [reflexivity|discriminate Hr]. }
    change (String c s +:+ rest) with (String c (s +:+ rest)).
    destruct (decide (c = "."%char)) as [->|Hc].
    + simpl in *. apply prepend_Some in E as (y & E & ->). by rewrite (Happ _ _ _ _ E Hr).
    + assert (forall u, fraction (String c u) = Some ("", String c u)) as Hi.
      { intros u. destruct c as [[] [] [] [] [] [] [] []]; first [reflexivity|by destruct Hc]. }
      rewrite Hi in *. by simplify_eq.
  - intros [|c s] x t E; [by simplify_eq/=|]. destruct (decide (c = "."%char)) as [->|Hc].
    + simpl in *. apply prepend_Some in E as (y & E & ->). apply Hlen in E. lia.
    + assert (fraction (String c s) = Some ("", String c s)) as Hi.
      { destruct c as [[] [] [] [] [] [] [] []]; first [reflexivity|by destruct Hc]. }
      rewrite Hi in E. by simplify_eq.
Qed.

Lemma optional_app p s rest :
  (forall c u, rest = String c u -> p c = false) ->
  optional p (s +:+ rest) = ((optional p s).1, (optional p s).2 +:+ rest).
Proof.
  intros Hp. destruct s as [|c s].
  - destruct rest as [|c u]; [done|]. simpl. by rewrite (Hp c u eq_refl).
  - simpl. by destruct (p c).
Qed.

Lemma optional_length p s : String.length (optional p s).2 <= String.length s.
Proof. destruct s as [|c s]; simpl; [done|]. destruct (p c); simpl; lia. Qed.

Lemma ends_not p rest : (forall c, p c = true -> numberByte c = true) -> ends rest -> forall c u, rest = String c u -> p c = false.
Proof.
  intros Hp Hr c u ->. simpl in Hr. destruct (p c) eqn:E; [|done]. apply Hp in E. congruence.
Qed.

Lemma exponent_stable : stable exponent.
Proof.
  destruct someDigits_stable as [Happ Hlen]. split.
  - intros [|c s] x t rest E Hr.
    { simplify_eq/=. destruct rest as [|c r]; [done|]. simpl in *.
      destruct (Ascii.eqb c "e" || Ascii.eqb c "E") eqn:Ec; [|done]. unfold numberByte in Hr.
      destruct (Ascii.eqb c "e"), (Ascii.eqb c "E"), (isDigit c), (Ascii.eqb c "-"), (Ascii.eqb c "+"), (Ascii.eqb c "."); done. }
    change (String c s +:+ rest) with (String c (s +:+ rest)). simpl in *.
    destruct (Ascii.eqb c "e" || Ascii.eqb c "E"); [|by simplify_eq].
    rewrite optional_app; cycle 1.
    { apply ends_not; [|done]. intros d Hd. unfold numberByte.
      destruct (Ascii.eqb d "+"), (Ascii.eqb d "-"), (isDigit d); done. }
    destruct (optional _ s) as [sign s']. simpl. apply prepend_Some in E as (y & E & ->). by rewrite (Happ _ _ _ _ E Hr).
  - intros [|c s] x t E; [by simplify_eq/=|]. simpl in *.
    destruct (Ascii.eqb c "e" || Ascii.eqb c "E"); [|by simplify_eq].
    pose proof (optional_length (fun c => Ascii.eqb c "+" || Ascii.eqb c "-") s) as Hl.
    destruct (optional _ s) as [sign s']. apply prepend_Some in E as (y & E & ->). apply Hlen in E. simpl in *. lia.
Qed.

Lemma parseNumber_stable : stable parseNumber.
Proof.
  destruct integerPart_stable as [Hi Hil], fraction_stable as [Hf Hfl], exponent_stable as [He Hel]. split.
  - intros s x t rest E Hr. unfold parseNumber in *. rewrite optional_app; cycle 1.
    { apply ends_not; [|done]. intros d Hd. unfold numberByte. rewrite Hd. by destruct (isDigit d). }
    destruct (optional _ s) as [sign s0]. cbn [fst snd].
    destruct (integerPart s0) as [[int s1]|] eqn:E1; [|done]. rewrite (Hi _ _ _ _ E1 Hr). simpl in *.
    destruct (fraction s1) as [[frac s2]|] eqn:E2; [|done]. rewrite (Hf _ _ _ _ E2 Hr). simpl in *.
    destruct (exponent s2) as [[exp s3]|] eqn:E3; [|done]. rewrite (He _ _ _ _ E3 Hr). simpl in *. by simplify_eq.
  - intros s x t E. unfold parseNumber in *. pose proof (optional_length (fun c => Ascii.eqb c "-") s) as Hl.
    destruct (optional _ s) as [sign s0]. cbn [fst snd] in *.
    destruct (integerPart s0) as [[int s1]|] eqn:E1; [|done]. simpl in *.
    destruct (fraction s1) as [[frac s2]|] eqn:E2; [|done]. simpl in *.
    destruct (exponent s2) as [[exp s3]|] eqn:E3; [|done]. simpl in *. simplify_eq.
    apply Hil in E1. apply Hfl in E2. apply Hel in E3. lia.
Qed.

(** A number takes one character at least, and starts with a digit or a minus. *)
Lemma someDigits_shorter s x t : someDigits s = Some (x, t) -> String.length t < String.length s.
Proof.
  unfold someDigits. pose proof (spanDigits_length s) as Hl.
  destruct (spanDigits s) as [[|d ds] r]; intros E; simplify_eq/=. lia.
Qed.

Lemma integerPart_shorter s x t : integerPart s = Some (x, t) -> String.length t < String.length s.
Proof.
  destruct s as [|c s]; [done|]. intros E. destruct (decide (c = "0"%char)) as [->|Hc]; [simplify_eq/=; lia|].
  apply (someDigits_shorter _ x). destruct c as [[] [] [] [] [] [] [] []]; first [exact E|by destruct Hc].
Qed.

Lemma parseNumber_shorter s x t : parseNumber s = Some (x, t) -> String.length t < String.length s.
Proof.
  intros E. unfold parseNumber in *. pose proof (optional_length (fun c => Ascii.eqb c "-") s) as Hl.
  destruct (optional _ s) as [sign s0]. cbn [fst snd] in *.
  destruct (integerPart s0) as [[int s1]|] eqn:E1; [|done]. simpl in *.
  destruct (fraction s1) as [[frac s2]|] eqn:E2; [|done]. simpl in *.
  destruct (exponent s2) as [[exp s3]|] eqn:E3; [|done]. simpl in *. simplify_eq.
  apply integerPart_shorter in E1. apply fraction_stable in E2. apply exponent_stable in E3. lia.
Qed.

Definition numberStart (c : ascii) : bool := isDigit c || Ascii.eqb c "-".

Lemma parseNumber_start s x t :
  parseNumber s = Some (x, t) -> exists c s', s = String c s' /\ numberStart c = true.
Proof.
  destruct s as [|c s]; [done|]. intros E. exists c, s. split; [done|].
  unfold parseNumber, optional in E. unfold numberStart.
  destruct (Ascii.eqb c "-") eqn:Ec; [apply orb_true_r|]. rewrite orb_false_r.
  destruct (integerPart (String c s)) as [[int s1]|] eqn:E1; [|done]. clear E.
  destruct (decide (c = "0"%char)) as [->|Hc]; [done|].
  assert (someDigits (String c s) = Some (int, s1)) as E2.
  { destruct c as [[] [] [] [] [] [] [] []]; first [exact E1|by destruct Hc]. }
  unfold someDigits in E2. simpl in E2. by destruct (isDigit c).
Qed.

(** ** Values *)

(** The numbers of a value are numbers of JSON. *)
Definition number_ok (lit : string) : Prop := parseNumber lit = Some (lit, "").
Inductive value_ok : value -> Prop :=
| ok_null : value_ok VNull
| ok_bool b : value_ok (VBool b)
| ok_number lit : number_ok lit -> value_ok (VNumber lit)
| ok_string s : value_ok (VString s)
| ok_list l : Forall value_ok l -> value_ok (VList l)
| ok_map m : map_Forall (fun _ => value_ok) m -> value_ok (VMap m).

(** The start of a value. *)
Definition startsValue (s : string) : Prop :=
  exists c s', s = String c s' /\ isSpace c = false /\ c <> "]"%char /\ c <> "}"%char.

Lemma startsValue_app s t : startsValue s -> startsValue (s +:+ t).
Proof. intros (c & s' & -> & H). by exists c, (s' +:+ t). Qed.

Lemma startsValue_skip s : startsValue s -> skipSpace s = s.
Proof. intros (c & s' & -> & Hc & _). simpl. by rewrite Hc. Qed.

Lemma Marshal_starts v : value_ok v -> startsValue (json_Marshal v).
Proof.
  destruct 1 as [|[]|lit Hl|s|l _|m _]; try by (do 2 eexists).
  apply parseNumber_start in Hl as (c & s' & -> & Hc). exists c, s'. split; [done|].
  destruct c as [[] [] [] [] [] [] [] []]; first [discriminate Hc|done].
Qed.

Lemma scalar_number lit rest : number_ok lit -> ends rest -> scalar (lit +:+ rest) = Some (VNumber lit, rest).
Proof.
  intros Hl Hr. pose proof (stable_app _ parseNumber_stable _ _ _ _ Hl Hr) as E.
  apply parseNumber_start in Hl as (c & s' & -> & Hc).
  change (String c s' +:+ rest) with (String c (s' +:+ rest)) in *.
  assert (scalar (String c (s' +:+ rest)) =
    ('(lit, rest) ← parseNumber (String c (s' +:+ rest)); Some (VNumber lit, rest))) as ->.
  { destruct c as [[] [] [] [] [] [] [] []]; first [discriminate Hc|reflexivity]. }
  by rewrite E.
Qed.

Lemma after_here c s : isSpace c = false -> after c (String c s) = Some s.
Proof. intros Hc. unfold after. simpl. by rewrite Hc, Ascii.eqb_refl. Qed.

Lemma after_other c d s : isSpace d = false -> d <> c -> after c (String d s) = None.
Proof. intros Hd Hne. unfold after. simpl. rewrite Hd. by destruct (Ascii.eqb_spec d c). Qed.

Lemma after_starts c s : startsValue s -> c = "]"%char \/ c = "}"%char -> after c s = None.
Proof. intros (d & u & -> & Hs & H1 & H2) [-> | ->]; by apply after_other. Qed.

(** A value that does not open a container is a scalar. *)
Lemma parseValue_scalar n s :
  startsValue s -> (forall u, s <> String "[" u) -> (forall u, s <> String "{" u) -> parseValue (S n) s = scalar s.
Proof.
  intros Hs Hl Hm. cbn [parseValue]. rewrite startsValue_skip by done. destruct Hs as (c & u & -> & Hsp & _).
  rewrite !after_other; [done|done|intros ->; by eapply Hm|done|intros ->; by eapply Hl].
Qed.

(** What a client of the parser needs of one value in any context. *)
Definition reads (v : value) : Prop := forall n rest,
  ends rest -> 2 * String.length (json_Marshal v) < n -> parseValue n (json_Marshal v +:+ rest) = Some (v, rest).

Lemma reads_elements l n rest :
  l <> [] -> Forall reads l -> 2 * String.length (Join (json_Marshal <$> l) ",") + 2 <= n ->
  parseElements n (Join (json_Marshal <$> l) "," +:+ String "]" rest) = Some (l, rest).
Proof.
  intros Hne Hl. revert n Hne. induction Hl as [|v l Hv Hl IH]; intros n Hne Hn; [done|].
  destruct n as [|n]; [lia|]. destruct l as [|v' l].
  - simpl in *. rewrite Hv by (done || lia). done.
  - change (Join (json_Marshal <$> v :: v' :: l) ",") with
      (json_Marshal v +:+ String "," (Join (json_Marshal <$> v' :: l) ",")) in *.
    rewrite str_length_app in Hn. simpl String.length in Hn. rewrite str_app_assoc.
    change (String "," ?a +:+ ?b) with (String "," (a +:+ b)).
    cbn [parseElements]. rewrite Hv by (done || lia). simpl.
    rewrite IH by (done || (simpl in *; lia)). done.
Qed.

(** The text of a member. *)
Definition memberText (kv : string * value) : string := json_string kv.1 +:+ ":" +:+ json_Marshal kv.2.

Lemma parse_key k s : parseString (escape_string k +:+ String quote "" +:+ s) = Some (k, s).
Proof. apply parseString_escape. Qed.

Lemma memberText_app kv t :
  memberText kv +:+ t = String quote (escape_string kv.1 +:+ String quote "" +:+ String ":" (json_Marshal kv.2 +:+ t)).
Proof. unfold memberText, json_string. rewrite !str_app_assoc. done. Qed.

Lemma reads_members l n rest :
  l <> [] -> Forall (fun kv => reads kv.2) l -> 2 * String.length (Join (memberText <$> l) ",") + 2 <= n ->
  parseMembers n (Join (memberText <$> l) "," +:+ String "}" rest) = Some (l, rest).
Proof.
  intros Hne Hl. revert n Hne. induction Hl as [|[k v] l Hv Hl IH]; intros n Hne Hn; [done|].
  destruct n as [|n]; [lia|].
  assert (Hlen : String.length (json_Marshal v) <= String.length (memberText (k, v))).
  { unfold memberText. rewrite !str_length_app. simpl. lia. }
  assert (Hstep : forall t, ends t -> 2 * String.length (json_Marshal v) < n ->
    parseMembers (S n) (memberText (k, v) +:+ t) =
      match after "," t, after "}" t with
      | Some s', _ => '(l, rest) ← parseMembers n s'; Some ((k, v) :: l, rest)
      | None, Some rest => Some ([(k, v)], rest)
      | None, None => None
      end).
  { intros t Ht Hn'. rewrite memberText_app. cbn [parseMembers]. rewrite after_here by done. cbn [mbind option_bind].
    rewrite parse_key. cbn [mbind option_bind fst snd]. rewrite after_here by done. cbn [mbind option_bind].
    by rewrite Hv. }
  destruct l as [|kv' l].
  - simpl Join in *. rewrite Hstep by (done || lia). done.
  - change (Join (memberText <$> (k, v) :: kv' :: l) ",") with
      (memberText (k, v) +:+ String "," (Join (memberText <$> kv' :: l) ",")) in *.
    rewrite str_length_app in Hn. change (String.length (String "," ?x)) with (S (String.length x)) in Hn. rewrite str_app_assoc.
    change (String "," ?a +:+ ?b) with (String "," (a +:+ b)).
    rewrite Hstep, after_here by (done || lia).
    rewrite IH by (done || lia). done.
Qed.

Lemma insert_sorted_perm {A} lt (x : A) l : insert_sorted lt x l ≡ₚ x :: l.
Proof.
  induction l as [|y l IH]; simpl; [done|]. destruct (lt y x); [|done]. rewrite IH. apply Permutation_swap.
Qed.
Lemma sort_perm {A} lt (l : list A) : sort lt l ≡ₚ l.
Proof. induction l as [|x l IH]; simpl; [done|]. by rewrite insert_sorted_perm, IH. Qed.

(** The members of an object, in the order they are written in. *)
Definition sortedMembers (m : gmap string value) : list (string * value) :=
  (fun kv : string * string => (kv.1, default VNull (m !! kv.1))) <$>
    sort (fun a b => str_lt a.1 b.1) (map_to_list (json_Marshal <$> m)).

Lemma Marshal_members m : json_Marshal (VMap m) = "{" +:+ Join (memberText <$> sortedMembers m) "," +:+ "}".
Proof.
  simpl. do 3 f_equal. unfold sortedMembers. rewrite <- list_fmap_compose. apply list_fmap_ext.
  intros i [k t] Hi. simpl. unfold memberText. simpl. do 2 f_equal.
  apply list_elem_of_lookup_2 in Hi. rewrite sort_perm in Hi.
  apply elem_of_map_to_list in Hi. rewrite lookup_fmap in Hi. by destruct (m !! k); simplify_eq/=.
Qed.

Lemma sortedMembers_keys m : (sortedMembers m).*1 ≡ₚ (map_to_list (json_Marshal <$> m)).*1.
Proof.
  unfold sortedMembers. rewrite <- list_fmap_compose.
  rewrite (list_fmap_ext _ fst) by (by intros ? []). by rewrite sort_perm.
Qed.

Lemma sortedMembers_elem m k v : (k, v) ∈ sortedMembers m <-> m !! k = Some v.
Proof.
  unfold sortedMembers. rewrite list_elem_of_fmap. split.
  - intros ([k' t] & E & Hin). rewrite sort_perm, elem_of_map_to_list, lookup_fmap in Hin. simpl in E.
    destruct (m !! k') as [x|] eqn:Ex; simplify_eq/=. by rewrite Ex.
  - intros E. exists (k, json_Marshal v). split; [cbn; by rewrite E|].
    rewrite sort_perm, elem_of_map_to_list, lookup_fmap, E. done.
Qed.

Lemma sortedMembers_map m : list_to_map (reverse (sortedMembers m)) = m.
Proof.
  apply map_eq. intros k. apply option_eq. intros v.
  rewrite <- elem_of_list_to_map.
  - rewrite elem_of_reverse. apply sortedMembers_elem.
  - rewrite fmap_reverse. rewrite reverse_Permutation, sortedMembers_keys. apply NoDup_fst_map_to_list.
Qed.

Lemma Join_starts l sep : (exists x r, l = x :: r /\ startsValue x) -> startsValue (Join l sep).
Proof. intros (x & [|y r] & -> & Hx); [done|]. by apply startsValue_app. Qed.

(** Opening a container that is not empty. *)
Lemma parseValue_list n s :
  startsValue s -> parseValue (S n) (String "[" s) = ('(l, rest) ← parseElements n s; Some (VList l, rest)).
Proof. intros Hs. cbn [parseValue]. rewrite after_here, after_starts by auto. done. Qed.

Lemma parseValue_map n s :
  startsValue s ->
  parseValue (S n) (String "{" s) = ('(l, rest) ← parseMembers n s; Some (VMap (list_to_map (reverse l)), rest)).
Proof. intros Hs. cbn [parseValue]. rewrite after_other, after_here, after_starts by (auto || done). done. Qed.

Lemma literal_word word v rest : literal word v (word +:+ rest) = Some (v, rest).
Proof.
  unfold literal, HasPrefix.
  assert (String.prefix word (word +:+ rest) = true /\ str_drop (String.length word) (word +:+ rest) = rest) as [-> ->]; [|done].
  induction word as [|c word [IHp IHd]]; [by destruct rest|]. change (String c word +:+ rest) with (String c (word +:+ rest)).
  simpl. by destruct (ascii_dec c c).
Qed.

Lemma memberText_starts kv : startsValue (memberText kv).
Proof. by do 2 eexists. Qed.

Lemma reads_ok v : value_ok v -> reads v.
Proof.
  induction v as [|b|lit|s|l Hl|m Hm] using value_ind'; intros Hok n rest Hr Hn; (destruct n as [|n]; [lia|]).
  - rewrite parseValue_scalar by (by do 2 eexists) || done. apply (literal_word "null").
  - destruct b; (rewrite parseValue_scalar by (by do 2 eexists) || done);
      [apply (literal_word "true")|apply (literal_word "false")].
  - inversion_clear Hok as [| |? Hlit| | |].
    destruct (parseNumber_start _ _ _ Hlit) as (c & s' & Es & Hc).
    rewrite parseValue_scalar; [by apply scalar_number| |intros u|intros u].
    { apply startsValue_app, (Marshal_starts (VNumber lit)). by constructor. }
    all: rewrite Es; intros [= -> _]; discriminate Hc.
  - change (json_Marshal (VString s) +:+ rest) with (String quote (escape_string s +:+ String quote "") +:+ rest).
    rewrite parseValue_scalar by (by do 2 eexists) || done.
    change (scalar (String quote ?a +:+ ?b)) with ('(x, rest) ← parseString (a +:+ b); Some (VString x, rest)).
    rewrite str_app_assoc, parse_key. done.
  - inversion_clear Hok as [| | | |? Hall|]. destruct l as [|v l]; [done|].
    assert (Forall reads (v :: l)) as Hreads.
    { rewrite list.Forall_forall in *. intros x Hx. apply Hl; [done|by apply Hall]. }
    cbn [json_Marshal] in *. rewrite !str_length_app in Hn.
    rewrite !str_app_assoc. change ("[" +:+ ?t) with (String "[" t). change ("]" +:+ rest) with (String "]" rest).
    rewrite parseValue_list.
    + rewrite reads_elements by (done || (change (String.length "[") with 1 in Hn; lia)). done.
    + apply startsValue_app, Join_starts. exists (json_Marshal v), (json_Marshal <$> l). split; [done|].
      apply Marshal_starts. by inversion Hall.
  - inversion_clear Hok as [| | | | |? Hall].
    destruct (sortedMembers m) as [|kv l] eqn:Es.
    { rewrite Marshal_members, Es. pose proof (sortedMembers_map m) as <-. rewrite Es. done. }
    assert (Forall (fun kv => reads kv.2) (kv :: l)) as Hreads.
    { rewrite <- Es. apply list.Forall_forall. intros [k x] Hx%sortedMembers_elem. by apply (Hm k), (Hall k). }
    rewrite Marshal_members, Es in *. rewrite !str_length_app in Hn.
    rewrite !str_app_assoc. change ("{" +:+ ?t) with (String "{" t). change ("}" +:+ rest) with (String "}" rest).
    rewrite parseValue_map.
    + rewrite reads_members by (done || (change (String.length "{") with 1 in Hn; lia)). cbn [mbind option_bind].
      by rewrite <- Es, sortedMembers_map.
    + apply startsValue_app, Join_starts. exists (memberText kv), (memberText <$> l).
      split; [done|apply memberText_starts].
Qed.

(** White space, which [json.Encoder] also ends a document with. *)
Definition blank (s : string) : Prop := skipSpace s = "".

Lemma blank_ends s : blank s -> ends s.
Proof.
  destruct s as [|c s]; [done|]. unfold blank. simpl. destruct (isSpace c) eqn:E; [|done]. intros _.
  destruct c as [[] [] [] [] [] [] [] []]; first [discriminate E|done].
Qed.

Lemma Parse_Marshal v ws : value_ok v -> blank ws -> json_Parse (json_Marshal v +:+ ws) = inl v.
Proof.
  intros Hv Hws. unfold json_Parse. rewrite (reads_ok v Hv); [by rewrite Hws|by apply blank_ends|].
  rewrite str_length_app. lia.
Qed.

(** ** The fuel is enough *)
Lemma skipSpace_length s : String.length (skipSpace s) <= String.length s.
Proof. induction s as [|c s IH]; simpl; [done|]. destruct (isSpace c); simpl; lia. Qed.

Lemma str_drop_length n s : String.length (str_drop n s) = String.length s - n.
Proof. revert s. induction n as [|n IH]; intros [|c s]; simpl; auto with lia. Qed.

Lemma prefix_length w s : HasPrefix s w = true -> String.length w <= String.length s.
Proof.
  unfold HasPrefix. revert s. induction w as [|c w IH]; intros [|d s]; simpl; [lia..|done|].
  destruct (ascii_dec c d); [|done]. intros E%IH. lia.
Qed.

Lemma literal_length w v s x rest :
  w <> "" -> literal w v s = Some (x, rest) -> String.length rest < String.length s.
Proof.
  unfold literal. intros Hw. destruct (HasPrefix s w) eqn:E; [|done]. intros [= _ <-].
  rewrite str_drop_length. apply prefix_length in E. destruct w; simpl in *; [done|lia].
Qed.

Lemma scalar_length s v rest : scalar s = Some (v, rest) -> String.length rest < String.length s.
Proof.
  assert (Hnum : forall s v rest, ('(lit, rest) ← parseNumber s; Some (VNumber lit, rest)) = Some (v, rest) ->
    String.length rest < String.length s).
  { intros t x r. destruct (parseNumber t) as [[lit u]|] eqn:E; [|done]. intros [= _ <-]. by eapply parseNumber_shorter. }
  destruct s as [|c s]; [done|]. intros E.
  destruct (decide (c = "034"%char)) as [->|Hq].
  { simpl in E. destruct (parseString s) as [[x u]|] eqn:Es; [|done]. simplify_eq/=.
    apply parseString_length in Es. lia. }
  destruct (decide (c = "n"%char)) as [->|Hn]; [by eapply (literal_length "null")|].
  destruct (decide (c = "t"%char)) as [->|Ht]; [by eapply (literal_length "true")|].
  destruct (decide (c = "f"%char)) as [->|Hf]; [by eapply (literal_length "false")|].
  apply (Hnum _ v). destruct c as [[] [] [] [] [] [] [] []]; first [exact E|done].
Qed.

Lemma after_length c s u : after c s = Some u -> String.length u < String.length s.
Proof.
  unfold after. pose proof (skipSpace_length s) as Hs. destruct (skipSpace s) as [|d t]; [done|].
  destruct (Ascii.eqb d c); [|done]. intros [= <-]. simpl in Hs. lia.
Qed.

(** Facts about the lengths of what is left, from the equations of the parsers. *)
Ltac lengths := repeat match goal with
  | E : after _ _ = Some _ |- _ => apply after_length in E
  | E : parseString _ = Some _ |- _ => apply parseString_length in E
  | E : scalar (skipSpace ?s) = Some _ |- _ => apply scalar_length in E; pose proof (skipSpace_length s)
  | IH : forall s v rest, ?f s = Some _ -> _, E : ?f _ = Some _ |- _ => apply IH in E
  end.

Lemma parse_length n :
  (forall s v rest, parseValue n s = Some (v, rest) -> String.length rest < String.length s) /\
  (forall s l rest, parseElements n s = Some (l, rest) -> String.length rest < String.length s) /\
  (forall s l rest, parseMembers n s = Some (l, rest) -> String.length rest < String.length s).
Proof.
  induction n as [|n (IHv & IHe & IHm)]; [done|].
  split; [|split]; intros s x rest; cbn [parseValue parseElements parseMembers];
    unfold mbind, option_bind; repeat case_match; intros E; simplify_eq; lengths; lia.
Qed.

(** More fuel than twice the length of the text makes no difference. *)
Lemma parse_enough n m : n <= m ->
  (forall s, 2 * String.length s < n -> parseValue n s = parseValue m s) /\
  (forall s, 2 * String.length s + 2 <= n -> parseElements n s = parseElements m s) /\
  (forall s, 2 * String.length s + 2 <= n -> parseMembers n s = parseMembers m s).
Proof.
  revert m. induction n as [|n IH]; intros m Hm; [split; [|split]; intros; lia|].
  destruct m as [|m]; [lia|]. destruct (IH m) as (IHv & IHe & IHm); [lia|]. destruct (parse_length m) as (Lv & _).
  split; [|split]; intros s Hs; cbn [parseValue parseElements parseMembers].
  - destruct (after "[" s) eqn:E1; [lengths; rewrite IHe by lia; done|].
    destruct (after "{" s) eqn:E2; [lengths; rewrite IHm by lia; done|]. done.
  - rewrite IHv by lia. destruct (parseValue m s) as [[v u]|] eqn:E; [|done]. simpl.
    destruct (after "," u) eqn:E1; [|done]. lengths. by rewrite IHe by lia.
  - destruct (after quote s) as [s0|] eqn:E0; [|done]. simpl. destruct (parseString s0) as [[k s1]|] eqn:E1; [|done]. simpl.
    destruct (after ":" s1) as [s2|] eqn:E2; [|done]. simpl. lengths. rewrite IHv by lia.
    destruct (parseValue m s2) as [[v u]|] eqn:E; [|done]. simpl.
    destruct (after "," u) eqn:E3; [|done]. lengths. by rewrite IHm by lia.
Qed.

(** A JSON document that is written is read back: [json_Parse] gives back every value
    whose numbers are numbers of JSON, from its text and white space after it; and the
    result for any text does not depend on the fuel of the parser beyond the one it is
    given. *)
Theorem json_roundtrip :
  (forall v ws, value_ok v -> blank ws -> json_Parse (json_Marshal v +:+ ws) = inl v) /\
  (forall text fuel, 2 * String.length text < fuel ->
     json_Parse text = match parseValue fuel text with
                       | Some (v, rest) => if skipSpace rest =? "" then inl v else inr syntaxError
                       | None => inr syntaxError
                       end).
Proof.
  split; [intros; by apply Parse_Marshal|]. intros text fuel Hf. unfold json_Parse.
  destruct (parse_enough (2 * String.length text + 1) fuel) as (Hv & _); [lia|].
  by rewrite Hv by lia.
Qed.

Lemma json_roundtrip_witness :
  json_Parse (json_Marshal (VMap {[ "policy" := VString "a<b"; "columns" := VList [VNumber "1.5"; VNull] ]}) +:+ " ") =
  inl (VMap {[ "policy" := VString "a<b"; "columns" := VList [VNumber "1.5"; VNull] ]}).
Proof.
  apply (proj1 json_roundtrip); [|reflexivity].
  constructor. apply map_Forall_insert_2; [constructor|]. apply map_Forall_insert_2; [|apply map_Forall_empty].
  repeat constructor.
Defined.
