(* ===== verification/Types.v ===== *)
(** * API types

    The custom resources of [manager/apis/app/v1alpha1], the models of
    [pkg/model] (taxonomy, data catalog, policy manager, admin rules) and the
    cluster model of [pkg/multicluster].  Field names are those of the Go
    structs, prefixed by the struct.  A Go type declared as [string] with named
    constants is a [string] here too: the constants do not close the type.
    A pointer field is an [option]; a map field is a [gomap] where the code
    distinguishes a nil map or writes to it, and a [gmap] where it only reads. *)
From stdpp Require Import base gmap strings list.
From S2P Require Import Prelude.

(** ** Kubernetes metadata (the fields the controllers use) *)

Record NamespacedName := mkNamespacedName { nn_Name : string; nn_Namespace : string }.

Record ObjectMeta := mkObjectMeta {
  meta_Name : string;
  meta_Namespace : string;
  meta_UID : string;
  meta_Generation : Z;
  meta_DeletionTimestamp : option Z;
  meta_Finalizers : list string;
  meta_Labels : gomap string;
  meta_Annotations : gomap string;
  meta_ClusterName : string
}.

(** [metav1.LabelSelector] *)
Record LabelSelector := mkLabelSelector {
  MatchLabels : gmap string string;
  MatchExpressions : list (string * string * list string)
}.

(** ** pkg/model/taxonomy *)

(** [serde.Properties]: the members of a JSON object that are not declared. *)
Record Properties := mkProperties { Items : gomap value }.

Record Connection := mkConnection {
  connection_Name : string;
  connection_AdditionalProperties : Properties
}.

Record Interface := mkInterface { Protocol : string; DataFormat : string }.

(** [type InterfaceDetails taxonomy.Interface] *)
Definition InterfaceDetails : Type := Interface.

Record Tags := mkTags { tags_Properties : Properties }.

Record Action := mkAction {
  action_Name : string;
  action_AdditionalProperties : Properties
}.

Record AppInfo := mkAppInfo { appInfo_Properties : Properties }.

(** ** pkg/model/datacatalog *)

Record ResourceColumn := mkResourceColumn { column_Name : string; column_Tags : option Tags }.

Record ResourceMetadata := mkResourceMetadata {
  resource_Name : string;
  resource_Owner : string;
  resource_Geography : string;
  resource_Tags : option Tags;
  resource_Columns : list ResourceColumn
}.

Record ResourceDetails := mkResourceDetails {
  details_Connection : Connection;
  details_DataFormat : string
}.

Definition OperationType_READ : string := "read".

Record GetAssetRequest := mkGetAssetRequest {
  assetReq_AssetID : string;
  assetReq_OperationType : string
}.

Record GetAssetResponse := mkGetAssetResponse {
  asset_ResourceMetadata : ResourceMetadata;
  asset_Details : ResourceDetails;
  asset_Credentials : string
}.

(** ** pkg/model/policymanager *)

Definition ActionType_READ : string := "read".
Definition ActionType_WRITE : string := "write".
Definition ActionType_DELETE : string := "delete".

Record RequestAction := mkRequestAction {
  reqAction_ActionType : string;
  reqAction_ProcessingLocation : string;
  reqAction_Destination : string
}.

Record Resource := mkResource { res_ID : string; res_Metadata : option ResourceMetadata }.

Record ResultItem := mkResultItem { result_Policy : string; result_Action : Action }.

Record GetPolicyDecisionsRequest := mkGetPolicyDecisionsRequest {
  pdReq_Context : Properties;
  pdReq_Action : RequestAction;
  pdReq_Resource : Resource
}.

Record GetPolicyDecisionsResponse := mkGetPolicyDecisionsResponse {
  pdResp_DecisionID : string;
  pdResp_Result : list ResultItem
}.

(** ** pkg/model/adminrules *)

Definition StatusTrue : string := "True".
Definition StatusFalse : string := "False".
Definition StatusUnknown : string := "Unknown".

(** [type Restriction map[string]StringList] *)
Notation Restriction := (gomap (list string)).

Record DecisionPolicy := mkDecisionPolicy {
  policy_ID : string;
  policy_PolicySetID : string;
  policy_Description : string;
  policy_Version : string
}.

Record Restrictions := mkRestrictions {
  restr_Clusters : Restriction;
  restr_Modules : Restriction;
  restr_StorageAccounts : Restriction
}.

(** [adminrules.Decision]; the name [Decision] is taken by the class of decidable
    propositions. *)
Record RuleDecision := mkDecision {
  decision_Deploy : string;
  decision_DeploymentRestrictions : Restrictions;
  decision_Policy : DecisionPolicy
}.

Record DecisionPerCapability := mkDecisionPerCapability {
  dpc_Capability : string;
  dpc_Decision : RuleDecision
}.

Record EvaluationOutputStructure := mkEvaluationOutput { evalOut_Config : list DecisionPerCapability }.

(** The zero value of [adminrules.Decision], which a lookup of an absent
    capability gives. *)
Definition zeroPolicy : DecisionPolicy := mkDecisionPolicy "" "" "" "".
Definition zeroDecision : RuleDecision :=
  mkDecision "" (mkRestrictions None None None) zeroPolicy.

(** ** pkg/multicluster *)

Record ClusterMetadata := mkClusterMetadata {
  cluster_Region : string;
  cluster_Zone : string;
  cluster_VaultAuthPath : string
}.

Record Cluster := mkCluster { cluster_Name : string; cluster_Metadata : ClusterMetadata }.

Definition zeroCluster : Cluster := mkCluster "" (mkClusterMetadata "" "" "").

(** [CreateCluster] reads the cluster-metadata config map. *)
Definition CreateCluster (cmData : gmap string string) : Cluster :=
  let get k := default "" (cmData !! k) in
  mkCluster (get "ClusterName") (mkClusterMetadata (get "Region") (get "Zone") (get "VaultAuthPath")).

(** ** manager/apis/app/v1alpha1: shared types *)

Definition ReadFlow : string := "read".
Definition WriteFlow : string := "write".
Definition DeleteFlow : string := "delete".
Definition CopyFlow : string := "copy".

(** [corev1.ConditionStatus] *)
Definition ConditionTrue : string := "True".
Definition ConditionFalse : string := "False".
Definition ConditionUnknown : string := "Unknown".

Definition ErrorCondition : string := "Error".
Definition DenyCondition : string := "Deny".
Definition ReadyCondition : string := "Ready".
Definition ValidCondition : string := "Valid".

Record Condition := mkCondition {
  cond_Type : string;
  cond_Status : string;
  cond_Message : string;
  cond_ObservedGeneration : Z
}.

Record ObservedState := mkObservedState { os_Ready : bool; os_Error : string }.

Record Selector := mkSelector {
  selector_ClusterName : string;
  selector_WorkloadSelector : LabelSelector
}.

Record Vault := mkVault {
  vault_Role : string;
  vault_SecretPath : string;
  vault_Address : string;
  vault_AuthPath : string
}.

Definition zeroVault : Vault := mkVault "" "" "" "".

Record DataStore := mkDataStore {
  ds_Vault : gmap string Vault;
  ds_Connection : Connection;
  ds_Format : string
}.

Record ResourceReference := mkResourceReference {
  ref_Name : string;
  ref_Namespace : string;
  ref_Kind : string;
  ref_AppVersion : Z
}.

(** ** FybrikModule *)

Definition Asset : string := "asset".
Definition Workload : string := "workload".
Definition ClusterScope : string := "cluster".
Definition DependencyType_Module : string := "module".

Record ModuleInOut := mkModuleInOut {
  inout_Source : option InterfaceDetails;
  inout_Sink : option InterfaceDetails
}.

Record Dependency := mkDependency { dep_Type : string; dep_Name : string }.

Record Plugin := mkPlugin { plugin_PluginType : string; plugin_DataFormat : string }.

Record ModuleSupportedAction := mkModuleSupportedAction { supported_Name : string }.

Record ModuleCapability := mkModuleCapability {
  capability_Capability : string;
  capability_Scope : string;
  capability_SupportedInterfaces : list ModuleInOut;
  capability_API : option ResourceDetails;
  capability_Actions : list ModuleSupportedAction;
  capability_Plugins : list Plugin
}.

Record ResourceStatusIndicator := mkResourceStatusIndicator {
  indicator_Kind : string;
  indicator_SuccessCondition : string;
  indicator_FailureCondition : string;
  indicator_ErrorMessage : string
}.

Record ChartSpec := mkChartSpec {
  chart_Name : string;
  chart_ChartPullSecret : string;
  chart_Values : gmap string string
}.

Record FybrikModuleSpec := mkFybrikModuleSpec {
  modspec_Description : string;
  modspec_Type : string;
  modspec_PluginType : string;
  modspec_Dependencies : list Dependency;
  modspec_Capabilities : list ModuleCapability;
  modspec_Chart : ChartSpec;
  modspec_StatusIndicators : list ResourceStatusIndicator
}.

Record FybrikModuleStatus := mkFybrikModuleStatus { modstatus_Conditions : list Condition }.

Record FybrikModule := mkFybrikModule {
  module_Meta : ObjectMeta;
  module_Spec : FybrikModuleSpec;
  module_Status : FybrikModuleStatus
}.
Definition module_Name (m : FybrikModule) : string := meta_Name (module_Meta m).

(** ** FybrikApplication *)

Record CatalogRequirements := mkCatalogRequirements { catalog_Service : string; catalog_CatalogID : string }.

Record CopyRequirements := mkCopyRequirements {
  copy_Required : bool;
  copy_Catalog : CatalogRequirements
}.

Record DataRequirements := mkDataRequirements {
  requirements_Interface : InterfaceDetails;
  requirements_Copy : CopyRequirements
}.

Record DataContext := mkDataContext {
  DataSetID : string;
  CatalogService : string;
  Requirements : DataRequirements
}.

Record FybrikApplicationSpec := mkFybrikApplicationSpec {
  appspec_Selector : Selector;
  appspec_SecretRef : string;
  appspec_AppInfo : AppInfo;
  appspec_Data : list DataContext
}.

(** Messages reported to the user. *)
Definition InvalidAssetID : string := "the asset does not exist".
Definition ReadAccessDenied : string := "governance policies forbid access to the data".
Definition CopyNotAllowed : string :=
  "copy of the data is required but can not be done according to the governance policies".
Definition WriteNotAllowed : string := "governance policies forbid writing of the data".
Definition ModuleNotFound : string := "no module has been registered".
Definition InsufficientStorage : string := "no bucket was provisioned for implicit copy".
Definition InvalidClusterConfiguration : string :=
  "cluster configuration does not support the requirements".
Definition InvalidAssetDataStore : string := "the asset data store is not supported".

Record DatasetDetails := mkDatasetDetails { dataset_DatasetRef : string; dataset_SecretRef : string }.

Record AssetState := mkAssetState {
  state_Conditions : list Condition;
  state_CatalogedAsset : string;
  state_Endpoint : Connection
}.

Definition zeroConnection : Connection := mkConnection "" (mkProperties None).
Definition zeroAssetState : AssetState := mkAssetState [] "" zeroConnection.

Record FybrikApplicationStatus := mkFybrikApplicationStatus {
  appstatus_Ready : bool;
  appstatus_ErrorMessage : string;
  appstatus_AssetStates : gomap AssetState;
  appstatus_ObservedGeneration : Z;
  appstatus_ValidatedGeneration : Z;
  appstatus_ValidApplication : string;
  appstatus_Generated : option ResourceReference;
  appstatus_ProvisionedStorage : gomap DatasetDetails
}.

Record FybrikApplication := mkFybrikApplication {
  app_Meta : ObjectMeta;
  app_Spec : FybrikApplicationSpec;
  app_Status : FybrikApplicationStatus
}.
Definition app_Name (a : FybrikApplication) : string := meta_Name (app_Meta a).
Definition app_Namespace (a : FybrikApplication) : string := meta_Namespace (app_Meta a).

Definition ApplicationClusterLabel : string := "app.fybrik.io/app-cluster".
Definition ApplicationNamespaceLabel : string := "app.fybrik.io/app-namespace".
Definition ApplicationNameLabel : string := "app.fybrik.io/app-name".

(** ** FybrikStorageAccount *)

Record FybrikStorageAccountSpec := mkFybrikStorageAccountSpec {
  account_ID : string;
  account_SecretRef : string;
  account_Endpoints : gmap string string
}.

Record FybrikStorageAccount := mkFybrikStorageAccount {
  account_Meta : ObjectMeta;
  account_Spec : FybrikStorageAccountSpec
}.

(** ** Plotter *)

Record AssetDetails := mkAssetDetails {
  AdvertisedAssetID : string;
  assetDetails_DataStore : DataStore
}.

Record StepSource := mkStepSource {
  source_AssetID : string;
  source_API : option ResourceDetails
}.

Record StepSink := mkStepSink { sink_AssetID : string }.

Record StepParameters := mkStepParameters {
  params_Source : option StepSource;
  params_Sink : option StepSink;
  params_API : option ResourceDetails;
  params_Actions : list Action
}.

Record DataFlowStep := mkDataFlowStep {
  step_Name : string;
  step_Cluster : string;
  step_Template : string;
  step_Parameters : option StepParameters
}.

Definition InitTrigger : string := "init".
Definition WorkloadTrigger : string := "workload".
Definition TimerTrigger : string := "timer".

Record SubFlow := mkSubFlow {
  subflow_Name : string;
  subflow_FlowType : string;
  subflow_Triggers : list string;
  subflow_Steps : list (list DataFlowStep)
}.

Record Flow := mkFlow {
  flow_Name : string;
  flow_FlowType : string;
  flow_AssetID : string;
  flow_SubFlows : list SubFlow
}.

Record ModuleInfo := mkModuleInfo {
  info_Name : string;
  info_Type : string;
  info_Chart : ChartSpec;
  info_Scope : string
}.

Record Template := mkTemplate { template_Name : string; template_Modules : list ModuleInfo }.

Record PlotterSpec := mkPlotterSpec {
  plotter_Selector : Selector;
  plotter_Assets : gmap string AssetDetails;
  plotter_Flows : list Flow;
  plotter_ModulesNamespace : string;
  plotter_Templates : gmap string Template
}.

(** ** Blueprint *)

Record CopyModuleArgs := mkCopyModuleArgs {
  copyArgs_Source : DataStore;
  copyArgs_Destination : DataStore;
  copyArgs_AssetID : string;
  copyArgs_Transformations : list Action
}.

Record ReadModuleArgs := mkReadModuleArgs {
  readArgs_Source : DataStore;
  readArgs_AssetID : string;
  readArgs_Transformations : list Action
}.

Record WriteModuleArgs := mkWriteModuleArgs {
  writeArgs_Destination : DataStore;
  writeArgs_AssetID : string;
  writeArgs_Transformations : list Action
}.

Record ModuleArguments := mkModuleArguments {
  args_Labels : gomap string;
  args_AppSelector : LabelSelector;
  args_Copy : option CopyModuleArgs;
  args_Read : list ReadModuleArgs;
  args_Write : list WriteModuleArgs
}.

Record BlueprintModule := mkBlueprintModule {
  bpmodule_Name : string;
  bpmodule_Chart : ChartSpec;
  bpmodule_Arguments : ModuleArguments;
  bpmodule_AssetIDs : list string
}.

Record BlueprintSpec := mkBlueprintSpec {
  bpspec_Cluster : string;
  bpspec_ModulesNamespace : string;
  bpspec_Modules : gmap string BlueprintModule
}.

Record BlueprintStatus := mkBlueprintStatus {
  bpstatus_ObservedState : ObservedState;
  bpstatus_ObservedGeneration : Z;
  bpstatus_ModulesState : gomap ObservedState;
  bpstatus_Releases : gomap Z
}.

Record Blueprint := mkBlueprint {
  bp_Meta : ObjectMeta;
  bp_Spec : BlueprintSpec;
  bp_Status : BlueprintStatus
}.

Record MetaBlueprint := mkMetaBlueprint {
  metabp_Name : string;
  metabp_Namespace : string;
  metabp_Status : BlueprintStatus
}.

Definition CreateMetaBlueprint (b : Blueprint) : MetaBlueprint :=
  mkMetaBlueprint (meta_Name (bp_Meta b)) (meta_Namespace (bp_Meta b)) (bp_Status b).

Definition CreateMetaBlueprintWithoutState (b : Blueprint) : MetaBlueprint :=
  mkMetaBlueprint (meta_Name (bp_Meta b)) (meta_Namespace (bp_Meta b))
    (mkBlueprintStatus (mkObservedState false "") 0 (Some ∅) None).

Definition BlueprintNamespaceLabel : string := "app.fybrik.io/blueprint-namespace".
Definition BlueprintNameLabel : string := "app.fybrik.io/blueprint-name".

(** ** Plotter status (refers to blueprints) *)

Record PlotterStatus := mkPlotterStatus {
  plstatus_ObservedState : ObservedState;
  plstatus_ObservedGeneration : Z;
  plstatus_Assets : gmap string ObservedState;
  plstatus_Blueprints : gomap MetaBlueprint;
  plstatus_Conditions : list Condition;
  plstatus_ReadyTimestamp : option Z
}.

Record Plotter := mkPlotter {
  pl_Meta : ObjectMeta;
  pl_Spec : PlotterSpec;
  pl_Status : PlotterStatus
}.

(** ** Decidable equality ([reflect.DeepEqual], [equality.Semantic.DeepEqual]) *)

#[export] Instance NamespacedName_eq_dec : EqDecision NamespacedName.
Proof. solve_decision. Defined.
#[export] Instance NamespacedName_countable : Countable NamespacedName.
Proof.
  refine (inj_countable' (fun n => (nn_Name n, nn_Namespace n)) (fun p => mkNamespacedName p.1 p.2) _).
  by intros [].
Defined.
#[export] Instance ObjectMeta_eq_dec : EqDecision ObjectMeta.
Proof. solve_decision. Defined.
#[export] Instance LabelSelector_eq_dec : EqDecision LabelSelector.
Proof. solve_decision. Defined.
#[export] Instance Properties_eq_dec : EqDecision Properties.
Proof. solve_decision. Defined.
#[export] Instance Connection_eq_dec : EqDecision Connection.
Proof. solve_decision. Defined.
#[export] Instance Interface_eq_dec : EqDecision Interface.
Proof. solve_decision. Defined.
#[export] Instance Tags_eq_dec : EqDecision Tags.
Proof. solve_decision. Defined.
#[export] Instance Action_eq_dec : EqDecision Action.
Proof. solve_decision. Defined.
#[export] Instance AppInfo_eq_dec : EqDecision AppInfo.
Proof. solve_decision. Defined.
#[export] Instance ResourceColumn_eq_dec : EqDecision ResourceColumn.
Proof. solve_decision. Defined.
#[export] Instance ResourceMetadata_eq_dec : EqDecision ResourceMetadata.
Proof. solve_decision. Defined.
#[export] Instance ResourceDetails_eq_dec : EqDecision ResourceDetails.
Proof. solve_decision. Defined.
#[export] Instance GetAssetRequest_eq_dec : EqDecision GetAssetRequest.
Proof. solve_decision. Defined.
#[export] Instance GetAssetResponse_eq_dec : EqDecision GetAssetResponse.
Proof. solve_decision. Defined.
#[export] Instance RequestAction_eq_dec : EqDecision RequestAction.
Proof. solve_decision. Defined.
#[export] Instance Resource_eq_dec : EqDecision Resource.
Proof. solve_decision. Defined.
#[export] Instance ResultItem_eq_dec : EqDecision ResultItem.
Proof. solve_decision. Defined.
#[export] Instance GetPolicyDecisionsRequest_eq_dec : EqDecision GetPolicyDecisionsRequest.
Proof. solve_decision. Defined.
#[export] Instance GetPolicyDecisionsResponse_eq_dec : EqDecision GetPolicyDecisionsResponse.
Proof. solve_decision. Defined.
#[export] Instance DecisionPolicy_eq_dec : EqDecision DecisionPolicy.
Proof. solve_decision. Defined.
#[export] Instance Restrictions_eq_dec : EqDecision Restrictions.
Proof. solve_decision. Defined.
#[export] Instance RuleDecision_eq_dec : EqDecision RuleDecision.
Proof. solve_decision. Defined.
#[export] Instance DecisionPerCapability_eq_dec : EqDecision DecisionPerCapability.
Proof. solve_decision. Defined.
#[export] Instance EvaluationOutputStructure_eq_dec : EqDecision EvaluationOutputStructure.
Proof. solve_decision. Defined.
#[export] Instance ClusterMetadata_eq_dec : EqDecision ClusterMetadata.
Proof. solve_decision. Defined.
#[export] Instance Cluster_eq_dec : EqDecision Cluster.
Proof. solve_decision. Defined.
#[export] Instance Condition_eq_dec : EqDecision Condition.
Proof. solve_decision. Defined.
#[export] Instance ObservedState_eq_dec : EqDecision ObservedState.
Proof. solve_decision. Defined.
#[export] Instance Selector_eq_dec : EqDecision Selector.
Proof. solve_decision. Defined.
#[export] Instance Vault_eq_dec : EqDecision Vault.
Proof. solve_decision. Defined.
#[export] Instance DataStore_eq_dec : EqDecision DataStore.
Proof. solve_decision. Defined.
#[export] Instance ResourceReference_eq_dec : EqDecision ResourceReference.
Proof. solve_decision. Defined.
#[export] Instance ModuleInOut_eq_dec : EqDecision ModuleInOut.
Proof. solve_decision. Defined.
#[export] Instance Dependency_eq_dec : EqDecision Dependency.
Proof. solve_decision. Defined.
#[export] Instance Plugin_eq_dec : EqDecision Plugin.
Proof. solve_decision. Defined.
#[export] Instance ModuleSupportedAction_eq_dec : EqDecision ModuleSupportedAction.
Proof. solve_decision. Defined.
#[export] Instance ModuleCapability_eq_dec : EqDecision ModuleCapability.
Proof. solve_decision. Defined.
#[export] Instance ResourceStatusIndicator_eq_dec : EqDecision ResourceStatusIndicator.
Proof. solve_decision. Defined.
#[export] Instance ChartSpec_eq_dec : EqDecision ChartSpec.
Proof. solve_decision. Defined.
#[export] Instance FybrikModuleSpec_eq_dec : EqDecision FybrikModuleSpec.
Proof. solve_decision. Defined.
#[export] Instance FybrikModuleStatus_eq_dec : EqDecision FybrikModuleStatus.
Proof. solve_decision. Defined.
#[export] Instance FybrikModule_eq_dec : EqDecision FybrikModule.
Proof. solve_decision. Defined.
#[export] Instance CatalogRequirements_eq_dec : EqDecision CatalogRequirements.
Proof. solve_decision. Defined.
#[export] Instance CopyRequirements_eq_dec : EqDecision CopyRequirements.
Proof. solve_decision. Defined.
#[export] Instance DataRequirements_eq_dec : EqDecision DataRequirements.
Proof. solve_decision. Defined.
#[export] Instance DataContext_eq_dec : EqDecision DataContext.
Proof. solve_decision. Defined.
#[export] Instance FybrikApplicationSpec_eq_dec : EqDecision FybrikApplicationSpec.
Proof. solve_decision. Defined.
#[export] Instance DatasetDetails_eq_dec : EqDecision DatasetDetails.
Proof. solve_decision. Defined.
#[export] Instance AssetState_eq_dec : EqDecision AssetState.
Proof. solve_decision. Defined.
#[export] Instance FybrikApplicationStatus_eq_dec : EqDecision FybrikApplicationStatus.
Proof. solve_decision. Defined.
#[export] Instance FybrikApplication_eq_dec : EqDecision FybrikApplication.
Proof. solve_decision. Defined.
#[export] Instance FybrikStorageAccountSpec_eq_dec : EqDecision FybrikStorageAccountSpec.
Proof. solve_decision. Defined.
#[export] Instance FybrikStorageAccount_eq_dec : EqDecision FybrikStorageAccount.
Proof. solve_decision. Defined.
#[export] Instance AssetDetails_eq_dec : EqDecision AssetDetails.
Proof. solve_decision. Defined.
#[export] Instance StepSource_eq_dec : EqDecision StepSource.
Proof. solve_decision. Defined.
#[export] Instance StepSink_eq_dec : EqDecision StepSink.
Proof. solve_decision. Defined.
#[export] Instance StepParameters_eq_dec : EqDecision StepParameters.
Proof. solve_decision. Defined.
#[export] Instance DataFlowStep_eq_dec : EqDecision DataFlowStep.
Proof. solve_decision. Defined.
#[export] Instance SubFlow_eq_dec : EqDecision SubFlow.
Proof. solve_decision. Defined.
#[export] Instance Flow_eq_dec : EqDecision Flow.
Proof. solve_decision. Defined.
#[export] Instance ModuleInfo_eq_dec : EqDecision ModuleInfo.
Proof. solve_decision. Defined.
#[export] Instance Template_eq_dec : EqDecision Template.
Proof. solve_decision. Defined.
#[export] Instance PlotterSpec_eq_dec : EqDecision PlotterSpec.
Proof. solve_decision. Defined.
#[export] Instance CopyModuleArgs_eq_dec : EqDecision CopyModuleArgs.
Proof. solve_decision. Defined.
#[export] Instance ReadModuleArgs_eq_dec : EqDecision ReadModuleArgs.
Proof. solve_decision. Defined.
#[export] Instance WriteModuleArgs_eq_dec : EqDecision WriteModuleArgs.
Proof. solve_decision. Defined.
#[export] Instance ModuleArguments_eq_dec : EqDecision ModuleArguments.
Proof. solve_decision. Defined.
#[export] Instance BlueprintModule_eq_dec : EqDecision BlueprintModule.
Proof. solve_decision. Defined.
#[export] Instance BlueprintSpec_eq_dec : EqDecision BlueprintSpec.
Proof. solve_decision. Defined.
#[export] Instance BlueprintStatus_eq_dec : EqDecision BlueprintStatus.
Proof. solve_decision. Defined.
#[export] Instance Blueprint_eq_dec : EqDecision Blueprint.
Proof. solve_decision. Defined.
#[export] Instance MetaBlueprint_eq_dec : EqDecision MetaBlueprint.
Proof. solve_decision. Defined.
#[export] Instance PlotterStatus_eq_dec : EqDecision PlotterStatus.
Proof. solve_decision. Defined.
#[export] Instance Plotter_eq_dec : EqDecision Plotter.
Proof. solve_decision. Defined.
