(* ===== verification/External.v ===== *)
(** * Code outside the repository

    Functions of third-party packages the program calls are parameters, grouped
    in classes by package.  A class ending in [Laws] states documented behaviour
    of such functions; a theorem that relies on it takes it as an argument. *)
From stdpp Require Import base gmap strings list.
From S2P Require Import Prelude Types.

(** The process environment: [os.LookupEnv] and [ioutil.ReadFile] ([None] is an
    unset variable, or a file that cannot be read). *)
Class Runtime := {
  LookupEnv : string -> option string;
  ReadFile : string -> option string;
  (** [filepath.Abs] depends on the working directory *)
  Abs : string -> string + error
}.
Definition Getenv `{Runtime} (key : string) : string := default "" (LookupEnv key).

(** k8s.io/apimachinery and sigs.k8s.io/controller-runtime. *)
Class K8sMeta := {
  (** [metav1.LabelSelector.Size] *)
  LabelSelector_Size : LabelSelector -> Z;
  (** [unstructured.NestedString(obj, fields...)] *)
  NestedString : gmap string value -> list string -> string * bool * option error;
  (** [controllerutil.ContainsFinalizer], [AddFinalizer], [RemoveFinalizer] *)
  ContainsFinalizer : list string -> string -> bool;
  AddFinalizer : list string -> string -> list string;
  RemoveFinalizer : list string -> string -> list string;
  (** [apierrors.IsConflict], [client.IgnoreNotFound] on a non-nil error *)
  IsConflict : error -> bool;
  IgnoreNotFound : error -> option error
}.

(** [field.Error] of apimachinery, the message of [apierrors.NewInvalid], and the
    JSON schema validator of gojsonschema: a schema reference and a document give
    an error (the schema cannot be used) or the list of violations. *)
Record FieldError := mkFieldError { fe_Field : string; fe_Detail : string }.

Class Schema := {
  gojsonschema_Validate : string -> value -> error + list FieldError;
  NewInvalid : string -> string -> list FieldError -> error
}.

(** [equality.Semantic.DeepEqual] of apimachinery on the types it is used with: equal
    up to the difference between empty and nil maps and slices. *)
Class Semantic := {
  equal_PlotterSpec : PlotterSpec -> PlotterSpec -> bool;
  equal_BlueprintStatus : BlueprintStatus -> BlueprintStatus -> bool
}.
Class SemanticLaws `{Semantic} : Prop := {
  equal_PlotterSpec_refl s : equal_PlotterSpec s s = true;
  equal_BlueprintStatus_refl s : equal_BlueprintStatus s s = true
}.

(** The value a path of keys leads to inside nested objects. *)
Fixpoint nested (obj : gmap string value) (fields : list string) : option value :=
  match fields with
  | [] => Some (VMap obj)
  | f :: fs =>
      match obj !! f, fs with
      | Some v, [] => Some v
      | Some (VMap m), _ => nested m fs
      | _, _ => None
      end
  end.

(** "NestedString returns the string value of a nested field. Returns false if
    value is not found and an error if not a string." *)
Class NestedStringLaws `{K8sMeta} : Prop := {
  NestedString_found obj fs s :
    nested obj fs = Some (VString s) -> NestedString obj fs = (s, true, None);
  NestedString_missing obj fs s found e :
    nested obj fs = None -> NestedString obj fs = (s, found, e) -> found = false \/ e <> None;
  NestedString_not_string obj fs v s found e :
    nested obj fs = Some v -> (forall t, v <> VString t) ->
    NestedString obj fs = (s, found, e) -> e <> None
}.

(** Adding a finalizer makes it present, removing it makes it absent, and other
    finalizers are not touched. *)
Class FinalizerLaws `{K8sMeta} : Prop := {
  Contains_Add fs f : ContainsFinalizer (AddFinalizer fs f) f = true;
  Contains_Remove fs f : ContainsFinalizer (RemoveFinalizer fs f) f = false;
  Contains_Add_other fs f g : f <> g ->
    ContainsFinalizer (AddFinalizer fs f) g = ContainsFinalizer fs g;
  Contains_Remove_other fs f g : f <> g ->
    ContainsFinalizer (RemoveFinalizer fs f) g = ContainsFinalizer fs g
}.

(** ** A concrete instance, used where definitions are evaluated *)
Module Concrete.

Definition NestedString (obj : gmap string value) (fs : list string) : string * bool * option error :=
  match nested obj fs with
  | Some (VString s) => (s, true, None)
  | Some _ => ("", false, Some (newError "accessor error: not a string"))
  | None => ("", false, None)
  end.

Definition k8s : K8sMeta := {|
  LabelSelector_Size s := Z.of_nat (size (MatchLabels s) + length (MatchExpressions s));
  External.NestedString := NestedString;
  ContainsFinalizer fs f := bool_decide (f ∈ fs);
  AddFinalizer fs f := if bool_decide (f ∈ fs) then fs else fs ++ [f];
  RemoveFinalizer fs f := filter (fun g => g <> f) fs;
  IsConflict e := String.eqb (StatusReason e) "Conflict";
  IgnoreNotFound e := if String.eqb (StatusReason e) "NotFound" then None else Some e
|}.

Lemma k8s_nested : @NestedStringLaws k8s.
Proof.
  split; simpl; unfold NestedString.
  - by intros obj fs s ->.
  - intros obj fs s found e ->. intros [= <- <- <-]. by left.
  - intros obj fs v s found e -> Hv E. destruct v; simplify_eq; try done. by destruct (Hv s).
Qed.

Lemma k8s_finalizers : @FinalizerLaws k8s.
Proof.
  split; simpl; intros.
  - apply bool_decide_eq_true. case_bool_decide; set_solver.
  - apply bool_decide_eq_false. rewrite list_elem_of_filter. naive_solver.
  - apply bool_decide_ext. case_bool_decide; set_solver.
  - apply bool_decide_ext. rewrite list_elem_of_filter. naive_solver.
Qed.

(** An environment given by a finite list of variables and no readable file. *)
Definition env (vars : list (string * string)) : Runtime := {|
  LookupEnv k := (list_to_map vars : gmap string string) !! k;
  ReadFile _ := None;
  Abs p := inl p
|}.

(** A validator that accepts every document. *)
Definition accept_all : Schema := {|
  gojsonschema_Validate _ _ := inr [];
  NewInvalid kind name _ := newError (kind +:+ " " +:+ name +:+ " is invalid")
|}.

(** Semantic equality as equality. *)
Definition semantic : Semantic := {|
  equal_PlotterSpec a b := bool_decide (a = b);
  equal_BlueprintStatus a b := bool_decide (a = b)
|}.
Lemma semantic_laws : @SemanticLaws semantic.
Proof. split; intros s; simpl; by rewrite bool_decide_true. Qed.

End Concrete.
