(* ===== verification/Utils.v ===== *)
(** * Helpers of the manager

    [manager/controllers/utils] (names, configuration, sets of strings, object
    updates) and [pkg/vault/vault_paths.go], [pkg/environment]. *)
From stdpp Require Import base gmap strings list numbers.
From Stdlib Require Import Ascii.
From S2P Require Import Prelude GoStrings Sha512 Types External.

(** ** utils.go *)

Definition IsDenied (actionName : string) : bool := actionName =? "Deny".

Definition HasString (value : string) (values : list string) : bool :=
  existsb (fun v => v =? value) values.

(** [Hash]: the first [hashLength] hexadecimal digits of the SHA-512 digest. *)
Definition Hash (value : string) (hashLength : nat) : string :=
  let hashedStr := Sha512.EncodeToString (Sha512.Sum512 value) in
  if Nat.leb (String.length hashedStr) hashLength then hashedStr
  else str_take hashLength hashedStr.

(** [ShortenedName]: slicing below zero panics. *)
Definition ShortenedName (name : string) (maxLength hashLength : nat) : outcome string :=
  if Nat.ltb maxLength (String.length name) then
    if Nat.ltb maxLength (hashLength + 1) then Panic "slice bounds out of range"
    else
      let cutOffIndex := maxLength - hashLength - 1 in
      let prefix := str_take cutOffIndex name in
      let suffix := Hash (str_drop cutOffIndex name) hashLength in
      Done (prefix +:+ "-" +:+ suffix)
  else Done name.

Definition K8sConformName (name : string) : outcome string := ShortenedName name 63 5.
Definition HelmConformName (name : string) : outcome string := ShortenedName name 53 5.

Definition GetReleaseNameByStepName (applicationName namespace moduleInstanceName : string) : outcome string :=
  let fullName := applicationName +:+ "-" +:+ namespace +:+ "-" +:+ moduleInstanceName in
  HelmConformName fullName.

Definition GetReleaseName (applicationName namespace instanceName : string) : outcome string :=
  GetReleaseNameByStepName applicationName namespace instanceName.

Definition CreateStepName (moduleName assetID : string) : string :=
  moduleName +:+ "-" +:+ Hash assetID 10.

(** [Intersection]: the elements of [set1], in order, that occur in [set2]. *)
Fixpoint Intersection (set1 set2 : list string) : list string :=
  match set1 with
  | [] => []
  | e :: es =>
      if existsb (fun e2 => e =? e2) set2 then e :: Intersection es set2
      else Intersection es set2
  end.

Definition FybrikAppUUID : string := "app.fybrik.io/app-uuid".

Definition GetFybrikApplicationUUID (fapp : FybrikApplication) : string :=
  meta_UID (app_Meta fapp).

Definition GetFybrikApplicationUUIDfromAnnotations (annotations : gomap string) : string :=
  default "UUID missing" (mget annotations FybrikAppUUID).

(** ** vault.go and pkg/vault/vault_paths.go *)

Definition GetAuthPath (authPath : string) : string :=
  if authPath =? "" then "" else "/v1/auth/" +:+ authPath +:+ "/login".

Definition vaultPluginPath : string := "kubernetes-secrets".
Definition PathForReadingKubeSecret (secretNamespace secretName : string) : string :=
  let pluginPath := "/v1/" +:+ vaultPluginPath +:+ "/" in
  pluginPath +:+ secretName +:+ "?namespace=" +:+ secretNamespace.

(** ** configuration.go, environmentVariable.go, pkg/environment *)
Section Configuration.
Context `{Runtime}.

Definition VaultEnabledKey : string := "VAULT_ENABLED".
Definition VaultAddressKey : string := "VAULT_ADDRESS".
Definition VaultModulesRoleKey : string := "VAULT_MODULES_ROLE".
Definition EnableWebhooksKey : string := "ENABLE_WEBHOOKS".
Definition DatapathLimitKey : string := "DATAPATH_LIMIT".
Definition CatalogConnectorServiceAddressKey : string := "CATALOG_CONNECTOR_URL".

Definition DefaultModulesNamespace : string := "fybrik-blueprints".
Definition DefaultControllerNamespace : string := "fybrik-system".

Definition GetSystemNamespace : string :=
  match ReadFile "/var/run/secrets/kubernetes.io/serviceaccount/namespace" with
  | Some data =>
      let ns := TrimSpace data in
      if Nat.ltb 0 (String.length ns) then ns else DefaultControllerNamespace
  | None => DefaultControllerNamespace
  end.

Definition IsVaultEnabled : bool := Getenv VaultEnabledKey =? "true".
Definition GetModulesRole : string := Getenv VaultModulesRoleKey.
Definition GetVaultAddress : string := Getenv VaultAddressKey.
Definition GetDataCatalogServiceAddress : string := Getenv CatalogConnectorServiceAddressKey.

Definition GetDataPathMaxSize : Z * option error :=
  let defaultLimit := 2%Z in
  let limitStr := Getenv DatapathLimitKey in
  if limitStr =? "" then (defaultLimit, None)
  else match Atoi limitStr with
       | Some limit => (limit, None)
       | None => (defaultLimit, Some (newError ("strconv.Atoi: parsing " +:+ limitStr)))
       end.

Definition GetDefaultModulesNamespace : string :=
  let ns := Getenv "MODULES_NAMESPACE" in
  if Nat.eqb (String.length ns) 0 then DefaultModulesNamespace else ns.

Definition GetControllerNamespace : string :=
  let ns := Getenv "CONTROLLER_NAMESPACE" in
  if Nat.eqb (String.length ns) 0 then DefaultControllerNamespace else ns.

Definition GetApplicationNamespace : string := Getenv "APPLICATION_NAMESPACE".

Definition GetEnvAsInt (key : string) (defaultValue : Z) : Z :=
  match LookupEnv key with
  | Some env => match Atoi env with Some i => i | None => defaultValue end
  | None => defaultValue
  end.

Definition MustGetEnv (key : string) : string * option error :=
  match LookupEnv key with
  | Some value => (value, None)
  | None => ("", Some (newError ("missing required environment variable: " +:+ key)))
  end.
End Configuration.

(** ** StructToMap of a cluster: the JSON members of [multicluster.Cluster], with
    [omitempty] on the zone and on the Vault path. *)
Definition omitempty (k v : string) (m : gmap string value) : gmap string value :=
  if v =? "" then m else <[k := VString v]> m.

Definition StructToMap_Cluster (c : Cluster) : gmap string value :=
  let md := cluster_Metadata c in
  {[ "name" := VString (cluster_Name c);
     "metadata" := VMap
       (omitempty "zone" (cluster_Zone md)
         (omitempty "vaultAuthPath" (cluster_VaultAuthPath md)
           {[ "region" := VString (cluster_Region md) ]})) ]}.

(** ** Lemmas *)

Lemma HasString_spec v vs : HasString v vs = true <-> v ∈ vs.
Proof.
  unfold HasString. rewrite existsb_exists, list_elem_of_In.
  split; [intros (x & Hx & ->%String.eqb_eq); done|].
  intros Hv. exists v. by rewrite String.eqb_refl.
Qed.

Lemma Hash_length v n : n <= 128 -> String.length (Hash v n) = n.
Proof.
  intros Hn. unfold Hash.
  assert (String.length (Sha512.EncodeToString (Sha512.Sum512 v)) = 128) as E.
  { by rewrite Sha512.EncodeToString_length, Sha512.Sum512_length. }
  rewrite E. case (Nat.leb_spec 128 n); intros; [lia|]. apply str_take_length. lia.
Qed.

(** A shortened name exists when there is room for the dash and the hash; a name
    within the limit is kept, a longer one becomes exactly [maxLength] bytes long
    and keeps the first [maxLength - hashLength - 1] bytes. *)
Lemma ShortenedName_cases name maxLength hashLength :
  hashLength + 1 <= maxLength -> hashLength <= 128 ->
  exists s, ShortenedName name maxLength hashLength = Done s /\
    if Nat.leb (String.length name) maxLength then s = name
    else String.length s = maxLength /\
         exists suffix, s = str_take (maxLength - hashLength - 1) name +:+ suffix.
Proof.
  intros Hm Hh. unfold ShortenedName.
  case (Nat.ltb_spec maxLength (String.length name)); intros Hlen.
  - case (Nat.ltb_spec maxLength (hashLength + 1)); intros; [lia|].
    eexists; split; [done|].
    case (Nat.leb_spec (String.length name) maxLength); intros; [lia|].
    split; [|by eexists].
    rewrite !str_length_app, str_take_length, Hash_length by lia. simpl. lia.
  - eexists; split; [done|].
    case (Nat.leb_spec (String.length name) maxLength); intros; [done|lia].
Qed.

Lemma Intersection_elem e s1 s2 : e ∈ Intersection s1 s2 <-> e ∈ s1 /\ e ∈ s2.
Proof.
  induction s1 as [|x s1 IH]; simpl; [set_solver|].
  destruct (existsb _ s2) eqn:E.
  - apply existsb_exists in E as (y & Hy & ->%String.eqb_eq).
    apply list_elem_of_In in Hy. set_solver.
  - assert (x ∉ s2); [|set_solver].
    intros Hx. apply list_elem_of_In in Hx.
    assert (existsb (fun e2 => x =? e2) s2 = true); [|congruence].
    apply existsb_exists. exists x. by rewrite String.eqb_refl.
Qed.

Lemma Intersection_sublist s1 s2 : sublist (Intersection s1 s2) s1.
Proof. induction s1 as [|x s1 IH]; simpl; [done|]. destruct (existsb _ s2); by constructor. Qed.

Lemma K8sConformName_returns name : exists s, K8sConformName name = Done s.
Proof. destruct (ShortenedName_cases name 63 5) as (s & E & _); [lia..|]. by exists s. Qed.

Lemma GetReleaseName_returns applicationName namespace instanceName :
  exists s, GetReleaseName applicationName namespace instanceName = Done s.
Proof.
  destruct (ShortenedName_cases (applicationName +:+ "-" +:+ namespace +:+ "-" +:+ instanceName) 53 5)
    as (s & E & _); [lia..|]. by exists s.
Qed.
