(* ===== verification/Policy.v ===== *)
(** * Governance decisions

    [manager/controllers/app/policy_compiler_interface.go]: the request to the
    policy manager, the validation of its response and the extraction of the
    governance actions; [pkg/taxonomy/validate/resource.go]; and the JSON form of
    [taxonomy.Action] and [taxonomy.Connection] in [pkg/model/taxonomy]. *)
From stdpp Require Import base gmap strings list.
From S2P Require Import Prelude GoStrings Types External Utils.

(** ** JSON of actions and connections

    [MarshalJSON] writes the name and then every additional property, which may
    overwrite it; [UnmarshalJSON] takes the name out of the object and panics when
    it is not a string. *)
Definition namedMarshal (name : string) (props : Properties) : value :=
  VMap (gm (Items props) ∪ {[ "name" := VString name ]}).

Definition namedUnmarshal (v : value) : outcome (string * Properties + error) :=
  match v with
  | VMap items =>
      match items !! "name" with
      | Some (VString name) =>
          let rest := delete "name" items in
          Done (inl (name, mkProperties (if decide (rest = ∅) then None else Some rest)))
      | _ => Panic "interface conversion: items[name] is not a string"
      end
  | VNull => Panic "interface conversion: items[name] is nil"
  | _ => Done (inr (newError "json: cannot unmarshal into Go value of type map[string]interface {}"))
  end.

Definition Action_MarshalJSON (o : Action) : value :=
  namedMarshal (action_Name o) (action_AdditionalProperties o).
Definition Action_UnmarshalJSON (v : value) : outcome (Action + error) :=
  r ← namedUnmarshal v;
  mret (match r with inl (n, p) => inl (mkAction n p) | inr e => inr e end).

Definition Connection_MarshalJSON (o : Connection) : value :=
  namedMarshal (connection_Name o) (connection_AdditionalProperties o).
Definition Connection_UnmarshalJSON (v : value) : outcome (Connection + error) :=
  r ← namedUnmarshal v;
  mret (match r with inl (n, p) => inl (mkConnection n p) | inr e => inr e end).

(** The JSON document of a policy manager response. *)
Definition ResultItem_JSON (r : ResultItem) : value :=
  VMap {[ "policy" := VString (result_Policy r); "action" := Action_MarshalJSON (result_Action r) ]}.
Definition PolicyResponse_JSON (r : GetPolicyDecisionsResponse) : value :=
  VMap (omitempty "decision_id" (pdResp_DecisionID r)
          {[ "result" := VList (ResultItem_JSON <$> pdResp_Result r) ]}).

(** ** The policy manager

    [clients.PolicyManager.GetPoliciesDecisions(request, credentials)]: any
    service, answering a request with a response or an error. *)
Definition PolicyManager : Type :=
  GetPolicyDecisionsRequest -> string -> GetPolicyDecisionsResponse + error.

Section Policy.
Context `{Runtime, Schema}.

(** [validate.TaxonomyCheck] *)
Definition TaxonomyCheck (resource : value) (schemaPath : string) : list FieldError * option error :=
  match Abs schemaPath with
  | inr e => ([], Some (newError ("could not get absolute path for the schema: " +:+ Error e)))
  | inl path =>
      match gojsonschema_Validate ("file://" +:+ path) resource with
      | inl e => ([], Some (newError ("could not validate resource against the provided schema: " +:+ Error e)))
      | inr violations => (violations, None)
      end
  end.

Definition PolicyManagerTaxonomy : string :=
  "/tmp/taxonomy/policymanager.json#/definitions/GetPolicyDecisionsResponse".

Definition ConstructOpenAPIReq (datasetID : string) (input : FybrikApplication)
    (operation : RequestAction) : GetPolicyDecisionsRequest :=
  mkGetPolicyDecisionsRequest
    (appInfo_Properties (appspec_AppInfo (app_Spec input)))
    operation
    (mkResource datasetID
      (Some (mkResourceMetadata "" "" "" (Some (mkTags (mkProperties (Some ∅)))) []))).

Definition ValidatePolicyDecisionsResponse (response : GetPolicyDecisionsResponse)
    (taxonomyFile : string) : option error :=
  match TaxonomyCheck (PolicyResponse_JSON response) taxonomyFile with
  | (_, Some err) => Some err
  | ([], None) => None
  | (allErrs, None) =>
      Some (NewInvalid "PolicyManager-GetPolicyDecisionsResponse" (pdResp_DecisionID response) allErrs)
  end.

(** The loop over the result items: it stops at the first denial, with the
    actions collected so far. *)
Fixpoint collectActions (actionType : string) (result : list ResultItem) (actions : list Action)
    : list Action * option error :=
  match result with
  | [] => (actions, None)
  | item :: rest =>
      if IsDenied (action_Name (result_Action item)) then
        let message :=
          if actionType =? ActionType_READ then ReadAccessDenied
          else if actionType =? ActionType_WRITE then WriteNotAllowed
          else "" in
        (actions, Some (newError message))
      else collectActions actionType rest (actions ++ [result_Action item])
  end.

(** The credentials passed along with a request: the Vault path of the secret
    named in the application, when there is one and Vault is enabled. *)
Definition requestCredentials (input : FybrikApplication) : string :=
  if appspec_SecretRef (app_Spec input) <>? "" then
    if negb IsVaultEnabled then ""
    else GetVaultAddress +:+
         PathForReadingKubeSecret (app_Namespace input) (appspec_SecretRef (app_Spec input))
  else "".

Definition LookupPolicyDecisions (datasetID : string) (policyManager : PolicyManager)
    (application : FybrikApplication) (op : RequestAction) : list Action * option error :=
  let openapiReq := ConstructOpenAPIReq datasetID application op in
  let creds := requestCredentials application in
  match policyManager openapiReq creds with
  | inr err => ([], Some err)
  | inl openapiResp =>
      match ValidatePolicyDecisionsResponse openapiResp PolicyManagerTaxonomy with
      | Some err => ([], Some (newError ("Validation error: " +:+ Error err)))
      | None =>
          collectActions (reqAction_ActionType (pdReq_Action openapiReq)) (pdResp_Result openapiResp) []
      end
  end.
End Policy.

(** ** Lemmas *)

Definition denies (r : GetPolicyDecisionsResponse) : bool :=
  existsb (fun i => IsDenied (action_Name (result_Action i))) (pdResp_Result r).

Lemma collectActions_spec ty result acc :
  collectActions ty result acc =
    if existsb (fun i => IsDenied (action_Name (result_Action i))) result
    then (fst (collectActions ty result acc),
          Some (newError (if ty =? ActionType_READ then ReadAccessDenied
                          else if ty =? ActionType_WRITE then WriteNotAllowed else "")))
    else (acc ++ (result_Action <$> result), None).
Proof.
  revert acc. induction result as [|i result IH]; intros acc; simpl.
  - by rewrite app_nil_r.
  - destruct (IsDenied _) eqn:E; [done|]. simpl. rewrite IH at 1.
    rewrite <- app_assoc. by destruct (existsb _ result).
Qed.

Section PolicyLemmas.
Context `{Runtime, Schema}.

(** Without an error every action of the response is returned, in order, and
    none of them is a denial. *)
Lemma LookupPolicyDecisions_ok ds pm a op actions :
  LookupPolicyDecisions ds pm a op = (actions, None) ->
  exists resp, pm (ConstructOpenAPIReq ds a op) (requestCredentials a) = inl resp /\
    denies resp = false /\ actions = result_Action <$> pdResp_Result resp.
Proof.
  unfold LookupPolicyDecisions. destruct (pm _ _) as [resp|e]; [|done].
  destruct (ValidatePolicyDecisionsResponse _ _); [done|].
  rewrite collectActions_spec. intros E. exists resp. split; [done|].
  unfold denies. destruct (existsb _ _); simplify_eq/=; done.
Qed.

(** A valid response with a denial gives the error of the requested action. *)
Lemma LookupPolicyDecisions_denied ds pm a op resp :
  pm (ConstructOpenAPIReq ds a op) (requestCredentials a) = inl resp ->
  ValidatePolicyDecisionsResponse resp PolicyManagerTaxonomy = None ->
  denies resp = true ->
  snd (LookupPolicyDecisions ds pm a op) =
    Some (newError (if reqAction_ActionType op =? ActionType_READ then ReadAccessDenied
                    else if reqAction_ActionType op =? ActionType_WRITE then WriteNotAllowed else "")).
Proof.
  intros Hpm Hv Hd. unfold LookupPolicyDecisions. rewrite Hpm, Hv.
  rewrite collectActions_spec. unfold denies in Hd. by rewrite Hd.
Qed.
End PolicyLemmas.
