(* ===== verification/Proto.v ===== *)
(** * Messages of the gRPC connectors

    The structs that protoc generates from the connector interfaces
    ([pkg/connectors/protobuf]), as far as the clients use them.  An enumeration of
    protobuf is open: any 32-bit number can arrive, so it is a [Z] with named values.
    A message in a field is a pointer ([option]); the elements of a repeated field are
    not nil, and a string is valid UTF-8, as the wire format ensures. *)
From stdpp Require Import base gmap strings list numbers.
From S2P Require Import Prelude.

Module pb.

(** ** Requests to a policy manager *)

Definition AccessOperation_UNKNOWN : Z := 0.
Definition AccessOperation_READ : Z := 1.
Definition AccessOperation_COPY : Z := 2.
Definition AccessOperation_WRITE : Z := 3.

Record DatasetIdentifier := mkDatasetIdentifier { DatasetId : string }.

Record AccessOperation := mkAccessOperation { op_Type : Z; op_Destination : string }.

Record DatasetContext := mkDatasetContext {
  dc_Dataset : option DatasetIdentifier;
  dc_Operation : option AccessOperation
}.

Record ApplicationDetails := mkApplicationDetails {
  ad_ProcessingGeography : string;
  ad_Properties : gomap string
}.

Record ApplicationContext := mkApplicationContext {
  ac_CredentialPath : string;
  ac_AppInfo : option ApplicationDetails;
  ac_Datasets : list DatasetContext;
  ac_GeneralOperations : list AccessOperation
}.

(** ** Answers of a policy manager *)

Definition EnforcementAction_UNKNOWN : Z := 0.
Definition EnforcementAction_DATASET : Z := 1.
Definition EnforcementAction_COLUMN : Z := 2.
Definition EnforcementAction_ROW : Z := 3.
Definition EnforcementAction_CELL : Z := 4.

Record EnforcementAction := mkEnforcementAction {
  ea_Name : string;
  ea_Id : string;
  ea_Level : Z;
  ea_Args : gomap string
}.

Record Policy := mkPolicy {
  policy_Id : string;
  policy_Name : string;
  policy_Description : string;
  policy_Type : string;
  policy_Hierarchy : list string
}.

Record OperationDecision := mkOperationDecision {
  od_Operation : option AccessOperation;
  od_EnforcementActions : list EnforcementAction;
  od_UsedPolicies : list Policy
}.

Record DatasetDecision := mkDatasetDecision {
  dd_Dataset : option DatasetIdentifier;
  dd_Decisions : list OperationDecision
}.

Record ComponentVersion := mkComponentVersion {
  cv_Name : string;
  cv_Id : string;
  cv_Version : string
}.

Record PoliciesDecisions := mkPoliciesDecisions {
  pd_ComponentVersions : list ComponentVersion;
  pd_DatasetDecisions : list DatasetDecision;
  pd_GeneralDecisions : list OperationDecision
}.

(** ** Data catalogs *)

Definition DataStore_UNKNOWN : Z := 0.
Definition DataStore_LOCAL : Z := 1.
Definition DataStore_S3 : Z := 2.
Definition DataStore_DB2 : Z := 3.
Definition DataStore_KAFKA : Z := 4.

Record CatalogDatasetRequest := mkCatalogDatasetRequest {
  cdr_CredentialPath : string;
  cdr_DatasetId : string
}.

Record DataComponentMetadata := mkDataComponentMetadata {
  dcm_ComponentType : string;
  dcm_NamedMetadata : gomap string;
  dcm_Tags : list string
}.

Record DatasetMetadata := mkDatasetMetadata {
  dm_DatasetNamedMetadata : gomap string;
  dm_DatasetTags : list string;
  dm_ComponentsMetadata : gomap (option DataComponentMetadata)
}.

Record Db2DataStore := mkDb2DataStore {
  db2_Url : string;
  db2_Database : string;
  db2_Table : string;
  db2_Port : string;
  db2_Ssl : string
}.

Record S3DataStore := mkS3DataStore {
  s3_Endpoint : string;
  s3_Bucket : string;
  s3_ObjectKey : string;
  s3_Region : string
}.

Record KafkaDataStore := mkKafkaDataStore {
  kafka_TopicName : string;
  kafka_BootstrapServers : string;
  kafka_SchemaRegistry : string;
  kafka_KeyDeserializer : string;
  kafka_ValueDeserializer : string;
  kafka_SecurityProtocol : string;
  kafka_SaslMechanism : string;
  kafka_SslTruststore : string;
  kafka_SslTruststorePassword : string
}.

Record DataStore := mkDataStore {
  store_Type : Z;
  store_Name : string;
  store_Db2 : option Db2DataStore;
  store_S3 : option S3DataStore;
  store_Kafka : option KafkaDataStore
}.

Record CredentialsInfo := mkCredentialsInfo { VaultSecretPath : string }.

Record DatasetDetails := mkDatasetDetails {
  details_Name : string;
  details_DataOwner : string;
  details_DataStore : option DataStore;
  details_DataFormat : string;
  details_Geo : string;
  details_Metadata : option DatasetMetadata;
  details_CredentialsInfo : option CredentialsInfo
}.

Record CatalogDatasetInfo := mkCatalogDatasetInfo {
  info_DatasetId : string;
  info_Details : option DatasetDetails
}.

Record Credentials := mkCredentials {
  creds_AccessKey : string;
  creds_SecretKey : string;
  creds_Username : string;
  creds_Password : string;
  creds_ApiKey : string;
  creds_ResourceInstanceId : string
}.

Record RegisterAssetRequest := mkRegisterAssetRequest {
  reg_Creds : option Credentials;
  reg_DatasetDetails : option DatasetDetails;
  reg_DestinationCatalogId : string;
  reg_CredentialPath : string
}.

Record RegisterAssetResponse := mkRegisterAssetResponse { reg_AssetId : string }.

(** ** Getters

    A generated getter of a nil message gives the zero value of the field. *)

Definition GetDestination (o : option AccessOperation) : string := from_option op_Destination "" o.
Definition GetType (o : option AccessOperation) : Z := from_option op_Type AccessOperation_UNKNOWN o.
Definition GetDatasetId (d : option DatasetIdentifier) : string := from_option DatasetId "" d.
Definition GetProcessingGeography (a : option ApplicationDetails) : string :=
  from_option ad_ProcessingGeography "" a.
Definition GetProperties (a : option ApplicationDetails) : gomap string := a ≫= ad_Properties.
Definition GetComponentsMetadata (m : DatasetMetadata) : gomap (option DataComponentMetadata) :=
  dm_ComponentsMetadata m.

#[export] Instance Policy_eq_dec : EqDecision Policy.
Proof. solve_decision. Defined.
#[export] Instance EnforcementAction_eq_dec : EqDecision EnforcementAction.
Proof. solve_decision. Defined.
#[export] Instance AccessOperation_eq_dec : EqDecision AccessOperation.
Proof. solve_decision. Defined.
#[export] Instance DatasetIdentifier_eq_dec : EqDecision DatasetIdentifier.
Proof. solve_decision. Defined.
#[export] Instance OperationDecision_eq_dec : EqDecision OperationDecision.
Proof. solve_decision. Defined.
#[export] Instance DatasetDecision_eq_dec : EqDecision DatasetDecision.
Proof. solve_decision. Defined.
End pb.
