(* ===== verification/PolicyClient.v ===== *)
(** * Clients of the policy manager

    [pkg/connectors/policymanager/clients]: the facade of a policy manager that is
    reached over gRPC, with the conversions between the models and the protobuf
    messages ([policymanager_grpc.go]); the facade over OpenAPI
    ([policymanager_openapi.go]); the merge of the decisions of several policy managers
    ([policymanager.go]); and [pkg/random]. *)
From stdpp Require Import base gmap strings list numbers.
From Stdlib Require Import Ascii.
From S2P Require Import Prelude GoStrings Sha512 Types External Utils Policy Proto.

(** ** Requests *)

(** The loop over the datasets of a request, of which one is expected. *)
Fixpoint readDatasets (datasets : list pb.DatasetContext) (action : RequestAction) (resource : Resource)
    : RequestAction * Resource :=
  match datasets with
  | [] => (action, resource)
  | dataset :: rest =>
      let operation := pb.dc_Operation dataset in
      let action := action <| reqAction_Destination := pb.GetDestination operation |> in
      let operationType := pb.GetType operation in
      let action :=
        if Z.eqb operationType pb.AccessOperation_READ
        then action <| reqAction_ActionType := ActionType_READ |> else action in
      let action :=
        if Z.eqb operationType pb.AccessOperation_WRITE
        then action <| reqAction_ActionType := ActionType_WRITE |> else action in
      readDatasets rest action (resource <| res_ID := pb.GetDatasetId (pb.dc_Dataset dataset) |>)
  end.

Definition ConvertGrpcReqToOpenAPIReq (ctx : pb.ApplicationContext) : GetPolicyDecisionsRequest * string :=
  let '(action, resource) :=
    readDatasets (pb.ac_Datasets ctx) (mkRequestAction "" "" "") (mkResource "" None) in
  let processingGeo := pb.GetProcessingGeography (pb.ac_AppInfo ctx) in
  let action := action <| reqAction_ProcessingLocation := processingGeo |> in
  let properties := pb.GetProperties (pb.ac_AppInfo ctx) in
  let property k := VString (default "" (mget properties k)) in
  let reqContext := <["role" := property "role"]> {[ "intent" := property "intent" ]} in
  (mkGetPolicyDecisionsRequest (mkProperties (Some reqContext)) action resource,
   pb.ac_CredentialPath ctx).

(** [if s, ok := context[k].(string); ok { properties[k] = s }] *)
Definition stringProperty (context : gomap value) (k : string) (properties : gmap string string)
    : gmap string string :=
  match mget context k with Some (VString s) => <[k := s]> properties | _ => properties end.

Definition grpcActionType (actionType : string) : Z :=
  if actionType =? ActionType_READ then pb.AccessOperation_READ
  else if actionType =? ActionType_WRITE then pb.AccessOperation_WRITE
  else pb.AccessOperation_READ.

Definition ConvertOpenAPIReqToGrpcReq (req : GetPolicyDecisionsRequest) (creds : string)
    : pb.ApplicationContext :=
  let action := pdReq_Action req in
  let context := Items (pdReq_Context req) in
  let properties := stringProperty context "role" (stringProperty context "intent" ∅) in
  let appInfo := pb.mkApplicationDetails (reqAction_ProcessingLocation action) (Some properties) in
  let dataset := pb.mkDatasetIdentifier (res_ID (pdReq_Resource req)) in
  let operation := pb.mkAccessOperation (grpcActionType (reqAction_ActionType action))
                     (reqAction_Destination action) in
  pb.mkApplicationContext creds (Some appInfo) [pb.mkDatasetContext (Some dataset) (Some operation)] [].

(** ** Answers *)

(** The action and the policy appended for each column of a column-level action. *)
Definition columnEnforcement (emitted policy : string) (col : value)
    : outcome (pb.EnforcementAction * pb.Policy) :=
  match col with
  | VString s =>
      Done (pb.mkEnforcementAction emitted (emitted +:+ "-ID") pb.EnforcementAction_COLUMN
              (Some {[ "column_name" := s ]}),
            pb.mkPolicy "" "" policy "" [])
  | _ => Panic "interface conversion: column name is not a string"
  end.

Definition columnEnforcements (emitted : string) (item : ResultItem)
    : outcome (list pb.EnforcementAction * list pb.Policy) :=
  match Items (action_AdditionalProperties (result_Action item)) with
  | Some m =>
      match m !! "columns" with
      | Some (VList colNames) => (fun l => (l.*1, l.*2)) <$> mapM (columnEnforcement emitted (result_Policy item)) colNames
      | _ => mret ([], [])
      end
  | None => mret ([], [])
  end.

Definition datasetEnforcement (name : string) : pb.EnforcementAction :=
  pb.mkEnforcementAction name (name +:+ "-ID") pb.EnforcementAction_DATASET (Some ∅).

(** What one result item appends to the enforcement actions and to the policies: the
    tests on its name follow each other. *)
Definition convertItem (item : ResultItem) : outcome (list pb.EnforcementAction * list pb.Policy) :=
  let name := action_Name (result_Action item) in
  redacted ← (if EqualFold "redact" name then columnEnforcements "redact" item else mret ([], []));
  removed ← (if EqualFold "remove" name then columnEnforcements "removed" item else mret ([], []));
  encrypted ← (if EqualFold "encrypt" name then columnEnforcements "encrypted" item else mret ([], []));
  let denied :=
    if EqualFold "deny" name
    then ([datasetEnforcement "Deny"], [pb.mkPolicy "" "" (result_Policy item) "" []]) else ([], []) in
  let allowed := if EqualFold "allow" name then [datasetEnforcement "Allow"] else [] in
  mret (redacted.1 ++ removed.1 ++ encrypted.1 ++ denied.1 ++ allowed,
        redacted.2 ++ removed.2 ++ encrypted.2 ++ denied.2).

Fixpoint convertItems (resultItems : list ResultItem) (enforcementActions : list pb.EnforcementAction)
    (usedPolicies : list pb.Policy) : outcome (list pb.EnforcementAction * list pb.Policy) :=
  match resultItems with
  | [] => mret (enforcementActions, usedPolicies)
  | item :: rest =>
      appended ← convertItem item;
      convertItems rest (enforcementActions ++ appended.1) (usedPolicies ++ appended.2)
  end.

Definition ConvertOpenAPIRespToGrpcResp (out : GetPolicyDecisionsResponse) (datasetID : string)
    (op : option pb.AccessOperation) : outcome pb.PoliciesDecisions :=
  converted ← convertItems (pdResp_Result out) [] [];
  let opaOperationDecision := pb.mkOperationDecision op converted.1 converted.2 in
  let datasetDecision :=
    pb.mkDatasetDecision (Some (pb.mkDatasetIdentifier datasetID)) [opaOperationDecision] in
  mret (pb.mkPoliciesDecisions [] [datasetDecision] []).

(** The JSON object built for a column-level action: empty for a name that is not
    known. *)
Definition columnAction (name : string) (args : gomap string) : gmap string value :=
  let arg k := default "" (mget args k) in
  let action : gmap string value := ∅ in
  let action :=
    if name =? "redact" then
      let colName := match mget args "column_name" with Some c => c | None => arg "column" end in
      <["columns" := VList [VString colName]]> (<["name" := VString "redact"]> action)
    else action in
  let action :=
    if name =? "encrypt" then
      <["columns" := VList [VString (arg "column_name")]]> (<["name" := VString "encrypt"]> action)
    else action in
  if name =? "remove" then
    <["columns" := VList [VString (arg "column_name")]]> (<["name" := VString "remove"]> action)
  else action.

Definition zeroAction : Action := mkAction "" (mkProperties None).

(** The action of a result item; the object of a column-level action goes through its
    JSON text, which leaves the object as it is. *)
Definition resultAction (a : pb.EnforcementAction) : outcome (Action + error) :=
  let name := pb.ea_Name a in
  let level := pb.ea_Level a in
  onColumns ← (if Z.eqb level pb.EnforcementAction_COLUMN
               then Action_UnmarshalJSON (VMap (columnAction name (pb.ea_Args a)))
               else mret (inl zeroAction));
  match onColumns with
  | inr err => mret (inr (newError ("error in unmarshalling actionBytes : " +:+ Error err)))
  | inl action =>
      mret (inl (if (Z.eqb level pb.EnforcementAction_DATASET || Z.eqb level pb.EnforcementAction_UNKNOWN)
                    && (name =? "Deny")
                 then mkAction "Deny" (mkProperties None) else action))
  end.

(** The loop over the enforcement actions of a decision, from position [k]. *)
Fixpoint convertActions (usedPolicies : list pb.Policy) (k : nat) (actions : list pb.EnforcementAction)
    (respResult : list ResultItem) : outcome (list ResultItem + error) :=
  match actions with
  | [] => mret (inl respResult)
  | a :: rest =>
      r ← resultAction a;
      match r with
      | inr err => mret (inr err)
      | inl action =>
          let policy := from_option pb.policy_Description "" (usedPolicies !! k) in
          convertActions usedPolicies (S k) rest
            (if pb.ea_Name a <>? "Allow" then respResult ++ [mkResultItem policy action] else respResult)
      end
  end.

Fixpoint convertDecisions (decisions : list pb.OperationDecision) (respResult : list ResultItem)
    : outcome (list ResultItem + error) :=
  match decisions with
  | [] => mret (inl respResult)
  | d :: rest =>
      r ← convertActions (pb.od_UsedPolicies d) 0 (pb.od_EnforcementActions d) respResult;
      match r with inr err => mret (inr err) | inl respResult => convertDecisions rest respResult end
  end.

Fixpoint convertDatasets (datasetDecisions : list pb.DatasetDecision) (respResult : list ResultItem)
    : outcome (list ResultItem + error) :=
  match datasetDecisions with
  | [] => mret (inl respResult)
  | d :: rest =>
      r ← convertDecisions (pb.dd_Decisions d) respResult;
      match r with inr err => mret (inr err) | inl respResult => convertDatasets rest respResult end
  end.

(** ** The clients *)
Section Clients.
(** [rand.Read] on a slice of the given length: the bytes it is filled with. *)
Context (rand_Read : nat -> list Z + error).

(** [random.Hex] *)
Definition Hex (n : nat) : string * option error :=
  match rand_Read n with
  | inr err => ("", Some err)
  | inl bytes => (Sha512.EncodeToString bytes, None)
  end.

Definition ConvertGrpcRespToOpenAPIResp (result : pb.PoliciesDecisions)
    : outcome (GetPolicyDecisionsResponse + error) :=
  let '(decisionID, _) := Hex 20 in
  r ← convertDatasets (pb.pd_DatasetDecisions result) [];
  mret (match r with
        | inr err => inr err
        | inl respResult => inl (mkGetPolicyDecisionsResponse decisionID respResult)
        end).

(** [grpcPolicyManager.GetPoliciesDecisions], with the stub of the service. *)
Definition grpc_GetPoliciesDecisions (client : pb.ApplicationContext -> pb.PoliciesDecisions + error)
    (req : GetPolicyDecisionsRequest) (creds : string) : outcome (GetPolicyDecisionsResponse + error) :=
  let appContext := ConvertOpenAPIReqToGrpcReq req creds in
  match client appContext with
  | inr err => mret (inr err)
  | inl result => ConvertGrpcRespToOpenAPIResp result
  end.
End Clients.

(** [openAPIPolicyManager.GetPoliciesDecisions], with the generated call that posts a
    request with the credentials in a header. *)
Definition openapi_GetPoliciesDecisions (name : string)
    (post : string -> GetPolicyDecisionsRequest -> GetPolicyDecisionsResponse + error) : PolicyManager :=
  fun req creds =>
    match post creds req with
    | inr err => inr (wrapError ("get policies decisions from " +:+ name +:+ " failed") err)
    | inl resp => inl resp
    end.

(** ** The merge of decisions *)

(** Grouping by a key in the order of first occurrence: the keys met so far and the
    entry of each of them. *)
Fixpoint groupBy `{Countable K} {A B : Type} (key : A -> outcome K) (new : A -> B) (add : A -> B -> B)
    (l : list A) (keys : list K) (m : gmap K B) : outcome (list K * gmap K B) :=
  match l with
  | [] => mret (keys, m)
  | a :: rest =>
      k ← key a;
      let '(keys, m) :=
        match m !! k with Some _ => (keys, m) | None => (keys ++ [k], <[k := new a]> m) end in
      groupBy key new add rest keys (alter (add a) k m)
  end.

(** The entries in the order of their keys. *)
Definition grouped `{Countable K} {B : Type} (g : list K * gmap K B) : list B :=
  omap (fun k => g.2 !! k) g.1.

Definition operationKey (d : pb.OperationDecision) : outcome (Z * string) :=
  match pb.od_Operation d with
  | Some op => Done (pb.op_Type op, pb.op_Destination op)
  | None => Panic "invalid memory address or nil pointer dereference"
  end.

Definition newOperation (d : pb.OperationDecision) : pb.OperationDecision :=
  pb.mkOperationDecision (pb.od_Operation d) [] [].
Definition addOperation (d e : pb.OperationDecision) : pb.OperationDecision :=
  pb.mkOperationDecision (pb.od_Operation e)
    (pb.od_EnforcementActions e ++ pb.od_EnforcementActions d)
    (pb.od_UsedPolicies e ++ pb.od_UsedPolicies d).

Definition compactOperationDecisions (ds : list pb.OperationDecision) : outcome (list pb.OperationDecision) :=
  grouped <$> groupBy operationKey newOperation addOperation ds [] ∅.

Definition datasetKey (d : pb.DatasetDecision) : outcome string :=
  match pb.dd_Dataset d with
  | Some dataset => Done (pb.DatasetId dataset)
  | None => Panic "invalid memory address or nil pointer dereference"
  end.

Definition newDataset (d : pb.DatasetDecision) : pb.DatasetDecision :=
  pb.mkDatasetDecision (pb.dd_Dataset d) [].
Definition addDataset (d e : pb.DatasetDecision) : pb.DatasetDecision :=
  pb.mkDatasetDecision (pb.dd_Dataset e) (pb.dd_Decisions e ++ pb.dd_Decisions d).

Definition compactDataset (d : pb.DatasetDecision) : outcome pb.DatasetDecision :=
  decisions ← compactOperationDecisions (pb.dd_Decisions d);
  mret (pb.mkDatasetDecision (pb.dd_Dataset d) decisions).

Definition compactPolicyDecisions (ds : pb.PoliciesDecisions) : outcome pb.PoliciesDecisions :=
  general ← compactOperationDecisions (pb.pd_GeneralDecisions ds);
  byID ← groupBy datasetKey newDataset addDataset (pb.pd_DatasetDecisions ds) [] ∅;
  datasets ← mapM compactDataset (grouped byID);
  mret (pb.mkPoliciesDecisions (pb.pd_ComponentVersions ds) datasets general).

Definition MergePoliciesDecisions (ins : list pb.PoliciesDecisions) : outcome pb.PoliciesDecisions :=
  compactPolicyDecisions
    (pb.mkPoliciesDecisions (ins ≫= pb.pd_ComponentVersions) (ins ≫= pb.pd_DatasetDecisions)
       (ins ≫= pb.pd_GeneralDecisions)).

(** ** Grouping

    [select key view k l]: what the elements of [l] with key [k] contribute, in
    order. *)
Definition select `{EqDecision K} {A C : Type} (key : A -> outcome K) (view : A -> list C) (k : K)
    (l : list A) : list C :=
  l ≫= (fun a => match key a with Done k' => if decide (k' = k) then view a else [] | Panic _ => [] end).

Lemma select_cons `{EqDecision K} {A C} (key : A -> outcome K) (view : A -> list C) k a l :
  select key view k (a :: l) =
    match key a with Done k' => if decide (k' = k) then view a else [] | Panic _ => [] end ++ select key view k l.
Proof. done. Qed.

Lemma select_app `{EqDecision K} {A C} (key : A -> outcome K) (view : A -> list C) k l1 l2 :
  select key view k (l1 ++ l2) = select key view k l1 ++ select key view k l2.
Proof. apply bind_app. Qed.

Lemma select_bind `{EqDecision K} {A C D} (key : A -> outcome K) (view : A -> list C) k (l : list D) f :
  select key view k (l ≫= f) = l ≫= (fun d => select key view k (f d)).
Proof.
  induction l as [|d l IH]; [done|]. by rewrite !bind_cons, select_app, IH.
Qed.

Lemma elem_of_select `{EqDecision K} {A C} (key : A -> outcome K) (view : A -> list C) k l c :
  c ∈ select key view k l <-> exists a, a ∈ l /\ key a = Done k /\ c ∈ view a.
Proof.
  unfold select. rewrite list_elem_of_bind. split.
  - intros (a & Hc & Ha). exists a. destruct (key a) as [k'|]; [|set_solver].
    destruct (decide (k' = k)) as [->|]; set_solver.
  - intros (a & Ha & E & Hc). exists a. rewrite E, decide_True by done. done.
Qed.

Lemma select_Forall2 `{EqDecision K} {A B C} (keyA : A -> outcome K) (keyB : B -> outcome K)
    (viewA : A -> list C) (viewB : B -> list C) k l1 l2 :
  Forall2 (fun a b => keyA a = keyB b /\ viewA a = viewB b) l1 l2 ->
  select keyA viewA k l1 = select keyB viewB k l2.
Proof. induction 1 as [|a b l1 l2 [Hk Hv] _ IH]; [done|]. by rewrite !select_cons, Hk, Hv, IH. Qed.

Lemma select_absent `{EqDecision K} {A C} (key : A -> outcome K) (view : A -> list C) k l :
  (forall a, a ∈ l -> key a <> Done k) -> select key view k l = [].
Proof.
  unfold select. induction l as [|a l IH]; intros Hl; [done|]. rewrite bind_cons.
  rewrite IH by set_solver. specialize (Hl a ltac:(set_solver)).
  destruct (key a) as [k'|]; [|done]. rewrite decide_False; [done|]. by intros ->.
Qed.

Section Grouping.
Context `{Countable K} {A B C : Type} (key : A -> outcome K) (new : A -> B) (add : A -> B -> B).
Context (keyB : B -> outcome K) (view : A -> list C) (viewB : B -> list C).
Context (Hnew_key : forall a, keyB (new a) = key a) (Hadd_key : forall a b, keyB (add a b) = keyB b).
Context (Hnew : forall a, viewB (new a) = []) (Hadd : forall a b, viewB (add a b) = viewB b ++ view a).

(** The keys in the list are those of the map, once each, and index their entries. *)
Record group_inv (keys : list K) (m : gmap K B) : Prop := {
  group_nodup : NoDup keys;
  group_dom k : k ∈ keys <-> is_Some (m !! k);
  group_key k b : m !! k = Some b -> keyB b = Done k
}.

Lemma group_inv_empty : group_inv [] ∅.
Proof. split; [constructor| |]; intros k; rewrite lookup_empty; [|done]. split; [set_solver|by intros [? [=]]]. Qed.

Lemma group_inv_new keys m k a :
  group_inv keys m -> key a = Done k -> m !! k = None -> group_inv (keys ++ [k]) (<[k := new a]> m).
Proof using Hnew_key.
  intros [Hn Hd Hk] Ea Em. split.
  - apply list.NoDup_app. split; [done|]. split; [|apply NoDup_singleton].
    intros x Hx ->%list_elem_of_singleton. apply Hd in Hx as [b Hb]. congruence.
  - intros x. rewrite elem_of_app, list_elem_of_singleton, lookup_insert_is_Some, Hd.
    destruct (decide (k = x)); naive_solver.
  - intros x b. rewrite lookup_insert_Some. intros [[<- <-]|[_ Hx]]; [by rewrite Hnew_key|eauto].
Qed.

Lemma group_inv_alter keys m k a : group_inv keys m -> group_inv keys (alter (add a) k m).
Proof using Hadd_key.
  intros [Hn Hd Hk]. split; [done| |].
  - intros x. by rewrite lookup_alter_is_Some.
  - intros x b. rewrite lookup_alter_Some. intros [(<- & b' & Hb & ->)|[_ Hx]]; [rewrite Hadd_key|]; eauto.
Qed.

Notation entry m k := (from_option viewB [] (m !! k)).

Lemma group_step keys m k a :
  group_inv keys m -> key a = Done k ->
  let r := match m !! k with Some _ => (keys, m) | None => (keys ++ [k], <[k := new a]> m) end in
  group_inv r.1 (alter (add a) k r.2) /\
  (forall x, x ∈ r.1 <-> x ∈ keys \/ x = k) /\
  (forall x, entry (alter (add a) k r.2) x = entry m x ++ (if decide (k = x) then view a else [])).
Proof using Hnew_key Hadd_key Hnew Hadd.
  intros Hi Ea. destruct (m !! k) as [b|] eqn:Em; simpl.
  - split; [by apply group_inv_alter|]. split.
    + intros x. split; [by left|]. intros [?| ->]; [done|]. apply (group_dom _ _ Hi). eauto.
    + intros x. destruct (decide (k = x)) as [->|Hx].
      * rewrite lookup_alter_eq, Em. simpl. apply Hadd.
      * rewrite lookup_alter_ne by done. by rewrite app_nil_r.
  - split; [by apply group_inv_alter, group_inv_new|]. split; [set_solver|].
    intros x. destruct (decide (k = x)) as [->|Hx].
    + rewrite lookup_alter_eq, lookup_insert_eq, Em. simpl. by rewrite Hadd, Hnew.
    + rewrite lookup_alter_ne, lookup_insert_ne by done. by rewrite app_nil_r.
Qed.

Lemma groupBy_run l keys m :
  group_inv keys m -> Forall (fun a => returns (key a)) l ->
  exists keys' m', groupBy key new add l keys m = Done (keys', m') /\ group_inv keys' m' /\
    (forall k, k ∈ keys' <-> k ∈ keys \/ exists a, a ∈ l /\ key a = Done k) /\
    (forall k, entry m' k = entry m k ++ select key view k l).
Proof using Hnew_key Hadd_key Hnew Hadd.
  intros Hi Hl. revert keys m Hi. induction Hl as [|a l [k Ek] _ IH]; intros keys m Hi.
  { exists keys, m. split; [done|]. split; [done|]. split; [set_solver|]. intros k. symmetry; apply app_nil_r. }
  destruct (group_step keys m k a Hi Ek) as (Hi' & Hk' & He').
  set (r := match m !! k with Some _ => (keys, m) | None => (keys ++ [k], <[k := new a]> m) end) in *.
  destruct (IH _ _ Hi') as (keys' & m' & E & Hi2 & Hk2 & He2). exists keys', m'. split; [|split; [done|split]].
  - simpl. rewrite Ek. simpl. fold r. by destruct r.
  - intros x. rewrite Hk2, Hk'. split.
    + intros [[?| ->]|(a' & ? & ?)]; [by left|right; exists a; set_solver|right; exists a'; set_solver].
    + intros [?|(a' & Ha & Ex)]; [by left; left|]. apply elem_of_cons in Ha as [->|Ha]; [|by right; exists a'].
      left; right. congruence.
  - intros x. rewrite He2, He', <- app_assoc. f_equal. unfold select. rewrite bind_cons, Ek. done.
Qed.

Lemma grouped_select keys m k :
  group_inv keys m -> select keyB viewB k (grouped (keys, m)) = entry m k.
Proof.
  intros Hi. unfold grouped; simpl.
  assert (Hsel : forall ks : list K, NoDup ks -> (forall x, x ∈ ks -> is_Some (m !! x)) ->
    select keyB viewB k (omap (fun x => m !! x) ks) = if decide (k ∈ ks) then entry m k else []).
  { induction ks as [|x ks IH]; intros Hn Hs; [by rewrite decide_False by set_solver|].
    apply list.NoDup_cons in Hn as [Hx Hn]. destruct (Hs x ltac:(set_solver)) as [b Hb].
    assert (omap (fun y => m !! y) (x :: ks) = b :: omap (fun y => m !! y) ks) as -> by (simpl; by rewrite Hb).
    rewrite select_cons, (group_key _ _ Hi _ _ Hb), IH by (try done; set_solver).
    destruct (decide (x = k)) as [->|Hxk].
    - rewrite (decide_False (P := k ∈ ks)), decide_True by set_solver. by rewrite app_nil_r, Hb.
    - simpl. destruct (decide (k ∈ ks)); [rewrite decide_True by set_solver|rewrite decide_False by set_solver]; done. }
  rewrite Hsel; [|apply Hi|intros x; apply (group_dom _ _ Hi)].
  destruct (decide (k ∈ keys)) as [|Hk]; [done|]. destruct (m !! k) eqn:Em; [|done].
  destruct Hk. apply (group_dom _ _ Hi). eauto.
Qed.

Lemma grouped_keys keys m : group_inv keys m -> keyB <$> grouped (keys, m) = Done <$> keys.
Proof.
  intros Hi. unfold grouped; simpl.
  assert (forall ks : list K, (forall x, x ∈ ks -> is_Some (m !! x)) ->
    keyB <$> omap (fun x => m !! x) ks = Done <$> ks) as Hks.
  { induction ks as [|x ks IH]; intros Hs; [done|]. destruct (Hs x ltac:(set_solver)) as [b Hb].
    assert (omap (fun y => m !! y) (x :: ks) = b :: omap (fun y => m !! y) ks) as -> by (simpl; by rewrite Hb).
    rewrite !fmap_cons, (group_key _ _ Hi _ _ Hb), IH by set_solver. done. }
  apply Hks. intros x. apply (group_dom _ _ Hi).
Qed.

(** The groups: one for each key that occurs, in which the contributions of the
    elements with that key are kept in order. *)
Lemma groupBy_grouped l :
  Forall (fun a => returns (key a)) l ->
  exists g, groupBy key new add l [] ∅ = Done g /\ NoDup g.1 /\ keyB <$> grouped g = Done <$> g.1 /\
    (forall k, k ∈ g.1 <-> exists a, a ∈ l /\ key a = Done k) /\
    (forall k, select keyB viewB k (grouped g) = select key view k l).
Proof using Hnew_key Hadd_key Hnew Hadd.
  intros Hl. destruct (groupBy_run l [] ∅ group_inv_empty Hl) as (ks & m & E & Hi & Hk & He).
  exists (ks, m). split; [done|]. split; [apply Hi|]. split; [by apply grouped_keys|]. split.
  - intros k. rewrite Hk. set_solver.
  - intros k. by rewrite grouped_select, He, lookup_empty.
Qed.
End Grouping.

(** ** The merge of decisions keeps every decision *)

Definition operationActions (op : Z * string) (ds : list pb.OperationDecision) : list pb.EnforcementAction :=
  select operationKey pb.od_EnforcementActions op ds.
Definition operationPolicies (op : Z * string) (ds : list pb.OperationDecision) : list pb.Policy :=
  select operationKey pb.od_UsedPolicies op ds.

(** The actions and the policies decided for a dataset and an operation. *)
Definition datasetActions (id : string) (op : Z * string) (p : pb.PoliciesDecisions) : list pb.EnforcementAction :=
  select datasetKey (fun d => operationActions op (pb.dd_Decisions d)) id (pb.pd_DatasetDecisions p).
Definition datasetPolicies (id : string) (op : Z * string) (p : pb.PoliciesDecisions) : list pb.Policy :=
  select datasetKey (fun d => operationPolicies op (pb.dd_Decisions d)) id (pb.pd_DatasetDecisions p).

(** Decisions in which every dataset and every operation is given. *)
Definition operations_given (ds : list pb.OperationDecision) : Prop :=
  Forall (fun d => is_Some (pb.od_Operation d)) ds.
Definition datasets_given (ds : list pb.DatasetDecision) : Prop :=
  Forall (fun d => is_Some (pb.dd_Dataset d) /\ operations_given (pb.dd_Decisions d)) ds.
Definition decisions_given (p : pb.PoliciesDecisions) : Prop :=
  datasets_given (pb.pd_DatasetDecisions p) /\ operations_given (pb.pd_GeneralDecisions p).

(** Decisions in which no operation, and no dataset, occurs twice. *)
Definition operations_unique (ds : list pb.OperationDecision) : Prop :=
  exists ops, NoDup ops /\ operationKey <$> ds = Done <$> ops.
Definition decisions_unique (p : pb.PoliciesDecisions) : Prop :=
  (exists ids, NoDup ids /\ datasetKey <$> pb.pd_DatasetDecisions p = Done <$> ids) /\
  Forall (fun d => operations_unique (pb.dd_Decisions d)) (pb.pd_DatasetDecisions p) /\
  operations_unique (pb.pd_GeneralDecisions p).

Lemma operations_given_keys ds : operations_given ds -> Forall (fun d => returns (operationKey d)) ds.
Proof.
  intros Hd. eapply Forall_impl; [|exact Hd]. intros d [op E]. unfold operationKey. rewrite E. by eexists.
Qed.

Lemma compactOperationDecisions_spec ds :
  operations_given ds ->
  exists out, compactOperationDecisions ds = Done out /\ operations_unique out /\
    (forall op, operationActions op out = operationActions op ds) /\
    (forall op, operationPolicies op out = operationPolicies op ds).
Proof.
  intros Hg%operations_given_keys. unfold compactOperationDecisions.
  destruct (groupBy_grouped operationKey newOperation addOperation operationKey
    pb.od_EnforcementActions pb.od_EnforcementActions ltac:(done) ltac:(done) ltac:(done) ltac:(done) ds Hg)
    as (g & E & Hn & Hk & _ & Ha).
  destruct (groupBy_grouped operationKey newOperation addOperation operationKey
    pb.od_UsedPolicies pb.od_UsedPolicies ltac:(done) ltac:(done) ltac:(done) ltac:(done) ds Hg)
    as (g' & E' & _ & _ & _ & Hp).
  rewrite E in E'. injection E' as <-. exists (grouped g). split; [by rewrite E|]. split; [by exists g.1|]. by split.
Qed.

Lemma compactDataset_spec d :
  operations_given (pb.dd_Decisions d) ->
  exists out, compactDataset d = Done out /\ datasetKey out = datasetKey d /\
    operations_unique (pb.dd_Decisions out) /\
    (forall op, operationActions op (pb.dd_Decisions out) = operationActions op (pb.dd_Decisions d)) /\
    (forall op, operationPolicies op (pb.dd_Decisions out) = operationPolicies op (pb.dd_Decisions d)).
Proof.
  intros (out & E & Hu & Ha & Hp)%compactOperationDecisions_spec.
  unfold compactDataset. rewrite E. eexists. split; [done|]. by split.
Qed.

Lemma grouped_datasets_given ds g :
  datasets_given ds -> datasetKey <$> grouped g = Done <$> g.1 ->
  (forall id, select datasetKey pb.dd_Decisions id (grouped g) = select datasetKey pb.dd_Decisions id ds) ->
  Forall (fun d => operations_given (pb.dd_Decisions d)) (grouped g).
Proof.
  intros Hg Hk Hs. apply list.Forall_forall. intros d Hd. apply list.Forall_forall. intros x Hx.
  assert (exists id, datasetKey d = Done id) as [id Hid].
  { apply (list_elem_of_fmap_2 datasetKey) in Hd. rewrite Hk in Hd. apply list_elem_of_fmap in Hd. naive_solver. }
  assert (x ∈ select datasetKey pb.dd_Decisions id ds) as (d' & Hd' & _ & Hx')%elem_of_select.
  { rewrite <- Hs. apply elem_of_select. by exists d. }
  unfold datasets_given in Hg. rewrite list.Forall_forall in Hg. destruct (Hg d' Hd') as [_ Ho].
  unfold operations_given in Ho. rewrite list.Forall_forall in Ho. auto.
Qed.

Lemma datasets_given_keys ds : datasets_given ds -> Forall (fun d => returns (datasetKey d)) ds.
Proof.
  intros Hd. eapply Forall_impl; [|exact Hd]. intros d [[x E] _]. unfold datasetKey. rewrite E. by eexists.
Qed.

(** The three views of the groups of datasets. *)
Lemma groupDatasets_spec ds :
  datasets_given ds ->
  exists g, groupBy datasetKey newDataset addDataset ds [] ∅ = Done g /\ NoDup g.1 /\
    datasetKey <$> grouped g = Done <$> g.1 /\
    Forall (fun d => operations_given (pb.dd_Decisions d)) (grouped g) /\
    (forall (C : Type) (view : pb.OperationDecision -> list C) op id,
      select datasetKey (fun d => select operationKey view op (pb.dd_Decisions d)) id (grouped g) =
      select datasetKey (fun d => select operationKey view op (pb.dd_Decisions d)) id ds).
Proof.
  intros Hg. pose proof (datasets_given_keys _ Hg) as Hk.
  destruct (groupBy_grouped datasetKey newDataset addDataset datasetKey
    pb.dd_Decisions pb.dd_Decisions ltac:(done) ltac:(done) ltac:(done) ltac:(done) ds Hk)
    as (g & E & Hn & Hks & _ & Hd).
  exists g. split; [done|]. split; [done|]. split; [done|]. split; [by eapply grouped_datasets_given|].
  intros C view op id.
  destruct (groupBy_grouped datasetKey newDataset addDataset datasetKey
    (fun d => select operationKey view op (pb.dd_Decisions d))
    (fun d => select operationKey view op (pb.dd_Decisions d))
    ltac:(done) ltac:(done) ltac:(done) ltac:(intros; apply select_app) ds Hk) as (g' & E' & _ & _ & _ & Hv).
  rewrite E in E'. injection E' as <-. apply Hv.
Qed.

Lemma compactDatasets_spec ds :
  Forall (fun d => operations_given (pb.dd_Decisions d)) ds ->
  exists outs, mapM compactDataset ds = Done outs /\ datasetKey <$> outs = datasetKey <$> ds /\
    Forall (fun d => operations_unique (pb.dd_Decisions d)) outs /\
    (forall id op, select datasetKey (fun d => operationActions op (pb.dd_Decisions d)) id outs =
                   select datasetKey (fun d => operationActions op (pb.dd_Decisions d)) id ds) /\
    (forall id op, select datasetKey (fun d => operationPolicies op (pb.dd_Decisions d)) id outs =
                   select datasetKey (fun d => operationPolicies op (pb.dd_Decisions d)) id ds).
Proof.
  intros Hg. rewrite list.Forall_forall in Hg.
  destruct (outcome_mapM_Forall2 compactDataset (fun d out => datasetKey out = datasetKey d /\
    operations_unique (pb.dd_Decisions out) /\
    (forall op, operationActions op (pb.dd_Decisions out) = operationActions op (pb.dd_Decisions d)) /\
    (forall op, operationPolicies op (pb.dd_Decisions out) = operationPolicies op (pb.dd_Decisions d))) ds)
    as (outs & E & H2).
  { intros d Hd. apply compactDataset_spec. auto. }
  exists outs. split; [done|]. split; [|split; [|split]].
  - symmetry. apply list_eq_Forall2, Forall2_fmap_l, Forall2_fmap_r. eapply Forall2_impl; [|exact H2]. simpl. naive_solver.
  - clear -H2. induction H2; constructor; naive_solver.
  - intros id op. symmetry. apply select_Forall2. eapply Forall2_impl; [|exact H2]. simpl. naive_solver.
  - intros id op. symmetry. apply select_Forall2. eapply Forall2_impl; [|exact H2]. simpl. naive_solver.
Qed.

Lemma compactPolicyDecisions_spec p :
  decisions_given p ->
  exists out, compactPolicyDecisions p = Done out /\ decisions_unique out /\
    pb.pd_ComponentVersions out = pb.pd_ComponentVersions p /\
    (forall op, operationActions op (pb.pd_GeneralDecisions out) = operationActions op (pb.pd_GeneralDecisions p)) /\
    (forall id op, datasetActions id op out = datasetActions id op p /\
                   datasetPolicies id op out = datasetPolicies id op p).
Proof.
  intros [Hd Hg]. unfold compactPolicyDecisions.
  destruct (compactOperationDecisions_spec _ Hg) as (general & -> & Hgu & Hga & _).
  destruct (groupDatasets_spec _ Hd) as (g & E & Hn & Hk & Hog & Hv). simpl. rewrite E. simpl.
  destruct (compactDatasets_spec _ Hog) as (outs & Eo & Hko & Hu & Ha & Hp). rewrite Eo. simpl.
  eexists. split; [done|]. split.
  { split; [exists g.1; split; [done|]; simpl; by rewrite Hko|done]. }
  split; [done|]. split; [done|]. intros id op. unfold datasetActions, datasetPolicies; simpl.
  rewrite Ha, Hp. split; apply Hv.
Qed.

(** C18: merging the decisions of several policy managers loses and invents nothing: for
    each dataset and operation the merged decisions have the enforcement actions and the
    policies of every policy manager, in their order; each dataset occurs once, with each
    of its operations once.  It asks that every decision names its dataset and its
    operation. *)
Theorem MergePoliciesDecisions_exact ins :
  Forall decisions_given ins ->
  exists out, MergePoliciesDecisions ins = Done out /\ decisions_unique out /\
    pb.pd_ComponentVersions out = ins ≫= pb.pd_ComponentVersions /\
    (forall op, operationActions op (pb.pd_GeneralDecisions out) =
                ins ≫= (fun p => operationActions op (pb.pd_GeneralDecisions p))) /\
    (forall id op, datasetActions id op out = ins ≫= datasetActions id op /\
                   datasetPolicies id op out = ins ≫= datasetPolicies id op).
Proof.
  intros Hg. unfold MergePoliciesDecisions.
  destruct (compactPolicyDecisions_spec (pb.mkPoliciesDecisions (ins ≫= pb.pd_ComponentVersions)
    (ins ≫= pb.pd_DatasetDecisions) (ins ≫= pb.pd_GeneralDecisions))) as (out & E & Hu & Hc & Hop & Hds).
  { split; apply Forall_bind; (eapply Forall_impl; [|exact Hg]); intros p [? ?]; done. }
  exists out. split; [done|]. split; [done|]. split; [done|]. split.
  - intros op. rewrite Hop. apply select_bind.
  - intros id op. destruct (Hds id op) as [-> ->]. split; apply select_bind.
Qed.

(** ** The conversion of answers *)

(** The column an enforcement action names: a redaction may also call it [column]. *)
Definition namedColumn (a : pb.EnforcementAction) : string :=
  match mget (pb.ea_Args a) "column_name", mget (pb.ea_Args a) "column" with
  | Some c, _ => c
  | None, Some c => if pb.ea_Name a =? "redact" then c else ""
  | None, None => ""
  end.

(** The action that stands for an enforcement action. *)
Definition grpcAction (a : pb.EnforcementAction) : Action :=
  if Z.eqb (pb.ea_Level a) pb.EnforcementAction_COLUMN then
    mkAction (pb.ea_Name a) (mkProperties (Some {[ "columns" := VList [VString (namedColumn a)] ]}))
  else if (Z.eqb (pb.ea_Level a) pb.EnforcementAction_DATASET
           || Z.eqb (pb.ea_Level a) pb.EnforcementAction_UNKNOWN) && (pb.ea_Name a =? "Deny")
  then mkAction "Deny" (mkProperties None) else zeroAction.

(** An action on columns must have one of the names the client knows. *)
Definition known (a : pb.EnforcementAction) : bool :=
  negb (Z.eqb (pb.ea_Level a) pb.EnforcementAction_COLUMN) ||
  existsb (String.eqb (pb.ea_Name a)) ["redact"; "encrypt"; "remove"].

Lemma resultAction_spec a :
  (known a = true -> resultAction a = Done (inl (grpcAction a))) /\
  (known a = false -> exists why, resultAction a = Panic why).
Proof.
  unfold known, resultAction, grpcAction. destruct a as [name id level args]; simpl.
  destruct (Z.eqb_spec level pb.EnforcementAction_COLUMN) as [->|Hl]; simpl.
  - unfold columnAction, namedColumn. simpl.
    destruct (String.eqb_spec name "redact") as [->|]; [|destruct (String.eqb_spec name "encrypt") as [->|];
      [|destruct (String.eqb_spec name "remove") as [->|]]];
      try (split; [intros _|done]; by destruct (mget args "column_name"), (mget args "column")).
    split; [done|].
    intros _. eexists. unfold Action_UnmarshalJSON, namedUnmarshal. by rewrite lookup_empty.
  - split; [|done]. intros _. done.
Qed.

(** The actions that are not the conventional [Allow]. *)
Definition effective (actions : list pb.EnforcementAction) : list pb.EnforcementAction :=
  filter (fun a => pb.ea_Name a <> "Allow") actions.

Lemma convertActions_spec used k actions acc :
  (forallb known actions = true -> exists rs, convertActions used k actions acc = Done (inl (acc ++ rs)) /\
     result_Action <$> rs = grpcAction <$> effective actions) /\
  (forallb known actions = false -> exists why, convertActions used k actions acc = Panic why).
Proof.
  revert k acc. induction actions as [|a actions IH]; intros k acc; simpl.
  { split; [|done]. intros _. exists []. by rewrite app_nil_r. }
  destruct (resultAction_spec a) as [Hk Hu]. destruct (known a); simpl.
  - rewrite (Hk eq_refl). simpl. unfold effective. rewrite filter_cons.
    set (acc' := if pb.ea_Name a <>? "Allow" then _ else acc).
    destruct (IH (S k) acc') as [IHk IHu]. split; [|exact IHu].
    intros (rs & -> & Hrs)%IHk. subst acc'. destruct (String.eqb_spec (pb.ea_Name a) "Allow") as [E|E]; simpl.
    + exists rs. rewrite decide_False by (by intros []). done.
    + eexists (_ :: rs). rewrite <- app_assoc. rewrite decide_True by done. split; [done|].
      rewrite !fmap_cons. simpl. by f_equal.
  - destruct (Hu eq_refl) as [why ->]. split; [done|]. by exists why.
Qed.

Lemma convertDecisions_spec ds acc :
  let actions := ds ≫= pb.od_EnforcementActions in
  (forallb known actions = true -> exists rs, convertDecisions ds acc = Done (inl (acc ++ rs)) /\
     result_Action <$> rs = grpcAction <$> effective actions) /\
  (forallb known actions = false -> exists why, convertDecisions ds acc = Panic why).
Proof.
  revert acc. induction ds as [|d ds IH]; intros acc; simpl.
  { split; [|done]. intros _. exists []. by rewrite app_nil_r. }
  rewrite forallb_app. unfold effective. rewrite list.filter_app, fmap_app.
  destruct (convertActions_spec (pb.od_UsedPolicies d) 0 (pb.od_EnforcementActions d) acc) as [Hk Hu].
  destruct (forallb known (pb.od_EnforcementActions d)); simpl.
  - destruct (Hk eq_refl) as (rs & -> & Hrs). simpl. destruct (IH (acc ++ rs)) as [IHk IHu].
    split; [|exact IHu]. intros (rs' & -> & Hrs')%IHk. exists (rs ++ rs').
    rewrite <- app_assoc, fmap_app, Hrs, Hrs'. done.
  - destruct (Hu eq_refl) as [why ->]. split; [done|]. by exists why.
Qed.

(** The enforcement actions of an answer, of all its datasets and operations. *)
Definition answerActions (g : pb.PoliciesDecisions) : list pb.EnforcementAction :=
  pb.pd_DatasetDecisions g ≫= (fun d => pb.dd_Decisions d ≫= pb.od_EnforcementActions).

Lemma convertDatasets_spec ds acc :
  let actions := ds ≫= (fun d => pb.dd_Decisions d ≫= pb.od_EnforcementActions) in
  (forallb known actions = true -> exists rs, convertDatasets ds acc = Done (inl (acc ++ rs)) /\
     result_Action <$> rs = grpcAction <$> effective actions) /\
  (forallb known actions = false -> exists why, convertDatasets ds acc = Panic why).
Proof.
  revert acc. induction ds as [|d ds IH]; intros acc; simpl.
  { split; [|done]. intros _. exists []. by rewrite app_nil_r. }
  rewrite forallb_app. unfold effective. rewrite list.filter_app, fmap_app.
  destruct (convertDecisions_spec (pb.dd_Decisions d) acc) as [Hk Hu].
  destruct (forallb known (pb.dd_Decisions d ≫= pb.od_EnforcementActions)); simpl.
  - destruct (Hk eq_refl) as (rs & -> & Hrs). simpl. destruct (IH (acc ++ rs)) as [IHk IHu].
    split; [|exact IHu]. intros (rs' & -> & Hrs')%IHk. exists (rs ++ rs').
    rewrite <- app_assoc, fmap_app, Hrs, Hrs'. done.
  - destruct (Hu eq_refl) as [why ->]. split; [done|]. by exists why.
Qed.

Section ClientFacts.
Context (rand_Read : nat -> list Z + error).

Lemma ConvertGrpcRespToOpenAPIResp_spec g :
  (forallb known (answerActions g) = true -> exists resp,
     ConvertGrpcRespToOpenAPIResp rand_Read g = Done (inl resp) /\
     result_Action <$> pdResp_Result resp = grpcAction <$> effective (answerActions g)) /\
  (forallb known (answerActions g) = false -> exists why, ConvertGrpcRespToOpenAPIResp rand_Read g = Panic why).
Proof.
  unfold ConvertGrpcRespToOpenAPIResp. destruct (Hex rand_Read 20) as [id e].
  destruct (convertDatasets_spec (pb.pd_DatasetDecisions g) []) as [Hk Hu]. split.
  - intros (rs & E & Hrs)%Hk. rewrite E. eexists. split; [done|]. exact Hrs.
  - intros [why E]%Hu. rewrite E. by exists why.
Qed.
End ClientFacts.

(** C36: the gRPC client of the policy manager translates the whole answer: the response
    has one action for each enforcement action that is not [Allow], in order: for an action on
    columns its name, which is redact, encrypt or remove, and the column given by its
    argument column_name (or column, for a redaction; the empty name when there is none); the
    denial for one that denies access to the dataset; an empty action for any other.  The
    client panics exactly when an action on columns has another name. *)
Theorem grpc_GetPoliciesDecisions_exact rand_Read client req creds g :
  client (ConvertOpenAPIReqToGrpcReq req creds) = inl g ->
  if forallb known (answerActions g)
  then exists resp, grpc_GetPoliciesDecisions rand_Read client req creds = Done (inl resp) /\
         result_Action <$> pdResp_Result resp = grpcAction <$> effective (answerActions g)
  else exists why, grpc_GetPoliciesDecisions rand_Read client req creds = Panic why.
Proof.
  intros E. unfold grpc_GetPoliciesDecisions. rewrite E.
  destruct (ConvertGrpcRespToOpenAPIResp_spec rand_Read g) as [Hk Hu].
  destruct (forallb known (answerActions g)); auto.
Qed.

Lemma denial_translated a :
  pb.ea_Name a = "Deny" ->
  pb.ea_Level a = pb.EnforcementAction_DATASET \/ pb.ea_Level a = pb.EnforcementAction_UNKNOWN ->
  grpcAction a = mkAction "Deny" (mkProperties None).
Proof. unfold grpcAction. intros -> [-> | ->]; done. Qed.

(** A denial of a policy manager that is reached over gRPC is enforced: when its
    answer denies access to the dataset, the lookup of the manager, given the response
    of the client, fails with the message for the requested action whatever else is in
    the answer. *)
Theorem grpc_denial_enforced `{Runtime, Schema} rand_Read client ds (pm : PolicyManager) app op g a resp :
  let req := ConstructOpenAPIReq ds app op in
  let creds := requestCredentials app in
  client (ConvertOpenAPIReqToGrpcReq req creds) = inl g ->
  a ∈ answerActions g -> pb.ea_Name a = "Deny" ->
  pb.ea_Level a = pb.EnforcementAction_DATASET \/ pb.ea_Level a = pb.EnforcementAction_UNKNOWN ->
  grpc_GetPoliciesDecisions rand_Read client req creds = Done (inl resp) ->
  pm req creds = inl resp ->
  ValidatePolicyDecisionsResponse resp PolicyManagerTaxonomy = None ->
  snd (LookupPolicyDecisions ds pm app op) =
    Some (newError (if reqAction_ActionType op =? ActionType_READ then ReadAccessDenied
                    else if reqAction_ActionType op =? ActionType_WRITE then WriteNotAllowed else "")).
Proof.
  intros req creds Hc Ha Hn Hl Hg Hpm Hv. eapply LookupPolicyDecisions_denied; [exact Hpm|exact Hv|].
  unfold grpc_GetPoliciesDecisions in Hg. rewrite Hc in Hg.
  destruct (ConvertGrpcRespToOpenAPIResp_spec rand_Read g) as [Hk Hu].
  destruct (forallb known (answerActions g)) eqn:E; [|destruct (Hu eq_refl); congruence].
  destruct (Hk eq_refl) as (resp' & E' & Hres). assert (resp' = resp) as -> by congruence.
  assert (mkAction "Deny" (mkProperties None) ∈ result_Action <$> pdResp_Result resp) as Hd.
  { rewrite Hres. apply list_elem_of_fmap. exists a. split; [by rewrite denial_translated|].
    apply list_elem_of_filter. split; [congruence|done]. }
  apply list_elem_of_fmap in Hd as (i & Hi & Hin). unfold denies. apply existsb_exists.
  exists i. rewrite <- Hi. split; [by apply list_elem_of_In|done].
Qed.

(** ** Answers sent and received *)

Lemma EqualFold_eq s t : EqualFold s t = true <-> ToLower s = ToLower t.
Proof. unfold EqualFold. by destruct (String.eqb_spec (ToLower s) (ToLower t)). Qed.

(** A name that is one of the known words is none of the others. *)
Lemma EqualFold_other s s' t : EqualFold s t = true -> EqualFold s' t = EqualFold s' s.
Proof. rewrite EqualFold_eq. unfold EqualFold. by intros <-. Qed.

(** The columns an action lists, when it has a list of them. *)
Definition columns (item : ResultItem) : list value :=
  match Items (action_AdditionalProperties (result_Action item)) ≫= lookup "columns" with
  | Some (VList cols) => cols
  | _ => []
  end.

Definition isString (v : value) : bool := match v with VString _ => true | _ => false end.

Lemma columnEnforcements_columns emitted item :
  columnEnforcements emitted item =
    (fun l => (l.*1, l.*2)) <$> mapM (columnEnforcement emitted (result_Policy item)) (columns item).
Proof.
  unfold columnEnforcements, columns. destruct (Items _) as [m|]; [simpl|done].
  by destruct (m !! "columns") as [[]|].
Qed.

(** What is left of an item after it has been sent over gRPC and received: a redaction
    becomes one redaction for each column, a denial stays, and an action that has no
    counterpart is dropped. *)
Definition received (item : ResultItem) : list ResultItem :=
  let name := action_Name (result_Action item) in
  if EqualFold "redact" name then
    (fun col => mkResultItem (result_Policy item)
       (mkAction "redact" (mkProperties (Some {[ "columns" := VList [col] ]})))) <$> columns item
  else if EqualFold "deny" name then
    [mkResultItem (result_Policy item) (mkAction "Deny" (mkProperties None))]
  else [].

(** The items that survive the transfer: redactions of named columns, denials and
    actions without a counterpart. *)
Definition transferable (item : ResultItem) : bool :=
  let name := action_Name (result_Action item) in
  negb (EqualFold "remove" name || EqualFold "encrypt" name || EqualFold "allow" name) &&
  (negb (EqualFold "redact" name) || forallb isString (columns item)).

(** An enforcement action with its policy that is received as an item. *)
Definition carries (p : pb.EnforcementAction * pb.Policy) (r : ResultItem) : Prop :=
  pb.ea_Name p.1 <> "Allow" /\ resultAction p.1 = Done (inl (result_Action r)) /\
  pb.policy_Description p.2 = result_Policy r.

Lemma redactions_carried policy cols :
  forallb isString cols = true ->
  exists pairs, mapM (columnEnforcement "redact" policy) cols = Done pairs /\
    Forall2 carries pairs ((fun col => mkResultItem policy
       (mkAction "redact" (mkProperties (Some {[ "columns" := VList [col] ]})))) <$> cols).
Proof.
  intros Hs. rewrite forallb_forall in Hs.
  destruct (outcome_mapM_Forall2 (columnEnforcement "redact" policy) (fun col p => carries p
    (mkResultItem policy (mkAction "redact" (mkProperties (Some {[ "columns" := VList [col] ]})))))
    cols) as (pairs & E & H2).
  - intros col Hc%list_elem_of_In%Hs. destruct col as [| | |s| |]; try discriminate. eexists. split; [done|].
    split; [done|]. split; [|done]. vm_compute. done.
  - exists pairs. split; [done|]. apply Forall2_fmap_r, Forall2_flip. exact H2.
Qed.

Lemma convertItem_carried item :
  transferable item = true ->
  exists pairs, convertItem item = Done (pairs.*1, pairs.*2) /\ Forall2 carries pairs (received item).
Proof.
  unfold transferable, convertItem, received. set (name := action_Name (result_Action item)).
  intros [[[Hrm He]%orb_false_iff Ha]%negb_true_iff%orb_false_iff Hr]%andb_true_iff. rewrite Hrm, He, Ha.
  destruct (EqualFold "redact" name) eqn:Er.
  - rewrite (EqualFold_other _ "deny" _ Er). simpl in Hr. rewrite columnEnforcements_columns.
    destruct (redactions_carried (result_Policy item) (columns item) Hr) as (pairs & -> & H2).
    exists pairs. split; [|done]. simpl. by rewrite !app_nil_r.
  - destruct (EqualFold "deny" name); simpl.
    + exists [(datasetEnforcement "Deny", pb.mkPolicy "" "" (result_Policy item) "" [])].
      split; [done|]. repeat constructor; try done.
    + exists []. split; [done|constructor].
Qed.

Lemma convertItems_carried items eas ps :
  forallb transferable items = true ->
  exists pairs, convertItems items eas ps = Done (eas ++ pairs.*1, ps ++ pairs.*2) /\
    Forall2 carries pairs (items ≫= received).
Proof.
  revert eas ps. induction items as [|i items IH]; intros eas ps; simpl.
  { intros _. exists []. rewrite !app_nil_r. by repeat constructor. }
  intros [(pairs & -> & H2)%convertItem_carried Hi]%andb_true_iff. simpl.
  destruct (IH (eas ++ pairs.*1) (ps ++ pairs.*2) Hi) as (pairs' & -> & H2').
  exists (pairs ++ pairs'). rewrite !fmap_app, <- !app_assoc. split; [done|]. by apply Forall2_app.
Qed.

Lemma convertActions_carried pre pairs rs acc :
  Forall2 carries pairs rs ->
  convertActions (pre ++ pairs.*2) (length pre) pairs.*1 acc = Done (inl (acc ++ rs)).
Proof.
  intros H2. revert pre acc. induction H2 as [|p r pairs rs (Hn & Hr & Hp) _ IH]; intros pre acc; simpl.
  { by rewrite app_nil_r. }
  rewrite Hr. simpl. rewrite list_lookup_middle by done. simpl. rewrite Hp.
  destruct (String.eqb_spec (pb.ea_Name p.1) "Allow") as [|_]; [done|]. simpl.
  specialize (IH (pre ++ [p.2]) (acc ++ [mkResultItem (result_Policy r) (result_Action r)])).
  rewrite length_app in IH. simpl in IH. rewrite Nat.add_1_r, <- app_assoc in IH. simpl in IH.
  etrans; [exact IH|]. rewrite <- app_assoc. by destruct r.
Qed.

(** C19: an answer that is sent over gRPC and received again keeps its meaning: every
    redaction arrives as one redaction for each of its columns and every denial as a
    denial, each with the policy it came from, in order.  It holds for answers without
    removals, encryptions and explicit permissions (for those see
    [removal_crashes_client] and [allow_shifts_policies]); actions without a
    counterpart are dropped. *)
Theorem decisions_roundtrip rand_Read out datasetID op :
  forallb transferable (pdResp_Result out) = true ->
  exists g, ConvertOpenAPIRespToGrpcResp out datasetID op = Done g /\
    exists id, ConvertGrpcRespToOpenAPIResp rand_Read g =
      Done (inl (mkGetPolicyDecisionsResponse id (pdResp_Result out ≫= received))).
Proof.
  intros (pairs & E & H2)%(convertItems_carried _ [] []).
  unfold ConvertOpenAPIRespToGrpcResp. rewrite E. eexists. split; [done|].
  unfold ConvertGrpcRespToOpenAPIResp. destruct (Hex rand_Read 20) as [id e]. exists id. simpl.
  pose proof (convertActions_carried [] pairs _ [] H2) as Ec. simpl in Ec. by rewrite Ec.
Qed.

(** ** Removals and encryptions *)

Definition drops (item : ResultItem) : bool :=
  let name := action_Name (result_Action item) in EqualFold "remove" name || EqualFold "encrypt" name.

Lemma columnEnforcements_unknown emitted item eas ps :
  existsb (String.eqb emitted) ["redact"; "encrypt"; "remove"] = false -> columns item <> [] ->
  columnEnforcements emitted item = Done (eas, ps) -> forallb known eas = false.
Proof.
  intros Hu Hc. rewrite columnEnforcements_columns. destruct (columns item) as [|[| | |s| |] cols]; try done.
  simpl. destruct (mapM _ cols) as [l|]; simpl; [|done]. intros [= <- <-]. simpl.
  unfold known; simpl. simpl in Hu. by rewrite Hu.
Qed.

Lemma convertItem_unknown item eas ps :
  drops item = true -> columns item <> [] -> convertItem item = Done (eas, ps) ->
  forallb known eas = false.
Proof.
  unfold drops, convertItem. set (name := action_Name (result_Action item)). intros Hd Hc E.
  apply orb_true_iff in Hd as [Hd|Hd];
    rewrite (EqualFold_other _ "redact" _ Hd), ?(EqualFold_other "remove" "encrypt" _ Hd),
            ?(EqualFold_other "encrypt" "remove" _ Hd), Hd in E; simpl in E.
  - destruct (columnEnforcements "removed" item) as [[eas' ps']|] eqn:Er; [|done].
    apply columnEnforcements_unknown in Er; [|done..].
    simpl in E. injection E as <- _. by rewrite !forallb_app, Er.
  - destruct (columnEnforcements "encrypted" item) as [[eas' ps']|] eqn:Er; [|done].
    apply columnEnforcements_unknown in Er; [|done..].
    simpl in E. injection E as <- _. by rewrite !forallb_app, Er.
Qed.

Lemma convertItems_unknown items eas ps r item :
  convertItems items eas ps = Done r -> item ∈ items -> drops item = true -> columns item <> [] ->
  forallb known r.1 = false.
Proof.
  assert (Hmono : forall items eas ps r, forallb known eas = false ->
    convertItems items eas ps = Done r -> forallb known r.1 = false).
  { clear. induction items as [|i items IH]; intros eas ps r Hu; simpl; [by intros [= <-]|].
    destruct (convertItem i) as [[a b]|]; [|done]. simpl. apply IH. by rewrite forallb_app, Hu. }
  intros E Hin Hd Hc. revert eas ps E Hin. induction items as [|i items IH]; intros eas ps; simpl; [set_solver|].
  destruct (convertItem i) as [[a b]|] eqn:Ei; simpl; [|done].
  intros E [->|Hin]%elem_of_cons; [|by eapply IH]. eapply Hmono; [|exact E].
  by rewrite forallb_app, (convertItem_unknown _ _ _ Hd Hc Ei), andb_false_r.
Qed.

(** A removal or an encryption of columns cannot be sent from one side of the gRPC
    interface to the other: it is written under the names [removed] and [encrypted],
    which the receiving client does not know, and the client panics. *)
Theorem removal_crashes_client rand_Read out datasetID op item g :
  item ∈ pdResp_Result out -> drops item = true -> columns item <> [] ->
  ConvertOpenAPIRespToGrpcResp out datasetID op = Done g ->
  exists why, ConvertGrpcRespToOpenAPIResp rand_Read g = Panic why.
Proof.
  intros Hin Hd Hc E. unfold ConvertOpenAPIRespToGrpcResp in E.
  destruct (convertItems (pdResp_Result out) [] []) as [r|] eqn:Er; [|done].
  apply (ConvertGrpcRespToOpenAPIResp_spec rand_Read g).
  pose proof (convertItems_unknown _ _ _ _ _ Er Hin Hd Hc) as Hu.
  simpl in E. injection E as <-. unfold answerActions. simpl. by rewrite !app_nil_r.
Qed.

(** ** Requests sent and received *)

(** A string property, or the empty string. *)
Definition contextString (context : gomap value) (k : string) : string :=
  match mget context k with Some (VString s) => s | _ => "" end.

Lemma stringProperty_lookup context k m k' :
  default "" (stringProperty context k m !! k') =
    if decide (k = k') then match mget context k with Some (VString s) => s | _ => default "" (m !! k') end
    else default "" (m !! k').
Proof.
  unfold stringProperty. destruct (decide (k = k')) as [->|Hk].
  - destruct (mget context k') as [[]|]; try done. by rewrite lookup_insert_eq.
  - destruct (mget context k) as [[]|]; try done. by rewrite lookup_insert_ne.
Qed.

(** A request that is sent over gRPC and received again keeps the asset, the
    location, the destination, the credentials and the intent and role of the
    application; an action other than read and write arrives as a read, other properties
    of the context and the metadata of the asset are not sent. *)
Theorem request_roundtrip req creds :
  ConvertGrpcReqToOpenAPIReq (ConvertOpenAPIReqToGrpcReq req creds) =
    (mkGetPolicyDecisionsRequest
       (mkProperties (Some {[ "intent" := VString (contextString (Items (pdReq_Context req)) "intent");
                              "role" := VString (contextString (Items (pdReq_Context req)) "role") ]}))
       (mkRequestAction
          (if reqAction_ActionType (pdReq_Action req) =? ActionType_WRITE then ActionType_WRITE else ActionType_READ)
          (reqAction_ProcessingLocation (pdReq_Action req)) (reqAction_Destination (pdReq_Action req)))
       (mkResource (res_ID (pdReq_Resource req)) None), creds).
Proof.
  unfold ConvertGrpcReqToOpenAPIReq, ConvertOpenAPIReqToGrpcReq. destruct req as [ctx [ty loc dest] [id md]]; simpl.
  assert (forall k, k = "intent" \/ k = "role" -> default "" (mget (Some (stringProperty (Items ctx) "role"
    (stringProperty (Items ctx) "intent" ∅))) k) = contextString (Items ctx) k) as Hk.
  { unfold mget, gm, contextString; simpl. intros k [-> | ->]; rewrite !stringProperty_lookup;
      rewrite ?lookup_empty; simpl; by destruct (mget (Items ctx) _) as [[]|]. }
  rewrite !Hk by auto. unfold grpcActionType.
  destruct (String.eqb_spec ty ActionType_READ) as [->|]; [simpl|destruct (String.eqb_spec ty ActionType_WRITE)];
    simpl; (do 3 f_equal); rewrite insert_singleton_ne_comm; done.
Qed.

(** ** Explicit permissions *)

(** The policy of an item is looked up at the position of its action. *)
Lemma convertActions_positions used k pairs rs acc :
  Forall2 carries pairs rs ->
  convertActions used k pairs.*1 acc =
    Done (inl (acc ++ imap (fun i r => mkResultItem (from_option pb.policy_Description "" (used !! (k + i)))
                                         (result_Action r)) rs)).
Proof.
  intros H2. revert k acc. induction H2 as [|p r pairs rs (Hn & Hr & _) _ IH]; intros k acc.
  { by rewrite app_nil_r. }
  rewrite fmap_cons. cbn [convertActions]. rewrite Hr. simpl.
  destruct (String.eqb_spec (pb.ea_Name p.1) "Allow") as [|_]; [done|]. simpl.
  etrans; [apply IH|]. rewrite <- app_assoc, Nat.add_0_r. simpl. do 4 f_equal.
  apply imap_ext. intros i x _. simpl. by rewrite Nat.add_succ_r.
Qed.

Lemma convertItem_allow item :
  EqualFold "allow" (action_Name (result_Action item)) = true ->
  convertItem item = Done ([datasetEnforcement "Allow"], []).
Proof.
  intros Ha. unfold convertItem. rewrite Ha.
  by rewrite (EqualFold_other _ "redact" _ Ha), (EqualFold_other _ "remove" _ Ha),
     (EqualFold_other _ "encrypt" _ Ha), (EqualFold_other _ "deny" _ Ha).
Qed.

Lemma carries_policies pairs rs :
  Forall2 carries pairs rs -> pb.policy_Description <$> pairs.*2 = result_Policy <$> rs.
Proof. induction 1 as [|p r pairs rs (_ & _ & Hp) _ IH]; [done|]. rewrite !fmap_cons. by rewrite Hp, IH. Qed.

(** An explicit permission takes a place among the actions but not among the policies:
    after it every action is received with the policy of the next one. *)
Lemma allow_shifts_policies rand_Read out datasetID op item rest :
  pdResp_Result out = item :: rest -> EqualFold "allow" (action_Name (result_Action item)) = true ->
  forallb transferable rest = true ->
  exists g, ConvertOpenAPIRespToGrpcResp out datasetID op = Done g /\
    exists id, ConvertGrpcRespToOpenAPIResp rand_Read g =
      Done (inl (mkGetPolicyDecisionsResponse id
        (imap (fun i r => mkResultItem (default "" ((result_Policy <$> (rest ≫= received)) !! S i))
                            (result_Action r)) (rest ≫= received)))).
Proof.
  intros Eo Ha Ht. destruct (convertItems_carried rest [datasetEnforcement "Allow"] [] Ht) as (pairs & E & H2).
  unfold ConvertOpenAPIRespToGrpcResp. rewrite Eo. cbn [convertItems]. rewrite (convertItem_allow _ Ha).
  simpl. rewrite E. eexists. split; [done|].
  unfold ConvertGrpcRespToOpenAPIResp. destruct (Hex rand_Read 20) as [id e]. exists id. simpl.
  pose proof (convertActions_positions pairs.*2 1 pairs _ [] H2) as Ec. simpl in Ec. rewrite Ec. simpl.
  do 3 f_equal. apply imap_ext. intros i r _. f_equal.
  rewrite <- (carries_policies _ _ H2), (list_lookup_fmap pb.policy_Description).
  assert (forall o, from_option pb.policy_Description "" o = default "" (pb.policy_Description <$> o)) as Ho by (by intros []).
  apply Ho.
Qed.

(** ** Instances *)
Module PolicyClientExamples.

Definition fixed_random (n : nat) : list Z + error := inl (replicate n 255%Z).

Definition redact (cols : list string) : ResultItem :=
  mkResultItem "redact personal data"
    (mkAction "RedAct" (mkProperties (Some {[ "columns" := VList (VString <$> cols) ]}))).
Definition remove (cols : list string) : ResultItem :=
  mkResultItem "remove identifiers"
    (mkAction "remove" (mkProperties (Some {[ "columns" := VList (VString <$> cols) ]}))).
Definition deny : ResultItem := mkResultItem "no access" (mkAction "Deny" (mkProperties None)).
Definition answer (items : list ResultItem) : GetPolicyDecisionsResponse := mkGetPolicyDecisionsResponse "" items.

Lemma decisions_roundtrip_witness :
  exists g, ConvertOpenAPIRespToGrpcResp (answer [redact ["ssn"; "name"]; deny]) "a" None = Done g /\
    exists id, ConvertGrpcRespToOpenAPIResp fixed_random g = Done (inl (mkGetPolicyDecisionsResponse id
      [mkResultItem "redact personal data" (mkAction "redact" (mkProperties (Some {[ "columns" := VList [VString "ssn"] ]})));
       mkResultItem "redact personal data" (mkAction "redact" (mkProperties (Some {[ "columns" := VList [VString "name"] ]})));
       deny])).
Proof.
  exact (decisions_roundtrip fixed_random (answer [redact ["ssn"; "name"]; deny]) "a" None
    ltac:(vm_compute; reflexivity)).
Defined.

Definition removed_answer : pb.PoliciesDecisions :=
  match ConvertOpenAPIRespToGrpcResp (answer [remove ["ssn"]]) "a" None with
  | Done g => g
  | Panic _ => pb.mkPoliciesDecisions [] [] []
  end.

Lemma removal_crashes_client_witness :
  exists why, ConvertGrpcRespToOpenAPIResp fixed_random removed_answer = Panic why.
Proof.
  apply (removal_crashes_client fixed_random (answer [remove ["ssn"]]) "a" None (remove ["ssn"])).
  - apply list_elem_of_here.
  - vm_compute; reflexivity.
  - vm_compute; discriminate.
  - vm_compute; reflexivity.
Defined.

Definition column (name col : string) : pb.EnforcementAction :=
  pb.mkEnforcementAction name "" pb.EnforcementAction_COLUMN (Some {[ "column_name" := col ]}).
Definition decided (actions : list pb.EnforcementAction) : pb.PoliciesDecisions :=
  pb.mkPoliciesDecisions [] [pb.mkDatasetDecision (Some (pb.mkDatasetIdentifier "a"))
    [pb.mkOperationDecision (Some (pb.mkAccessOperation pb.AccessOperation_READ "")) actions []]] [].
Definition request : GetPolicyDecisionsRequest :=
  mkGetPolicyDecisionsRequest (mkProperties None) (mkRequestAction "read" "" "") (mkResource "a" None).

Lemma grpc_GetPoliciesDecisions_exact_witness :
  exists resp, grpc_GetPoliciesDecisions fixed_random
      (fun _ => inl (decided [datasetEnforcement "Allow"; column "remove" "ssn"])) request "" = Done (inl resp) /\
    result_Action <$> pdResp_Result resp =
      [mkAction "remove" (mkProperties (Some {[ "columns" := VList [VString "ssn"] ]}))].
Proof.
  exact (grpc_GetPoliciesDecisions_exact fixed_random _ request ""
    (decided [datasetEnforcement "Allow"; column "remove" "ssn"]) eq_refl).
Defined.

Definition app0 : FybrikApplication :=
  mkFybrikApplication (mkObjectMeta "app" "ns" "" 0 None [] None None "")
    (mkFybrikApplicationSpec (mkSelector "" (mkLabelSelector ∅ [])) "" (mkAppInfo (mkProperties None)) [])
    (mkFybrikApplicationStatus false "" None 0 0 "" None None).

Definition read_op : RequestAction := mkRequestAction ActionType_READ "" "".
Definition denying_answer : pb.PoliciesDecisions := decided [column "redact" "ssn"; datasetEnforcement "Deny"].
Definition denied_response : GetPolicyDecisionsResponse :=
  mkGetPolicyDecisionsResponse "ffffffffffffffffffffffffffffffffffffffff"
    [mkResultItem "" (mkAction "redact" (mkProperties (Some {[ "columns" := VList [VString "ssn"] ]})));
     mkResultItem "" (mkAction "Deny" (mkProperties None))].

Lemma grpc_denial_enforced_witness :
  snd (@LookupPolicyDecisions (Concrete.env []) Concrete.accept_all "a" (fun _ _ => inl denied_response) app0 read_op) =
    Some (newError ReadAccessDenied).
Proof.
  apply (@grpc_denial_enforced (Concrete.env []) Concrete.accept_all fixed_random (fun _ => inl denying_answer)
    "a" (fun _ _ => inl denied_response) app0 read_op denying_answer (datasetEnforcement "Deny") denied_response);
    [reflexivity| |reflexivity|left; reflexivity|vm_compute; reflexivity|reflexivity|reflexivity].
  apply list_elem_of_further, list_elem_of_here.
Defined.

Lemma MergePoliciesDecisions_exact_witness :
  exists out, MergePoliciesDecisions [decided [column "redact" "ssn"]; denying_answer] = Done out /\
    decisions_unique out /\
    datasetActions "a" (pb.AccessOperation_READ, "") out =
      [column "redact" "ssn"; column "redact" "ssn"; datasetEnforcement "Deny"].
Proof.
  destruct (MergePoliciesDecisions_exact [decided [column "redact" "ssn"]; denying_answer])
    as (out & E & Hu & _ & _ & Hd); [repeat constructor; by eexists|].
  exists out. split; [exact E|]. split; [exact Hu|]. rewrite (proj1 (Hd _ _)). vm_compute. reflexivity.
Defined.
End PolicyClientExamples.
