(* ===== verification/CatalogClient.v ===== *)
(** * Clients of the data catalog

    [pkg/connectors/datacatalog/clients]: the facade of a catalog that is reached over
    gRPC, with the conversion of its answer ([datacatalog_grpc.go]), the facade over
    OpenAPI ([datacatalog_openapi.go]) and the choice between them
    ([datacatalog.go]). *)
From stdpp Require Import base gmap strings list numbers.
From S2P Require Import Prelude GoStrings Types External Utils Proto.

(** ** Data stores as JSON objects

    [json.Marshal] of the structs, whose members are all [omitempty], and
    [json.Unmarshal] of the text into an interface. *)
Definition S3DataStore_JSON (s : pb.S3DataStore) : value :=
  VMap (omitempty "endpoint" (pb.s3_Endpoint s) (omitempty "bucket" (pb.s3_Bucket s)
    (omitempty "object_key" (pb.s3_ObjectKey s) (omitempty "region" (pb.s3_Region s) ∅)))).

Definition Db2DataStore_JSON (d : pb.Db2DataStore) : value :=
  VMap (omitempty "url" (pb.db2_Url d) (omitempty "database" (pb.db2_Database d)
    (omitempty "table" (pb.db2_Table d) (omitempty "port" (pb.db2_Port d) (omitempty "ssl" (pb.db2_Ssl d) ∅))))).

Definition KafkaDataStore_JSON (k : pb.KafkaDataStore) : value :=
  VMap (omitempty "topic_name" (pb.kafka_TopicName k)
    (omitempty "bootstrap_servers" (pb.kafka_BootstrapServers k)
    (omitempty "schema_registry" (pb.kafka_SchemaRegistry k)
    (omitempty "key_deserializer" (pb.kafka_KeyDeserializer k)
    (omitempty "value_deserializer" (pb.kafka_ValueDeserializer k)
    (omitempty "security_protocol" (pb.kafka_SecurityProtocol k)
    (omitempty "sasl_mechanism" (pb.kafka_SaslMechanism k)
    (omitempty "ssl_truststore" (pb.kafka_SslTruststore k)
    (omitempty "ssl_truststore_password" (pb.kafka_SslTruststorePassword k) ∅))))))))).

(** A nil pointer is written as null. *)
Definition pointer_JSON {A} (json : A -> value) (p : option A) : value := from_option json VNull p.

(** ** The conversion of an answer *)

Definition ConvertDataCatalogOpenAPIReqToGrpcReq (req : GetAssetRequest) (creds : string)
    : pb.CatalogDatasetRequest :=
  pb.mkCatalogDatasetRequest creds (assetReq_AssetID req).

(** [m[tag] = true] for each tag. *)
Definition tagMap (tags : list string) : gmap string value :=
  foldl (fun m tag => <[tag := VBool true]> m) ∅ tags.

Section Conversion.
Context `{MapRange}.

(** The columns: entries without metadata are skipped. *)
Definition resourceColumns (components : gomap (option pb.DataComponentMetadata)) : list ResourceColumn :=
  omap (fun entry =>
          match entry with
          | (colName, Some compMetaData) =>
              Some (mkResourceColumn colName
                      (Some (mkTags (mkProperties (Some (tagMap (pb.dcm_Tags compMetaData)))))))
          | (_, None) => None
          end) (range (gm components)).

(** The name of the connection and its properties, by the type of the data store. *)
Definition storeConnection (store : pb.DataStore) : Connection :=
  let properties name json := mkConnection name (mkProperties (Some {[ name := json ]})) in
  if Z.eqb (pb.store_Type store) pb.DataStore_S3
  then properties "s3" (pointer_JSON S3DataStore_JSON (pb.store_S3 store))
  else if Z.eqb (pb.store_Type store) pb.DataStore_KAFKA
  then properties "kafka" (pointer_JSON KafkaDataStore_JSON (pb.store_Kafka store))
  else if Z.eqb (pb.store_Type store) pb.DataStore_DB2
  then properties "db2" (pointer_JSON Db2DataStore_JSON (pb.store_Db2 store))
  else mkConnection "local" (mkProperties (Some ∅)).

(** A field of a nil pointer. *)
Definition deref {A} (p : option A) : outcome A :=
  match p with Some a => Done a | None => Panic "invalid memory address or nil pointer dereference" end.

Definition ConvertDataCatalogGrpcRespToOpenAPIResp (result : option pb.CatalogDatasetInfo)
    : outcome (GetAssetResponse + error) :=
  details ← deref (result ≫= pb.info_Details);
  let resourceCols := resourceColumns (pb.details_Metadata details ≫= pb.GetComponentsMetadata) in
  metadata ← deref (pb.details_Metadata details);
  let tagsInResponse := mkTags (mkProperties (Some (tagMap (pb.dm_DatasetTags metadata)))) in
  let resourceMetaData :=
    mkResourceMetadata (pb.details_Name details) (pb.details_DataOwner details) (pb.details_Geo details)
      (Some tagsInResponse) resourceCols in
  store ← deref (pb.details_DataStore details);
  let responseDetails := mkResourceDetails (storeConnection store) (pb.details_DataFormat details) in
  credentials ← deref (pb.details_CredentialsInfo details);
  mret (inl (mkGetAssetResponse resourceMetaData responseDetails (pb.VaultSecretPath credentials))).

(** ** The clients *)

(** An error of a gRPC call: its status code and its message. *)
Record GrpcError := mkGrpcError { grpc_Code : Z; grpc_Message : string }.
Definition InvalidArgument : Z := 3.

(** [grpcDataCatalog.GetAssetInfo], with the stub of the service: only the code
    [InvalidArgument] is looked at, after any other error the result is nil. *)
Definition grpc_GetAssetInfo (client : pb.CatalogDatasetRequest -> pb.CatalogDatasetInfo + GrpcError)
    (req : GetAssetRequest) (creds : string) : outcome (GetAssetResponse + error) :=
  let dataCatalogReq := ConvertDataCatalogOpenAPIReqToGrpcReq req creds in
  let '(result, code) :=
    match client dataCatalogReq with inl info => (Some info, 0%Z) | inr e => (None, grpc_Code e) end in
  if Z.eqb code InvalidArgument then mret (inr (newError InvalidAssetID))
  else ConvertDataCatalogGrpcRespToOpenAPIResp result.

(** [grpcDataCatalog.RegisterDatasetInfo] *)
Definition RegisterDatasetInfo (name : string)
    (client : pb.RegisterAssetRequest -> pb.RegisterAssetResponse + error) (req : pb.RegisterAssetRequest)
    : pb.RegisterAssetResponse + error :=
  match client req with
  | inl resp => inl resp
  | inr err => inr (wrapError ("register dataset info in " +:+ name +:+ " failed") err)
  end.

(** [openAPIDataCatalog.GetAssetInfo], with the generated call. *)
Definition openapi_GetAssetInfo (name : string) (post : string -> GetAssetRequest -> GetAssetResponse + error)
    (req : GetAssetRequest) (creds : string) : outcome (GetAssetResponse + error) :=
  mret (match post creds req with
        | inr err => inr (wrapError ("get asset info from " +:+ name +:+ " failed") err)
        | inl resp => inl resp
        end).

(** [NewDataCatalog]: the generated OpenAPI client of an address, and [grpc.DialContext],
    which gives the stub of the service or an error. *)
Definition NewDataCatalog (openapi : string -> string -> GetAssetRequest -> GetAssetResponse + error)
    (dial : string -> (pb.CatalogDatasetRequest -> pb.CatalogDatasetInfo + GrpcError) + error)
    (name address : string) : (GetAssetRequest -> string -> outcome (GetAssetResponse + error)) + error :=
  if HasPrefix address "http" then inl (openapi_GetAssetInfo name (openapi address))
  else match dial address with
       | inr err =>
           inr (wrapError "failed to create GRPC data catalog client"
                  (wrapError ("NewGrpcDataCatalog failed when connecting to " +:+ address) err))
       | inl client => inl (grpc_GetAssetInfo client)
       end.
End Conversion.

(** ** What the clients promise *)

(** The members of a tag map: true for the given tags, and nothing else. *)
Lemma tagMap_lookup tags k : tagMap tags !! k = if decide (k ∈ tags) then Some (VBool true) else None.
Proof.
  unfold tagMap. rewrite <- (lookup_empty (M := gmap string) k). generalize (∅ : gmap string value).
  induction tags as [|t tags IH]; intros m; [by rewrite decide_False by set_solver|]. simpl. rewrite IH.
  destruct (decide (t = k)) as [->|Ht].
  - rewrite lookup_insert_eq, (decide_True (P := k ∈ k :: tags)) by set_solver. by destruct (decide _).
  - rewrite lookup_insert_ne by done.
    destruct (decide (k ∈ tags)); [rewrite decide_True by set_solver|rewrite decide_False by set_solver]; done.
Qed.

(** The fields that are given, under their names. *)
Definition given_fields (fields : list (string * string)) : gmap string value :=
  list_to_map ((fun kv => (kv.1, VString kv.2)) <$> filter (fun kv => kv.2 <> "") fields).

Lemma omitempty_given k v fields : omitempty k v (given_fields fields) = given_fields ((k, v) :: fields).
Proof.
  unfold given_fields, omitempty. rewrite filter_cons. simpl. destruct (String.eqb_spec v "") as [->|Hv].
  - by rewrite decide_False by tauto.
  - by rewrite decide_True.
Qed.
Lemma given_nil : ∅ = given_fields [].
Proof. done. Qed.

(** The connection that describes a data store: its type, and the details for that type
    with the fields that are given. *)
Definition connection_to (type : string) (fields : option (list (string * string))) : Connection :=
  mkConnection type (mkProperties (Some {[ type := from_option (VMap ∘ given_fields) VNull fields ]})).

Inductive describes (st : pb.DataStore) : Connection -> Prop :=
| describes_s3 : pb.store_Type st = pb.DataStore_S3 ->
    describes st (connection_to "s3" ((fun d =>
      [("endpoint", pb.s3_Endpoint d); ("bucket", pb.s3_Bucket d); ("object_key", pb.s3_ObjectKey d);
       ("region", pb.s3_Region d)]) <$> pb.store_S3 st))
| describes_db2 : pb.store_Type st = pb.DataStore_DB2 ->
    describes st (connection_to "db2" ((fun d =>
      [("url", pb.db2_Url d); ("database", pb.db2_Database d); ("table", pb.db2_Table d); ("port", pb.db2_Port d);
       ("ssl", pb.db2_Ssl d)]) <$> pb.store_Db2 st))
| describes_kafka : pb.store_Type st = pb.DataStore_KAFKA ->
    describes st (connection_to "kafka" ((fun d =>
      [("topic_name", pb.kafka_TopicName d); ("bootstrap_servers", pb.kafka_BootstrapServers d);
       ("schema_registry", pb.kafka_SchemaRegistry d); ("key_deserializer", pb.kafka_KeyDeserializer d);
       ("value_deserializer", pb.kafka_ValueDeserializer d); ("security_protocol", pb.kafka_SecurityProtocol d);
       ("sasl_mechanism", pb.kafka_SaslMechanism d); ("ssl_truststore", pb.kafka_SslTruststore d);
       ("ssl_truststore_password", pb.kafka_SslTruststorePassword d)]) <$> pb.store_Kafka st))
| describes_local : pb.store_Type st ∉ [pb.DataStore_S3; pb.DataStore_DB2; pb.DataStore_KAFKA] ->
    describes st (mkConnection "local" (mkProperties (Some ∅))).

Lemma storeConnection_describes st : describes st (storeConnection st).
Proof.
  unfold storeConnection. destruct (Z.eqb_spec (pb.store_Type st) pb.DataStore_S3) as [E|N1].
  { assert (pointer_JSON S3DataStore_JSON (pb.store_S3 st) = from_option (VMap ∘ given_fields) VNull ((fun d =>
      [("endpoint", pb.s3_Endpoint d); ("bucket", pb.s3_Bucket d); ("object_key", pb.s3_ObjectKey d);
       ("region", pb.s3_Region d)]) <$> pb.store_S3 st)) as ->; [|by apply describes_s3].
    destruct (pb.store_S3 st); simpl; [|done]. unfold S3DataStore_JSON. by rewrite given_nil, !omitempty_given. }
  destruct (Z.eqb_spec (pb.store_Type st) pb.DataStore_KAFKA) as [E|N2].
  { assert (pointer_JSON KafkaDataStore_JSON (pb.store_Kafka st) = from_option (VMap ∘ given_fields) VNull ((fun d =>
      [("topic_name", pb.kafka_TopicName d); ("bootstrap_servers", pb.kafka_BootstrapServers d);
       ("schema_registry", pb.kafka_SchemaRegistry d); ("key_deserializer", pb.kafka_KeyDeserializer d);
       ("value_deserializer", pb.kafka_ValueDeserializer d); ("security_protocol", pb.kafka_SecurityProtocol d);
       ("sasl_mechanism", pb.kafka_SaslMechanism d); ("ssl_truststore", pb.kafka_SslTruststore d);
       ("ssl_truststore_password", pb.kafka_SslTruststorePassword d)]) <$> pb.store_Kafka st)) as ->; [|by apply describes_kafka].
    destruct (pb.store_Kafka st); simpl; [|done]. unfold KafkaDataStore_JSON. by rewrite given_nil, !omitempty_given. }
  destruct (Z.eqb_spec (pb.store_Type st) pb.DataStore_DB2) as [E|N3].
  { assert (pointer_JSON Db2DataStore_JSON (pb.store_Db2 st) = from_option (VMap ∘ given_fields) VNull ((fun d =>
      [("url", pb.db2_Url d); ("database", pb.db2_Database d); ("table", pb.db2_Table d); ("port", pb.db2_Port d);
       ("ssl", pb.db2_Ssl d)]) <$> pb.store_Db2 st)) as ->; [|by apply describes_db2].
    destruct (pb.store_Db2 st); simpl; [|done]. unfold Db2DataStore_JSON. by rewrite given_nil, !omitempty_given. }
  apply describes_local. set_solver.
Qed.

(** Exactly the given tags, each set to true. *)
Definition tagged (tags : list string) (t : option Tags) : Prop :=
  exists m, t = Some (mkTags (mkProperties (Some m))) /\
    forall k, m !! k = if decide (k ∈ tags) then Some (VBool true) else None.

Lemma tagMap_tagged tags : tagged tags (Some (mkTags (mkProperties (Some (tagMap tags))))).
Proof. eexists. split; [done|]. intros k. apply tagMap_lookup. Qed.
Lemma tagged_unique tags t : tagged tags t -> t = Some (mkTags (mkProperties (Some (tagMap tags)))).
Proof. intros (m & -> & Hm). do 4 f_equal. apply map_eq. intros k. by rewrite Hm, tagMap_lookup. Qed.

Section CatalogFacts.
Context `{MapRange}.

Lemma resourceColumns_elem components c :
  c ∈ resourceColumns components <->
  exists md, mget components (column_Name c) = Some (Some md) /\ tagged (pb.dcm_Tags md) (column_Tags c).
Proof.
  unfold resourceColumns, mget. rewrite list_elem_of_omap. split.
  - intros ([k [md|]] & Hin & E); simplify_eq. apply range_elem in Hin. exists md. split; [done|]. apply tagMap_tagged.
  - intros (md & E & Et%tagged_unique). exists (column_Name c, Some md). split; [by apply range_elem|].
    destruct c as [name tags]; simpl in *. by subst.
Qed.

Lemma resourceColumns_nodup components : NoDup (column_Name <$> resourceColumns components).
Proof.
  unfold resourceColumns. pose proof (range_NoDup (gm components)) as Hn.
  induction (range (gm components)) as [|[k [md|]] l IH]; [constructor| |];
    apply list.NoDup_cons in Hn as [Hk Hn]; [|by apply IH]. simpl. constructor; [|by apply IH].
  intros (c & -> & Hc)%list_elem_of_fmap. apply list_elem_of_omap in Hc as ([k' [md'|]] & Hin & E); simplify_eq.
  apply Hk. apply list_elem_of_fmap. by exists (k', Some md').
Qed.

(** C37: the gRPC client of the data catalog reports what the catalog knows of the asset:
    its name, owner and geography, exactly its tags, one column for each component with
    metadata, with exactly its tags, a connection for the type of its data store (s3, db2, kafka, or
    local for any other) that has the fields of the details for that type which are not
    empty, its format and the path of its credentials.  It asks for an answer with metadata,
    a data store and credentials. *)
Theorem grpc_GetAssetInfo_exact client req creds info d md st cr :
  client (ConvertDataCatalogOpenAPIReqToGrpcReq req creds) = inl info ->
  pb.info_Details info = Some d -> pb.details_Metadata d = Some md ->
  pb.details_DataStore d = Some st -> pb.details_CredentialsInfo d = Some cr ->
  exists resp, grpc_GetAssetInfo client req creds = Done (inl resp) /\
    asset_Credentials resp = pb.VaultSecretPath cr /\
    describes st (details_Connection (asset_Details resp)) /\
    details_DataFormat (asset_Details resp) = pb.details_DataFormat d /\
    resource_Name (asset_ResourceMetadata resp) = pb.details_Name d /\
    resource_Owner (asset_ResourceMetadata resp) = pb.details_DataOwner d /\
    resource_Geography (asset_ResourceMetadata resp) = pb.details_Geo d /\
    tagged (pb.dm_DatasetTags md) (resource_Tags (asset_ResourceMetadata resp)) /\
    NoDup (column_Name <$> resource_Columns (asset_ResourceMetadata resp)) /\
    (forall c, c ∈ resource_Columns (asset_ResourceMetadata resp) <->
       exists comp, mget (pb.dm_ComponentsMetadata md) (column_Name c) = Some (Some comp) /\
         tagged (pb.dcm_Tags comp) (column_Tags c)).
Proof.
  intros Ec Ed Em Es Er. unfold grpc_GetAssetInfo. rewrite Ec. simpl.
  unfold ConvertDataCatalogGrpcRespToOpenAPIResp. simpl. rewrite Ed. simpl. rewrite Em, Es, Er. simpl.
  eexists. split; [reflexivity|]. simpl. split; [done|]. split; [apply storeConnection_describes|].
  repeat (split; [done|]). split; [|split].
  - apply tagMap_tagged.
  - apply resourceColumns_nodup.
  - intros c. apply resourceColumns_elem.
Qed.

(** The gRPC client reports an asset the catalog does not know as such, and panics
    on every other error of the catalog: a catalog that cannot be reached, or that
    refuses the request, stops the caller instead of giving it an error. *)
Theorem grpc_GetAssetInfo_failure client req creds e :
  client (ConvertDataCatalogOpenAPIReqToGrpcReq req creds) = inr e ->
  if Z.eqb (grpc_Code e) InvalidArgument
  then grpc_GetAssetInfo client req creds = Done (inr (newError InvalidAssetID))
  else exists why, grpc_GetAssetInfo client req creds = Panic why.
Proof.
  intros E. unfold grpc_GetAssetInfo. rewrite E. simpl. destruct (Z.eqb _ _); [done|]. by eexists.
Qed.

(** An answer without metadata, data store or credentials stops the caller too. *)
Lemma grpc_GetAssetInfo_incomplete client req creds info :
  client (ConvertDataCatalogOpenAPIReqToGrpcReq req creds) = inl info ->
  (forall d, pb.info_Details info = Some d ->
     pb.details_Metadata d = None \/ pb.details_DataStore d = None \/ pb.details_CredentialsInfo d = None) ->
  exists why, grpc_GetAssetInfo client req creds = Panic why.
Proof.
  intros E Hd. unfold grpc_GetAssetInfo. rewrite E. simpl. unfold ConvertDataCatalogGrpcRespToOpenAPIResp. simpl.
  destruct (pb.info_Details info) as [d|]; [|by eexists]. simpl. specialize (Hd d eq_refl).
  destruct (pb.details_Metadata d); simpl; [|by eexists].
  destruct (pb.details_DataStore d); simpl; [|by eexists].
  destruct (pb.details_CredentialsInfo d); simpl; [|by eexists]. naive_solver.
Qed.
End CatalogFacts.

(** ** Instances *)
Module CatalogClientExamples.

Definition info : pb.CatalogDatasetInfo := pb.mkCatalogDatasetInfo "a" (Some (pb.mkDatasetDetails
  "paysim" "alice" (Some (pb.mkDataStore pb.DataStore_S3 "cos" None
    (Some (pb.mkS3DataStore "http://s3" "demo" "paysim.csv" "")) None)) "csv" "theshire"
  (Some (pb.mkDatasetMetadata None ["finance"] (Some {[ "nameOrig" := Some (pb.mkDataComponentMetadata "column" None ["PII"]) ]})))
  (Some (pb.mkCredentialsInfo "/v1/kubernetes-secrets/paysim?namespace=default")))).

Lemma grpc_GetAssetInfo_exact_witness :
  exists resp, @grpc_GetAssetInfo canonical_range (fun _ => inl info) (mkGetAssetRequest "a" "read") "" = Done (inl resp) /\
    asset_Credentials resp = "/v1/kubernetes-secrets/paysim?namespace=default" /\
    details_Connection (asset_Details resp) = mkConnection "s3" (mkProperties (Some {[ "s3" :=
      VMap {[ "endpoint" := VString "http://s3"; "bucket" := VString "demo"; "object_key" := VString "paysim.csv" ]} ]})).
Proof.
  destruct (@grpc_GetAssetInfo_exact canonical_range (fun _ => inl info) (mkGetAssetRequest "a" "read") "" info
    _ _ _ _ eq_refl eq_refl eq_refl eq_refl eq_refl) as (resp & E & Hc & Hd & _).
  exists resp. split; [exact E|]. split; [exact Hc|]. destruct Hd as [Ht|Ht|Ht|Ht]; try discriminate Ht.
  - vm_compute. reflexivity.
  - destruct Ht. vm_compute. by left.
Defined.

Lemma grpc_GetAssetInfo_failure_witness :
  exists why, @grpc_GetAssetInfo canonical_range (fun _ => inr (mkGrpcError 14 "unavailable"))
    (mkGetAssetRequest "a" "read") "" = Panic why.
Proof.
  exact (@grpc_GetAssetInfo_failure canonical_range (fun _ => inr (mkGrpcError 14 "unavailable"))
    (mkGetAssetRequest "a" "read") "" (mkGrpcError 14 "unavailable") eq_refl).
Defined.
End CatalogClientExamples.
