(* ===== verification/AdminConfig.v ===== *)
(** * Configuration policies

    [pkg/adminconfig]: the evaluator turns the answer of the Rego engine into one
    decision per capability, merging the decisions the policies give for the same
    capability; [pkg/model/adminrules]: copies of restrictions. *)
From stdpp Require Import base gmap strings list.
From S2P Require Import Prelude GoStrings Types External Utils Policy.

(** ** Inputs and outputs *)

Record WorkloadInfo := mkWorkloadInfo {
  workload_UUID : string;
  workload_PolicySetID : string;
  workload_Cluster : Cluster;
  workload_Properties : AppInfo
}.

Record DataRequest := mkDataRequest {
  request_DatasetID : string;
  request_Interface : InterfaceDetails;
  request_Usage : gmap string bool;
  request_Metadata : option ResourceMetadata
}.

Record EvaluatorInput := mkEvaluatorInput {
  input_Workload : WorkloadInfo;
  input_Request : DataRequest;
  input_GovernanceActions : list Action
}.

Record EvaluatorOutput := mkEvaluatorOutput {
  output_Valid : bool;
  output_DatasetID : string;
  output_UUID : string;
  output_PolicySetID : string;
  output_ConfigDecisions : gmap string RuleDecision;
  output_Policies : list DecisionPolicy
}.

Definition zeroEvaluatorOutput : EvaluatorOutput := mkEvaluatorOutput false "" "" "" ∅ [].

(** [adminconfig.EvaluatorInterface] *)
Definition Evaluator : Type := EvaluatorInput -> EvaluatorOutput * option error.

(** ** [Restriction.DeepCopyInto]: [copy(outVal, val)] into a slice of length 0 *)
Definition copy_into {A} (dst src : list A) : list A :=
  take (length dst) src ++ drop (length src) dst.

Definition Restriction_DeepCopyInto (r : Restriction) : Restriction :=
  Some ((fun val => let outVal : list string := [] in copy_into outVal val) <$> gm r).

Definition Restriction_DeepCopy (r : Restriction) : Restriction :=
  match r with None => None | Some _ => Restriction_DeepCopyInto r end.

(** ** Merging *)
Section Merge.
Context `{MapRange}.

(** [mergeRestrictions(r1, r2)] updates [r1] in place, key by key of [r2], and
    stops at the first key whose values become incompatible.  The map is
    returned in every case: the caller's map has been changed. *)
Fixpoint mergeEntries (r1 : gmap string (list string)) (entries : list (string * list string))
    : gmap string (list string) * option error :=
  match entries with
  | [] => (r1, None)
  | (key, values) :: rest =>
      let current := default [] (r1 !! key) in
      if Nat.eqb (length current) 0 then mergeEntries (<[key := values]> r1) rest
      else
        let common := Intersection current values in
        let r1' := <[key := common]> r1 in
        if Nat.eqb (length common) 0 then (r1', Some (newError "unable to merge restrictions"))
        else mergeEntries r1' rest
  end.

Definition mergeRestrictions (r1 : gmap string (list string)) (r2 : Restriction)
    : gmap string (list string) * option error :=
  mergeEntries r1 (range (gm r2)).

(** The deployment status of two decisions, [None] on a conflict. *)
Definition mergeDeploy (new old : string) : option string :=
  if old =? StatusUnknown then Some new
  else if new <>? StatusUnknown then
    if new <>? old then None else Some old
  else Some old.

(** [merge(newDecision, oldDecision)].  The maps of the merged decision are the
    maps of the old one (or fresh ones where it had none), changed in place:
    the third component is the old decision as the caller sees it afterwards. *)
Definition merge (new old : RuleDecision) : bool * RuleDecision * RuleDecision :=
  match mergeDeploy (decision_Deploy new) (decision_Deploy old) with
  | None => (false, zeroDecision, old)
  | Some deploy =>
      let oldR := decision_DeploymentRestrictions old in
      let newR := decision_DeploymentRestrictions new in
      let seen c m s :=
        old <| decision_DeploymentRestrictions :=
          mkRestrictions
            (if restr_Clusters oldR is Some _ then Some c else None)
            (if restr_Modules oldR is Some _ then Some m else None)
            (if restr_StorageAccounts oldR is Some _ then Some s else None) |> in
      let '(c, cErr) := mergeRestrictions (gm (restr_Clusters oldR)) (restr_Clusters newR) in
      if cErr is Some _ then (false, zeroDecision, seen c (gm (restr_Modules oldR)) (gm (restr_StorageAccounts oldR)))
      else
        let '(m, mErr) := mergeRestrictions (gm (restr_Modules oldR)) (restr_Modules newR) in
        if mErr is Some _ then (false, zeroDecision, seen c m (gm (restr_StorageAccounts oldR)))
        else
          let '(s, sErr) := mergeRestrictions (gm (restr_StorageAccounts oldR)) (restr_StorageAccounts newR) in
          if sErr is Some _ then (false, zeroDecision, seen c m s)
          else (true, mkDecision deploy (mkRestrictions (Some c) (Some m) (Some s)) zeroPolicy, seen c m s)
  end.

(** ** [getOPADecisions] *)

(** The body of the loop over the rules of one expression; [None] when two
    decisions conflict, in which case the loop is left with the output as it is. *)
Definition addRule (policySetID : string) (out : EvaluatorOutput) (rule : DecisionPerCapability)
    : EvaluatorOutput * bool :=
  let capability := dpc_Capability rule in
  let newDecision := dpc_Decision rule in
  let newSet := policy_PolicySetID (decision_Policy newDecision) in
  if (newSet <>? "") && (policySetID <>? "") && (newSet <>? policySetID) then (out, true)
  else
    let newDecision :=
      if decision_Deploy newDecision =? ""
      then newDecision <| decision_Deploy := StatusUnknown |> else newDecision in
    let out' := out <| output_Policies := output_Policies out ++ [decision_Policy newDecision] |> in
    match output_ConfigDecisions out !! capability with
    | None =>
        (out' <| output_ConfigDecisions := <[capability := newDecision]> (output_ConfigDecisions out) |>, true)
    | Some decision =>
        let '(valid, merged, seen) := merge newDecision decision in
        if valid then
          (out' <| output_ConfigDecisions := <[capability := merged]> (output_ConfigDecisions out) |>, true)
        else
          (out' <| output_ConfigDecisions := <[capability := seen]> (output_ConfigDecisions out) |>, false)
    end.

Fixpoint addRules (policySetID : string) (out : EvaluatorOutput) (rules : list DecisionPerCapability)
    : EvaluatorOutput * bool :=
  match rules with
  | [] => (out, true)
  | rule :: rest =>
      let '(out', ok) := addRule policySetID out rule in
      if ok then addRules policySetID out' rest else (out', false)
  end.

Context `{Runtime, Schema}.
Definition ValidationPath : string :=
  "/tmp/taxonomy/adminrules.json#/definitions/EvaluationOutputStructure".

Definition validateStructure (obj : value) (taxonomySchema uuid : string) : option error :=
  match TaxonomyCheck obj ValidationPath with
  | (_, Some err) => Some err
  | ([], None) => None
  | (allErrs, None) => Some (NewInvalid "ConfigurationPolicies-ExpressionValue" uuid allErrs)
  end.

(** The Rego engine and the YAML codec are third-party code. *)
Context (Eval : value -> list (list value) + error)
  (decodeOutput : value -> EvaluationOutputStructure + error)
  (encodeInput : EvaluatorInput -> value + error).

(** The expressions of all results, in order.  The boolean tells whether the
    loop ran to its end without a conflict. *)
Fixpoint addExpressions (in_ : EvaluatorInput) (out : EvaluatorOutput) (exprs : list value)
    : EvaluatorOutput * bool * option error :=
  match exprs with
  | [] => (out, true, None)
  | expr :: rest =>
      match validateStructure expr ValidationPath (workload_UUID (input_Workload in_)) with
      | Some err => (out, false, Some err)
      | None =>
          match decodeOutput expr with
          | inr err => (out, false, Some (newError ("Unexpected OPA response structure: " +:+ Error err)))
          | inl evalStruct =>
              let '(out', ok) :=
                addRules (workload_PolicySetID (input_Workload in_)) out (evalOut_Config evalStruct) in
              if ok then addExpressions in_ out' rest else (out', false, None)
          end
      end
  end.

Definition getOPADecisions (in_ : EvaluatorInput) (rs : list (list value)) (out : EvaluatorOutput)
    : EvaluatorOutput * option error :=
  let out := out <| output_Valid := false |> in
  match rs with
  | [] => (out, Some (newError "invalid opa evaluation - an empty result set has been received"))
  | _ =>
      let '(out', ok, err) := addExpressions in_ out (concat rs) in
      (if ok then out' <| output_Valid := true |> else out', err)
  end.

Definition prepareInputForOPA (in_ : EvaluatorInput) : value + error :=
  match encodeInput in_ with
  | inl v => inl v
  | inr err => inr (newError ("failed to marshal the input structure: " +:+ Error err))
  end.

Definition Evaluate : Evaluator := fun in_ =>
  match prepareInputForOPA in_ with
  | inr err => (zeroEvaluatorOutput, Some (newError ("failed to prepare an input for OPA: " +:+ Error err)))
  | inl input =>
      match Eval input with
      | inr err => (zeroEvaluatorOutput, Some (newError ("failed to evaluate a query: " +:+ Error err)))
      | inl rs =>
          let out := mkEvaluatorOutput false
            (request_DatasetID (input_Request in_)) (workload_UUID (input_Workload in_))
            (workload_PolicySetID (input_Workload in_)) ∅ [] in
          getOPADecisions in_ rs out
      end
  end.
End Merge.

(** ** What a restriction means

    A restriction maps a property to its allowed values; [field] gives the value
    of a property of the candidate (a cluster, a module, a storage account). *)
Definition allowed (field : string -> option string) (k : string) (vs : list string) : Prop :=
  exists v, field k = Some v /\ v ∈ vs.
Definition allows (r : gmap string (list string)) (field : string -> option string) : Prop :=
  map_Forall (allowed field) r.
(** Policies list at least one value for a property they restrict. *)
Definition inhabited_lists (r : gmap string (list string)) : Prop :=
  map_Forall (fun _ vs => vs <> []) r.

Lemma allowed_Intersection field k vs ws :
  allowed field k (Intersection vs ws) <-> allowed field k vs /\ allowed field k ws.
Proof.
  unfold allowed. setoid_rewrite Intersection_elem. split; [naive_solver|].
  intros [(v & Hv & ?) (w & Hw & ?)]. simplify_eq. eauto.
Qed.

Lemma allows_lookup r k vs field : r !! k = Some vs ->
  allows r field <-> allowed field k vs /\ allows (delete k r) field.
Proof.
  intros Hk. unfold allows. rewrite <- (insert_delete_id r k vs) at 1 by done.
  apply map_Forall_insert. apply lookup_delete_eq.
Qed.

Lemma allows_insert r k vs field :
  allows (<[k := vs]> r) field <-> allowed field k vs /\ allows (delete k r) field.
Proof.
  unfold allows. rewrite <- insert_delete_eq. apply map_Forall_insert, lookup_delete_eq.
Qed.

Lemma inhabited_insert r k vs :
  vs <> [] -> inhabited_lists r -> inhabited_lists (<[k := vs]> r).
Proof. intros. by apply map_Forall_insert_2. Qed.

Lemma mergeEntries_fresh r1 k vs rest :
  r1 !! k = None -> mergeEntries r1 ((k, vs) :: rest) = mergeEntries (<[k := vs]> r1) rest.
Proof. intros E. simpl. by rewrite E. Qed.

Lemma mergeEntries_old r1 k cur vs rest :
  r1 !! k = Some cur -> cur <> [] ->
  mergeEntries r1 ((k, vs) :: rest) =
    if decide (Intersection cur vs = [])
    then (<[k := Intersection cur vs]> r1, Some (newError "unable to merge restrictions"))
    else mergeEntries (<[k := Intersection cur vs]> r1) rest.
Proof.
  intros E Hne. cbn [mergeEntries]. rewrite E. unfold default, from_option, id.
  destruct cur as [|c cur]; [done|]. cbn [length Nat.eqb id from_option].
  case_decide as Hc; [by rewrite Hc|]. by destruct (Intersection (c :: cur) vs).
Qed.

(** Merging entry by entry is conjunction: a result allows exactly what both
    sides allow, and a failure means that nothing satisfies both. *)
Lemma mergeEntries_meet entries r1 :
  inhabited_lists r1 -> Forall (fun kv => kv.2 <> []) entries ->
  match mergeEntries r1 entries with
  | (r, None) => inhabited_lists r /\
      forall field, allows r field <->
        allows r1 field /\ Forall (fun kv => allowed field kv.1 kv.2) entries
  | (_, Some _) => forall field,
      ~ (allows r1 field /\ Forall (fun kv => allowed field kv.1 kv.2) entries)
  end.
Proof.
  revert r1. induction entries as [|[k vs] entries IH]; intros r1 Hr Hes.
  { split; [done|]. intros field. split; [|tauto]. auto using Forall_nil_2. }
  apply Forall_cons in Hes as [Hvs Hes]. simpl in Hvs.
  destruct (r1 !! k) as [cur|] eqn:Hk.
  - rewrite (mergeEntries_old r1 k cur) by eauto. case_decide as Hc.
    + intros field [H1 [H2 _]%Forall_cons].
      apply (allows_lookup r1 k cur) in H1 as [H1 _]; [|done].
      destruct (proj2 (allowed_Intersection field k cur vs) (conj H1 H2)) as (v & _ & Hv).
      rewrite Hc in Hv. by apply not_elem_of_nil in Hv.
    + specialize (IH _ (inhabited_insert _ k _ Hc Hr) Hes).
      destruct (mergeEntries _ entries) as [r [e|]]; setoid_rewrite allows_insert in IH;
        setoid_rewrite allowed_Intersection in IH;
        setoid_rewrite Forall_cons; setoid_rewrite (allows_lookup r1 k cur); try done;
        naive_solver.
  - rewrite mergeEntries_fresh by done.
    specialize (IH _ (inhabited_insert _ k _ Hvs Hr) Hes).
    destruct (mergeEntries _ entries) as [r [e|]]; setoid_rewrite allows_insert in IH;
      rewrite (delete_id r1 k) in IH by done; setoid_rewrite Forall_cons; naive_solver.
Qed.

Lemma mergeRestrictions_meet `{MapRange} r1 (r2 : Restriction) :
  inhabited_lists r1 -> inhabited_lists (gm r2) ->
  match mergeRestrictions r1 r2 with
  | (r, None) => inhabited_lists r /\
      forall field, allows r field <-> allows r1 field /\ allows (gm r2) field
  | (_, Some _) => forall field, ~ (allows r1 field /\ allows (gm r2) field)
  end.
Proof.
  intros H1 H2. unfold mergeRestrictions, allows.
  pose proof (mergeEntries_meet (range (gm r2)) r1 H1) as E.
  setoid_rewrite (range_Forall (fun _ vs => vs <> [])) in E. specialize (E H2).
  destruct (mergeEntries _ _) as [r [e|]]; setoid_rewrite range_Forall in E; exact E.
Qed.

(** ** What a decision means *)

Inductive restriction_kind := Clusters | Modules | StorageAccounts.

Definition restrictions_of (k : restriction_kind) (d : RuleDecision) : gmap string (list string) :=
  let rs := decision_DeploymentRestrictions d in
  gm match k with
     | Clusters => restr_Clusters rs
     | Modules => restr_Modules rs
     | StorageAccounts => restr_StorageAccounts rs
     end.

Definition inhabited_decision (d : RuleDecision) : Prop :=
  forall k, inhabited_lists (restrictions_of k d).

(** One decision demands that a module is deployed and the other one that it is not. *)
Definition contradict (d1 d2 : RuleDecision) : Prop :=
  decision_Deploy d1 <> StatusUnknown /\ decision_Deploy d2 <> StatusUnknown /\
  decision_Deploy d1 <> decision_Deploy d2.

(** Two decisions that cannot both be followed: their deployment statuses
    contradict each other, or no candidate of some kind satisfies both. *)
Definition incompatible (d1 d2 : RuleDecision) : Prop :=
  contradict d1 d2 \/
  exists k, forall field, ~ (allows (restrictions_of k d1) field /\ allows (restrictions_of k d2) field).

Lemma mergeDeploy_spec new old :
  match mergeDeploy new old with
  | Some d => (new = StatusUnknown \/ new = d) /\ (old = StatusUnknown \/ old = d) /\ (d = new \/ d = old)
  | None => new <> StatusUnknown /\ old <> StatusUnknown /\ new <> old
  end.
Proof.
  unfold mergeDeploy.
  destruct (String.eqb_spec old StatusUnknown) as [->|]; [tauto|].
  destruct (String.eqb_spec new StatusUnknown) as [->|]; simpl; [tauto|].
  destruct (String.eqb_spec new old) as [->|]; simpl; tauto.
Qed.

Lemma merge_spec `{MapRange} new old :
  inhabited_decision new -> inhabited_decision old ->
  match merge new old with
  | (true, merged, _) =>
      mergeDeploy (decision_Deploy new) (decision_Deploy old) = Some (decision_Deploy merged) /\
      inhabited_decision merged /\
      forall k field, allows (restrictions_of k merged) field <->
        allows (restrictions_of k new) field /\ allows (restrictions_of k old) field
  | (false, _, _) => incompatible new old
  end.
Proof.
  intros Hn Ho. unfold merge, incompatible.
  pose proof (mergeDeploy_spec (decision_Deploy new) (decision_Deploy old)) as D.
  destruct (mergeDeploy _ _) as [deploy|]; [|by left]. clear D.
  pose proof (mergeRestrictions_meet _ (restr_Clusters (decision_DeploymentRestrictions new))
    (Ho Clusters) (Hn Clusters)) as HC.
  pose proof (mergeRestrictions_meet _ (restr_Modules (decision_DeploymentRestrictions new))
    (Ho Modules) (Hn Modules)) as HM.
  pose proof (mergeRestrictions_meet _ (restr_StorageAccounts (decision_DeploymentRestrictions new))
    (Ho StorageAccounts) (Hn StorageAccounts)) as HS.
  unfold restrictions_of in *. simpl in *.
  destruct (mergeRestrictions (gm (restr_Clusters _)) _) as [c [e|]];
    [right; exists Clusters; simpl; intros f Hf; apply (HC f); tauto|].
  destruct (mergeRestrictions (gm (restr_Modules _)) _) as [m [e|]];
    [right; exists Modules; simpl; intros f Hf; apply (HM f); tauto|].
  destruct (mergeRestrictions (gm (restr_StorageAccounts _)) _) as [s [e|]];
    [right; exists StorageAccounts; simpl; intros f Hf; apply (HS f); tauto|].
  split; [done|]. split; [intros []; simpl; [apply HC|apply HM|apply HS]|].
  intros [] field; simpl; [rewrite (proj2 HC)|rewrite (proj2 HM)|rewrite (proj2 HS)]; tauto.
Qed.

(** ** The decisions for one capability *)

Definition effective (d : RuleDecision) : RuleDecision :=
  if decision_Deploy d =? "" then d <| decision_Deploy := StatusUnknown |> else d.

Definition selected (policySetID : string) (d : RuleDecision) : bool :=
  let s := policy_PolicySetID (decision_Policy d) in
  negb ((s <>? "") && (policySetID <>? "") && (s <>? policySetID)).

(** The rules about [cap] that belong to the requested policy set, in order. *)
Definition relevant (policySetID cap : string) (rules : list DecisionPerCapability) : list RuleDecision :=
  effective <$> filter (fun d => selected policySetID d = true)
    (dpc_Decision <$> filter (fun r => dpc_Capability r = cap) rules).

(** A decision that says what all the relevant rules say together. *)
Definition conjunction_of (d : RuleDecision) (ds : list RuleDecision) : Prop :=
  inhabited_decision d /\
  (forall k field, allows (restrictions_of k d) field <->
     Forall (fun x => allows (restrictions_of k x) field) ds) /\
  Forall (fun x => decision_Deploy x = StatusUnknown \/ decision_Deploy x = decision_Deploy d) ds /\
  (decision_Deploy d = StatusUnknown \/ Exists (fun x => decision_Deploy x = decision_Deploy d) ds).

Definition decisions_refine (policySetID : string) (m : gmap string RuleDecision)
    (rules : list DecisionPerCapability) : Prop :=
  forall cap, match m !! cap with
    | None => relevant policySetID cap rules = []
    | Some d => relevant policySetID cap rules <> [] /\ conjunction_of d (relevant policySetID cap rules)
    end.

Definition inhabited_rules (rules : list DecisionPerCapability) : Prop :=
  Forall (fun r => inhabited_decision (dpc_Decision r)) rules.

(** Two of the rules about one capability cannot be followed together. *)
Definition conflicting (policySetID : string) (rules : list DecisionPerCapability) : Prop :=
  exists cap ds, relevant policySetID cap rules = ds /\
    ((exists x y, x ∈ ds /\ y ∈ ds /\ contradict x y) \/
     exists k, forall field, ~ Forall (fun x => allows (restrictions_of k x) field) ds).

Lemma relevant_app ps cap r1 r2 : relevant ps cap (r1 ++ r2) = relevant ps cap r1 ++ relevant ps cap r2.
Proof. unfold relevant. by rewrite filter_app, fmap_app, filter_app, fmap_app. Qed.

Lemma relevant_one ps cap r :
  relevant ps cap [r] =
    if decide (dpc_Capability r = cap /\ selected ps (dpc_Decision r) = true)
    then [effective (dpc_Decision r)] else [].
Proof.
  unfold relevant. rewrite filter_cons, filter_nil. case_decide as Hc; simpl.
  - rewrite filter_cons, filter_nil. case_decide; case_decide; simpl; naive_solver.
  - case_decide; naive_solver.
Qed.

Lemma effective_restrictions k d : restrictions_of k (effective d) = restrictions_of k d.
Proof. unfold effective. by destruct (_ =? _). Qed.

Lemma conjunction_of_one d : inhabited_decision d -> conjunction_of d [d].
Proof.
  intros Hd. split_and!; [done| | |].
  - intros. by rewrite Forall_singleton.
  - apply Forall_singleton. by right.
  - right. by left.
Qed.

Lemma conjunction_of_merge `{MapRange} d ds new merged seen :
  conjunction_of d ds -> inhabited_decision new -> merge new d = (true, merged, seen) ->
  conjunction_of merged (ds ++ [new]).
Proof.
  intros (Hd & Hallow & Hdep & Hsrc) Hnew E.
  pose proof (merge_spec new d Hnew Hd) as S. rewrite E in S. destruct S as (Edep & Hm & Hal).
  pose proof (mergeDeploy_spec (decision_Deploy new) (decision_Deploy d)) as D.
  rewrite Edep in D. destruct D as (D1 & D2 & D3).
  split_and!; [done| | |].
  - intros k field. rewrite Hal, Forall_app, Forall_singleton, Hallow. tauto.
  - apply Forall_app. rewrite Forall_singleton. split; [|done].
    eapply list.Forall_impl; [exact Hdep|]. simpl. intros x [?|Hx]; [by left|]. rewrite Hx. exact D2.
  - rewrite Exists_app, Exists_cons. destruct D3 as [D3|D3]; [by auto|].
    rewrite D3. destruct Hsrc as [?|?]; auto.
Qed.

(** A failed merge means that the rules seen so far contradict each other. *)
Lemma merge_conflict `{MapRange} d ds new merged seen :
  conjunction_of d ds -> inhabited_decision new -> merge new d = (false, merged, seen) ->
  (exists x, x ∈ ds /\ contradict new x) \/
  exists k, forall field, ~ Forall (fun x => allows (restrictions_of k x) field) (ds ++ [new]).
Proof.
  intros (Hd & Hallow & Hdep & Hsrc) Hnew E.
  pose proof (merge_spec new d Hnew Hd) as S. rewrite E in S. destruct S as [S|(k & S)].
  - left. destruct Hsrc as [Hu|Hx].
    + by destruct S as (_ & S & _).
    + apply list.Exists_exists in Hx as (x & Hx & Ex). exists x. unfold contradict in *. by rewrite Ex.
  - right. exists k. intros field Hf. apply Forall_app in Hf as [Hf Hn].
    rewrite Forall_singleton in Hn. apply (S field). split; [done|]. by apply Hallow.
Qed.

Lemma addRule_refines `{MapRange} ps out rule done out' ok :
  decisions_refine ps (output_ConfigDecisions out) done ->
  inhabited_decision (dpc_Decision rule) ->
  addRule ps out rule = (out', ok) ->
  if ok then decisions_refine ps (output_ConfigDecisions out') (done ++ [rule])
  else conflicting ps (done ++ [rule]).
Proof.
  intros Hinv Hinh E. unfold addRule in E.
  set (new := effective (dpc_Decision rule)).
  assert (inhabited_decision new) as Hnew
    by (intros k; unfold new; rewrite effective_restrictions; apply Hinh).
  change (if decision_Deploy (dpc_Decision rule) =? "" then _ else _) with new in E.
  destruct (_ && _ && _) eqn:Hsel.
  { simplify_eq. intros cap. rewrite relevant_app, relevant_one.
    rewrite decide_False by (unfold selected; rewrite Hsel; naive_solver).
    rewrite app_nil_r. apply Hinv. }
  assert (selected ps (dpc_Decision rule) = true) as Hs by (unfold selected; by rewrite Hsel).
  assert (forall cap, relevant ps cap [rule] = if decide (dpc_Capability rule = cap) then [new] else []) as Hr.
  { intros cap. rewrite relevant_one.
    destruct (decide (dpc_Capability rule = cap));
      [by rewrite decide_True by tauto | by rewrite decide_False by tauto]. }
  specialize (Hinv (dpc_Capability rule)) as Hcap.
  destruct (output_ConfigDecisions out !! dpc_Capability rule) as [d|] eqn:Hd.
  - destruct Hcap as [Hne Hconj].
    destruct (merge new d) as [[valid merged] seen] eqn:Hm. destruct valid; simplify_eq/=.
    + intros cap. rewrite relevant_app, Hr. rewrite lookup_insert.
      destruct (decide (dpc_Capability rule = cap)) as [<-|].
      * split; [by destruct (relevant _ _ done)|]. by eapply conjunction_of_merge.
      * rewrite app_nil_r. apply Hinv.
    + exists (dpc_Capability rule), (relevant ps (dpc_Capability rule) done ++ [new]).
      split; [by rewrite relevant_app, Hr, decide_True|].
      destruct (merge_conflict _ _ _ _ _ Hconj Hnew Hm) as [(x & Hx & Ex)|Hk]; [left|by right].
      exists new, x. set_solver.
  - simplify_eq/=. intros cap. rewrite relevant_app, Hr, lookup_insert.
    destruct (decide (dpc_Capability rule = cap)) as [<-|].
    + rewrite Hcap. split; [done|]. by apply conjunction_of_one.
    + rewrite app_nil_r. apply Hinv.
Qed.

Lemma addRules_refines `{MapRange} ps rules out done out' ok :
  decisions_refine ps (output_ConfigDecisions out) done ->
  inhabited_rules rules ->
  addRules ps out rules = (out', ok) ->
  if ok then decisions_refine ps (output_ConfigDecisions out') (done ++ rules)
  else exists pre post, rules = pre ++ post /\ conflicting ps (done ++ pre).
Proof.
  revert out done. induction rules as [|rule rules IH]; intros out done Hinv Hinh E; simpl in E.
  { simplify_eq. by rewrite app_nil_r. }
  apply Forall_cons in Hinh as [Hr Hrs].
  destruct (addRule ps out rule) as [out1 ok1] eqn:E1.
  pose proof (addRule_refines _ _ _ _ _ _ Hinv Hr E1) as H1. destruct ok1.
  - specialize (IH _ _ H1 Hrs E). rewrite <- app_assoc in IH. destruct ok; [done|].
    destruct IH as (pre & post & -> & Hc). exists (rule :: pre), post. by rewrite <- app_assoc in Hc.
  - simplify_eq. exists [rule], rules. done.
Qed.

Lemma decisions_refine_empty ps : decisions_refine ps ∅ [].
Proof. intros cap. by rewrite lookup_empty. Qed.

Lemma addRule_Valid `{MapRange} ps out rule out' ok :
  addRule ps out rule = (out', ok) -> output_Valid out' = output_Valid out.
Proof.
  unfold addRule. destruct (_ && _ && _); [by intros [=<- _]|].
  destruct (_ !! _); [|by intros [=<- _]].
  destruct (merge _ _) as [[[] ?] ?]; by intros [=<- _].
Qed.

Lemma addRules_Valid `{MapRange} ps rules out out' ok :
  addRules ps out rules = (out', ok) -> output_Valid out' = output_Valid out.
Proof.
  revert out. induction rules as [|r rules IH]; intros out E; simpl in E; [by simplify_eq|].
  destruct (addRule ps out r) as [out1 ok1] eqn:E1. apply addRule_Valid in E1.
  destruct ok1; [|by simplify_eq]. rewrite <- E1. by apply IH.
Qed.

Section EvaluateSpec.
Context `{MapRange, Runtime, Schema}.
Context (decodeOutput : value -> EvaluationOutputStructure + error).

(** The rules the engine answered with, in the order of the result set. *)
Definition decoded_rules (exprs : list value) (rules : list DecisionPerCapability) : Prop :=
  exists outs, Forall2 (fun e o => decodeOutput e = inl o) exprs outs /\
    rules = outs ≫= evalOut_Config.

Lemma addExpressions_refines in_ exprs out done out' ok err :
  (forall e o, e ∈ exprs -> decodeOutput e = inl o -> inhabited_rules (evalOut_Config o)) ->
  decisions_refine (workload_PolicySetID (input_Workload in_)) (output_ConfigDecisions out) done ->
  addExpressions decodeOutput in_ out exprs = (out', ok, err) ->
  match ok, err with
  | true, _ => err = None /\ exists rules, decoded_rules exprs rules /\
      decisions_refine (workload_PolicySetID (input_Workload in_)) (output_ConfigDecisions out') (done ++ rules)
  | false, None => exists pre post rules rest,
      exprs = pre ++ post /\ decoded_rules pre (rules ++ rest) /\
      conflicting (workload_PolicySetID (input_Workload in_)) (done ++ rules)
  | false, Some _ => True
  end.
Proof.
  revert out done. induction exprs as [|e exprs IH]; intros out done Hinh Hinv E; simpl in E.
  { simplify_eq. split; [done|]. exists []. rewrite app_nil_r. split; [|done]. by exists []. }
  destruct (validateStructure _ _ _); [by simplify_eq|].
  destruct (decodeOutput e) as [o|] eqn:Ho; [|by simplify_eq].
  destruct (addRules _ out _) as [out1 ok1] eqn:E1.
  pose proof (addRules_refines _ _ _ _ _ _ Hinv (Hinh e o ltac:(set_solver) Ho) E1) as H1'.
  destruct ok1.
  - specialize (IH _ _ ltac:(set_solver) H1' E). destruct ok; [|destruct err; [done|]].
    + destruct IH as (-> & rules & (outs & Houts & ->) & Href). split; [done|].
      exists (evalOut_Config o ++ (outs ≫= evalOut_Config)). rewrite app_assoc.
      split; [|done]. exists (o :: outs). split; [by constructor|done].
    + destruct IH as (pre & post & rules & rest & -> & (outs & Houts & Er) & Hc).
      exists (e :: pre), post, (evalOut_Config o ++ rules), rest.
      rewrite <- app_assoc in Hc. split_and!; [done| |done].
      exists (o :: outs). split; [by constructor|]. by rewrite <- app_assoc, Er.
  - simplify_eq. destruct H1' as (pre & post & Er & Hc).
    exists [e], exprs, pre, post. split_and!; [done| |done].
    exists [o]. split; [by repeat constructor|]. rewrite bind_cons, <- Er. by rewrite app_nil_r.
Qed.

Lemma addExpressions_Valid in_ exprs out out' ok err :
  addExpressions decodeOutput in_ out exprs = (out', ok, err) -> output_Valid out' = output_Valid out.
Proof.
  revert out. induction exprs as [|e exprs IH]; intros out E; simpl in E; [by simplify_eq|].
  destruct (validateStructure _ _ _); [by simplify_eq|].
  destruct (decodeOutput e) as [o|]; [|by simplify_eq].
  destruct (addRules _ out _) as [out1 ok1] eqn:E1. apply addRules_Valid in E1.
  destruct ok1; [|by simplify_eq]. rewrite <- E1. by apply IH.
Qed.
End EvaluateSpec.

(** ** Properties *)

Section Properties.
Context `{MapRange, Runtime, Schema}.
Context (Eval : value -> list (list value) + error)
  (decodeOutput : value -> EvaluationOutputStructure + error)
  (encodeInput : EvaluatorInput -> value + error).

(** C14: when the evaluator returns without an error and every rule lists at least one
    value for each property it restricts (an empty list is taken for a missing one by the
    merge, see [empty_restriction_is_replaced]), a valid output holds for every capability
    the conjunction of all the rules the engine gave for it in the requested policy set: it
    allows exactly the clusters, modules and storage accounts that all of them allow, and
    its deployment status is the one they agree on (a capability without rules has no
    decision).  An output marked invalid means that the rules about one capability, up to
    the point where the evaluation stops, cannot be followed together: two of them demand
    opposite deployment statuses, or nothing of some kind satisfies all of them. *)
Theorem Evaluate_conjunction in_ input rs out :
  encodeInput in_ = inl input -> Eval input = inl rs ->
  (forall e o, e ∈ concat rs -> decodeOutput e = inl o -> inhabited_rules (evalOut_Config o)) ->
  Evaluate Eval decodeOutput encodeInput in_ = (out, None) ->
  let ps := workload_PolicySetID (input_Workload in_) in
  if output_Valid out
  then exists rules, decoded_rules decodeOutput (concat rs) rules /\
         decisions_refine ps (output_ConfigDecisions out) rules
  else exists pre post rules rest, concat rs = pre ++ post /\
         decoded_rules decodeOutput pre (rules ++ rest) /\ conflicting ps rules.
Proof.
  intros Hin Hrs Hinh E ps. unfold Evaluate, prepareInputForOPA in E. rewrite Hin, Hrs in E.
  unfold getOPADecisions in E. destruct rs as [|r rs]; [done|].
  destruct (addExpressions _ _ _ _) as [[out' ok] err] eqn:Ea.
  pose proof (fun Hs => addExpressions_refines decodeOutput in_ _ _ [] _ _ _ Hinh Hs Ea) as R.
  specialize (R (decisions_refine_empty _)).
  injection E as <- ->. destruct ok; simpl.
  - destruct R as (_ & rules & ? & ?). by exists rules.
  - apply addExpressions_Valid in Ea. simpl in Ea. by rewrite Ea.
Qed.
End Properties.

Module Examples.
Definition cluster_rule (deploy : string) (regions : list string) : DecisionPerCapability :=
  mkDecisionPerCapability "copy"
    (mkDecision deploy (mkRestrictions (Some {[ "metadata.region" := regions ]}) None None)
      (mkDecisionPolicy "p" "" "" "")).
Definition request : EvaluatorInput :=
  mkEvaluatorInput (mkWorkloadInfo "uuid" "" zeroCluster (mkAppInfo (mkProperties None)))
    (mkDataRequest "ds" (mkInterface "s3" "csv") ∅ None) [].
Definition engine (rules : list DecisionPerCapability) (v : value) : EvaluationOutputStructure + error :=
  inl (mkEvaluationOutput rules).
Definition evaluate (rules : list DecisionPerCapability) : EvaluatorOutput * option error :=
  @Evaluate canonical_range (Concrete.env []) Concrete.accept_all
    (fun _ => inl [[VNull]]) (engine rules) (fun _ => inl VNull) request.
End Examples.

Lemma Evaluate_conjunction_witness :
  let rules := [Examples.cluster_rule "" ["a"; "b"]; Examples.cluster_rule "True" ["b"; "c"]] in
  exists d, output_ConfigDecisions (fst (Examples.evaluate rules)) !! "copy" = Some d /\
    decision_Deploy d = "True" /\
    conjunction_of d (relevant "" "copy" rules).
Proof.
  intros rules.
  pose proof (@Evaluate_conjunction canonical_range (Concrete.env []) Concrete.accept_all
    (fun _ => inl [[VNull]]) (Examples.engine rules) (fun _ => inl VNull) Examples.request VNull [[VNull]]
    (fst (Examples.evaluate rules)) eq_refl eq_refl) as T.
  assert (output_Valid (fst (Examples.evaluate rules)) = true) as Hv by (vm_compute; reflexivity).
  rewrite Hv in T. clear Hv. destruct T as (rs & (outs & Ho & ->) & Href).
  - intros e o _ [= <-]. repeat (apply Forall_cons_2); [..|apply Forall_nil_2];
      intros [] k vs E; unfold restrictions_of in E; simpl in E; try done;
      apply lookup_singleton_Some in E as [<- <-]; done.
  - vm_compute. reflexivity.
  - inversion Ho as [|e o ? ? Eo Hnil]; subst. inversion Hnil; subst. injection Eo as <-.
    specialize (Href "copy").
    destruct (output_ConfigDecisions (fst (Examples.evaluate rules)) !! "copy") as [d|] eqn:E.
    + exists d. split; [done|]. destruct Href as [_ Hc]. split; [|exact Hc].
      vm_compute in E. by injection E as <-.
    + vm_compute in E. discriminate E.
Defined.

(** A restriction whose list of values is empty allows nothing; merging another rule
    replaces it, and the values of the other rule are allowed. *)
Theorem empty_restriction_is_replaced :
  let rules := [Examples.cluster_rule "" []; Examples.cluster_rule "" ["b"]] in
  output_Valid (Examples.evaluate rules).1 = true /\
  (restrictions_of Clusters <$> (output_ConfigDecisions (Examples.evaluate rules).1 !! "copy")) =
    Some {[ "metadata.region" := ["b"] ]}.
Proof. vm_compute. done. Qed.

(** A deep copy of a restriction keeps its properties but loses every allowed
    value: the values are copied into a slice of length zero. *)
Theorem Restriction_DeepCopy_drops_values r :
  gm (Restriction_DeepCopy r) = (fun _ => []) <$> gm r.
Proof.
  destruct r as [m|]; [|done]. simpl. apply map_fmap_ext. intros k vs _.
  unfold copy_into. simpl. by rewrite drop_nil.
Qed.
