(* ===== verification/AdminQuery.v ===== *)
(** * The configuration policies of the administrator

    [pkg/adminconfig/compile.go]: the Rego files of a directory are compiled into the
    query of the evaluator, with the description of the infrastructure as its data.  The
    file system and OPA's compiler are parameters. *)
From stdpp Require Import base gmap strings list numbers.
From S2P Require Import Prelude GoStrings Types.

Definition RegoPolicyDirectory : string := "/tmp/adminconfig/".
Definition InfrastructureInfo : string := "infrastructure.json".

Section Query.
Context {Compiler Query : Type}.
(** [os.ReadDir]: the names of the files; [os.ReadFile]: the content, and whether the
    error is [fs.ErrNotExist] *)
Context (ReadDir : string -> list string + error) (ReadFile : string -> string + (error * bool)).
Context (CompileModules : gmap string string -> Compiler + error) (UnmarshalJSON : string -> gmap string value + error).
(** [rego.New] of the query, the compiler and the store, and [PrepareForEval] *)
Context (PrepareForEval : string -> Compiler -> gmap string value -> Query + error).

(** The loop over the files; [filepath.Join] and [filepath.Clean] drop the double slash. *)
Fixpoint readModules (files : list string) (modules : gmap string string) : gmap string string + error :=
  match files with
  | [] => inl modules
  | name :: rest =>
      if negb (HasSuffix name ".rego") then readModules rest modules
      else match ReadFile (RegoPolicyDirectory +:+ name) with
           | inr (err, _) => inr err
           | inl module => readModules rest (<[name := module]> modules)
           end
  end.

(** The data of the query: an empty object when there is no description. *)
Definition infrastructure : gmap string value + error :=
  match ReadFile (RegoPolicyDirectory +:+ InfrastructureInfo) with
  | inr (_, true) => inl ∅
  | inr (err, false) => inr err
  | inl content =>
      match UnmarshalJSON content with
      | inr err => inr (wrapError "couldn't parse Json" err)
      | inl json => inl json
      end
  end.

Definition PrepareQuery : Query + error :=
  match ReadDir RegoPolicyDirectory with
  | inr err => inr err
  | inl files =>
      match readModules files ∅ with
      | inr err => inr err
      | inl modules =>
          match CompileModules modules with
          | inr err => inr (wrapError "couldn't compile modules" err)
          | inl compiler =>
              match infrastructure with
              | inr err => inr err
              | inl json => PrepareForEval "data.adminconfig" compiler json
              end
          end
      end
  end.

Lemma readModules_spec files modules out :
  readModules files modules = inl out -> forall name text,
  out !! name = Some text <->
  (name ∈ files /\ HasSuffix name ".rego" = true /\ ReadFile (RegoPolicyDirectory +:+ name) = inl text) \/
  (~ (name ∈ files /\ HasSuffix name ".rego" = true) /\ modules !! name = Some text).
Proof.
  revert modules. induction files as [|f files IH]; intros modules E name text; simpl in E.
  { injection E as <-. rewrite elem_of_nil. naive_solver. }
  rewrite elem_of_cons. destruct (HasSuffix f ".rego") eqn:Hf; simpl in E; cycle 1.
  { rewrite (IH _ E). destruct (decide (name = f)) as [->|Hne]; cycle 1.
    { assert ((name = f \/ name ∈ files) <-> name ∈ files) as -> by tauto. done. }
    split; (intros [(_ & Hs & _)|[_ Hm]]; [congruence|]); right; (split; [|done]); intros [_ Hs]; congruence. }
  destruct (ReadFile _) as [module|[err ne]] eqn:Er; [|done]. rewrite (IH _ E).
  destruct (decide (name = f)) as [->|Hne].
  - rewrite lookup_insert_eq, Er. destruct (decide (f ∈ files)); naive_solver.
  - rewrite lookup_insert_ne by done. assert ((name = f \/ name ∈ files) <-> name ∈ files) as -> by tauto. done.
Qed.

(** The evaluator runs exactly the policies of the directory: a query that was prepared
    is over the module of each [.rego] file, with its content, and over no others, and
    its data is the description of the infrastructure if there is one. *)
Theorem PrepareQuery_exact q :
  PrepareQuery = inl q ->
  exists files modules compiler json, ReadDir RegoPolicyDirectory = inl files /\
    (forall name text, modules !! name = Some text <->
       name ∈ files /\ HasSuffix name ".rego" = true /\ ReadFile (RegoPolicyDirectory +:+ name) = inl text) /\
    CompileModules modules = inl compiler /\ infrastructure = inl json /\
    PrepareForEval "data.adminconfig" compiler json = inl q.
Proof.
  unfold PrepareQuery. destruct (ReadDir _) as [files|]; [|done].
  destruct (readModules files ∅) as [modules|] eqn:Em; [|done].
  destruct (CompileModules modules) as [compiler|] eqn:Ec; [|done].
  destruct infrastructure as [json|] eqn:Ei; [|done]. intros Hq.
  exists files, modules, compiler, json. split; [done|]. split; [|done].
  intros name text. rewrite (readModules_spec _ _ _ Em), lookup_empty. naive_solver.
Qed.
End Query.
