(* ===== verification/SelectModules.v ===== *)
(** * Selection of modules

    [manager/controllers/app/select_modules.go]: the search for data paths from a
    data source to a workload through the capabilities of the deployed modules,
    and the validation of a path (governance actions, clusters, storage). *)
From stdpp Require Import base gmap strings list numbers.
From Stdlib Require Import Ascii.
From S2P Require Import Prelude GoStrings Types External Utils Policy AdminConfig.

(** ** Data *)

Record DataInfo := mkDataInfo {
  DataDetails : GetAssetResponse;
  Context : DataContext;
  Configuration : EvaluatorOutput;
  WorkloadCluster : Cluster;
  Actions : list Action
}.

Definition Transform : string := "transform".

Record Node := mkNode { node_Connection : option InterfaceDetails; Virtual : bool }.

Record Edge := mkEdge {
  edge_Source : option Node;
  edge_Sink : option Node;
  edge_Module : FybrikModule;
  edge_CapabilityIndex : nat
}.

Record ResolvedEdge := mkResolvedEdge {
  resolved_Edge : Edge;
  resolved_Actions : list Action;
  resolved_Cluster : string;
  resolved_StorageAccountRegion : string
}.

(** [Solution.DataPath] *)
Notation Solution := (list ResolvedEdge).

(** The part of [PlotterGenerator] the selection uses. *)
Record Generator := mkGenerator {
  gen_Modules : gmap string FybrikModule;
  gen_Clusters : list Cluster;
  gen_PolicyManager : PolicyManager;
  gen_StorageAccountRegions : list string
}.

#[export] Instance Node_eq_dec : EqDecision Node.
Proof. solve_decision. Defined.
#[export] Instance Edge_eq_dec : EqDecision Edge.
Proof. solve_decision. Defined.
#[export] Instance ResolvedEdge_eq_dec : EqDecision ResolvedEdge.
Proof. solve_decision. Defined.

(** [edge.Module.Spec.Capabilities[edge.CapabilityIndex]] *)
Definition edgeCapability (e : Edge) : outcome ModuleCapability :=
  match modspec_Capabilities (module_Spec (edge_Module e)) !! edge_CapabilityIndex e with
  | Some c => Done c
  | None => Panic "index out of range"
  end.

(** ** Dependencies between modules

    [CheckDependencies] follows dependencies recursively; [fuel] bounds the
    depth of the calls and [None] means that it was exceeded.  The loop over the
    dependencies of one module is given the recursive call. *)
Definition dependenciesLoop (check : FybrikModule -> option (list FybrikModule * list string))
    (moduleMap : gmap string FybrikModule) :=
  fix loop (deps : list Dependency) : option (list FybrikModule * list string) :=
    match deps with
    | [] => Some ([], [])
    | d :: rest =>
        if dep_Type d <>? DependencyType_Module then loop rest
        else match moduleMap !! dep_Name d with
             | None => r ← loop rest; Some (r.1, dep_Name d :: r.2)
             | Some m =>
                 sub ← check m;
                 r ← loop rest;
                 Some (m :: sub.1 ++ r.1, sub.2 ++ r.2)
             end
    end.

Fixpoint CheckDependencies (fuel : nat) (module : FybrikModule) (moduleMap : gmap string FybrikModule)
    : option (list FybrikModule * list string) :=
  match fuel with
  | O => None
  | S fuel' =>
      dependenciesLoop (fun m => CheckDependencies fuel' m moduleMap) moduleMap
        (modspec_Dependencies (module_Spec module))
  end.

Definition SupportsDependencies (fuel : nat) (module : FybrikModule)
    (moduleMap : gmap string FybrikModule) : option bool :=
  r ← CheckDependencies fuel module moduleMap; Some (Nat.eqb (length r.2) 0).

Definition GetDependencies (fuel : nat) (module : FybrikModule) (moduleMap : gmap string FybrikModule)
    : option (list FybrikModule * option error) :=
  r ← CheckDependencies fuel module moduleMap;
  Some (r.1, if Nat.ltb 0 (length r.2)
             then Some (newError ("Module " +:+ module_Name module +:+ " has missing dependencies"))
             else None).

(** ** Capabilities against requirements *)

Definition capSupportsAction (c : ModuleCapability) (action : Action) : bool :=
  existsb (fun act => supported_Name act =? action_Name action) (capability_Actions c).

Definition supportsGovernanceAction (edge : Edge) (action : Action) : outcome bool :=
  c ← edgeCapability edge; mret (capSupportsAction c action).

(** With no action to check the capability is not looked at. *)
Fixpoint supportsGovernanceActions (edge : Edge) (actions : list Action) : outcome bool :=
  match actions with
  | [] => mret true
  | a :: rest =>
      ok ← supportsGovernanceAction edge a;
      if negb ok then mret false else supportsGovernanceActions edge rest
  end.

Definition match_ (source sink : option InterfaceDetails) : bool :=
  match source, sink with
  | Some a, Some b => (DataFormat a =? DataFormat b) && (Protocol a =? Protocol b)
  | _, _ => false
  end.

Definition apiInterface (api : ResourceDetails) : InterfaceDetails :=
  mkInterface (connection_Name (details_Connection api)) (details_DataFormat api).

Definition capSupportsSource (c : ModuleCapability) (source : Node) : bool :=
  (match capability_API c with
   | Some api => Virtual source && match_ (Some (apiInterface api)) (node_Connection source)
   | None => false
   end) ||
  existsb (fun inter => match inout_Source inter with
                        | Some s => match_ (Some s) (node_Connection source)
                        | None => false
                        end) (capability_SupportedInterfaces c).

Definition supportsSourceInterface (edge : Edge) (source : Node) : outcome bool :=
  c ← edgeCapability edge; mret (capSupportsSource c source).

Definition capSupportsSink (c : ModuleCapability) (sink : Node) : bool :=
  (match capability_API c with
   | Some api => Virtual sink && match_ (Some (apiInterface api)) (node_Connection sink)
   | None => false
   end) ||
  existsb (fun inter => match inout_Sink inter with
                        | Some s => match_ (Some s) (node_Connection sink)
                        | None => false
                        end) (capability_SupportedInterfaces c).

Definition supportsSinkInterface (edge : Edge) (sink : Node) : outcome bool :=
  c ← edgeCapability edge; mret (capSupportsSink c sink).

Definition decisionFor (item : DataInfo) (capability : string) : RuleDecision :=
  default zeroDecision (output_ConfigDecisions (Configuration item) !! capability).

Definition allowCapability (item : DataInfo) (capability : string) : bool :=
  decision_Deploy (decisionFor item capability) <>? StatusFalse.

Definition validateModuleRestrictions (item : DataInfo) (edge : Edge) : bool := true.

(** ** Clusters *)
Section Clusters.
Context `{MapRange, K8sMeta}.

(** One entry of the restrictions: the value of the named field of the cluster
    is one of the allowed values. *)
Definition clusterFieldAllowed (clusterDetails : gmap string value) (kv : string * list string) : bool :=
  let fields := Split kv.1 "."%char in
  match NestedString clusterDetails fields with
  | (value, true, None) => HasString value kv.2
  | _ => false
  end.

Definition validateClusterRestrictionsPerCapability (item : DataInfo) (capability : string)
    (cluster : Cluster) : bool :=
  let restrictions := gm (restr_Clusters (decision_DeploymentRestrictions (decisionFor item capability))) in
  if Nat.eqb (size restrictions) 0 then true
  else
    let clusterDetails := StructToMap_Cluster cluster in
    forallb (clusterFieldAllowed clusterDetails) (range restrictions).

Definition validateClusterRestrictions (item : DataInfo) (edge : ResolvedEdge) (cluster : Cluster)
    : outcome bool :=
  c ← edgeCapability (resolved_Edge edge);
  if negb (validateClusterRestrictionsPerCapability item (capability_Capability c) cluster) then mret false
  else if Nat.ltb 0 (length (resolved_Actions edge)) then
         if negb (validateClusterRestrictionsPerCapability item Transform cluster) then mret false
         else mret true
       else mret true.

(** [findCluster]: the first cluster that satisfies the restrictions is stored
    in the element. *)
Fixpoint findCluster (clusters : list Cluster) (item : DataInfo) (element : ResolvedEdge)
    : outcome (bool * ResolvedEdge) :=
  match clusters with
  | [] => mret (false, element)
  | cluster :: rest =>
      ok ← validateClusterRestrictions item element cluster;
      if (ok : bool) then mret (true, element <| resolved_Cluster := cluster_Name cluster |>)
      else findCluster rest item element
  end.
End Clusters.

(** ** Data paths *)
Section Paths.
Context `{MapRange}.

(** The loop over the interfaces of the selected capability: the paths
    [findPaths] finds to one of its sources, extended by the capability. *)
Definition extendPaths (findPaths : Node -> outcome (list Solution)) (sink : Node)
    (module : FybrikModule) (capabilityInd : nat) (interfaces : list ModuleInOut)
    : outcome (list Solution) :=
  let through (inter : ModuleInOut) : outcome (list Solution) :=
    paths ← findPaths (mkNode (inout_Source inter) false);
    let auxEdge := mkEdge (Some (mkNode (inout_Source inter) false)) (Some sink) module capabilityInd in
    Done (List.map (fun path : Solution => path ++ [mkResolvedEdge auxEdge [] "" ""]) paths) in
  mjoin <$> mapM through interfaces.

(** The body of the loop over capabilities.  [deeper] is the recursive call with
    limit [n - 1], absent when [n <= 1]. *)
Definition tryCapability (item : DataInfo) (source sink : Node)
    (deeper : option (Node -> outcome (list Solution)))
    (module : FybrikModule) (capabilityInd : nat) (capability : ModuleCapability)
    : outcome (list Solution) :=
  if negb (allowCapability item (capability_Capability capability)) then Done []
  else
    let edge := mkEdge None None module capabilityInd in
    if negb (validateModuleRestrictions item edge) then Done []
    else
      sinkOk ← supportsSinkInterface edge sink;
      if negb sinkOk then Done []
      else
        let edge := edge <| edge_Sink := Some sink |> in
        sourceOk ← supportsSourceInterface edge source;
        let direct : list Solution :=
          if (sourceOk : bool) then
            [[mkResolvedEdge (edge <| edge_Source := Some source |>) [] "" ""]]
          else [] in
        longer ← (match deeper with
          | None => Done []
          | Some findPaths =>
              extendPaths findPaths sink module capabilityInd (capability_SupportedInterfaces capability)
          end);
        Done (direct ++ longer).

(** [findPathsWithinLimit(item, source, sink, n)]: [depth] is [n - 1], the
    number of times the recursive call may still be nested (none for [n <= 1]). *)
Fixpoint findPathsDepth (modules : gmap string FybrikModule) (item : DataInfo) (source : Node)
    (depth : nat) (sink : Node) : outcome (list Solution) :=
  let deeper := match depth with
                | O => None
                | S depth' => Some (fun mid => findPathsDepth modules item source depth' mid)
                end in
  mjoin <$> mapM (fun kv : string * FybrikModule =>
    let module := kv.2 in
    mjoin <$> mapM (fun ic : nat * ModuleCapability =>
                      tryCapability item source sink deeper module ic.1 ic.2)
                (imap pair (modspec_Capabilities (module_Spec module))))
    (range modules).

Definition findPathsWithinLimit (modules : gmap string FybrikModule) (item : DataInfo)
    (source sink : Node) (n : Z) : outcome (list Solution) :=
  findPathsDepth modules item source (Z.to_nat (n - 1)) sink.
End Paths.

(** ** Validation of a path *)
Section Validate.
Context `{MapRange, K8sMeta, Runtime, Schema}.

Definition writeOperation (region : string) : RequestAction :=
  mkRequestAction ActionType_WRITE region region.

(** The loop over the storage account regions: an accepted region overwrites the
    actions and the region of the element, and the loop goes on. *)
Fixpoint selectStorage (policyManager : PolicyManager) (item : DataInfo)
    (application : FybrikApplication) (regions : list string) (element : ResolvedEdge)
    : outcome ResolvedEdge :=
  match regions with
  | [] => mret element
  | region :: rest =>
      let '(actions, err) :=
        LookupPolicyDecisions (DataSetID (Context item)) policyManager application (writeOperation region) in
      let denied := match err with Some e => Error e =? WriteNotAllowed | None => false end in
      if (denied : bool) then selectStorage policyManager item application rest element
      else
        supported ← supportsGovernanceActions (resolved_Edge element) actions;
        if negb supported then selectStorage policyManager item application rest element
        else selectStorage policyManager item application rest
               (element <| resolved_Actions := actions |> <| resolved_StorageAccountRegion := region |>)
  end.

(** Read actions the capability supports are added to the element, the others
    are forwarded to the next capability of the path. *)
Fixpoint assignActions (element : ResolvedEdge) (required : list Action)
    : outcome (ResolvedEdge * list Action) :=
  match required with
  | [] => mret (element, [])
  | action :: rest =>
      ok ← supportsGovernanceAction (resolved_Edge element) action;
      if (ok : bool) then
        assignActions (element <| resolved_Actions := resolved_Actions element ++ [action] |>) rest
      else
        r ← assignActions element rest;
        mret (r.1, action :: r.2)
  end.

(** The body of the loop over the elements of the path, given the actions that
    are still required: [None] when the path is refused. *)
Definition validateElement (p : Generator) (item : DataInfo) (application : FybrikApplication)
    (element : ResolvedEdge) (required : list Action) : outcome (option (ResolvedEdge * list Action)) :=
  let element := element <| resolved_Actions := [] |> in
  _ ← edgeCapability (resolved_Edge element);
  match edge_Sink (resolved_Edge element) with
  | None => Panic "invalid memory address or nil pointer dereference"
  | Some sink =>
      element ← (if negb (Virtual sink)
                 then selectStorage (gen_PolicyManager p) item application
                        (gen_StorageAccountRegions p) element
                 else mret element);
      if negb (Virtual sink) && (resolved_StorageAccountRegion element =? "") then mret None
      else
        er ← assignActions element required;
        fc ← findCluster (gen_Clusters p) item er.1;
        if negb fc.1 then mret None
        else mret (Some (fc.2, er.2))
  end.

Fixpoint validateElements (p : Generator) (item : DataInfo) (application : FybrikApplication)
    (path : Solution) (required : list Action) : outcome (option (Solution * list Action)) :=
  match path with
  | [] => mret (Some ([], required))
  | element :: rest =>
      r ← validateElement p item application element required;
      match r with
      | None => mret None
      | Some (element', unsupported) =>
          r ← validateElements p item application rest unsupported;
          mret (match r with
                | Some (path', unhandled) => Some (element' :: path', unhandled)
                | None => None
                end)
      end
  end.

(** The capabilities of the path, by name. *)
Definition supportedCapabilities (path : Solution) : outcome (list string) :=
  mapM (fun element => c ← edgeCapability (resolved_Edge element); mret (capability_Capability c)) path.

Definition requiredDeployed (item : DataInfo) (supported : list string) : bool :=
  forallb (fun kv : string * RuleDecision =>
    if decision_Deploy kv.2 =? StatusTrue then bool_decide (kv.1 ∈ supported) else true)
    (range (output_ConfigDecisions (Configuration item))).

(** [validate]: the path with its elements filled in, [None] when refused. *)
Definition validate (p : Generator) (item : DataInfo) (solution : Solution)
    (application : FybrikApplication) : outcome (option Solution) :=
  r ← validateElements p item application solution (Actions item);
  match r with
  | None => mret None
  | Some (path, requiredActions) =>
      if Nat.ltb 0 (length requiredActions) then mret None
      else
        supported ← supportedCapabilities path;
        if requiredDeployed item supported then mret (Some path) else mret None
  end.

Definition validSolutions (p : Generator) (item : DataInfo) (solutions : list Solution)
    (application : FybrikApplication) : outcome (list Solution) :=
  rs ← mapM (fun s => validate p item s application) solutions;
  mret (omap id rs).

Definition sourceNode (item : DataInfo) : Node :=
  let d := asset_Details (DataDetails item) in
  mkNode (Some (mkInterface (connection_Name (details_Connection d)) (details_DataFormat d))) false.

Definition destinationNode (item : DataInfo) (application : FybrikApplication) : Node :=
  mkNode (Some (requirements_Interface (Requirements (Context item))))
    (Z.ltb 0 (LabelSelector_Size (selector_WorkloadSelector (appspec_Selector (app_Spec application))))).

Definition FindPaths (p : Generator) (item : DataInfo) (application : FybrikApplication)
    : outcome (list Solution) :=
  let bound := fst GetDataPathMaxSize in
  solutions ← findPathsWithinLimit (gen_Modules p) item (sourceNode item)
                (destinationNode item application) bound;
  validSolutions p item solutions application.
End Validate.

(** ** What a data path is

    [datapath modules item source d sink s]: the capabilities of [s], each allowed
    for the item and able to write to where the next one reads from, lead from
    [source] to [sink]; at most [d] of them are intermediate. *)
Definition usable (modules : gmap string FybrikModule) (item : DataInfo) (sink : Node)
    (m : FybrikModule) (i : nat) (c : ModuleCapability) : Prop :=
  (exists k, modules !! k = Some m) /\
  modspec_Capabilities (module_Spec m) !! i = Some c /\
  allowCapability item (capability_Capability c) = true /\
  capSupportsSink c sink = true.

Definition hop (source sink : Node) (m : FybrikModule) (i : nat) : ResolvedEdge :=
  mkResolvedEdge (mkEdge (Some source) (Some sink) m i) [] "" "".

Inductive datapath (modules : gmap string FybrikModule) (item : DataInfo) (source : Node)
    : nat -> Node -> Solution -> Prop :=
| datapath_direct d sink m i c :
    usable modules item sink m i c -> capSupportsSource c source = true ->
    datapath modules item source d sink [hop source sink m i]
| datapath_extend d sink m i c inter path :
    usable modules item sink m i c -> inter ∈ capability_SupportedInterfaces c ->
    datapath modules item source d (mkNode (inout_Source inter) false) path ->
    datapath modules item source (S d) sink
      (path ++ [hop (mkNode (inout_Source inter) false) sink m i]).

Lemma elem_of_imap_pair {A} (l : list A) i x : (i, x) ∈ imap pair l <-> l !! i = Some x.
Proof.
  rewrite list_elem_of_lookup. setoid_rewrite list_lookup_imap_Some. naive_solver.
Qed.

Lemma edgeCapability_at e c :
  modspec_Capabilities (module_Spec (edge_Module e)) !! edge_CapabilityIndex e = Some c ->
  edgeCapability e = Done c.
Proof. intros E. unfold edgeCapability. by rewrite E. Qed.

(** The paths that go through one of the given interfaces of a capability. *)
Lemma extendPaths_spec f R sink m i inters :
  (forall mid, exists ps, f mid = Done ps /\ forall s, s ∈ ps <-> R mid s) ->
  exists ps, extendPaths f sink m i inters = Done ps /\
    forall s, s ∈ ps <-> exists inter path, inter ∈ inters /\
      R (mkNode (inout_Source inter) false) path /\
      s = path ++ [hop (mkNode (inout_Source inter) false) sink m i].
Proof.
  intros Hf.
  assert (exists ps, extendPaths f sink m i inters = Done ps /\
    forall s, s ∈ ps <-> exists inter, inter ∈ inters /\ exists path,
      R (mkNode (inout_Source inter) false) path /\
      s = path ++ [hop (mkNode (inout_Source inter) false) sink m i]) as (ps & E & Hps).
  { unfold extendPaths. apply outcome_collect. intros inter _.
    destruct (Hf (mkNode (inout_Source inter) false)) as (ps & -> & Hps).
    eexists; split; [reflexivity|]. intros s. rewrite list_elem_of_fmap.
    setoid_rewrite Hps. naive_solver. }
  exists ps. split; [done|]. intros s. rewrite Hps. naive_solver.
Qed.

(** The paths through one capability, given the paths to its source interfaces. *)
Lemma tryCapability_spec item source sink deeper R m i c :
  modspec_Capabilities (module_Spec m) !! i = Some c ->
  (forall f mid, deeper = Some f -> exists ps, f mid = Done ps /\ forall s, s ∈ ps <-> R mid s) ->
  exists ps, tryCapability item source sink deeper m i c = Done ps /\
    forall s, s ∈ ps <->
      allowCapability item (capability_Capability c) = true /\ capSupportsSink c sink = true /\
      ((capSupportsSource c source = true /\ s = [hop source sink m i]) \/
       (is_Some deeper /\ exists inter path, inter ∈ capability_SupportedInterfaces c /\
          R (mkNode (inout_Source inter) false) path /\
          s = path ++ [hop (mkNode (inout_Source inter) false) sink m i])).
Proof.
  intros Hc Hrec. unfold tryCapability.
  destruct (allowCapability _ _); simpl; [|exists []; split; [done|]; set_solver].
  unfold supportsSinkInterface, supportsSourceInterface.
  rewrite !(edgeCapability_at _ c) by done. simpl.
  destruct (capSupportsSink c sink); simpl; [|exists []; split; [done|]; set_solver].
  assert (exists ls, match deeper with
      | None => Done []
      | Some f => extendPaths f sink m i (capability_SupportedInterfaces c)
      end = Done ls /\ forall s, s ∈ ls <-> is_Some deeper /\
        exists inter path, inter ∈ capability_SupportedInterfaces c /\
          R (mkNode (inout_Source inter) false) path /\
          s = path ++ [hop (mkNode (inout_Source inter) false) sink m i]) as (ls & Els & Hls).
  { destruct deeper as [f|]; [|exists []; split; [done|]; intros s; split; [set_solver|by intros [[? ?] _]]].
    destruct (extendPaths_spec f R sink m i (capability_SupportedInterfaces c)) as (ps & E & Hps).
    { intros mid. by apply Hrec. }
    exists ps. split; [done|]. intros s. rewrite Hps. naive_solver. }
  rewrite Els. eexists; split; [reflexivity|].
  intros s. rewrite elem_of_app, Hls. destruct (capSupportsSource c source); set_solver.
Qed.

(** The nested loops over the modules and their capabilities. *)
Lemma eachCapability_spec `{MapRange} (modules : gmap string FybrikModule)
    (try : FybrikModule -> nat -> ModuleCapability -> outcome (list Solution)) T :
  (forall m i c, modspec_Capabilities (module_Spec m) !! i = Some c ->
     exists ps, try m i c = Done ps /\ forall s, s ∈ ps <-> T m i c s) ->
  exists ps,
    mjoin <$> mapM (fun kv : string * FybrikModule =>
      mjoin <$> mapM (fun ic : nat * ModuleCapability => try kv.2 ic.1 ic.2)
                  (imap pair (modspec_Capabilities (module_Spec kv.2)))) (range modules) = Done ps /\
    forall s, s ∈ ps <-> exists m i c, (exists k, modules !! k = Some m) /\
      modspec_Capabilities (module_Spec m) !! i = Some c /\ T m i c s.
Proof.
  intros Htry.
  destruct (outcome_collect (fun kv : string * FybrikModule =>
      mjoin <$> mapM (fun ic : nat * ModuleCapability => try kv.2 ic.1 ic.2)
                  (imap pair (modspec_Capabilities (module_Spec kv.2))))
    (fun kv s => exists ic, ic ∈ imap pair (modspec_Capabilities (module_Spec kv.2)) /\ T kv.2 ic.1 ic.2 s)
    (range modules)) as (ps & E & Hps).
  { intros kv _. apply outcome_collect. intros [i c] Hic%elem_of_imap_pair. by apply Htry. }
  exists ps. split; [done|]. intros s. rewrite Hps. split.
  - intros ([k m] & Hk%range_elem & [i c] & Hic%elem_of_imap_pair & HT). simpl in *. eauto 10.
  - intros (m & i & c & (k & Hk) & Hc & HT). exists (k, m). split; [by apply range_elem|].
    exists (i, c). split; [by apply elem_of_imap_pair|done].
Qed.

(** [findPathsWithinLimit] never panics and returns exactly the data paths. *)
Lemma findPathsDepth_spec `{MapRange} modules item source depth sink :
  exists ps, findPathsDepth modules item source depth sink = Done ps /\
    forall s, s ∈ ps <-> datapath modules item source depth sink s.
Proof.
  revert sink. induction depth as [|depth IH]; intros sink; cbn [findPathsDepth].
  - destruct (eachCapability_spec modules (tryCapability item source sink None) _
      (fun m i c Hc => tryCapability_spec item source sink None (fun _ _ => False) m i c Hc
         ltac:(done))) as (ps & E & Hps).
    exists ps. split; [exact E|]. intros s. rewrite Hps. split.
    + intros (m & i & c & Hm & Hc & Ha & Hs & [[Hsrc ->]|[[? ?] _]]); [|done].
      econstructor; [|done]. by repeat split.
    + inversion 1 as [? ? m i c (Hm & Hc & Ha & Hs) Hsrc|]; subst. eauto 12.
  - destruct (eachCapability_spec modules
      (tryCapability item source sink (Some (fun mid => findPathsDepth modules item source depth mid))) _
      (fun m i c Hc => tryCapability_spec item source sink
         (Some (fun mid => findPathsDepth modules item source depth mid))
         (fun mid s => datapath modules item source depth mid s) m i c Hc
         ltac:(intros f mid Hf; injection Hf as <-; apply IH))) as (ps & E & Hps).
    exists ps. split; [exact E|]. intros s. rewrite Hps. split.
    + intros (m & i & c & Hm & Hc & Ha & Hs & [[Hsrc ->]|[_ (inter & path & Hi & Hp & ->)]]);
        econstructor; try done; by repeat split.
    + inversion 1 as [? ? m i c (Hm & Hc & Ha & Hs) Hsrc|? ? m i c inter path (Hm & Hc & Ha & Hs) Hi Hp];
        subst; eauto 20.
Qed.

(** ** Data paths, declaratively

    A path connects [source] to [sink] when each of its elements is a usable
    capability, the first one reads from [source], every other one reads from one
    of its declared source interfaces, each writes where the next one reads, and
    the last one writes to [sink]. *)
Definition element_reads (source : Node) (j : nat) (src : Node) (c : ModuleCapability) : Prop :=
  match j with
  | O => src = source /\ capSupportsSource c source = true
  | S _ => exists inter, inter ∈ capability_SupportedInterfaces c /\ src = mkNode (inout_Source inter) false
  end.

Record connects (modules : gmap string FybrikModule) (item : DataInfo) (source sink : Node)
    (s : Solution) : Prop := {
  connects_hops : forall j e, s !! j = Some e -> exists src snk m i c,
    e = hop src snk m i /\ usable modules item snk m i c /\ element_reads source j src c;
  connects_links : forall j e e', s !! j = Some e -> s !! S j = Some e' ->
    edge_Sink (resolved_Edge e) = edge_Source (resolved_Edge e');
  connects_end : exists e, list.last s = Some e /\ edge_Sink (resolved_Edge e) = Some sink
}.

Lemma connects_single modules item source sink m i c :
  usable modules item sink m i c -> capSupportsSource c source = true ->
  connects modules item source sink [hop source sink m i].
Proof.
  intros Hu Hs. split.
  - intros [|j] e Hj; simplify_eq/=. by eexists _, _, _, _, _.
  - by intros [|j] e e'.
  - by eexists.
Qed.

Lemma connects_nonempty modules item source sink s : connects modules item source sink s -> s <> [].
Proof. intros [_ _ (e & He & _)] ->. done. Qed.

Lemma connects_extend modules item source sink m i c inter path :
  usable modules item sink m i c -> inter ∈ capability_SupportedInterfaces c ->
  connects modules item source (mkNode (inout_Source inter) false) path ->
  connects modules item source sink (path ++ [hop (mkNode (inout_Source inter) false) sink m i]).
Proof.
  intros Hu Hi Hp. pose proof (connects_nonempty _ _ _ _ _ Hp) as Hne.
  destruct Hp as [Hhops Hlinks (el & Hel & Hsink)]. split.
  - intros j e [Hj|[Hj He]]%lookup_app_Some; [by apply Hhops|].
    apply list_lookup_singleton_Some in He as [Hj0 <-].
    eexists _, _, _, _, _. split; [done|]. split; [done|].
    destruct j as [|j]; [destruct path; simpl in *; done || lia|]. simpl. eauto.
  - intros j e e' [Hj|[Hj He]]%lookup_app_Some [Hj'|[Hj' He']]%lookup_app_Some.
    + by eapply Hlinks.
    + apply list_lookup_singleton_Some in He' as [Hz <-]. rewrite last_lookup in Hel.
      replace (pred (length path)) with j in Hel by lia. simplify_eq/=. congruence.
    + apply lookup_lt_Some in Hj'. apply list_lookup_singleton_Some in He as [? _]. lia.
    + apply list_lookup_singleton_Some in He as [? _], He' as [? _]. lia.
  - eexists. by rewrite last_snoc.
Qed.

(** Removing the last element of a longer path. *)
Lemma connects_snoc_inv modules item source sink path e :
  path <> [] -> connects modules item source sink (path ++ [e]) ->
  exists m i c inter, e = hop (mkNode (inout_Source inter) false) sink m i /\
    usable modules item sink m i c /\ inter ∈ capability_SupportedInterfaces c /\
    connects modules item source (mkNode (inout_Source inter) false) path.
Proof.
  intros Hne [Hhops Hlinks (el & Hel & Hsink)]. rewrite last_snoc in Hel. simplify_eq.
  destruct (Hhops (length path) el) as (src & snk & m & i & c & -> & Hu & Hr).
  { by rewrite lookup_app_r, Nat.sub_diag by lia. }
  simplify_eq/=.
  assert (exists k, length path = S k) as (k & Hk) by (destruct path; [done|eauto]).
  rewrite Hk in Hr. destruct Hr as (inter & Hi & ->).
  exists m, i, c, inter. do 3 (split; [done|]).
  destruct (lookup_lt_is_Some_2 path k) as (e & He); [lia|]. split.
  - intros j e' Hj. apply Hhops. by rewrite lookup_app_l by (by eapply lookup_lt_Some).
  - intros j e1 e2 H1 H2. apply (Hlinks j); rewrite lookup_app_l; eauto using lookup_lt_Some.
  - exists e. rewrite last_lookup, Hk. split; [done|].
    rewrite (Hlinks k e (hop (mkNode (inout_Source inter) false) sink m i)); [done| |].
    + by rewrite lookup_app_l by lia.
    + by rewrite lookup_app_r, Hk, Nat.sub_diag by lia.
Qed.

Lemma datapath_connects modules item source d sink s :
  datapath modules item source d sink s <->
  connects modules item source sink s /\ (length s <= S d)%nat.
Proof.
  split.
  - induction 1 as [d sink m i c Hu Hs|d sink m i c inter path Hu Hi Hp [IH Hlen]].
    + split; [by eapply connects_single|simpl; lia].
    + split; [by eapply connects_extend|]. rewrite length_app. simpl. lia.
  - revert sink s. induction d as [|d IH]; intros sink s [Hc Hlen];
      destruct s as [|e path _] using rev_ind; try by apply connects_nonempty in Hc.
    all: rewrite length_app in Hlen; simpl in Hlen.
    all: destruct (decide (path = [])) as [->|Hne].
    all: try by (destruct path; [done|simpl in Hlen; lia]).
    1,2: destruct Hc as [Hhops _ (el & Hel & Hsink)]; simpl in Hel; simplify_eq;
      destruct (Hhops 0%nat el eq_refl) as (src & snk & m & i & c & -> & Hu & -> & Hs);
      simplify_eq/=; by econstructor.
    apply connects_snoc_inv in Hc as (m & i & c & inter & -> & Hu & Hi & Hp); [|done].
    econstructor; [done..|]. apply IH. split; [done|lia].
Qed.

(** C15: the search for data paths never panics and returns exactly the paths that
    connect the source to the sink through usable capabilities and have at most
    [n] elements (one, when the limit is below one), whatever the order in which
    the map of modules is iterated over. *)
Theorem findPathsWithinLimit_exact `{MapRange} modules item source sink n :
  exists paths, findPathsWithinLimit modules item source sink n = Done paths /\
    forall s, s ∈ paths <->
      connects modules item source sink s /\ (Z.of_nat (length s) <= Z.max 1 n)%Z.
Proof.
  unfold findPathsWithinLimit.
  destruct (findPathsDepth_spec modules item source (Z.to_nat (n - 1)) sink) as (ps & E & Hps).
  exists ps. split; [done|]. intros s. rewrite Hps, datapath_connects.
  apply and_iff_compat_l. lia.
Qed.

(** ** Valid solutions

    The promises of [validate] about an element of an accepted path. *)
Section ValidSpec.
Context `{MapRange, K8sMeta, Runtime, Schema}.

(** A cluster satisfies the restrictions on a capability: every restricted field
    of the cluster is a string among the allowed values. *)
Definition cluster_allowed (item : DataInfo) (capability : string) (cluster : Cluster) : Prop :=
  forall key values,
    gm (restr_Clusters (decision_DeploymentRestrictions (decisionFor item capability))) !! key = Some values ->
    exists v, nested (StructToMap_Cluster cluster) (Split key "."%char) = Some (VString v) /\ v ∈ values.

Definition cluster_chosen (p : Generator) (item : DataInfo) (c : ModuleCapability) (e : ResolvedEdge) : Prop :=
  exists cluster, cluster ∈ gen_Clusters p /\ resolved_Cluster e = cluster_Name cluster /\
    cluster_allowed item (capability_Capability c) cluster /\
    (resolved_Actions e <> [] -> cluster_allowed item Transform cluster).

(** The storage account region of the element was not denied by the policy
    manager and the actions it requires there are assigned to the element. *)
Definition storage_chosen (p : Generator) (item : DataInfo) (application : FybrikApplication)
    (e : ResolvedEdge) : Prop :=
  resolved_StorageAccountRegion e ∈ gen_StorageAccountRegions p /\
  exists actions err,
    LookupPolicyDecisions (DataSetID (Context item)) (gen_PolicyManager p) application
      (writeOperation (resolved_StorageAccountRegion e)) = (actions, err) /\
    (forall x, err = Some x -> Error x <> WriteNotAllowed) /\
    actions ⊆ resolved_Actions e.

Definition element_valid (p : Generator) (item : DataInfo) (application : FybrikApplication)
    (e : ResolvedEdge) : Prop :=
  exists c sink,
    edgeCapability (resolved_Edge e) = Done c /\ edge_Sink (resolved_Edge e) = Some sink /\
    Forall (fun a => capSupportsAction c a = true) (resolved_Actions e) /\
    cluster_chosen p item c e /\
    (Virtual sink = false -> storage_chosen p item application e).

(** An element of a path before validation. *)
Definition unresolved (e : ResolvedEdge) : Prop :=
  resolved_StorageAccountRegion e = "" /\ is_Some (edge_Sink (resolved_Edge e)) /\
  exists c, edgeCapability (resolved_Edge e) = Done c.

Lemma clusterFieldAllowed_spec `{!NestedStringLaws} details k vs :
  clusterFieldAllowed details (k, vs) = true <->
  exists v, nested details (Split k "."%char) = Some (VString v) /\ v ∈ vs.
Proof.
  unfold clusterFieldAllowed. simpl.
  destruct (NestedString details (Split k "."%char)) as [[s found] e] eqn:E.
  destruct (nested details (Split k "."%char)) as [v|] eqn:N.
  - assert ((exists t, v = VString t) \/ ~ (exists t, v = VString t)) as [[t ->]|Hv]
      by (destruct v; naive_solver).
    + rewrite (NestedString_found _ _ _ N) in E. simplify_eq.
      rewrite HasString_spec. naive_solver.
    + assert (e <> None) as He.
      { eapply NestedString_not_string; [exact N| |exact E]. naive_solver. }
      destruct found, e; naive_solver.
  - pose proof (NestedString_missing _ _ _ _ _ N E). destruct found, e; naive_solver.
Qed.

Lemma restrictions_spec `{!NestedStringLaws} item capability cluster :
  validateClusterRestrictionsPerCapability item capability cluster = true <->
  cluster_allowed item capability cluster.
Proof.
  unfold validateClusterRestrictionsPerCapability, cluster_allowed.
  generalize (gm (restr_Clusters (decision_DeploymentRestrictions (decisionFor item capability)))).
  intros m. destruct (Nat.eqb_spec (size m) 0) as [E%map_size_empty_inv|_].
  { subst. setoid_rewrite lookup_empty. naive_solver. }
  rewrite forallb_forall.
  setoid_rewrite <- list_elem_of_In. split.
  - intros Hall key values Hk%range_elem. by apply clusterFieldAllowed_spec, Hall.
  - intros Hall [k vs] Hk%range_elem. by apply clusterFieldAllowed_spec, Hall.
Qed.

(** The whole check of a cluster for an element with capability [c]. *)
Definition cluster_suits (item : DataInfo) (c : ModuleCapability) (e : ResolvedEdge) (cluster : Cluster) : Prop :=
  cluster_allowed item (capability_Capability c) cluster /\
  (resolved_Actions e <> [] -> cluster_allowed item Transform cluster).

Lemma validateClusterRestrictions_spec `{!NestedStringLaws} item e c cluster :
  edgeCapability (resolved_Edge e) = Done c ->
  exists b, validateClusterRestrictions item e cluster = Done b /\
    (b = true <-> cluster_suits item c e cluster).
Proof.
  intros E. unfold validateClusterRestrictions, cluster_suits. rewrite E. simpl.
  pose proof (restrictions_spec item (capability_Capability c) cluster) as Hc.
  pose proof (restrictions_spec item Transform cluster) as Ht.
  destruct (validateClusterRestrictionsPerCapability item (capability_Capability c) cluster); simpl;
    [|exists false; naive_solver].
  destruct (resolved_Actions e) as [|a l]; simpl; [exists true; naive_solver|].
  destruct (validateClusterRestrictionsPerCapability item Transform cluster); simpl; eexists; naive_solver.
Qed.

Lemma findCluster_spec `{!NestedStringLaws} clusters item e c :
  edgeCapability (resolved_Edge e) = Done c ->
  (exists cluster, cluster ∈ clusters /\ cluster_suits item c e cluster /\
     findCluster clusters item e = Done (true, e <| resolved_Cluster := cluster_Name cluster |>)) \/
  ((forall cluster, cluster ∈ clusters -> ~ cluster_suits item c e cluster) /\
   findCluster clusters item e = Done (false, e)).
Proof.
  intros E. induction clusters as [|cl clusters IH]; simpl.
  { right. split; [set_solver|done]. }
  destruct (validateClusterRestrictions_spec item e c cl E) as (b & -> & Hb). simpl.
  destruct b.
  - left. exists cl. split; [set_solver|]. naive_solver.
  - destruct IH as [(cl' & Hin & Hs & ->)|[Hn ->]].
    + left. exists cl'. split; [set_solver|done].
    + right. split; [|done]. intros cl' [->|Hin]%elem_of_cons; naive_solver.
Qed.

Lemma supportsGovernanceActions_spec edge c actions :
  edgeCapability edge = Done c ->
  supportsGovernanceActions edge actions = Done (forallb (capSupportsAction c) actions).
Proof.
  intros E. induction actions as [|a actions IH]; [done|].
  simpl. unfold supportsGovernanceAction. rewrite E. simpl.
  destruct (capSupportsAction c a); simpl; [by rewrite IH|done].
Qed.

Lemma assignActions_spec e c required :
  edgeCapability (resolved_Edge e) = Done c ->
  assignActions e required =
    Done (e <| resolved_Actions := resolved_Actions e ++
                List.filter (capSupportsAction c) required |>,
          List.filter (fun a => negb (capSupportsAction c a)) required).
Proof.
  revert e. induction required as [|a required IH]; intros e E; simpl.
  { rewrite app_nil_r. by destruct e. }
  unfold supportsGovernanceAction. rewrite E. simpl.
  destruct (capSupportsAction c a); simpl.
  - rewrite IH by done. simpl. by rewrite <- app_assoc.
  - by rewrite IH.
Qed.

(** The selected storage: nothing happens to the element, or a region that is
    not denied is set with actions the capability supports. *)
Lemma selectStorage_spec pm item application regions e c :
  edgeCapability (resolved_Edge e) = Done c ->
  exists e', selectStorage pm item application regions e = Done e' /\
    resolved_Edge e' = resolved_Edge e /\ resolved_Cluster e' = resolved_Cluster e /\
    (e' = e \/
     resolved_StorageAccountRegion e' ∈ regions /\
     Forall (fun a => capSupportsAction c a = true) (resolved_Actions e') /\
     exists err,
       LookupPolicyDecisions (DataSetID (Context item)) pm application
         (writeOperation (resolved_StorageAccountRegion e')) = (resolved_Actions e', err) /\
       forall x, err = Some x -> Error x <> WriteNotAllowed).
Proof.
  revert e. induction regions as [|r regions IH]; intros e E; cbn [selectStorage].
  { exists e. naive_solver. }
  destruct (LookupPolicyDecisions _ _ _ _) as [actions err] eqn:L.
  destruct (match err with Some x => Error x =? WriteNotAllowed | None => false end) eqn:D.
  { destruct (IH e E) as (e' & -> & H3). exists e'. naive_solver eauto using list_elem_of_further. }
  rewrite (supportsGovernanceActions_spec _ c) by done. simpl.
  destruct (forallb _ actions) eqn:F; simpl.
  2: { destruct (IH e E) as (e' & -> & H3). exists e'. naive_solver eauto using list_elem_of_further. }
  destruct (IH (e <| resolved_Actions := actions |> <| resolved_StorageAccountRegion := r |>))
    as (e' & E' & He & Hcl & Hr); [done|]. simpl in E'. rewrite E'.
  exists e'. do 3 (split; [done|]). right. destruct Hr as [->|Hr]; [|set_solver]. simpl.
  split; [set_solver|]. rewrite forallb_forall in F. split.
  { apply list.Forall_forall. intros a Ha%list_elem_of_In. by apply F. }
  exists err. split; [done|]. intros x -> Hx. rewrite Hx, String.eqb_refl in D. done.
Qed.
Lemma validateElement_spec `{!NestedStringLaws} p item application e required :
  unresolved e ->
  exists r, validateElement p item application e required = Done r /\
    forall e' left, r = Some (e', left) ->
      element_valid p item application e' /\ resolved_Edge e' = resolved_Edge e /\
      forall a, a ∈ required -> a ∈ left \/ a ∈ resolved_Actions e'.
Proof.
  intros (Hr & [sink Hsink] & c & Hc). unfold validateElement.
  set (e0 := e <| resolved_Actions := [] |>).
  change (resolved_Edge e0) with (resolved_Edge e). rewrite Hc, Hsink. simpl.
  (* the element after the choice of a storage account *)
  assert (exists e1, (if negb (Virtual sink)
      then selectStorage (gen_PolicyManager p) item application (gen_StorageAccountRegions p) e0
      else mret e0) = Done e1 /\ resolved_Edge e1 = resolved_Edge e /\
      Forall (fun a => capSupportsAction c a = true) (resolved_Actions e1) /\
      (Virtual sink = false -> resolved_StorageAccountRegion e1 = "" \/
         storage_chosen p item application e1)) as (e1 & -> & He1 & Ha1 & Hs1).
  { destruct (Virtual sink); simpl; [by exists e0|].
    destruct (selectStorage_spec (gen_PolicyManager p) item application
      (gen_StorageAccountRegions p) e0 c Hc) as (e1 & -> & He & _ & [->|(Hreg & Hact & err & HL & Herr)]).
    - exists e0. repeat split; auto.
    - exists e1. repeat split; auto. intros _. right. split; [done|]. eauto 10. }
  simpl. destruct (negb (Virtual sink) && (resolved_StorageAccountRegion e1 =? "")) eqn:Hst.
  { by exists None. }
  destruct e1 as [edge1 acts1 cluster1 region1]; simpl in *; subst edge1.
  rewrite (assignActions_spec _ c) by done. simpl.
  set (e2 := mkResolvedEdge _ _ _ _).
  destruct (findCluster_spec (gen_Clusters p) item e2 c) as [(cl & Hin & [Hs1' Hs2] & ->)|[_ ->]];
    [done| |by exists None].
  eexists; split; [done|]. intros e' left [= <- <-]. simpl. split; [|split; [done|]].
  - exists c, sink. simpl. do 2 (split; [done|]). split.
    { apply Forall_app. split; [done|]. apply list.Forall_forall.
      intros a Ha%list_elem_of_In. by apply filter_In in Ha as [_ ?]. }
    split; [by exists cl|]. intros Hv. destruct (Hs1 Hv) as [E|(Hreg & acts & err & HL & Herr & Hsub)].
    { rewrite Hv, E in Hst. done. }
    split; [done|]. exists acts, err. repeat split; try done. simpl. set_solver.
  - intros a Ha. destruct (capSupportsAction c a) eqn:Hsup.
    + right. apply elem_of_app. right. apply list_elem_of_In, filter_In.
      by rewrite <- list_elem_of_In.
    + left. apply list_elem_of_In, filter_In. by rewrite <- list_elem_of_In, Hsup.
Qed.

Lemma validateElements_spec `{!NestedStringLaws} p item application path required :
  Forall unresolved path ->
  exists r, validateElements p item application path required = Done r /\
    forall path' left, r = Some (path', left) ->
      Forall (element_valid p item application) path' /\
      resolved_Edge <$> path' = resolved_Edge <$> path /\
      forall a, a ∈ required -> a ∈ left \/ exists e, e ∈ path' /\ a ∈ resolved_Actions e.
Proof.
  intros Hp. revert required. induction Hp as [|e path He _ IH]; intros required; simpl.
  { eexists; split; [done|]. intros ? ? [= <- <-]. naive_solver. }
  destruct (validateElement_spec p item application e required He) as (r & -> & Hr). simpl.
  destruct r as [[e' unsupported]|]; [|by exists None].
  destruct (Hr _ _ eq_refl) as (Hv & Hedge & Hact).
  destruct (IH unsupported) as (r & -> & Hr'). simpl.
  eexists; split; [done|]. intros path' left E.
  destruct r as [[path'' u]|]; [|done]. injection E as <- <-.
  destruct (Hr' _ _ eq_refl) as (Hvs & Hedges & Hacts). simpl.
  split; [by constructor|]. split; [by f_equal|]. intros a Ha.
  destruct (Hact a Ha) as [Hu|Hd]; [|set_solver].
  destruct (Hacts a Hu) as [?|(e'' & ? & ?)]; [by left|]. right. exists e''. set_solver.
Qed.
Record solution_valid (p : Generator) (item : DataInfo) (application : FybrikApplication)
    (s : Solution) : Prop := {
  sv_elements : Forall (element_valid p item application) s;
  sv_actions : forall a, a ∈ Actions item -> exists e, e ∈ s /\ a ∈ resolved_Actions e;
  sv_deployed : forall capability d,
    output_ConfigDecisions (Configuration item) !! capability = Some d ->
    decision_Deploy d = StatusTrue ->
    exists e c, e ∈ s /\ edgeCapability (resolved_Edge e) = Done c /\ capability_Capability c = capability
}.

Lemma supportedCapabilities_spec path :
  Forall (fun e => exists c, edgeCapability (resolved_Edge e) = Done c) path ->
  exists caps, supportedCapabilities path = Done caps /\
    forall x, x ∈ caps <-> exists e c, e ∈ path /\ edgeCapability (resolved_Edge e) = Done c /\
      capability_Capability c = x.
Proof.
  unfold supportedCapabilities. induction 1 as [|e path (c & Hc) _ (caps & E & IH)].
  { exists []. split; [done|]. set_solver. }
  simpl. rewrite Hc. simpl. rewrite E. eexists; split; [done|].
  intros x. rewrite elem_of_cons, IH. split.
  - intros [->|(e' & c' & Hin & Hx)]; [exists e, c|exists e', c'; split; [by right|done]].
    split; [by left|done].
  - intros (e' & c' & [->|Hin]%elem_of_cons & Hc' & Hx); [left; congruence|right; eauto].
Qed.

Lemma requiredDeployed_spec item supported :
  requiredDeployed item supported = true ->
  forall capability d, output_ConfigDecisions (Configuration item) !! capability = Some d ->
    decision_Deploy d = StatusTrue -> capability ∈ supported.
Proof.
  unfold requiredDeployed. rewrite forallb_forall. intros Hall capability d Hd%range_elem HT.
  specialize (Hall _ (proj1 (list_elem_of_In _ _) Hd)). simpl in Hall.
  rewrite HT in Hall. by apply bool_decide_eq_true in Hall.
Qed.

Lemma validate_spec `{!NestedStringLaws} p item application path :
  Forall unresolved path ->
  exists r, validate p item path application = Done r /\
    forall s, r = Some s -> solution_valid p item application s /\
      resolved_Edge <$> s = resolved_Edge <$> path.
Proof.
  intros Hp. unfold validate.
  destruct (validateElements_spec p item application path (Actions item) Hp) as (r & -> & Hr). simpl.
  destruct r as [[s left]|]; [|by exists None].
  destruct (Hr _ _ eq_refl) as (Hv & He & Ha).
  destruct left as [|? ?]; simpl; [|by exists None].
  destruct (supportedCapabilities_spec s) as (caps & -> & Hcaps).
  { eapply list.Forall_impl; [exact Hv|]. intros e (c & _ & Hc & _). eauto. }
  simpl. destruct (requiredDeployed item caps) eqn:Hreq; [|by exists None].
  eexists; split; [done|]. intros ? [= <-]. split; [|done]. split.
  - done.
  - intros a Hin. destruct (Ha a Hin) as [[]%not_elem_of_nil|?]; done.
  - intros capability d Hd HT. by apply Hcaps, (requiredDeployed_spec item _ Hreq _ d).
Qed.

Lemma connects_unresolved modules item source sink s :
  connects modules item source sink s -> Forall unresolved s.
Proof.
  intros [Hhops _ _]. apply Forall_lookup. intros j e (src & snk & m & i & c & -> & (_ & Hc & _) & _)%Hhops.
  split; [done|]. split; [by eexists|]. exists c. by apply edgeCapability_at.
Qed.

Lemma validSolutions_spec `{!NestedStringLaws} p item application paths :
  Forall (Forall unresolved) paths ->
  exists sols, validSolutions p item paths application = Done sols /\
    forall s, s ∈ sols <-> exists raw, raw ∈ paths /\ validate p item raw application = Done (Some s).
Proof.
  intros Hp. unfold validSolutions.
  destruct (outcome_mapM_Forall2 (fun s => validate p item s application)
    (fun raw r => validate p item raw application = Done r) paths) as (rs & -> & Hrs).
  { intros raw Hin. rewrite list.Forall_forall in Hp.
    destruct (validate_spec p item application raw (Hp _ Hin)) as (r & E & _). eauto. }
  eexists; split; [done|]. intros s. rewrite list_elem_of_omap. split.
  - intros (r & (i & Hi)%list_elem_of_lookup & Er). unfold id in Er. subst r.
    destruct (Forall2_lookup_r _ _ _ _ _ Hrs Hi) as (raw & Hraw & E).
    exists raw. split; [by eapply list_elem_of_lookup_2|done].
  - intros (raw & (i & Hi)%list_elem_of_lookup & E).
    destruct (Forall2_lookup_l _ _ _ _ _ Hrs Hi) as (r & Hr & E').
    exists r. split; [by eapply list_elem_of_lookup_2|]. simpl. congruence.
Qed.

Lemma FindPaths_spec `{!NestedStringLaws} p item application :
  exists sols, FindPaths p item application = Done sols /\
    forall s, s ∈ sols <-> exists raw,
      connects (gen_Modules p) item (sourceNode item) (destinationNode item application) raw /\
      (Z.of_nat (length raw) <= Z.max 1 (fst GetDataPathMaxSize))%Z /\
      validate p item raw application = Done (Some s).
Proof.
  unfold FindPaths, findPathsWithinLimit.
  destruct (findPathsDepth_spec (gen_Modules p) item (sourceNode item)
    (Z.to_nat (fst GetDataPathMaxSize - 1)) (destinationNode item application)) as (raws & -> & Hraws). simpl.
  destruct (validSolutions_spec p item application raws) as (sols & -> & Hsols).
  { apply list.Forall_forall. intros raw [Hc _]%Hraws%datapath_connects. by eapply connects_unresolved. }
  exists sols. split; [done|]. intros s. rewrite Hsols.
  setoid_rewrite Hraws. setoid_rewrite datapath_connects.
  split; [intros (raw & [Hc Hl] & Hv)|intros (raw & Hc & Hl & Hv)]; exists raw.
  - split; [done|]. split; [lia|done].
  - split; [|done]. split; [done|lia].
Qed.
End ValidSpec.

(** ** Properties of [FindPaths] *)
Section FindPathsProperties.
Context `{MapRange, K8sMeta, Runtime, Schema}.

(** C4: [FindPaths] never panics, and every solution it returns connects the data
    source to the workload within the length limit, assigns every required
    governance action to a capability of the path, deploys every capability the
    admin policies require, and gives each element only actions its capability
    supports, a cluster that satisfies the admin restrictions on the capability
    (and on transformations when it has actions) and, when it writes data, a
    storage region the policy manager does not forbid with the actions it
    demands there. *)
Theorem FindPaths_valid `{!NestedStringLaws} p item application :
  exists sols, FindPaths p item application = Done sols /\
    forall s, s ∈ sols -> solution_valid p item application s /\
      exists raw, resolved_Edge <$> s = resolved_Edge <$> raw /\
        connects (gen_Modules p) item (sourceNode item) (destinationNode item application) raw /\
        (Z.of_nat (length s) <= Z.max 1 (fst GetDataPathMaxSize))%Z.
Proof.
  destruct (FindPaths_spec p item application) as (sols & E & Hsols).
  exists sols. split; [done|]. intros s (raw & Hc & Hlen & Hv)%Hsols.
  destruct (validate_spec p item application raw (connects_unresolved _ _ _ _ _ Hc)) as (r & Hr & Hs).
  rewrite Hv in Hr. injection Hr as <-. destruct (Hs _ eq_refl) as [Hok He].
  split; [done|]. exists raw. split; [done|]. split; [done|].
  rewrite <- (length_fmap resolved_Edge s), He, length_fmap. done.
Qed.

(** C16: [FindPaths] is complete with respect to validation: a path that connects
    the source to the workload within the limit and passes [validate] is among the
    solutions, as [validate] filled it in. *)
Theorem FindPaths_complete `{!NestedStringLaws} p item application raw s :
  connects (gen_Modules p) item (sourceNode item) (destinationNode item application) raw ->
  (Z.of_nat (length raw) <= fst GetDataPathMaxSize)%Z ->
  validate p item raw application = Done (Some s) ->
  exists sols, FindPaths p item application = Done sols /\ s ∈ sols.
Proof.
  intros Hc Hlen Hv. destruct (FindPaths_spec p item application) as (sols & E & Hsols).
  exists sols. split; [done|]. apply Hsols. exists raw. split; [done|]. split; [lia|done].
Qed.

(** C34: when the policy manager cannot be reached (it answers every request with
    an error other than the denial text), the choice of storage takes the write
    for allowed: the last region is selected and no action is required there. *)
Theorem selectStorage_ignores_failure pm item application regions e err region :
  (forall req creds, pm req creds = inr err) -> Error err <> WriteNotAllowed ->
  list.last regions = Some region ->
  selectStorage pm item application regions e =
    Done (e <| resolved_Actions := [] |> <| resolved_StorageAccountRegion := region |>).
Proof.
  intros Hpm Herr Hlast.
  assert (forall r, LookupPolicyDecisions (DataSetID (Context item)) pm application (writeOperation r) =
    ([], Some err)) as HL by (intros r; unfold LookupPolicyDecisions; by rewrite Hpm).
  revert e. induction regions as [|r regions IH]; intros e; [done|]. cbn [selectStorage].
  rewrite HL. apply String.eqb_neq in Herr. rewrite Herr. simpl.
  destruct regions as [|r' regions]; [by injection Hlast as ->|].
  by rewrite IH.
Qed.
End FindPathsProperties.

(** ** Dependencies *)

(** [needs moduleMap m d]: the module dependency [d] is reached from [m] through
    dependencies found in the map. *)
Inductive needs (moduleMap : gmap string FybrikModule) (m : FybrikModule) : string -> Prop :=
| needs_here d :
    d ∈ modspec_Dependencies (module_Spec m) -> dep_Type d = DependencyType_Module ->
    needs moduleMap m (dep_Name d)
| needs_via d m' name :
    d ∈ modspec_Dependencies (module_Spec m) -> dep_Type d = DependencyType_Module ->
    moduleMap !! dep_Name d = Some m' -> needs moduleMap m' name ->
    needs moduleMap m name.

Lemma dependenciesLoop_missing check moduleMap R deps r :
  (forall m r, check m = Some r -> forall n, n ∈ r.2 <-> R m n) ->
  dependenciesLoop check moduleMap deps = Some r ->
  forall n, n ∈ r.2 <-> exists d, d ∈ deps /\ dep_Type d = DependencyType_Module /\
    match moduleMap !! dep_Name d with
    | None => n = dep_Name d
    | Some m => R m n
    end.
Proof.
  intros Hc. revert r. induction deps as [|d deps IH]; intros r E n; simpl in E.
  { injection E as <-. set_solver. }
  destruct (String.eqb_spec (dep_Type d) DependencyType_Module) as [Ht|Ht]; simpl in E.
  2: { rewrite (IH _ E). set_solver. }
  destruct (moduleMap !! dep_Name d) as [m|] eqn:Em.
  - destruct (check m) as [sub|] eqn:Es; [|done]. simpl in E.
    destruct (dependenciesLoop check moduleMap deps) as [r'|]; [|done]. injection E as <-. simpl.
    rewrite elem_of_app, (Hc _ _ Es), (IH _ eq_refl). setoid_rewrite elem_of_cons. split.
    + intros [HR|(d' & ? & ? & ?)]; [exists d; rewrite Em; auto|exists d'; auto].
    + intros (d' & [->|?] & ? & Hd); [rewrite Em in Hd; auto|right; exists d'; auto].
  - destruct (dependenciesLoop check moduleMap deps) as [r'|]; [|done]. injection E as <-. simpl.
    rewrite elem_of_cons, (IH _ eq_refl). setoid_rewrite elem_of_cons. split.
    + intros [->|(d' & ? & ? & ?)]; [exists d; rewrite Em; auto|exists d'; auto].
    + intros (d' & [->|?] & ? & Hd); [rewrite Em in Hd; auto|right; exists d'; auto].
Qed.

Lemma CheckDependencies_missing fuel m moduleMap r :
  CheckDependencies fuel m moduleMap = Some r ->
  forall n, n ∈ r.2 <-> needs moduleMap m n /\ moduleMap !! n = None.
Proof.
  revert m r. induction fuel as [|fuel IH]; intros m r E n; [done|]. simpl in E.
  rewrite (dependenciesLoop_missing _ _ (fun m n => needs moduleMap m n /\ moduleMap !! n = None) _ _ IH E).
  split.
  - intros (d & Hin & Ht & Hd). destruct (moduleMap !! dep_Name d) as [m'|] eqn:Em.
    + destruct Hd. split; [|done]. by eapply needs_via.
    + subst n. split; [by constructor|done].
  - intros [Hn Hm]. destruct Hn as [d Hin Ht|d m' n Hin Ht Em Hn]; exists d; do 2 (split; [done|]).
    + by rewrite Hm.
    + by rewrite Em.
Qed.

Lemma dependenciesLoop_total check moduleMap deps :
  (forall d m, d ∈ deps -> dep_Type d = DependencyType_Module -> moduleMap !! dep_Name d = Some m ->
     is_Some (check m)) ->
  is_Some (dependenciesLoop check moduleMap deps).
Proof.
  induction deps as [|d deps IH]; intros Hc; simpl; [by eexists|].
  destruct IH as [r Hr]; [set_solver|]. rewrite Hr.
  destruct (String.eqb_spec (dep_Type d) DependencyType_Module) as [Ht|Ht]; simpl; [|by eexists].
  destruct (moduleMap !! dep_Name d) as [m|] eqn:Em; [|by eexists].
  destruct (Hc d m) as [sub ->]; [set_solver|done..|]. by eexists.
Qed.

(** More fuel does not change a result. *)
Lemma dependenciesLoop_mono check check' moduleMap deps r :
  (forall m r, check m = Some r -> check' m = Some r) ->
  dependenciesLoop check moduleMap deps = Some r -> dependenciesLoop check' moduleMap deps = Some r.
Proof.
  intros Hc. revert r. induction deps as [|d deps IH]; intros r E; simpl in *; [done|].
  destruct (dep_Type d <>? DependencyType_Module); [by apply IH|].
  destruct (moduleMap !! dep_Name d) as [m|].
  - destruct (check m) as [sub|] eqn:Es; [|done]. rewrite (Hc _ _ Es). simpl in *.
    destruct (dependenciesLoop check moduleMap deps) as [r'|]; [|done]. by rewrite (IH _ eq_refl).
  - destruct (dependenciesLoop check moduleMap deps) as [r'|]; [|done]. by rewrite (IH _ eq_refl).
Qed.

Lemma CheckDependencies_mono fuel fuel' m moduleMap r :
  (fuel <= fuel')%nat -> CheckDependencies fuel m moduleMap = Some r ->
  CheckDependencies fuel' m moduleMap = Some r.
Proof.
  revert fuel' m r. induction fuel as [|fuel IH]; intros [|fuel'] m r Hle E; try done; [lia|].
  simpl in *. eapply dependenciesLoop_mono; [|exact E]. intros ? ? E'. apply IH; [lia|exact E'].
Qed.

(** Dependencies between registered modules decrease [rank]. *)
Definition acyclic (moduleMap : gmap string FybrikModule) (rank : string -> nat) : Prop :=
  forall k m d, moduleMap !! k = Some m -> d ∈ modspec_Dependencies (module_Spec m) ->
    dep_Type d = DependencyType_Module -> is_Some (moduleMap !! dep_Name d) ->
    (rank (dep_Name d) < rank k)%nat.

Lemma CheckDependencies_registered moduleMap rank fuel k m :
  acyclic moduleMap rank -> moduleMap !! k = Some m -> (rank k < fuel)%nat ->
  is_Some (CheckDependencies fuel m moduleMap).
Proof.
  intros Hac. revert k m. induction fuel as [|fuel IH]; intros k m Hk Hr; [lia|]. simpl.
  apply dependenciesLoop_total. intros d m' Hd Ht Hm'. apply (IH (dep_Name d)); [done|].
  assert (rank (dep_Name d) < rank k)%nat; [|lia]. by eapply Hac.
Qed.

(** C33: when the dependencies between the registered modules are acyclic,
    [CheckDependencies] terminates on every module (some depth of calls is enough
    and more does not change the result), it reports as missing exactly the module
    dependencies reached from the module that are not registered, and
    [SupportsDependencies] holds exactly when every one of them is registered. *)
Theorem CheckDependencies_correct moduleMap rank m :
  acyclic moduleMap rank ->
  exists fuel found missing,
    (forall fuel', (fuel <= fuel')%nat -> CheckDependencies fuel' m moduleMap = Some (found, missing)) /\
    (forall n, n ∈ missing <-> needs moduleMap m n /\ moduleMap !! n = None) /\
    (SupportsDependencies fuel m moduleMap = Some true <->
       forall n, needs moduleMap m n -> is_Some (moduleMap !! n)).
Proof.
  intros Hac.
  remember (S (list_max (rank <$> (dep_Name <$> modspec_Dependencies (module_Spec m))))) as bound eqn:Hb.
  assert (is_Some (CheckDependencies (S bound) m moduleMap)) as [[found missing] E].
  { simpl. apply dependenciesLoop_total. intros d m' Hd Ht Hm'.
    eapply CheckDependencies_registered; [done..|].
    enough (rank (dep_Name d) <= list_max (rank <$> (dep_Name <$> modspec_Dependencies (module_Spec m))))%nat
      by lia.
    apply (proj1 (list.Forall_forall _ _) (proj1 (List.list_max_le _ _) (le_n _))).
    apply list_elem_of_fmap_2, list_elem_of_fmap_2, Hd. }
  exists (S bound), found, missing. split; [eauto using CheckDependencies_mono|].
  pose proof (CheckDependencies_missing _ _ _ _ E) as Hmiss. simpl in Hmiss. split; [done|].
  unfold SupportsDependencies. rewrite E. simpl. destruct missing as [|x missing]; simpl.
  - split; [|done]. intros _ n Hn. destruct (moduleMap !! n) eqn:En; [by eexists|].
    assert (n ∈ @nil string) as []%not_elem_of_nil. by apply Hmiss.
  - split; [done|]. intros Hall. destruct (proj1 (Hmiss x)) as [Hn Hx]; [by left|].
    apply Hall in Hn as [? ?]. congruence.
Qed.

(** [CheckDependencies] never returns for a module that depends, directly or
    through other registered modules, on a module registered under the name it is
    looked up by: no depth of calls is enough. *)
Theorem CheckDependencies_cyclic moduleMap m k fuel :
  needs moduleMap m k -> moduleMap !! k = Some m ->
  CheckDependencies fuel m moduleMap = None.
Proof.
  intros Hcycle Hk.
  enough (forall x, needs moduleMap x k -> CheckDependencies fuel x moduleMap = None) by auto.
  induction fuel as [|fuel IH]; intros x Hx; [done|]. simpl.
  assert (exists d m', d ∈ modspec_Dependencies (module_Spec x) /\ dep_Type d = DependencyType_Module /\
    moduleMap !! dep_Name d = Some m' /\ needs moduleMap m' k) as (d & m' & Hd & Ht & Hm' & Hn).
  { destruct Hx as [d Hd Ht|d m' n Hd Ht Hm' Hn]; exists d; eauto. }
  clear Hx. induction (modspec_Dependencies (module_Spec x)) as [|d' deps IHd]; [set_solver|]. simpl.
  apply elem_of_cons in Hd as [<-|Hd].
  - rewrite Ht, String.eqb_refl, Hm'. simpl. by rewrite IH.
  - rewrite IHd by done. destruct (dep_Type d' <>? DependencyType_Module); [done|].
    destruct (moduleMap !! dep_Name d') as [m''|]; [|done]. by destruct (CheckDependencies fuel m'' moduleMap).
Qed.

(** ** A small deployment *)
Module SelectExamples.

Definition meta (name : string) : ObjectMeta :=
  mkObjectMeta name "fybrik-system" "uid" 1 None [] None None "".
Definition noProps : Properties := mkProperties None.
Definition s3 : InterfaceDetails := mkInterface "s3" "csv".
Definition s3parquet : InterfaceDetails := mkInterface "s3" "parquet".
Definition flight : InterfaceDetails := mkInterface "flight" "arrow".
Definition flightAPI : ResourceDetails :=
  mkResourceDetails (mkConnection "flight" (mkProperties (Some
    {[ "flight" := VMap {[ "hostname" := VString "{{ .Release.Name }}"; "port" := VNumber "80" ]} ]}))) "arrow".
Definition redact : Action := mkAction "redact" noProps.

(** The module copies csv to parquet, reads parquet, and reads csv directly. *)
Definition capabilities : list ModuleCapability :=
  [ mkModuleCapability "copy" "asset" [mkModuleInOut (Some s3) (Some s3parquet)] None
      [mkModuleSupportedAction "redact"] [];
    mkModuleCapability "read" "workload" [mkModuleInOut (Some s3parquet) None] (Some flightAPI)
      [mkModuleSupportedAction "redact"] [];
    mkModuleCapability "read" "workload" [mkModuleInOut (Some s3) None] (Some flightAPI)
      [mkModuleSupportedAction "redact"] [] ].
Definition module (name : string) (deps : list string) (caps : list ModuleCapability) : FybrikModule :=
  mkFybrikModule (meta name)
    (mkFybrikModuleSpec "" "service" "" (mkDependency DependencyType_Module <$> deps) caps
       (mkChartSpec "chart" "" ∅) []) (mkFybrikModuleStatus []).
Definition theModule : FybrikModule := module "arrow-flight" [] capabilities.

Definition cluster : Cluster := mkCluster "thegreendragon" (mkClusterMetadata "theshire" "" "").
Definition allow : PolicyManager := fun _ _ => inl (mkGetPolicyDecisionsResponse "" []).
Definition generator : Generator :=
  mkGenerator {[ "arrow-flight" := theModule ]} [cluster] allow ["theshire"].

Definition context : DataContext :=
  mkDataContext "assets/1" "" (mkDataRequirements flight (mkCopyRequirements false (mkCatalogRequirements "" ""))).
Definition asset : GetAssetResponse :=
  mkGetAssetResponse (mkResourceMetadata "1" "" "theshire" None [])
    (mkResourceDetails (mkConnection "s3" noProps) "csv") "".
Definition item (decisions : gmap string RuleDecision) : DataInfo :=
  mkDataInfo asset context (mkEvaluatorOutput true "" "" "" decisions []) cluster [redact].
Definition application : FybrikApplication :=
  mkFybrikApplication (meta "notebook")
    (mkFybrikApplicationSpec (mkSelector "" (mkLabelSelector {[ "app" := "notebook" ]} [])) ""
       (mkAppInfo noProps) [context])
    (mkFybrikApplicationStatus false "" None 0 0 "" None None).

Definition resolved (src snk : Node) (i : nat) (acts : list Action) (region : string) : ResolvedEdge :=
  mkResolvedEdge (mkEdge (Some src) (Some snk) theModule i) acts "thegreendragon" region.
Definition csv : Node := mkNode (Some s3) false.
Definition parquet : Node := mkNode (Some s3parquet) false.
Definition workload : Node := mkNode (Some flight) true.

Definition longPath : Solution :=
  [resolved csv parquet 0 [redact] "theshire"; resolved parquet workload 1 [] ""].
Definition shortPath : Solution := [resolved csv workload 2 [redact] ""].

(** The solutions are not sorted by length, against the comment on [FindPaths]:
    with one module whose "read" capability for copied data is listed before the
    one for the original data, the path of two capabilities comes before the path
    of one, for every order of iteration over maps. *)
Theorem FindPaths_not_sorted `{MapRange} :
  @FindPaths _ Concrete.k8s (Concrete.env []) Concrete.accept_all generator (item ∅) application =
    Done [longPath; shortPath] /\
  (length longPath > length shortPath)%nat.
Proof.
  split; [|vm_compute; lia]. unfold FindPaths, findPathsWithinLimit.
  change (Z.to_nat _) with 1%nat. cbn [findPathsDepth].
  change (gen_Modules generator) with ({[ "arrow-flight" := theModule ]} : gmap string FybrikModule). rewrite !range_singleton.
  unfold validSolutions, validate, requiredDeployed.
  change (output_ConfigDecisions (Configuration (item ∅))) with (∅ : gmap string RuleDecision).
  rewrite range_empty. vm_compute. reflexivity.
Qed.

(** The hypotheses of the theorems above hold here. *)
Lemma FindPaths_valid_witness :
  exists sols, @FindPaths canonical_range Concrete.k8s (Concrete.env []) Concrete.accept_all
    generator (item ∅) application = Done sols /\
    longPath ∈ sols /\
    @solution_valid (Concrete.env []) Concrete.accept_all generator (item ∅) application longPath.
Proof.
  pose proof (@FindPaths_valid canonical_range Concrete.k8s (Concrete.env []) Concrete.accept_all
    Concrete.k8s_nested generator (item ∅) application) as (sols & E & Hs).
  exists sols. split; [exact E|].
  assert (Done sols = Done [longPath; shortPath]) as E2.
  { rewrite <- E. vm_compute. reflexivity. }
  injection E2 as E2. rewrite E2 in *. split; [by left|]. apply Hs. by left.
Defined.

Definition rawPath : Solution := [hop csv workload theModule 2].
Lemma rawPath_connects : connects (gen_Modules generator) (item ∅) csv workload rawPath.
Proof.
  eapply connects_single.
  - split; [exists "arrow-flight"; by vm_compute|]. split; [reflexivity|]. by vm_compute.
  - by vm_compute.
Qed.

Lemma FindPaths_complete_witness :
  exists sols, @FindPaths canonical_range Concrete.k8s (Concrete.env []) Concrete.accept_all
    generator (item ∅) application = Done sols /\ shortPath ∈ sols.
Proof.
  apply (@FindPaths_complete canonical_range Concrete.k8s (Concrete.env []) Concrete.accept_all
    Concrete.k8s_nested generator (item ∅) application rawPath shortPath).
  - exact rawPath_connects.
  - by vm_compute.
  - vm_compute. reflexivity.
Defined.

Lemma selectStorage_ignores_failure_witness :
  @selectStorage (Concrete.env []) Concrete.accept_all (fun _ _ => inr (newError "connection refused"))
    (item ∅) application ["neverland"; "theshire"] (hop csv parquet theModule 0) =
  Done (mkResolvedEdge (mkEdge (Some csv) (Some parquet) theModule 0) [] "" "theshire").
Proof.
  apply (@selectStorage_ignores_failure (Concrete.env []) Concrete.accept_all
    (fun _ _ => inr (newError "connection refused")) (item ∅) application ["neverland"; "theshire"]
    (hop csv parquet theModule 0) (newError "connection refused") "theshire");
    [reflexivity|discriminate|reflexivity].
Defined.

Definition chain : gmap string FybrikModule :=
  {[ "a" := module "a" ["b"; "c"] []; "b" := module "b" ["d"] [] ]}.
Definition chainRank (k : string) : nat := if k =? "a" then 2 else if k =? "b" then 1 else 0.

Lemma chain_acyclic : acyclic chain chainRank.
Proof.
  intros k m d Hk. unfold chain in Hk.
  apply lookup_insert_Some in Hk as [[<- <-]|[_ [<- <-]%lookup_singleton_Some]]; simpl.
  - intros [->|[->|[]%not_elem_of_nil]%elem_of_cons]%elem_of_cons _ _; vm_compute; lia.
  - intros [->|[]%not_elem_of_nil]%elem_of_cons _ _; vm_compute; lia.
Qed.

Lemma CheckDependencies_correct_witness :
  exists fuel found missing, CheckDependencies fuel (module "a" ["b"; "c"] []) chain = Some (found, missing) /\
    forall n, n ∈ missing <-> n = "c" \/ n = "d".
Proof.
  destruct (CheckDependencies_correct chain chainRank (module "a" ["b"; "c"] []) chain_acyclic)
    as (fuel & found & missing & Hfuel & Hm & _).
  exists fuel, found, missing. split; [by apply Hfuel|].
  assert (Some (found, missing) = Some ([module "b" ["d"] []], ["d"; "c"])) as E.
  { rewrite <- (Hfuel (fuel + 2)%nat) by lia. rewrite Nat.add_comm. vm_compute. reflexivity. }
  injection E as _ ->. set_solver.
Defined.

Definition loop : gmap string FybrikModule :=
  {[ "a" := module "a" ["b"] []; "b" := module "b" ["a"] [] ]}.

Lemma CheckDependencies_cyclic_witness : CheckDependencies 100 (module "a" ["b"] []) loop = None.
Proof.
  apply (CheckDependencies_cyclic loop (module "a" ["b"] []) "a").
  - eapply (needs_via _ _ (mkDependency DependencyType_Module "b")); [by left|done|by vm_compute|].
    apply (needs_here _ _ (mkDependency DependencyType_Module "a")); [by left|done].
  - by vm_compute.
Defined.
End SelectExamples.
