(* ===== verification/World.v ===== *)
(** * The world outside the process

    The Kubernetes API server as seen through [client.Client] of
    controller-runtime, dataset provisioning, the clusters and Helm are
    records of operations over an abstract world [W]: an operation may change the
    world and may fail.  The theorems that mention them hold for every
    implementation.  [manager/controllers/utils/utils.go] ([UpdateFinalizers],
    [UpdateStatus]) is written against them. *)
From stdpp Require Import base gmap strings list numbers.
From S2P Require Import Prelude Types External.

(** Objects of the API server with a status subresource. *)
Class K8sObject (T : Type) := {
  obj_Meta : T -> ObjectMeta;
  obj_setMeta : ObjectMeta -> T -> T;
  obj_Status : Type;
  obj_getStatus : T -> obj_Status;
  obj_setStatus : obj_Status -> T -> T
}.

#[export] Instance app_object : K8sObject FybrikApplication := {|
  obj_Meta := app_Meta; obj_setMeta m o := o <| app_Meta := m |>;
  obj_getStatus := app_Status; obj_setStatus s o := o <| app_Status := s |> |}.
#[export] Instance plotter_object : K8sObject Plotter := {|
  obj_Meta := pl_Meta; obj_setMeta m o := o <| pl_Meta := m |>;
  obj_getStatus := pl_Status; obj_setStatus s o := o <| pl_Status := s |> |}.
#[export] Instance blueprint_object : K8sObject Blueprint := {|
  obj_Meta := bp_Meta; obj_setMeta m o := o <| bp_Meta := m |>;
  obj_getStatus := bp_Status; obj_setStatus s o := o <| bp_Status := s |> |}.
#[export] Instance module_object : K8sObject FybrikModule := {|
  obj_Meta := module_Meta; obj_setMeta m o := o <| module_Meta := m |>;
  obj_getStatus := module_Status; obj_setStatus s o := o <| module_Status := s |> |}.

(** [client.ObjectKeyFromObject] *)
Definition ObjectKey {T} `{K8sObject T} (o : T) : NamespacedName :=
  mkNamespacedName (meta_Name (obj_Meta o)) (meta_Namespace (obj_Meta o)).

(** [client.Client] at one type of object.  A successful write gives back the
    object as the server returns it, which the client decodes into the argument. *)
Record ObjectClient (W T : Type) := mkObjectClient {
  Get : NamespacedName -> M W (T + error);
  List_ : string -> M W (list T + error);
  Create : T -> M W (T + error);
  Update : T -> M W (T + error);
  StatusUpdate : T -> M W (T + error);
  Delete : T -> M W (option error);
  (** [ctrl.CreateOrUpdate(ctx, c, obj, f)] of controller-runtime *)
  CreateOrUpdate : T -> (T -> T) -> M W (option error);
  (** [retry.RetryOnConflict(retry.DefaultRetry, f)] of client-go, for a function
      [f] that works on an object in place *)
  RetryOnConflict : (T -> M W (T * option error)) -> T -> M W (T * option error)
}.
Arguments mkObjectClient {W T}.
Arguments Get {W T}.
Arguments List_ {W T}.
Arguments Create {W T}.
Arguments Update {W T}.
Arguments StatusUpdate {W T}.
Arguments Delete {W T}.
Arguments CreateOrUpdate {W T}.
Arguments RetryOnConflict {W T}.

(** [corev1.Secret], [corev1.ConfigMap] *)
Record Secret := mkSecret { secret_Type : string; secret_Data : gmap string string }.

Record Client (W : Type) := mkClient {
  Applications : ObjectClient W FybrikApplication;
  Plotters : ObjectClient W Plotter;
  Blueprints : ObjectClient W Blueprint;
  ModulesClient : ObjectClient W FybrikModule;
  ListStorageAccounts : string -> M W (list FybrikStorageAccount + error);
  GetSecret : NamespacedName -> M W (Secret + error);
  GetConfigMap : NamespacedName -> M W (gmap string string + error)
}.
Arguments mkClient {W}.
Arguments Applications {W}.
Arguments Plotters {W}.
Arguments Blueprints {W}.
Arguments ModulesClient {W}.
Arguments ListStorageAccounts {W}.
Arguments GetSecret {W}.
Arguments GetConfigMap {W}.

(** [ctrl.Result]; durations in seconds. *)
Record Result := mkResult { RequeueAfter : Z }.
Definition noResult : Result := mkResult 0.

(** ** utils.UpdateFinalizers, utils.UpdateStatus *)
Section Updates.
Context `{K8sMeta} {W T : Type} `{K8sObject T} (cl : ObjectClient W T).

Definition UpdateFinalizers (obj : T) : M W (T * option error) :=
  r ← Update cl obj;
  match r with
  | inl obj' => mret (obj', None)
  | inr err =>
      if negb (IsConflict err) then mret (obj, Some err)
      else
        let finalizers := meta_Finalizers (obj_Meta obj) in
        RetryOnConflict cl (fun o =>
          r ← Get cl (ObjectKey o);
          match r with
          | inr err => mret (o, Some err)
          | inl latest =>
              let latest := obj_setMeta ((obj_Meta latest) <| meta_Finalizers := finalizers |>) latest in
              r ← Update cl latest;
              match r with
              | inr err => mret (latest, Some err)
              | inl latest' => mret (latest', None)
              end
          end) obj
  end.

(** After a conflict the previous status is compared with the [status] member of
    the JSON form of the object: a pointer to a struct is never deeply equal to a
    map, so the comparison fails and the status is set on the latest version.  The
    object itself is then not changed. *)
Definition UpdateStatus (obj : T) : M W (T * option error) :=
  r ← StatusUpdate cl obj;
  match r with
  | inl obj' => mret (obj', None)
  | inr err =>
      if negb (IsConflict err) then mret (obj, Some err)
      else
        let currentStatus := obj_getStatus obj in
        r ← RetryOnConflict cl (fun res =>
          r ← Get cl (ObjectKey res);
          match r with
          | inr err => mret (res, Some err)
          | inl latest =>
              let latest := obj_setStatus currentStatus latest in
              r ← StatusUpdate cl latest;
              match r with
              | inr err => mret (latest, Some err)
              | inl latest' => mret (latest', None)
              end
          end) obj;
        mret (obj, r.2)
  end.
End Updates.

(** ** An API server without other writers

    The documented behaviour of the client on objects of one type when no other
    process writes: [objects] is what the server stores in a world. *)
Class StoreLaws {W T : Type} (cl : ObjectClient W T) (key : T -> NamespacedName)
    (objects : W -> NamespacedName -> option T) : Prop := {
  store_Get_found k w o : objects w k = Some o -> Get cl k w = Done (inl o, w);
  store_Get_missing k w : objects w k = None -> exists e, Get cl k w = Done (inr e, w);
  store_Create o w : objects w (key o) = None ->
    exists w', Create cl o w = Done (inl o, w') /\
      forall k, objects w' k = if decide (k = key o) then Some o else objects w k;
  store_Update o w : is_Some (objects w (key o)) ->
    exists w', Update cl o w = Done (inl o, w') /\
      forall k, objects w' k = if decide (k = key o) then Some o else objects w k;
  store_Delete o w : is_Some (objects w (key o)) ->
    exists w', Delete cl o w = Done (None, w') /\
      forall k, objects w' k = if decide (k = key o) then None else objects w k;
  store_CreateOrUpdate o f w : (forall x, key (f x) = key x) ->
    exists w', CreateOrUpdate cl o f w = Done (None, w') /\
      forall k, objects w' k = if decide (k = key o) then Some (f (default o (objects w (key o)))) else objects w k
}.

(** A store that keeps the objects of one type by their key. *)
Module ConcreteStore.
Section Store.
Context {T : Type} (key : T -> NamespacedName).

Definition notFound : error := {| Error := "not found"; StatusReason := "NotFound" |}.

Definition put (o : T) : M (gmap NamespacedName T) (T + error) := fun w => Done (inl o, <[key o := o]> w).

Definition client : ObjectClient (gmap NamespacedName T) T := {|
  Get k w := Done (match w !! k with Some o => inl o | None => inr notFound end, w);
  List_ ns w := Done (inl (snd <$> filter (fun ko => nn_Namespace ko.1 = ns) (map_to_list w)), w);
  Create := put;
  Update o w := if w !! key o is Some _ then put o w else Done (inr notFound, w);
  StatusUpdate o w := if w !! key o is Some _ then put o w else Done (inr notFound, w);
  Delete o w := if w !! key o is Some _ then Done (None, delete (key o) w) else Done (Some notFound, w);
  CreateOrUpdate o f w := Done (None, <[key o := f (default o (w !! key o))]> w);
  RetryOnConflict f o := f o
|}.

Lemma laws : StoreLaws client key (fun w k => w !! k).
Proof.
  split; simpl; unfold put.
  - by intros k w o ->.
  - intros k w ->. eauto.
  - intros o w _. eexists; split; [reflexivity|]. intros k. case_decide; by simplify_map_eq.
  - intros o w [x ->]. eexists; split; [reflexivity|]. intros k. case_decide; by simplify_map_eq.
  - intros o w [x ->]. eexists; split; [reflexivity|]. intros k. case_decide; by simplify_map_eq.
  - intros o f w _. eexists; split; [reflexivity|]. intros k. case_decide; by simplify_map_eq.
Qed.
End Store.

(** A client for which nothing exists but the given storage accounts. *)
Definition absent {W T : Type} : ObjectClient W T := {|
  Get _ w := Done (inr notFound, w); List_ _ w := Done (inl [], w);
  Create _ w := Done (inr notFound, w); Update _ w := Done (inr notFound, w);
  StatusUpdate _ w := Done (inr notFound, w); Delete _ w := Done (Some notFound, w);
  CreateOrUpdate _ _ w := Done (Some notFound, w); RetryOnConflict f o := f o |}.

Definition onlyAccounts {W : Type} (accounts : list FybrikStorageAccount) : Client W := {|
  Applications := absent; Plotters := absent; Blueprints := absent; ModulesClient := absent;
  ListStorageAccounts _ w := Done (inl accounts, w);
  GetSecret _ w := Done (inr notFound, w); GetConfigMap _ w := Done (inr notFound, w) |}.
End ConcreteStore.
