(* ===== verification/MultiCluster.v ===== *)
(** * Cluster managers

    [pkg/multicluster]: the interface through which blueprints are managed on the
    clusters; [local]: the manager of a single cluster, on its API server; [dummy]:
    the in-memory manager. *)
From stdpp Require Import base gmap strings list numbers.
From S2P Require Import Prelude GoStrings Types External World.

(** [multicluster.ClusterManager] *)
Record ClusterManager (W : Type) := mkClusterManager {
  GetClusters : M W (list Cluster + error);
  GetBlueprint : string -> string -> string -> M W (option Blueprint + error);
  CreateBlueprint : string -> Blueprint -> M W (option error);
  UpdateBlueprint : string -> Blueprint -> M W (option error);
  DeleteBlueprint : string -> string -> string -> M W (option error)
}.
Arguments mkClusterManager {W}.
Arguments GetClusters {W}.
Arguments GetBlueprint {W}.
Arguments CreateBlueprint {W}.
Arguments UpdateBlueprint {W}.
Arguments DeleteBlueprint {W}.

(** ** pkg/multicluster/local *)
Module Local.
Section Manager.
Context {W : Type} (cl : Client W) (namespace : string).

Definition GetClusters : M W (list Cluster + error) :=
  cm ← GetConfigMap cl (mkNamespacedName "cluster-metadata" namespace);
  mret (match cm with
        | inr err => inr (wrapError "error in GetClusters" err)
        | inl data => inl [CreateCluster data]
        end).

Definition GetLocalClusterName : M W (string + error) :=
  cs ← GetClusters;
  mret (match cs with
        | inr err => inr err
        | inl [c] => inl (cluster_Name c)
        | inl _ => inr (newError InvalidClusterConfiguration)
        end).

(** Whether the named cluster is the local one. *)
Definition registered (cluster : string) : M W bool :=
  name ← GetLocalClusterName;
  mret (match name with inl n => n =? cluster | inr _ => false end).

Definition unregistered (cluster : string) : error := newError ("unregistered cluster: " +:+ cluster).

Definition GetBlueprint (cluster namespace name : string) : M W (option Blueprint + error) :=
  ok ← registered cluster;
  if negb ok then mret (inr (unregistered cluster))
  else
    got ← Get (Blueprints cl) (mkNamespacedName name namespace);
    mret (match got with inl b => inl (Some b) | inr err => inr err end).

(** The object the update starts from. *)
Definition signature (b : Blueprint) : Blueprint :=
  mkBlueprint (mkObjectMeta (meta_Name (bp_Meta b)) (meta_Namespace (bp_Meta b)) "" 0 None [] None None "")
    (mkBlueprintSpec "" "" ∅) (mkBlueprintStatus (mkObservedState false "") 0 None None).

Definition mutate (b resource : Blueprint) : Blueprint :=
  resource <| bp_Spec := bp_Spec b |>
    <| bp_Meta := (bp_Meta resource)
         <| meta_Labels := meta_Labels (bp_Meta b) |>
         <| meta_Annotations := meta_Annotations (bp_Meta b) |> |>.

Definition UpdateBlueprint (cluster : string) (b : Blueprint) : M W (option error) :=
  ok ← registered cluster;
  if negb ok then mret (Some (unregistered cluster))
  else CreateOrUpdate (Blueprints cl) (signature b) (mutate b).

Definition CreateBlueprint (cluster : string) (b : Blueprint) : M W (option error) :=
  UpdateBlueprint cluster b.

Definition DeleteBlueprint (cluster namespace name : string) : M W (option error) :=
  got ← GetBlueprint cluster namespace name;
  match got with
  | inr err => mret (Some err)
  | inl (Some b) => Delete (Blueprints cl) b
  | inl None => panic "invalid memory address or nil pointer dereference"
  end.

Definition manager : ClusterManager W :=
  mkClusterManager GetClusters GetBlueprint CreateBlueprint UpdateBlueprint DeleteBlueprint.
End Manager.
End Local.

(** ** pkg/multicluster/dummy *)
Module Dummy.
Record state := mkState {
  DeployedBlueprints : gomap Blueprint;
  Clusters : option (list Cluster)
}.

Definition put (cluster : string) (b : Blueprint) : M state (option error) := fun s =>
  match mset (DeployedBlueprints s) cluster b with
  | Done m => Done (None, s <| DeployedBlueprints := m |>)
  | Panic why => Panic why
  end.

Definition manager : ClusterManager state := {|
  GetClusters s := Done (inl (default [mkCluster "kind-kind" (mkClusterMetadata "" "" "")] (Clusters s)), s);
  GetBlueprint cluster _ _ s :=
    Done (match mget (DeployedBlueprints s) cluster with
          | Some b => inl (Some b)
          | None => inr (newError "blueprint not found")
          end, s);
  CreateBlueprint := put;
  UpdateBlueprint := put;
  DeleteBlueprint cluster _ _ s := Done (None, s <| DeployedBlueprints := mdelete (DeployedBlueprints s) cluster |>) |}.
End Dummy.
