(* ===== verification/Razee.v ===== *)
(** * The Razee cluster manager

    [pkg/multicluster/razee]: blueprints are published on a Razee server as versions of
    a channel per cluster and blueprint, to which the group of the cluster subscribes.
    The client of the server, and the codecs of the API machinery, are parameters.  A
    call that gives a pointer and an error is modelled by both. *)
From stdpp Require Import base gmap strings list numbers.
From S2P Require Import Prelude GoStrings GoInt Types External World MultiCluster.

(** ** The client of the server (satcon-client-go) *)

Record RazeeCluster := mkRazeeCluster { rc_ClusterID : string; rc_Name : string }.
Record RazeeGroup := mkRazeeGroup { group_UUID : string; group_Clusters : list RazeeCluster }.
Record ChannelVersion := mkChannelVersion { version_UUID : string; version_Name : string }.
Record RazeeChannel := mkRazeeChannel {
  channel_UUID : string;
  channel_Versions : list ChannelVersion;
  channel_Subscriptions : list string
}.

(** A call gives the answer, of which identifiers and success flags are kept, and an
    error. *)
Notation call W A := (M W (A * option error)).

Record SatCon (W : Type) := mkSatCon {
  ClustersByOrgID : string -> call W (list RazeeCluster);
  ClusterByName : string -> string -> call W (option RazeeCluster);
  GroupByName : string -> string -> call W (option RazeeGroup);
  AddGroup : string -> string -> call W (option string);
  GroupClusters : string -> string -> list string -> M W (option error);
  ChannelByName : string -> string -> call W (option RazeeChannel);
  AddChannel : string -> string -> call W (option string);
  RemoveChannel : string -> string -> call W (option bool);
  AddChannelVersion : string -> string -> string -> string -> call W (option string);
  RemoveChannelVersion : string -> string -> call W (option bool);
  AddSubscription : string -> string -> string -> string -> list string -> M W (option error);
  SetSubscription : string -> string -> string -> M W (option error);
  RemoveSubscription : string -> string -> call W (option bool);
  ResourceContent : string -> string -> string -> call W (option string)
}.
Arguments mkSatCon {W}.
Arguments ClustersByOrgID {W}.
Arguments ClusterByName {W}.
Arguments GroupByName {W}.
Arguments AddGroup {W}.
Arguments GroupClusters {W}.
Arguments ChannelByName {W}.
Arguments AddChannel {W}.
Arguments RemoveChannel {W}.
Arguments AddChannelVersion {W}.
Arguments RemoveChannelVersion {W}.
Arguments AddSubscription {W}.
Arguments SetSubscription {W}.
Arguments RemoveSubscription {W}.
Arguments ResourceContent {W}.

(** [yaml.Marshal] of a blueprint, and [multicluster.Decode]: what is in the object
    afterwards, and the error. *)
Class Codec := {
  encodeBlueprint : Blueprint -> string + error;
  decodeBlueprint : string -> Blueprint * option error;
  decodeConfigMap : string -> gmap string string * option error
}.

Record razeeClusterManager (W : Type) := mkRazeeClusterManager {
  orgID : string;
  clusterGroup : string;
  con : SatCon W
}.
Arguments mkRazeeClusterManager {W}.
Arguments orgID {W}.
Arguments clusterGroup {W}.
Arguments con {W}.

(** ** Names *)
Definition clusterMetadataConfigMapSL : string := "/api/v1/namespaces/fybrik-system/configmaps/cluster-metadata".
Definition createBluePrintSelfLink (namespace name : string) : string :=
  "/apis/app.fybrik.io/v1alpha1/namespaces/" +:+ namespace +:+ "/blueprints/" +:+ name.
Definition getGroupName (cluster : string) : string := "fybrik-" +:+ cluster.
Definition channelName (cluster name : string) : string := "fybrik.io-" +:+ cluster +:+ "-" +:+ name.

(** A field of a pointer that may be nil. *)
Definition field {W A} (p : option A) : M W A :=
  match p with Some a => mret a | None => panic "invalid memory address or nil pointer dereference" end.

(** [a, err := c; if err != nil { return err }] in a function that returns an error. *)
Definition checked {W A} (c : call W A) (k : A -> M W (option error)) : M W (option error) :=
  r ← c;
  match r with (_, Some err) => mret (Some err) | (a, None) => k a end.

(** [if err := c; err != nil { return err }] *)
Definition checkedErr {W} (c : M W (option error)) (k : M W (option error)) : M W (option error) :=
  err ← c;
  match err with Some err => mret (Some err) | None => k end.

(** The versions of a channel are numbered: the next number, or the name that is not a
    number. *)
Fixpoint maxVersion (versions : list ChannelVersion) (max : Z) : Z + error :=
  match versions with
  | [] => inl max
  | version :: rest =>
      match Atoi (version_Name version) with
      | None => inr (newError ("cannot parse version name " +:+ version_Name version))
      | Some v => maxVersion rest (if Z.ltb max v then v else max)
      end
  end.
Definition nextVersion (max : Z) : string := Itoa (int64 (max + 1)).

Section Operations.
Context `{Codec} {W : Type} (m : razeeClusterManager W).

(** The loop over the clusters of the organisation. *)
Fixpoint collectClusters (razeeClusters : list RazeeCluster) (clusters : list Cluster) : M W (list Cluster + error) :=
  match razeeClusters with
  | [] => mret (inl clusters)
  | c :: rest =>
      content ← ResourceContent (con m) (orgID m) (rc_ClusterID c) clusterMetadataConfigMapSL;
      match content with
      | (_, Some err) => mret (inr err)
      | (None, None) => collectClusters rest clusters
      | (Some text, None) =>
          match decodeConfigMap text with
          | (_, Some err) => mret (inr err)
          | (cm, None) => collectClusters rest (clusters ++ [CreateCluster cm])
          end
      end
  end.

Definition GetClusters : M W (list Cluster + error) :=
  if clusterGroup m <>? "" then
    r ← GroupByName (con m) (orgID m) (clusterGroup m);
    match r with
    | (_, Some err) => mret (inr err)
    | (group, None) => g ← field group; collectClusters (group_Clusters g) []
    end
  else
    r ← ClustersByOrgID (con m) (orgID m);
    match r with
    | (_, Some err) => mret (inr err)
    | (razeeClusters, None) => collectClusters razeeClusters []
    end.

Definition GetBlueprint (clusterName namespace name : string) : M W (option Blueprint + error) :=
  let selfLink := createBluePrintSelfLink namespace name in
  r ← ClusterByName (con m) (orgID m) clusterName;
  match r with
  | (_, Some err) => mret (inr err)
  | (cluster, None) =>
      c ← field cluster;
      jsonData ← ResourceContent (con m) (orgID m) (rc_ClusterID c) selfLink;
      mret (match jsonData with
            | (_, Some err) => inr err
            | (None, None) => inl None
            | (Some content, None) =>
                if content =? "" then inl None
                else
                  let '(blueprint, err) := decodeBlueprint content in
                  if meta_Namespace (bp_Meta blueprint) =? "" then inl None
                  else match err with Some err => inr err | None => inl (Some blueprint) end
            end)
  end.

Definition UpdateBlueprint (cluster : string) (blueprint : Blueprint) : M W (option error) :=
  let channelName := channelName cluster (meta_Name (bp_Meta blueprint)) in
  match encodeBlueprint blueprint with
  | inr err => mret (Some err)
  | inl content =>
      r ← ChannelByName (con m) (orgID m) channelName;
      match r with
      | (_, Some _) => mret (Some (newError ("cannot fetch channel info for channel '" +:+ channelName +:+ "'")))
      | (channelInfo, None) =>
          ch ← field channelInfo;
          match maxVersion (channel_Versions ch) 0 with
          | inr err => mret (Some err)
          | inl max =>
              match channel_Subscriptions ch with
              | [subscriptionUUID] =>
                  checked (AddChannelVersion (con m) (orgID m) (channel_UUID ch) (nextVersion max) content)
                    (fun channelVersion =>
                       versionUUID ← field channelVersion;
                       SetSubscription (con m) (orgID m) subscriptionUUID versionUUID)
              | _ => mret (Some (newError "found more or less than one subscription"))
              end
          end
      end
  end.

(** Undoing a part of a creation that failed: errors are only logged. *)
Definition rollback (c : call W (option bool)) : M W unit :=
  r ← c;
  match r with
  | (_, Some _) => mret tt
  | (removed, None) => _ ← field removed; mret tt
  end.

(** The channel of a new blueprint, its first version and the subscription of the
    group of the cluster. *)
Definition createChannel (channelName groupName content : string) : M W (option error) :=
  checked (AddChannel (con m) (orgID m) channelName) (fun channel =>
    channelUUID ← field channel;
    v ← AddChannelVersion (con m) (orgID m) channelUUID "0" content;
    match v with
    | (_, Some err) =>
        _ ← rollback (RemoveChannel (con m) (orgID m) channelUUID);
        mret (Some err)
    | (channelVersion, None) =>
        versionUUID ← field channelVersion;
        err ← AddSubscription (con m) (orgID m) channelName channelUUID versionUUID [groupName];
        match err with
        | Some err =>
            _ ← rollback (RemoveChannelVersion (con m) (orgID m) versionUUID);
            _ ← rollback (RemoveChannel (con m) (orgID m) channelUUID);
            mret (Some err)
        | None => mret None
        end
    end).

(** The identifier of the group, which is created when it does not exist. *)
Definition groupOf (groupName : string) (k : string -> M W (option error)) : M W (option error) :=
  r ← GroupByName (con m) (orgID m) groupName;
  let '(group, err) := r in
  if from_option (fun e => Error e <>? "Cannot destructure property 'req_id' of 'context' as it is undefined.") false err
  then mret err
  else match group with
       | Some g => k (group_UUID g)
       | None => checked (AddGroup (con m) (orgID m) groupName) (fun added => uuid ← field added; k uuid)
       end.

(** The cluster is put into its group, and the channel of the blueprint is created, or
    updated when it exists. *)
Definition publish (cluster : string) (blueprint : Blueprint) (content : string) (rCluster : RazeeCluster)
    (groupUUID : string) : M W (option error) :=
  let channelName := channelName cluster (meta_Name (bp_Meta blueprint)) in
  checkedErr (GroupClusters (con m) (orgID m) groupUUID [rc_ClusterID rCluster])
    (existing ← ChannelByName (con m) (orgID m) channelName;
     let '(existingChannel, err) := existing in
     if from_option (fun e => negb (HasPrefix (Error e) "Query channelByName error.")) false err then mret err
     else match existingChannel with
          | Some _ => UpdateBlueprint cluster blueprint
          | None => createChannel channelName (getGroupName cluster) content
          end).

Definition CreateBlueprint (cluster : string) (blueprint : Blueprint) : M W (option error) :=
  let groupName := getGroupName cluster in
  match encodeBlueprint blueprint with
  | inr err => mret (Some err)
  | inl content =>
      r ← ClusterByName (con m) (orgID m) cluster;
      match r with
      | (_, Some err) => mret (Some (wrapError "error while fetching cluster by name" err))
      | (None, None) =>
          mret (Some (newError ("no cluster found for orgID " +:+ orgID m +:+ " and cluster name " +:+ cluster)))
      | (Some rCluster, None) =>
          groupOf groupName (publish cluster blueprint content rCluster)
      end
  end.

(** Removing a list of objects, until one fails. *)
Fixpoint removeAll (remove : string -> call W (option bool)) (uuids : list string) (k : M W (option error))
    : M W (option error) :=
  match uuids with
  | [] => k
  | uuid :: rest => checked (remove uuid) (fun removed => _ ← field removed; removeAll remove rest k)
  end.

Definition DeleteBlueprint (cluster namespace name : string) : M W (option error) :=
  let channelName := channelName cluster name in
  checked (ChannelByName (con m) (orgID m) channelName) (fun channel =>
    ch ← field channel;
    removeAll (RemoveSubscription (con m) (orgID m)) (channel_Subscriptions ch)
      (removeAll (RemoveChannelVersion (con m) (orgID m)) (version_UUID <$> channel_Versions ch)
         (checked (RemoveChannel (con m) (orgID m) (channel_UUID ch)) (fun removed => _ ← field removed; mret None)))).

Definition manager : ClusterManager W :=
  mkClusterManager GetClusters GetBlueprint CreateBlueprint UpdateBlueprint DeleteBlueprint.
End Operations.

(** ** Construction

    [local.NewClient], [apikey.NewClient] and [iam.NewIAMClient] give the authentication
    of a connection, [client.New] the connection, [Users.Me] the user. *)
Section Construction.
Context {W Auth : Type} (New : string -> Auth -> SatCon W * option error) (Me : SatCon W -> M W (option string * option error)).

Definition endPointURL : string := "https://config.satellite.cloud.ibm.com/graphql".

(** The common end of the constructors: the organisation of the user. *)
Definition login (group : string) (c : SatCon W) : M W (razeeClusterManager W + error) :=
  r ← Me c;
  mret (match r with
        | (_, Some err) => inr err
        | (None, None) => inr (newError "could not retrieve login information of Razee")
        | (Some org, None) => inl (mkRazeeClusterManager org group c)
        end).

Definition NewRazeeLocalClusterManager (newAuth : string -> string -> string -> Auth + error)
    (url user password group : string) : M W (razeeClusterManager W + error) :=
  match newAuth url user password with
  | inr err => mret (inr err)
  | inl auth => login group (New url auth).1
  end.

Definition NewRazeeOAuthClusterManager (newAuth : string -> Auth + error) (url apiKey group : string)
    : M W (razeeClusterManager W + error) :=
  match newAuth apiKey with
  | inr err => mret (inr err)
  | inl auth => login group (New url auth).1
  end.

Definition NewSatConfClusterManager (newAuth : string -> option Auth + error) (apikey group : string)
    : M W (razeeClusterManager W + error) :=
  match newAuth apikey with
  | inr err => mret (inr err)
  | inl None => mret (inr (newError "the IAMClient returned nil for IBM Cloud Satellite Config"))
  | inl (Some auth) =>
      match New endPointURL auth with
      | (_, Some err) => mret (inr err)
      | (c, None) => login group c
      end
  end.
End Construction.

(** ** Recording the calls to the server *)

Inductive event :=
| FoundCluster (name : string) (answer : option RazeeCluster * option error)
| FoundGroup (name : string) (answer : option RazeeGroup * option error)
| AddedGroup (name : string) (answer : option string * option error)
| Grouped (group : string) (clusters : list string) (answer : option error)
| FoundChannel (name : string) (answer : option RazeeChannel * option error)
| AddedChannel (name : string) (answer : option string * option error)
| RemovedChannel (uuid : string)
| AddedVersion (channel version content : string) (answer : option string * option error)
| RemovedVersion (uuid : string)
| Subscribed (name channel version : string) (groups : list string) (answer : option error)
| SetSubscriptionTo (subscription version : string) (answer : option error)
| RemovedSubscription (uuid : string).

(** A computation over a world with a record of events. *)
Definition quiet {W A} (c : M W A) : M (W * list event) A := fun s =>
  match c s.1 with Done (a, w) => Done (a, (w, s.2)) | Panic why => Panic why end.
Definition logged {W A} (e : A -> event) (c : M W A) : M (W * list event) A := fun s =>
  match c s.1 with Done (a, w) => Done (a, (w, s.2 ++ [e a])) | Panic why => Panic why end.

(** Any client, with a record of the calls. *)
Definition traced {W} (c : SatCon W) : SatCon (W * list event) := {|
  ClustersByOrgID org := quiet (ClustersByOrgID c org);
  ClusterByName org name := logged (FoundCluster name) (ClusterByName c org name);
  GroupByName org name := logged (FoundGroup name) (GroupByName c org name);
  AddGroup org name := logged (AddedGroup name) (AddGroup c org name);
  GroupClusters org group clusters := logged (Grouped group clusters) (GroupClusters c org group clusters);
  ChannelByName org name := logged (FoundChannel name) (ChannelByName c org name);
  AddChannel org name := logged (AddedChannel name) (AddChannel c org name);
  RemoveChannel org uuid := logged (fun _ => RemovedChannel uuid) (RemoveChannel c org uuid);
  AddChannelVersion org channel version content :=
    logged (AddedVersion channel version content) (AddChannelVersion c org channel version content);
  RemoveChannelVersion org uuid := logged (fun _ => RemovedVersion uuid) (RemoveChannelVersion c org uuid);
  AddSubscription org name channel version groups :=
    logged (Subscribed name channel version groups) (AddSubscription c org name channel version groups);
  SetSubscription org subscription version :=
    logged (SetSubscriptionTo subscription version) (SetSubscription c org subscription version);
  RemoveSubscription org uuid := logged (fun _ => RemovedSubscription uuid) (RemoveSubscription c org uuid);
  ResourceContent org cluster link := quiet (ResourceContent c org cluster link)
|}.

(** [emits c P]: whenever [c] returns, its result and the events it adds satisfy [P]. *)
Definition emits {W A} (c : M (W * list event) A) (P : A -> list event -> Prop) : Prop :=
  forall w tr a w' tr', c (w, tr) = Done (a, (w', tr')) -> exists new, tr' = tr ++ new /\ P a new.

Lemma emits_ret {W A} (a : A) (P : A -> list event -> Prop) : P a [] -> emits (W := W) (mret a) P.
Proof. intros HP w tr b w' tr' [-> [= <- <-]]%M_ret_inv. exists []. by rewrite app_nil_r. Qed.

Lemma emits_bind {W A B} (c : M (W * list event) A) (k : A -> M (W * list event) B) Q P :
  emits c Q -> (forall a new, Q a new -> emits (k a) (fun b more => P b (new ++ more))) -> emits (c ≫= k) P.
Proof.
  intros Hc Hk w tr b w' tr' H. apply M_bind_inv in H as (a & [w1 tr1] & E1 & E2).
  apply Hc in E1 as (new & -> & HQ). apply (Hk _ _ HQ) in E2 as (more & -> & HP).
  exists (new ++ more). by rewrite app_assoc.
Qed.

Lemma emits_quiet {W A} (c : M W A) : emits (quiet c) (fun _ new => new = []).
Proof.
  intros w tr a w' tr'. unfold quiet; simpl. destruct (c w) as [[b w1]|]; [|done].
  intros [= -> -> <-]. exists []. by rewrite app_nil_r.
Qed.

Lemma emits_logged {W A} (e : A -> event) (c : M W A) : emits (logged e c) (fun a new => new = [e a]).
Proof.
  intros w tr a w' tr'. unfold logged; simpl. destruct (c w) as [[b w1]|]; [|done].
  intros [= -> -> <-]. by exists [e a].
Qed.

Lemma emits_field {W A} (p : option A) : emits (W := W) (field p) (fun a new => p = Some a /\ new = []).
Proof. destruct p; simpl; [by apply emits_ret|]. intros w tr a w' tr'. by intros [=]. Qed.

Lemma emits_weaken {W A} (c : M (W * list event) A) Q P :
  emits c Q -> (forall a new, Q a new -> P a new) -> emits c P.
Proof. intros Hc HQP w tr a w' tr' H. apply Hc in H as (new & ? & ?). eauto. Qed.

Lemma emits_checked {W A} (c : call (W * list event) A) k Q P :
  emits c Q ->
  (forall a err new, Q (a, Some err) new -> P (Some err) new) ->
  (forall a new, Q (a, None) new -> emits (k a) (fun b more => P b (new ++ more))) ->
  emits (checked c k) P.
Proof.
  intros Hc He Hk. eapply emits_bind; [exact Hc|]. intros [a [err|]] new HQ; [|auto].
  apply emits_ret. rewrite app_nil_r. eauto.
Qed.

Create HintDb razee.
#[export] Hint Resolve emits_quiet emits_logged emits_field : razee.

Definition traced_manager {W} (m : razeeClusterManager W) : razeeClusterManager (W * list event) :=
  mkRazeeClusterManager (orgID m) (clusterGroup m) (traced (con m)).

(** ** Versions *)

Lemma maxVersion_spec versions max n :
  maxVersion versions max = inl n ->
  (max <= n)%Z /\ (n = max \/ exists v, v ∈ versions /\ Atoi (version_Name v) = Some n) /\
  Forall (fun v => exists z, Atoi (version_Name v) = Some z /\ (z <= n)%Z) versions.
Proof.
  revert max. induction versions as [|v versions IH]; intros max; simpl.
  { intros [= <-]. split; [lia|]. split; [by left|constructor]. }
  destruct (Atoi (version_Name v)) as [z|] eqn:E; [|done].
  intros (Hle & Hn & Hall)%IH. destruct (Z.ltb_spec max z).
  - split; [lia|]. split; [|constructor; [eauto|done]]. right. destruct Hn as [->|(v' & ? & ?)].
    + exists v. split; [set_solver|done].
    + exists v'. split; [set_solver|done].
  - split; [lia|]. split; [|constructor; [exists z; split; [done|lia]|done]].
    destruct Hn as [->|(v' & ? & ?)]; [by left|right]. exists v'. split; [set_solver|done].
Qed.

(** The name of a version is a number above all the versions, unless one of them is the
    largest 64-bit number. *)
Definition above (versions : list ChannelVersion) (version : string) : Prop :=
  Forall (fun v => Atoi (version_Name v) <> Some (2 ^ 63 - 1)%Z) versions ->
  exists n, Atoi version = Some n /\ (0 < n)%Z /\
    Forall (fun v => exists z, Atoi (version_Name v) = Some z /\ (z < n)%Z) versions.

Lemma nextVersion_above versions max : maxVersion versions 0 = inl max -> above versions (nextVersion max).
Proof.
  intros (Hle & Hn & Hall)%maxVersion_spec Hb. rewrite list.Forall_forall in Hb.
  assert (max < 2 ^ 63 - 1)%Z as Hmax.
  { destruct Hn as [->|(v & Hv & E)]; [lia|]. pose proof (Atoi_range _ _ E). pose proof (Hb v Hv).
    assert (max <> 2 ^ 63 - 1)%Z by congruence. lia. }
  exists (max + 1)%Z. split; [|split; [lia|]].
  - unfold nextVersion. rewrite int64_small by lia. apply Atoi_Itoa. lia.
  - eapply Forall_impl; [|exact Hall]. intros v (z & ? & ?). exists z. split; [done|lia].
Qed.

Section Facts.
Context `{Codec} {W : Type} (m : razeeClusterManager W).

Lemma emits_rollback (e : event) (c : call W (option bool)) :
  emits (rollback (logged (fun _ => e) c)) (fun _ new => new = [e]).
Proof.
  eapply emits_bind; [apply emits_logged|]. intros [removed [err|]] new ->; simpl.
  - by apply emits_ret.
  - eapply emits_bind; [apply emits_field|]. intros b more [_ ->]. by apply emits_ret.
Qed.

(** A channel that was added, and the versions added to it, are removed again. *)
Definition rolled_back (new : list event) : Prop := forall n ch, AddedChannel n (Some ch, None) ∈ new ->
  RemovedChannel ch ∈ new /\
  forall v content ver, AddedVersion ch v content (Some ver, None) ∈ new -> RemovedVersion ver ∈ new.

(** What a creation of a channel did to the server. *)
Definition created (name group content : string) (r : option error) (new : list event) : Prop :=
  match r with
  | None => exists ch ver, new = [AddedChannel name (Some ch, None); AddedVersion ch "0" content (Some ver, None);
                                   Subscribed name ch ver [group] None]
  | Some _ => rolled_back new
  end.

Lemma createChannel_emits name group content :
  emits (createChannel (traced_manager m) name group content) (created name group content).
Proof.
  unfold createChannel. eapply emits_checked; [apply emits_logged| |].
  { intros ch err new ->. simpl. intros n ch' Hin. set_solver. }
  intros ch new ->. eapply emits_bind; [apply emits_field|]. intros ch' ? [-> ->].
  eapply emits_bind; [apply emits_logged|]. intros [ver [err|]] ? ->.
  - eapply emits_bind; [apply emits_rollback|]. intros _ ? ->. apply emits_ret. simpl. intros n c Hin. set_solver.
  - eapply emits_bind; [apply emits_field|]. intros ver' ? [-> ->].
    eapply emits_bind; [apply emits_logged|]. intros [err|] ? ->.
    + eapply emits_bind; [apply emits_rollback|]. intros _ ? ->.
      eapply emits_bind; [apply emits_rollback|]. intros _ ? ->. apply emits_ret. simpl. intros n c Hin. set_solver.
    + apply emits_ret. simpl. eauto.
Qed.

(** What an update did to the server: the channel of that name was found, and its one
    subscription follows a new version with the content, whose number is
    above those of the channel. *)
Definition updated (name content : string) (r : option error) (new : list event) : Prop :=
  (forall n a, AddedChannel n a ∉ new) /\
  (r = None -> exists ch version ver sub, above (channel_Versions ch) version /\ channel_Subscriptions ch = [sub] /\
     new = [FoundChannel name (Some ch, None); AddedVersion (channel_UUID ch) version content (Some ver, None);
            SetSubscriptionTo sub ver None]).

Lemma UpdateBlueprint_emits cluster b content :
  encodeBlueprint b = inl content ->
  emits (UpdateBlueprint (traced_manager m) cluster b)
    (updated ("fybrik.io-" +:+ cluster +:+ "-" +:+ meta_Name (bp_Meta b)) content).
Proof.
  intros E. unfold UpdateBlueprint. rewrite E. eapply emits_bind; [apply emits_logged|].
  intros [info [err|]] ? ->; [apply emits_ret; split; [set_solver|done]|].
  eapply emits_bind; [apply emits_field|]. intros ch ? [-> ->].
  destruct (maxVersion _ _) as [max|err] eqn:Hmax; [|apply emits_ret; split; [set_solver|done]].
  destruct (channel_Subscriptions ch) as [|sub [|? ?]] eqn:Hsub; try (apply emits_ret; split; [set_solver|done]).
  eapply emits_checked; [apply emits_logged| |].
  { intros ver err ? ->. split; [set_solver|done]. }
  intros ver ? ->. eapply emits_bind; [apply emits_field|]. intros ver' ? [-> ->].
  eapply emits_weaken; [apply emits_logged|]. intros r ? ->. split; [set_solver|]. intros ->.
  exists ch, (nextVersion max), ver', sub. split; [by apply nextVersion_above|]. done.
Qed.

(** The calls that find the group of a cluster, or add it when it does not exist. *)
Definition found_group (name uuid : string) (new : list event) : Prop :=
  (exists g e, new = [FoundGroup name (Some g, e)] /\ uuid = group_UUID g) \/
  (exists e, new = [FoundGroup name (None, e); AddedGroup name (Some uuid, None)]).

(** The calls of a creation that succeeds: the cluster is found and put into its group;
    the channel of the blueprint is created with a first version to which the group is
    subscribed, or it exists already and is updated. *)
Definition published (cluster : string) (b : Blueprint) (content : string) (new : list event) : Prop :=
  let channel := "fybrik.io-" +:+ cluster +:+ "-" +:+ meta_Name (bp_Meta b) in
  let group := "fybrik-" +:+ cluster in
  exists c gid groups e rest, found_group group gid groups /\
    ((exists rest', rest = FoundChannel channel (None, e) :: rest' /\ created channel group content None rest') \/
     (exists ch rest', rest = FoundChannel channel (Some ch, e) :: rest' /\ updated channel content None rest')) /\
    new = FoundCluster cluster (Some c, None) :: groups ++ Grouped gid [rc_ClusterID c] None :: rest.

(** The part of it after the group has been found. *)
Definition finishes (cluster : string) (b : Blueprint) (content : string) (c : RazeeCluster) (gid : string)
    (r : option error) (new : list event) : Prop :=
  let channel := "fybrik.io-" +:+ cluster +:+ "-" +:+ meta_Name (bp_Meta b) in
  (r = None -> exists e rest,
     ((exists rest', rest = FoundChannel channel (None, e) :: rest' /\ created channel ("fybrik-" +:+ cluster) content None rest') \/
      (exists ch rest', rest = FoundChannel channel (Some ch, e) :: rest' /\ updated channel content None rest')) /\
     new = Grouped gid [rc_ClusterID c] None :: rest) /\
  (r <> None -> rolled_back new).

Lemma rolled_back_cons e new :
  (forall n a, e <> AddedChannel n a) -> (forall ch v c a, e <> AddedVersion ch v c a) ->
  rolled_back new -> rolled_back (e :: new).
Proof.
  intros Hc Hv Hb n ch [E|Hin]%elem_of_cons; [by destruct (Hc n (Some ch, None))|].
  destruct (Hb n ch Hin) as [Hr Hvs]. split; [by right|].
  intros v content ver [E|Hin']%elem_of_cons; [by destruct (Hv ch v content (Some ver, None))|]. right. by eapply Hvs.
Qed.
Lemma rolled_back_nil : rolled_back [].
Proof. intros n ch Hin. by apply not_elem_of_nil in Hin. Qed.
Lemma rolled_back_quiet new : (forall n a, AddedChannel n a ∉ new) -> rolled_back new.
Proof. intros Hno n ch Hin. by destruct (Hno _ _ Hin). Qed.

Ltac quiet_failure := apply emits_ret; split; [done|intros _; repeat (apply rolled_back_cons; [done..|]); apply rolled_back_nil].

Lemma publish_emits cluster b content c uuid :
  encodeBlueprint b = inl content ->
  emits (publish (traced_manager m) cluster b content c uuid) (finishes cluster b content c uuid).
Proof.
  intros E. eapply emits_bind; [apply emits_logged|]. intros [e|] ? ->; [quiet_failure|].
  eapply emits_bind; [apply emits_logged|]. intros [existing err] ? ->. simpl.
  destruct (from_option _ false err) eqn:Ef; [destruct err; [|done]; quiet_failure|].
  destruct existing as [ch|]; simpl.
  - eapply emits_weaken; [by apply UpdateBlueprint_emits|]. intros r new [Hno Hok]. split.
    + intros ->. exists err. eexists. split; [right; exists ch, new; split; [reflexivity|done]|done].
    + intros _. apply rolled_back_quiet. intros n a Hin. set_solver.
  - eapply emits_weaken; [apply createChannel_emits|]. intros r new Hr. split.
    + intros ->. exists err. eexists. split; [left; exists new; split; [reflexivity|exact Hr]|done].
    + intros Hne. destruct r; [|done]. by do 2 (apply rolled_back_cons; [done..|]).
Qed.

Lemma CreateBlueprint_emits cluster b content :
  encodeBlueprint b = inl content ->
  emits (CreateBlueprint (traced_manager m) cluster b) (fun r new =>
    (r = None -> published cluster b content new) /\ (r <> None -> rolled_back new)).
Proof.
  intros E. unfold CreateBlueprint. rewrite E. eapply emits_bind; [apply emits_logged|].
  intros [[c|] [err|]] ? ->; try quiet_failure.
  unfold groupOf. eapply emits_bind; [apply emits_logged|]. intros [group err] ? ->. simpl.
  destruct (from_option _ false err) eqn:Ef; [destruct err; [|done]; quiet_failure|].
  destruct group as [g|].
  - eapply emits_weaken; [by apply publish_emits|]. intros r new [Hok Hbad]. split.
    + intros (e & rest & Hrest & ->)%Hok. exists c, (group_UUID g), [FoundGroup (getGroupName cluster) (Some g, err)], e, rest. split; [left; by exists g, err|done].
    + intros Hne. do 2 (apply rolled_back_cons; [done..|]). auto.
  - eapply emits_checked; [apply emits_logged| |].
    { intros a e ? ->. split; [done|]. intros _. do 3 (apply rolled_back_cons; [done..|]). apply rolled_back_nil. }
    intros added ? ->. eapply emits_bind; [apply emits_field|]. intros uuid ? [-> ->].
    eapply emits_weaken; [by apply publish_emits|]. intros r new [Hok Hbad]. split.
    + intros (e & rest & Hrest & ->)%Hok. exists c, uuid,
        [FoundGroup (getGroupName cluster) (None, err); AddedGroup (getGroupName cluster) (Some uuid, None)], e, rest. split; [right; by exists err|done].
    + intros Hne. do 3 (apply rolled_back_cons; [done..|]). auto.
Qed.
End Facts.

(** C22: for a blueprint that can be encoded, when the Razee manager reports that it has created a blueprint, its calls to the
    server were exactly these: the cluster was found by its name and put into the group
    named after it, which was created when it did not exist; then either no channel was
    found for the blueprint and the cluster, and a channel, a first version with the content
    of the blueprint and a subscription of the group to that version were created; or the
    channel existed, a version with the content and the next number was added to it, and its
    only subscription was set to that version.  When the creation fails, the manager has
    asked the server to remove the channel it added, if any, and the versions it added to
    that channel.  It holds for every behaviour of the server: the calls are those recorded
    in front of an arbitrary client. *)
Theorem razee_create_publishes_or_rolls_back `{Codec} {W} (m : razeeClusterManager W) cluster b content w tr r w' tr' :
  encodeBlueprint b = inl content ->
  CreateBlueprint (traced_manager m) cluster b (w, tr) = Done (r, (w', tr')) ->
  exists new, tr' = tr ++ new /\
    (r = None -> published cluster b content new) /\ (r <> None -> rolled_back new).
Proof. intros Ec. apply CreateBlueprint_emits. exact Ec. Qed.

(** ** Deletion *)
Section Deletion.
Context {W : Type} (m : razeeClusterManager W).

Lemma removeAll_emits (e : string -> event) (remove : string -> call W (option bool)) uuids k P :
  (forall r new, r <> None -> P r new) ->
  emits k (fun r more => P r ((e <$> uuids) ++ more)) ->
  emits (removeAll (fun u => logged (fun _ => e u) (remove u)) uuids k) P.
Proof.
  intros He. revert P He. induction uuids as [|u uuids IH]; intros P He Hk; [exact Hk|]. simpl.
  eapply emits_checked; [apply emits_logged| |].
  { intros a err ? ->. by apply He. }
  intros a ? ->. eapply emits_bind; [apply emits_field|]. intros b ? [_ ->]. apply IH; [|exact Hk]. intros. by apply He.
Qed.

Lemma DeleteBlueprint_emits cluster namespace name :
  emits (DeleteBlueprint (traced_manager m) cluster namespace name) (fun r new =>
    r = None -> exists ch, new = FoundChannel ("fybrik.io-" +:+ cluster +:+ "-" +:+ name) (Some ch, None) :: (RemovedSubscription <$> channel_Subscriptions ch) ++
      (RemovedVersion <$> (version_UUID <$> channel_Versions ch)) ++ [RemovedChannel (channel_UUID ch)]).
Proof.
  unfold DeleteBlueprint. eapply emits_checked; [apply emits_logged|done|]. intros channel ? ->.
  eapply emits_bind; [apply emits_field|]. intros ch ? [-> ->]. simpl.
  apply removeAll_emits; [done|]. apply removeAll_emits; [done|].
  eapply emits_checked; [apply emits_logged|done|]. intros a ? ->.
  eapply emits_bind; [apply emits_field|]. intros b ? [_ ->]. apply emits_ret. intros _. by exists ch.
Qed.
End Deletion.

(** A deletion that succeeds has found the channel of the blueprint and removed its subscriptions, then its
    versions and then the channel, and nothing else. *)
Lemma razee_delete_exact {W} (m : razeeClusterManager W) cluster namespace name w tr w' tr' :
  DeleteBlueprint (traced_manager m) cluster namespace name (w, tr) = Done (None, (w', tr')) ->
  exists ch, tr' = tr ++ FoundChannel ("fybrik.io-" +:+ cluster +:+ "-" +:+ name) (Some ch, None) ::
    (RemovedSubscription <$> channel_Subscriptions ch) ++
    (RemovedVersion <$> (version_UUID <$> channel_Versions ch)) ++ [RemovedChannel (channel_UUID ch)].
Proof. intros (new & -> & Hn)%DeleteBlueprint_emits. destruct (Hn eq_refl) as (ch & ->). by exists ch. Qed.

(** C39: an update of a blueprint that can be encoded, when it succeeds, finds the channel of the blueprint and the
    cluster, adds to it a version with the content of the blueprint and sets the only
    subscription of the channel to that version, and makes no other call.  The name of the
    version is a number that is larger than every version of the channel, so that updates
    keep their order and the next update can read it.  The numbers are 64-bit: the order asks
    that no version of the channel has the largest of them, at which the next one wraps
    around. *)
Theorem razee_next_version_fresh `{Codec} {W} (m : razeeClusterManager W) cluster b content w tr w' tr' :
  encodeBlueprint b = inl content ->
  UpdateBlueprint (traced_manager m) cluster b (w, tr) = Done (None, (w', tr')) ->
  exists ch version ver sub, above (channel_Versions ch) version /\ channel_Subscriptions ch = [sub] /\
    tr' = tr ++ [FoundChannel ("fybrik.io-" +:+ cluster +:+ "-" +:+ meta_Name (bp_Meta b)) (Some ch, None);
                 AddedVersion (channel_UUID ch) version content (Some ver, None); SetSubscriptionTo sub ver None].
Proof.
  intros Ec (new & -> & _ & Hok)%(UpdateBlueprint_emits m cluster b content Ec).
  destruct (Hok eq_refl) as (ch & version & ver & sub & Hab & Hsub & ->). by exists ch, version, ver, sub.
Qed.

(** A blueprint whose document cannot be decoded is reported as missing: the error is
    dropped when the object has no namespace. *)
Lemma razee_decode_failure_hidden `{Codec} {W} (m : razeeClusterManager W) cluster ns name w c w1 content w2 b err :
  ClusterByName (con m) (orgID m) cluster w = Done ((Some c, None), w1) ->
  ResourceContent (con m) (orgID m) (rc_ClusterID c) (createBluePrintSelfLink ns name) w1 = Done ((Some content, None), w2) ->
  content <> "" -> decodeBlueprint content = (b, Some err) -> meta_Namespace (bp_Meta b) = "" ->
  GetBlueprint m cluster ns name w = Done (inl None, w2).
Proof.
  intros Ec Er Hc Ed Hn. unfold GetBlueprint. rewrite (M_bind_run _ _ _ _ _ Ec). simpl.
  erewrite M_bind_run; [|reflexivity]. rewrite (M_bind_run _ _ _ _ _ Er).
  destruct (String.eqb_spec content "") as [|_]; [done|]. by rewrite Ed, Hn.
Qed.

(** ** Instances *)
Module RazeeExamples.

Definition codec : Codec := {|
  encodeBlueprint b := inl (meta_Name (bp_Meta b));
  decodeBlueprint s := (Local.signature (mkBlueprint (mkObjectMeta s "" "" 0 None [] None None "")
    (mkBlueprintSpec "" "" ∅) (mkBlueprintStatus (mkObservedState false "") 0 None None)), None);
  decodeConfigMap s := ({[ "ClusterName" := s ]}, None)
|}.

(** A server without groups and channels, on which subscriptions fail. *)
Definition failing : SatCon unit := {|
  ClustersByOrgID _ := mret ([], None);
  ClusterByName _ name := mret (Some (mkRazeeCluster "id" name), None);
  GroupByName _ _ := mret (None, None);
  AddGroup _ name := mret (Some name, None);
  GroupClusters _ _ _ := mret None;
  ChannelByName _ _ := mret (None, None);
  AddChannel _ name := mret (Some ("uuid-" +:+ name), None);
  RemoveChannel _ _ := mret (Some true, None);
  AddChannelVersion _ _ v _ := mret (Some v, None);
  RemoveChannelVersion _ _ := mret (Some true, None);
  AddSubscription _ _ _ _ _ := mret (Some (newError "refused"));
  SetSubscription _ _ _ := mret None;
  RemoveSubscription _ _ := mret (Some true, None);
  ResourceContent _ _ _ := mret (None, None)
|}.
Definition razee : razeeClusterManager unit := mkRazeeClusterManager "org" "" failing.
Definition blueprint : Blueprint :=
  mkBlueprint (mkObjectMeta "bp" "ns" "" 0 None [] None None "") (mkBlueprintSpec "" "" ∅)
    (mkBlueprintStatus (mkObservedState false "") 0 None None).
Definition failed_trace : list event :=
  [FoundCluster "c" (Some (mkRazeeCluster "id" "c"), None); FoundGroup "fybrik-c" (None, None);
   AddedGroup "fybrik-c" (Some "fybrik-c", None); Grouped "fybrik-c" ["id"] None;
   FoundChannel "fybrik.io-c-bp" (None, None);
   AddedChannel "fybrik.io-c-bp" (Some "uuid-fybrik.io-c-bp", None);
   AddedVersion "uuid-fybrik.io-c-bp" "0" "bp" (Some "0", None);
   Subscribed "fybrik.io-c-bp" "uuid-fybrik.io-c-bp" "0" ["fybrik-c"] (Some (newError "refused"));
   RemovedVersion "0"; RemovedChannel "uuid-fybrik.io-c-bp"].

(** A server on which every call succeeds, with or without a channel. *)
Definition versions : list ChannelVersion := [mkChannelVersion "u0" "0"; mkChannelVersion "u1" "9"].
Definition working (existing : option RazeeChannel) : SatCon unit := {|
  ClustersByOrgID := ClustersByOrgID failing; ClusterByName := ClusterByName failing; GroupByName := GroupByName failing;
  AddGroup := AddGroup failing; GroupClusters := GroupClusters failing;
  ChannelByName _ _ := mret (existing, None);
  AddChannel := AddChannel failing; RemoveChannel := RemoveChannel failing; AddChannelVersion := AddChannelVersion failing;
  RemoveChannelVersion := RemoveChannelVersion failing;
  AddSubscription _ _ _ _ _ := mret None; SetSubscription := SetSubscription failing;
  RemoveSubscription := RemoveSubscription failing; ResourceContent := ResourceContent failing |}.
Definition existing : RazeeChannel := mkRazeeChannel "uuid" versions ["sub"].
Definition created_trace : list event :=
  take 7 failed_trace ++ [Subscribed "fybrik.io-c-bp" "uuid-fybrik.io-c-bp" "0" ["fybrik-c"] None].
Definition updated_trace : list event :=
  [FoundChannel "fybrik.io-c-bp" (Some existing, None); AddedVersion "uuid" "10" "bp" (Some "10", None);
   SetSubscriptionTo "sub" "10" None].
Definition recreated_trace : list event :=
  take 4 failed_trace ++ FoundChannel "fybrik.io-c-bp" (Some existing, None) :: updated_trace.
Definition razeeOn (c : SatCon unit) : razeeClusterManager unit := mkRazeeClusterManager "org" "" c.

(** A creation that is rolled back, one that makes the channel and one that finds it. *)
Lemma razee_create_publishes_or_rolls_back_witness :
  rolled_back failed_trace /\ published "c" blueprint "bp" created_trace /\ published "c" blueprint "bp" recreated_trace.
Proof.
  destruct (@razee_create_publishes_or_rolls_back codec unit razee "c" blueprint "bp" tt [] (Some (newError "refused")) tt
    failed_trace eq_refl ltac:(vm_compute; reflexivity)) as (n1 & E1 & _ & H1).
  destruct (@razee_create_publishes_or_rolls_back codec unit (razeeOn (working None)) "c" blueprint "bp" tt [] None tt
    created_trace eq_refl ltac:(vm_compute; reflexivity)) as (n2 & E2 & H2 & _).
  destruct (@razee_create_publishes_or_rolls_back codec unit (razeeOn (working (Some existing))) "c" blueprint "bp" tt [] None tt
    recreated_trace eq_refl ltac:(vm_compute; reflexivity)) as (n3 & E3 & H3 & _).
  rewrite E1, E2, E3. split; [by apply H1|]. split; [by apply H2|by apply H3].
Defined.

Lemma razee_next_version_fresh_witness : exists ch version ver sub, above (channel_Versions ch) version /\
  channel_Subscriptions ch = [sub] /\
  updated_trace = [] ++ [FoundChannel "fybrik.io-c-bp" (Some ch, None);
    AddedVersion (channel_UUID ch) version "bp" (Some ver, None); SetSubscriptionTo sub ver None].
Proof.
  exact (@razee_next_version_fresh codec unit (razeeOn (working (Some existing))) "c" blueprint "bp" tt [] tt updated_trace
    eq_refl ltac:(vm_compute; reflexivity)).
Defined.
End RazeeExamples.
