(* ===== verification/Storage.v ===== *)
(** * Storage provisioning

    [pkg/storage/storage_provisioning.go]: buckets are provisioned through [Dataset]
    resources.  [Provision] is the interface the controllers use, [ProvisionImpl] its
    implementation on the API server, [ProvisionTest] the in-memory one. *)
From stdpp Require Import base gmap strings list numbers.
From S2P Require Import Prelude GoStrings Types External World.

Record ProvisionedBucket := mkProvisionedBucket {
  bucket_Name : string;
  bucket_Endpoint : string;
  bucket_SecretRef : NamespacedName
}.

Record ProvisionedStorageStatus := mkProvisionedStorageStatus {
  Provisioned : bool;
  ErrorMsg : string
}.

#[export] Instance ProvisionedBucket_eq_dec : EqDecision ProvisionedBucket.
Proof. solve_decision. Defined.

(** [ProvisionInterface] *)
Record Provision (W : Type) := mkProvision {
  CreateDataset : NamespacedName -> ProvisionedBucket -> NamespacedName -> M W (option error);
  DeleteDataset : NamespacedName -> M W (option error);
  GetDatasetStatus : NamespacedName -> M W (ProvisionedStorageStatus + error);
  SetPersistent : NamespacedName -> bool -> M W (option error)
}.
Arguments mkProvision {W}.
Arguments CreateDataset {W}.
Arguments DeleteDataset {W}.
Arguments GetDatasetStatus {W}.
Arguments SetPersistent {W}.

(** ** Datasets on the API server

    An [unstructured.Unstructured] object of kind Dataset: its name, namespace and
    labels, and the rest of its content. *)
Record Dataset := mkDataset {
  dataset_Key : NamespacedName;
  dataset_Labels : gomap string;
  dataset_Object : gmap string value
}.

(** [unstructured.SetNestedStringMap(obj, values, fields...)] *)
Class NestedSetter := {
  SetNestedStringMap : gmap string value -> gmap string string -> list string -> gmap string value + error
}.
(** "SetNestedStringMap sets the map[string]string value of a nested field. Returns
    an error if value cannot be set because one of the nesting levels is not a
    map[string]interface{}." *)
Class NestedSetterLaws `{NestedSetter} : Prop := {
  SetNested_empty values fields : fields <> [] ->
    exists obj, SetNestedStringMap ∅ values fields = inl obj /\
      forall k, nested obj (fields ++ [k]) = VString <$> values !! k
}.

Module ProvisionImpl.
Section Impl.
Context `{K8sMeta, NestedSetter} {W : Type} (cl : ObjectClient W Dataset).

Definition newDatasetAsUnstructured (ref : NamespacedName) : Dataset := mkDataset ref None ∅.

Definition getDatasetAsUnstructured (ref : NamespacedName) : M W (Dataset + error) := Get cl ref.

Definition getValue (obj : gmap string value) (path : list string) : string :=
  match NestedString obj path with
  | (valStr, true, None) => valStr
  | _ => ""
  end.

Definition equal (required : ProvisionedBucket) (existing : Dataset) : bool :=
  let obj := dataset_Object existing in
  if bucket_Name required <>? getValue obj ["spec"; "local"; "bucket"] then false
  else if bucket_Endpoint required <>? getValue obj ["spec"; "local"; "endpoint"] then false
  else if nn_Name (bucket_SecretRef required) <>? getValue obj ["spec"; "local"; "secret-name"] then false
  else if nn_Namespace (bucket_SecretRef required) <>? getValue obj ["spec"; "local"; "secret-namespace"]
  then false
  else true.

Definition DeleteDataset (ref : NamespacedName) : M W (option error) :=
  r ← getDatasetAsUnstructured ref;
  match r with
  | inl dataset => Delete cl dataset
  | inr err => mret (Some err)
  end.

(** The [spec.local] member of the Dataset of a bucket. *)
Definition datasetValues (bucket : ProvisionedBucket) : gmap string string :=
  {[ "type" := "COS";
     "secret-name" := nn_Name (bucket_SecretRef bucket);
     "secret-namespace" := nn_Namespace (bucket_SecretRef bucket);
     "endpoint" := bucket_Endpoint bucket;
     "bucket" := bucket_Name bucket;
     "provision" := "true" ]}.

Definition buildDataset (ref : NamespacedName) (bucket : ProvisionedBucket) (owner : NamespacedName)
    : Dataset + error :=
  let dataset := newDatasetAsUnstructured ref in
  let dataset := dataset <| dataset_Labels :=
    Some {[ "fybrik.io/owner" := nn_Namespace owner +:+ "." +:+ nn_Name owner;
            "remove-on-delete" := "true" ]} |> in
  match SetNestedStringMap (dataset_Object dataset) (datasetValues bucket) ["spec"; "local"] with
  | inr err => inr err
  | inl object => inl (dataset <| dataset_Object := object |>)
  end.

Definition CreateDataset (ref : NamespacedName) (bucket : ProvisionedBucket) (owner : NamespacedName)
    : M W (option error) :=
  let create : M W (option error) :=
    match buildDataset ref bucket owner with
    | inr err => mret (Some err)
    | inl dataset =>
        r ← Create cl dataset;
        mret (match r with inl _ => None | inr err => Some err end)
    end in
  r ← getDatasetAsUnstructured ref;
  match r with
  | inl existing =>
      if equal bucket existing then mret None
      else
        err ← DeleteDataset ref;
        match err with
        | Some err => mret (Some err)
        | None => create
        end
  | inr _ => create
  end.

Definition SetPersistent (ref : NamespacedName) (persistent : bool) : M W (option error) :=
  r ← getDatasetAsUnstructured ref;
  match r with
  | inr err => mret (Some err)
  | inl existing =>
      let labels := gm (dataset_Labels existing) in
      let removeOnDelete := if persistent then "false" else "true" in
      let existing := existing <| dataset_Labels := Some (<["remove-on-delete" := removeOnDelete]> labels) |> in
      r ← Update cl existing;
      mret (match r with inl _ => None | inr err => Some err end)
  end.

Definition GetDatasetStatus (ref : NamespacedName) : M W (ProvisionedStorageStatus + error) :=
  r ← getDatasetAsUnstructured ref;
  match r with
  | inr err => mret (inr err)
  | inl dataset =>
      let status := getValue (dataset_Object dataset) ["status"; "provision"; "status"] in
      let info := getValue (dataset_Object dataset) ["status"; "provision"; "info"] in
      mret (inl (mkProvisionedStorageStatus (status =? "OK") info))
  end.

Definition provision : Provision W :=
  mkProvision CreateDataset DeleteDataset GetDatasetStatus SetPersistent.
End Impl.
End ProvisionImpl.

(** ** The implementation for tests: the world is the list of datasets *)
Module ProvisionTest.

Definition CreateDataset (ref : NamespacedName) (dataset : ProvisionedBucket) (owner : NamespacedName)
    : M (list ProvisionedBucket) (option error) := fun datasets =>
  Done (None,
    match list_find (fun d => bucket_Name d = bucket_Name dataset) datasets with
    | Some (i, _) => <[i := dataset]> datasets
    | None => datasets ++ [dataset]
    end).

Definition hasDataset (ref : NamespacedName) (datasets : list ProvisionedBucket) : bool :=
  existsb (fun d => bucket_Name d =? nn_Name ref) datasets.

Definition notFound (ref : NamespacedName) : error :=
  newError ("could not find a dataset: " +:+ nn_Name ref).

Definition SetPersistent (ref : NamespacedName) (persistent : bool)
    : M (list ProvisionedBucket) (option error) := fun datasets =>
  Done (if hasDataset ref datasets then None else Some (notFound ref), datasets).

Definition GetDatasetStatus (ref : NamespacedName)
    : M (list ProvisionedBucket) (ProvisionedStorageStatus + error) := fun datasets =>
  Done (if hasDataset ref datasets then inl (mkProvisionedStorageStatus true "")
        else inr (notFound ref), datasets).

Definition listing (datasets : list ProvisionedBucket) : string :=
  foldl (fun msg d => msg +:+ " " +:+ bucket_Name d +:+ String (Ascii.ascii_of_nat 10) EmptyString)
    ("The following datasets have been found:" +:+ String (Ascii.ascii_of_nat 10) EmptyString) datasets.

Definition DeleteDataset (ref : NamespacedName) : M (list ProvisionedBucket) (option error) :=
  fun datasets =>
    let newDatasets := filter (fun d => bucket_Name d <> nn_Name ref) datasets in
    if hasDataset ref datasets then Done (None, newDatasets)
    else Done (Some (newError ("could not delete a dataset " +:+ nn_Name ref +:+
                 String (Ascii.ascii_of_nat 10) EmptyString +:+ listing datasets)), datasets).

Definition provision : Provision (list ProvisionedBucket) :=
  mkProvision CreateDataset DeleteDataset GetDatasetStatus SetPersistent.
End ProvisionTest.

(** ** What the provisioning of the tests promises

    [known w name]: a dataset of that name exists in the world.  Datasets of the
    application controller all live in one namespace, [ns].  No theorem about the controllers
    relies on it: on the API server a dataset may stay after its deletion was accepted. *)
Class ProvisionLaws {W : Type} (p : Provision W) (ns : string) (known : W -> string -> Prop) : Prop := {
  prov_create name b owner w : bucket_Name b = name ->
    exists r w', CreateDataset p (mkNamespacedName name ns) b owner w = Done (r, w') /\
      (r = None -> known w' name) /\
      forall other, other <> name -> (known w' other <-> known w other);
  prov_delete name w :
    exists r w', DeleteDataset p (mkNamespacedName name ns) w = Done (r, w') /\
      (r = None -> ~ known w' name) /\
      (r <> None -> (known w' name <-> known w name)) /\
      forall other, other <> name -> (known w' other <-> known w other);
  prov_delete_known name w : known w name ->
    exists w', DeleteDataset p (mkNamespacedName name ns) w = Done (None, w');
  prov_status name w :
    exists r, GetDatasetStatus p (mkNamespacedName name ns) w = Done (r, w) /\
      (known w name <-> exists s, r = inl s)
}.

(** ** The test implementation keeps the promise *)
Module ProvisionTestFacts.

Definition known (w : list ProvisionedBucket) (name : string) : Prop := exists b, b ∈ w /\ bucket_Name b = name.

Lemma hasDataset_spec ref w : ProvisionTest.hasDataset ref w = true <-> known w (nn_Name ref).
Proof.
  unfold ProvisionTest.hasDataset, known. rewrite existsb_exists.
  setoid_rewrite <- list_elem_of_In. setoid_rewrite String.eqb_eq. done.
Qed.

Lemma known_replace w i old b name :
  w !! i = Some old -> bucket_Name old = bucket_Name b -> known (<[i := b]> w) name <-> known w name.
Proof.
  intros Hi Hb. unfold known. setoid_rewrite list_elem_of_lookup.
  assert (i < length w)%nat as Hlt by (by eapply lookup_lt_Some). split.
  - intros (x & (j & Hj) & <-). destruct (decide (i = j)) as [<-|Hij].
    + rewrite list_lookup_insert_eq in Hj by done. injection Hj as <-. eauto.
    + rewrite list_lookup_insert_ne in Hj by done. eauto.
  - intros (x & (j & Hj) & <-). destruct (decide (i = j)) as [<-|Hij].
    + exists b. split; [exists i; by rewrite list_lookup_insert_eq|congruence].
    + exists x. split; [exists j; by rewrite list_lookup_insert_ne|done].
Qed.

#[export] Instance laws ns : ProvisionLaws ProvisionTest.provision ns known.
Proof.
  split; simpl.
  - intros name b owner w Hb. unfold ProvisionTest.CreateDataset. eexists _, _. split; [reflexivity|].
    destruct (list_find _ w) as [[i old]|] eqn:F.
    + apply list_find_Some in F as (Hi & Hold & _).
      assert (known w name) by (exists old; split; [by eapply list_elem_of_lookup_2|congruence]).
      split; intros; by rewrite (known_replace w i old b) by done.
    + unfold known. setoid_rewrite elem_of_app. setoid_rewrite list_elem_of_singleton. split.
      * intros _. exists b. auto.
      * intros other Hne. split; [|naive_solver]. intros (x & [Hx| ->] & Hn); [eauto|congruence].
  - intros name w. unfold ProvisionTest.DeleteDataset.
    pose proof (hasDataset_spec (mkNamespacedName name ns) w) as Hk.
    destruct (ProvisionTest.hasDataset _ w); eexists _, _; split; try reflexivity; simpl.
    + unfold known. setoid_rewrite list_elem_of_filter. naive_solver.
    + naive_solver.
  - intros name w Hk. unfold ProvisionTest.DeleteDataset.
    apply (hasDataset_spec (mkNamespacedName name ns) w) in Hk. rewrite Hk. eauto.
  - intros name w. unfold ProvisionTest.GetDatasetStatus.
    pose proof (hasDataset_spec (mkNamespacedName name ns) w) as Hk.
    destruct (ProvisionTest.hasDataset _ w); eexists; split; try reflexivity; naive_solver.
Qed.
End ProvisionTestFacts.

(** ** The implementation on the API server keeps the promise *)
Module ProvisionImplFacts.
Section Facts.
Context `{K8sMeta, !NestedStringLaws, NestedSetter, !NestedSetterLaws} {W : Type}
  (cl : ObjectClient W Dataset) (objects : W -> NamespacedName -> option Dataset)
  `{!StoreLaws cl dataset_Key objects}.

Lemma buildDataset_equal ref b owner :
  exists d, ProvisionImpl.buildDataset ref b owner = inl d /\ dataset_Key d = ref /\
    ProvisionImpl.equal b d = true.
Proof.
  unfold ProvisionImpl.buildDataset.
  destruct (SetNested_empty (ProvisionImpl.datasetValues b) ["spec"; "local"]) as (obj & E & Hobj); [done|].
  simpl. rewrite E. eexists; split; [reflexivity|]. split; [done|].
  assert (forall k v, ProvisionImpl.datasetValues b !! k = Some v ->
    ProvisionImpl.getValue obj ["spec"; "local"; k] = v) as HV.
  { intros k v Hv. unfold ProvisionImpl.getValue.
    rewrite (NestedString_found obj ["spec"; "local"; k] v); [done|].
    specialize (Hobj k). simpl in Hobj. rewrite Hv in Hobj. exact Hobj. }
  unfold ProvisionImpl.equal. simpl.
  rewrite (HV "bucket" (bucket_Name b)), (HV "endpoint" (bucket_Endpoint b)),
    (HV "secret-name" (nn_Name (bucket_SecretRef b))),
    (HV "secret-namespace" (nn_Namespace (bucket_SecretRef b))) by (by simplify_map_eq).
  by rewrite !String.eqb_refl.
Qed.

(** Deleting and creating, on the stored objects. *)
Lemma DeleteDataset_spec ref w :
  (forall k o, objects w k = Some o -> dataset_Key o = k) ->
  match objects w ref with
  | Some _ => exists w', ProvisionImpl.DeleteDataset cl ref w = Done (None, w') /\
      forall k, objects w' k = if decide (k = ref) then None else objects w k
  | None => exists e, ProvisionImpl.DeleteDataset cl ref w = Done (Some e, w)
  end.
Proof.
  intros Hkeys. unfold ProvisionImpl.DeleteDataset, ProvisionImpl.getDatasetAsUnstructured.
  unfold mbind, M_bind. destruct (objects w ref) as [d|] eqn:E.
  - rewrite (store_Get_found ref w d E).
    destruct (store_Delete d w) as (w' & -> & Hw'); [rewrite (Hkeys _ _ E), E; by eexists|].
    rewrite (Hkeys _ _ E) in Hw'. eauto.
  - destruct (store_Get_missing ref w E) as (e & ->). by exists e.
Qed.

Lemma CreateDataset_spec ref b owner w :
  (forall k o, objects w k = Some o -> dataset_Key o = k) ->
  exists d w', ProvisionImpl.CreateDataset cl ref b owner w = Done (None, w') /\
    ProvisionImpl.equal b d = true /\ dataset_Key d = ref /\
    forall k, objects w' k = if decide (k = ref) then Some d else objects w k.
Proof.
  intros Hkeys. destruct (buildDataset_equal ref b owner) as (d & Hd & Hkey & Heq).
  unfold ProvisionImpl.CreateDataset, ProvisionImpl.getDatasetAsUnstructured. rewrite Hd.
  unfold mbind, M_bind, mret, M_ret. destruct (objects w ref) as [old|] eqn:E.
  - rewrite (store_Get_found ref w old E). destruct (ProvisionImpl.equal b old) eqn:Hold.
    { exists old, w. repeat split; auto. intros k. case_decide; congruence. }
    pose proof (DeleteDataset_spec ref w Hkeys) as HD. rewrite E in HD.
    destruct HD as (w1 & -> & Hw1).
    destruct (store_Create d w1) as (w2 & -> & Hw2).
    { by rewrite Hkey, Hw1, decide_True. }
    exists d, w2. repeat split; auto. intros k. rewrite Hw2, Hw1, Hkey. by case_decide.
  - destruct (store_Get_missing ref w E) as (e & ->).
    destruct (store_Create d w) as (w2 & -> & Hw2); [by rewrite Hkey|].
    exists d, w2. repeat split; auto. intros k. by rewrite Hw2, Hkey.
Qed.

(** Provisioning a bucket through the API server succeeds, leaves every other
    Dataset as it is, and is idempotent: the Dataset it creates is recognised as
    the one of the bucket, so that a second call changes nothing. *)
Theorem CreateDataset_idempotent ref b owner owner' w :
  (forall k o, objects w k = Some o -> dataset_Key o = k) ->
  exists w', ProvisionImpl.CreateDataset cl ref b owner w = Done (None, w') /\
    (forall k, k <> ref -> objects w' k = objects w k) /\
    is_Some (objects w' ref) /\
    ProvisionImpl.CreateDataset cl ref b owner' w' = Done (None, w').
Proof.
  intros Hkeys. destruct (CreateDataset_spec ref b owner w Hkeys) as (d & w' & E & Heq & Hk & Hw').
  exists w'. split; [done|]. split; [intros k Hne; by rewrite Hw', decide_False|].
  assert (objects w' ref = Some d) as Hd by (by rewrite Hw', decide_True).
  split; [by rewrite Hd|].
  unfold ProvisionImpl.CreateDataset, ProvisionImpl.getDatasetAsUnstructured, mbind, M_bind.
  rewrite (store_Get_found ref w' d Hd). by rewrite Heq.
Qed.
End Facts.
End ProvisionImplFacts.

(** ** A concrete store *)
Module StorageExamples.

Fixpoint setNested (obj : gmap string value) (values : gmap string string) (fields : list string)
    : gmap string value + error :=
  match fields with
  | [] => inr (newError "no field")
  | f :: fs =>
      match fs with
      | [] => inl (<[f := VMap (VString <$> values)]> obj)
      | _ =>
          let inside := match obj !! f with
                        | None => inl ∅
                        | Some (VMap m) => inl m
                        | Some _ => inr (newError "value cannot be set")
                        end in
          match inside with
          | inr e => inr e
          | inl m => match setNested m values fs with
                     | inl m' => inl (<[f := VMap m']> obj)
                     | inr e => inr e
                     end
          end
      end
  end.
Definition setter : NestedSetter := {| SetNestedStringMap := setNested |}.

Lemma setter_laws : @NestedSetterLaws setter.
Proof.
  split. intros values fields Hf. simpl.
  induction fields as [|f fs IH]; [done|]. destruct fs as [|g gs].
  - eexists; split; [reflexivity|]. intros k. simpl. rewrite lookup_insert_eq, lookup_fmap.
    by destruct (values !! k).
  - destruct IH as (obj & E & Hobj); [done|].
    change (setNested ∅ values (f :: g :: gs)) with
      (match setNested ∅ values (g :: gs) with
       | inl m' => inl (<[f := VMap m']> (∅ : gmap string value)) | inr e => inr e end).
    rewrite E. eexists; split; [reflexivity|]. intros k.
    cbn [app nested]. rewrite lookup_insert_eq. exact (Hobj k).
Qed.

Definition dataset_store : ObjectClient (gmap NamespacedName Dataset) Dataset := ConcreteStore.client dataset_Key.

Definition bucketRef : NamespacedName := mkNamespacedName "bucket" "fybrik-system".
Definition bucket : ProvisionedBucket :=
  mkProvisionedBucket "bucket" "http://s3" (mkNamespacedName "secret" "fybrik-system").
Definition owner : NamespacedName := mkNamespacedName "notebook" "default".

Lemma CreateDataset_idempotent_witness :
  exists w', @ProvisionImpl.CreateDataset Concrete.k8s setter _ dataset_store bucketRef bucket owner ∅ =
      Done (None, w') /\
    @ProvisionImpl.CreateDataset Concrete.k8s setter _ dataset_store bucketRef bucket owner w' =
      Done (None, w').
Proof.
  destruct (@ProvisionImplFacts.CreateDataset_idempotent Concrete.k8s Concrete.k8s_nested setter setter_laws _
    dataset_store (fun w k => w !! k) (ConcreteStore.laws dataset_Key) bucketRef bucket owner owner ∅)
    as (w' & E & _ & _ & E'); [done|].
  exists w'. split; [exact E|exact E'].
Defined.
End StorageExamples.
