(* ===== verification/PlotterGen.v ===== *)
(** * Generation of the plotter

    [manager/controllers/app/plotter_generator.go] and [storage.go]: the flow of one
    asset is added to the plotter specification from the selected data path, with
    storage allocated for the copies on the way. *)
From stdpp Require Import base gmap strings list numbers.
From Stdlib Require Import Ascii.
From S2P Require Import Prelude GoStrings Types External Utils Policy AdminConfig World Storage SelectModules.

Record NewAssetInfo := mkNewAssetInfo { info_Storage : ProvisionedBucket }.

(** The fields of [PlotterGenerator] that do not change; [ProvisionedStorage] is
    passed along. *)
Record PlotterGenerator (W : Type) := mkPlotterGenerator {
  pg_Client : Client W;
  pg_Select : Generator;
  pg_Owner : NamespacedName;
  pg_Provision : Provision W
}.
Arguments mkPlotterGenerator {W}.
Arguments pg_Client {W}.
Arguments pg_Select {W}.
Arguments pg_Owner {W}.
Arguments pg_Provision {W}.
Notation ProvisionedMap := (gmap string NewAssetInfo).

(** text/template with the sprig functions: parsing a named template, executing it. *)
Class TemplateEngine := {
  ParsedTemplate : Type;
  ParseTemplate : string -> string -> ParsedTemplate + error;
  ExecuteTemplate : ParsedTemplate -> value -> string + error
}.

Section Generator.
Context `{MapRange, K8sMeta, Runtime, Schema, TemplateEngine} {W : Type}.

(** ** storage.go *)

(** The endpoint of the first account that has one in the given geography. *)
Fixpoint findAccount (accounts : list FybrikStorageAccount) (geo : string)
    : option (string * FybrikStorageAccount) :=
  match accounts with
  | [] => None
  | account :: rest =>
      match account_Endpoints (account_Spec account) !! geo with
      | Some value => Some (value, account)
      | None => findAccount rest geo
      end
  end.

Definition AllocateBucket (c : Client W) (bucketName geo : string) : M W (ProvisionedBucket + error) :=
  r ← ListStorageAccounts c GetSystemNamespace;
  match r with
  | inr err => mret (inr err)
  | inl accounts =>
      match findAccount accounts geo with
      | Some (endpoint, account) =>
          mret (inl (mkProvisionedBucket bucketName endpoint
            (mkNamespacedName (account_SecretRef (account_Spec account)) GetSystemNamespace)))
      | None => mret (inr (newError ("could not allocate a bucket in " +:+ geo)))
      end
  end.

(** ** Copy destinations *)

Definition generateBucketName (owner : NamespacedName) (id : string) : outcome string :=
  let name := nn_Name owner +:+ "-" +:+ nn_Namespace owner +:+ Hash id 10 in
  K8sConformName (ReplaceAll name "."%char "-"%char).

Definition objectKeyName (owner : NamespacedName) (item : DataInfo) : string :=
  let assetName := resource_Name (asset_ResourceMetadata (DataDetails item)) in
  if assetName <>? "" then assetName +:+ Hash (nn_Name owner +:+ nn_Namespace owner) 10
  else nn_Name owner +:+ Hash (DataSetID (Context item)) 10.

Definition s3Connection (bucket : ProvisionedBucket) (objectKey : string) : Connection :=
  mkConnection "s3" (mkProperties (Some
    {[ "s3" := VMap {[ "endpoint" := VString (bucket_Endpoint bucket);
                       "bucket" := VString (bucket_Name bucket);
                       "object_key" := VString objectKey ]} ]})).

Definition bucketVault (bucket : ProvisionedBucket) : Vault :=
  if IsVaultEnabled then
    mkVault GetModulesRole
      (PathForReadingKubeSecret (nn_Namespace (bucket_SecretRef bucket)) (nn_Name (bucket_SecretRef bucket)))
      GetVaultAddress ""
  else zeroVault.

(** [GetCopyDestination]: the data store of the copy, with the storage recorded
    for the asset. *)
Definition GetCopyDestination (p : PlotterGenerator W) (item : DataInfo)
    (destinationInterface : option InterfaceDetails) (geo : string) (provisioned : ProvisionedMap)
    : M W ((DataStore + error) * ProvisionedMap) :=
  let genObjectKeyName := objectKeyName (pg_Owner p) item in
  genBucketName ← lift (generateBucketName (pg_Owner p) (DataSetID (Context item)));
  r ← AllocateBucket (pg_Client p) genBucketName geo;
  match r with
  | inr err => mret (inr err, provisioned)
  | inl bucket =>
      let bucketRef := mkNamespacedName (bucket_Name bucket) GetSystemNamespace in
      err ← CreateDataset (pg_Provision p) bucketRef bucket (pg_Owner p);
      match err with
      | Some err => mret (inr err, provisioned)
      | None =>
          let provisioned := <[DataSetID (Context item) := mkNewAssetInfo bucket]> provisioned in
          match destinationInterface with
          | None => panic "invalid memory address or nil pointer dereference"
          | Some interface =>
              let vaultMap : gmap string Vault := {[ WriteFlow := bucketVault bucket; ReadFlow := bucketVault bucket ]} in
              mret (inl (mkDataStore vaultMap (s3Connection bucket genObjectKeyName) (DataFormat interface)),
                    provisioned)
          end
      end
  end.

(** ** The service a module exposes *)

Definition apiTemplateArgs (releaseName releaseNamespace : string) (labels : gomap string) : value :=
  let values : gmap string value :=
    if decide (gm labels = ∅) then ∅ else {[ "labels" := VMap (VString <$> gm labels) ]} in
  VMap {[ "Release" := VMap {[ "Name" := VString releaseName; "Namespace" := VString releaseNamespace ]};
          "Values" := VMap values ]}.

(** The loop over the connection properties: string values are templates. *)
Fixpoint renderProps (args : value) (props : list (string * value)) (acc : gmap string value)
    : gmap string value + error :=
  match props with
  | [] => inl acc
  | (key, VString templateStr) :: rest =>
      match ParseTemplate key templateStr with
      | inr err => inr (wrapError ("could not parse " +:+ templateStr +:+ " as a template") err)
      | inl parsed =>
          match ExecuteTemplate parsed args with
          | inr err => inr (wrapError ("could not process template " +:+ templateStr) err)
          | inl text => renderProps args rest (<[key := VString text]> acc)
          end
      end
  | (key, val) :: rest => renderProps args rest (<[key := val]> acc)
  end.

Definition apiInstanceName (scope moduleName assetID : string) : string :=
  if scope =? Asset then CreateStepName moduleName assetID else moduleName.

Definition moduleAPIToService (api : ResourceDetails) (scope : string) (application : FybrikApplication)
    (moduleName assetID : string) : outcome (ResourceDetails + error) :=
  let instanceName := apiInstanceName scope moduleName assetID in
  releaseName ← GetReleaseName (app_Name application) (app_Namespace application) instanceName;
  let releaseNamespace := GetDefaultModulesNamespace in
  let args := apiTemplateArgs releaseName releaseNamespace (meta_Labels (app_Meta application)) in
  let connectionName := connection_Name (details_Connection api) in
  match mget (Items (connection_AdditionalProperties (details_Connection api))) connectionName with
  | Some (VMap props) =>
      match renderProps args (range props) ∅ with
      | inr err => mret (inr err)
      | inl newProps =>
          mret (inl (mkResourceDetails
            (mkConnection connectionName (mkProperties (Some {[ connectionName := VMap newProps ]})))
            (details_DataFormat api)))
      end
  | _ => Panic "interface conversion: interface {} is not map[string]interface {}"
  end.

(** ** The flow of an asset *)

Record FlowState := mkFlowState {
  fs_DatasetID : string;
  fs_Assets : gmap string AssetDetails;
  fs_Templates : list Template;
  fs_SubFlows : list SubFlow;
  fs_Provisioned : ProvisionedMap
}.

Definition elementTemplate (element : ResolvedEdge) (c : ModuleCapability) : Template :=
  let m := edge_Module (resolved_Edge element) in
  mkTemplate (capability_Capability c)
    [mkModuleInfo (module_Name m) (modspec_Type (module_Spec m)) (modspec_Chart (module_Spec m))
       (capability_Scope c)].

Definition elementStep (element : ResolvedEdge) (c : ModuleCapability) (sourceID : string)
    (sink : option StepSink) (api : option ResourceDetails) : DataFlowStep :=
  mkDataFlowStep "" (resolved_Cluster element) (capability_Capability c)
    (Some (mkStepParameters (Some (mkStepSource sourceID None)) sink api (resolved_Actions element))).

(** The body of the loop over the selected data path. *)
Definition addElement (p : PlotterGenerator W) (item : DataInfo) (application : FybrikApplication)
    (element : ResolvedEdge) (st : FlowState) : M W (option error * FlowState) :=
  c ← lift (edgeCapability (resolved_Edge element));
  let st := st <| fs_Templates := fs_Templates st ++ [elementTemplate element c] |> in
  apiR ← (match capability_API c with
          | None => mret (inl None)
          | Some api =>
              r ← lift (moduleAPIToService api (capability_Scope c) application
                          (module_Name (edge_Module (resolved_Edge element))) (fs_DatasetID st));
              mret (match r with inl service => inl (Some service) | inr err => inr err end)
          end : M W (option ResourceDetails + error));
  match apiR with
  | inr err => mret (Some err, st)
  | inl api =>
      match edge_Sink (resolved_Edge element) with
      | None => panic "invalid memory address or nil pointer dereference"
      | Some sink =>
          if negb (Virtual sink) then
            rp ← GetCopyDestination p item (node_Connection sink)
                   (resolved_StorageAccountRegion element) (fs_Provisioned st);
            let st := st <| fs_Provisioned := rp.2 |> in
            match rp.1 with
            | inr err => mret (Some err, st)
            | inl sinkDataStore =>
                let copyAssetID := fs_DatasetID st +:+ "-copy" in
                let copyAsset := mkAssetDetails (fs_DatasetID st) sinkDataStore in
                let step := elementStep element c (fs_DatasetID st) (Some (mkStepSink copyAssetID)) api in
                mret (None, st <| fs_Assets := <[copyAssetID := copyAsset]> (fs_Assets st) |>
                               <| fs_DatasetID := copyAssetID |>
                               <| fs_SubFlows := fs_SubFlows st ++
                                    [mkSubFlow "" CopyFlow [InitTrigger] [[step]]] |>)
            end
          else
            let step := elementStep element c (fs_DatasetID st) None api in
            mret (None, st <| fs_SubFlows := fs_SubFlows st ++
                                [mkSubFlow "" ReadFlow [WorkloadTrigger] [[step]]] |>)
      end
  end.

Fixpoint addElements (p : PlotterGenerator W) (item : DataInfo) (application : FybrikApplication)
    (path : Solution) (st : FlowState) : M W (option error * FlowState) :=
  match path with
  | [] => mret (None, st)
  | element :: rest =>
      r ← addElement p item application element st;
      match r.1 with
      | Some err => mret (Some err, r.2)
      | None => addElements p item application rest r.2
      end
  end.

Definition sourceVault (item : DataInfo) : Vault :=
  if IsVaultEnabled then mkVault GetModulesRole (asset_Credentials (DataDetails item)) GetVaultAddress ""
  else zeroVault.

Definition sourceDataStore (item : DataInfo) : DataStore :=
  let d := asset_Details (DataDetails item) in
  mkDataStore {[ ReadFlow := sourceVault item ]} (details_Connection d) (details_DataFormat d).

Definition initialFlowState (item : DataInfo) (provisioned : ProvisionedMap) : FlowState :=
  mkFlowState (DataSetID (Context item))
    {[ DataSetID (Context item) := mkAssetDetails "" (sourceDataStore item) ]} [] [] provisioned.

Definition noDataPath (item : DataInfo) : error :=
  newError ("Deployed modules do not provide the functionality required to construct a data path for "
            +:+ DataSetID (Context item)).

(** The flow is added to the specification with its assets (a later entry wins)
    and its templates, in order. *)
Definition addFlow (item : DataInfo) (st : FlowState) (flowType : string) (spec : PlotterSpec) : PlotterSpec :=
  let flow := mkFlow (DataSetID (Context item) +:+ "-" +:+ flowType) flowType
                (DataSetID (Context item)) (fs_SubFlows st) in
  spec <| plotter_Flows := plotter_Flows spec ++ [flow] |>
       <| plotter_Assets := fs_Assets st ∪ plotter_Assets spec |>
       <| plotter_Templates :=
            foldl (fun ts t => <[template_Name t := t]> ts) (plotter_Templates spec) (fs_Templates st) |>.

(** [AddFlowInfoForAsset]: the error, the provisioned storage and the plotter
    specification after the call. *)
Definition AddFlowInfoForAsset (p : PlotterGenerator W) (item : DataInfo)
    (application : FybrikApplication) (provisioned : ProvisionedMap) (plotterSpec : PlotterSpec)
    : M W (option error * ProvisionedMap * PlotterSpec) :=
  solutions ← lift (FindPaths (pg_Select p) item application);
  match solutions with
  | [] => mret (Some (noDataPath item), provisioned, plotterSpec)
  | selection :: _ =>
      r ← addElements p item application selection (initialFlowState item provisioned);
      let st := r.2 in
      match r.1 with
      | Some err => mret (Some err, fs_Provisioned st, plotterSpec)
      | None =>
          match list.last (fs_SubFlows st) with
          | None => panic "index out of range [-1]"
          | Some lastFlow =>
              mret (None, fs_Provisioned st, addFlow item st (subflow_FlowType lastFlow) plotterSpec)
          end
      end
  end.
End Generator.

(** ** Well-formed flows

    A sub-flow as the generator makes it: one step, with a source among the assets
    of the plotter, a template of the plotter and, for a copy, a sink among the
    assets. *)
Definition step_of (sf : SubFlow) (step : DataFlowStep) (ps : StepParameters) : Prop :=
  subflow_Steps sf = [[step]] /\ step_Parameters step = Some ps.

Definition subflow_reads (assets : gmap string AssetDetails) (sf : SubFlow) (step : DataFlowStep)
    (ps : StepParameters) : Prop :=
  step_of sf step ps /\
  exists sourceID, params_Source ps = Some (mkStepSource sourceID None) /\ sourceID <> "" /\
    is_Some (assets !! sourceID) /\
    (subflow_FlowType sf = ReadFlow \/
     subflow_FlowType sf = CopyFlow /\
       exists sinkID, params_Sink ps = Some (mkStepSink sinkID) /\ is_Some (assets !! sinkID)).

Definition subflow_wf (assets : gmap string AssetDetails) (templates : gmap string Template)
    (sf : SubFlow) : Prop :=
  exists step ps, subflow_reads assets sf step ps /\ is_Some (templates !! step_Template step).

Definition plotter_wf (spec : PlotterSpec) : Prop :=
  Forall (fun flow => flow_SubFlows flow <> [] /\
    Forall (subflow_wf (plotter_Assets spec) (plotter_Templates spec)) (flow_SubFlows flow))
    (plotter_Flows spec).

Section GeneratorFacts.
Context `{MapRange, K8sMeta, Runtime, Schema, TemplateEngine} {W : Type}.
Implicit Types (p : PlotterGenerator W) (st : FlowState).

(** What one element of the path contributes. *)
Definition contributes (e : ResolvedEdge) (sourceID : string) (sf : SubFlow) (t : Template) : Prop :=
  exists c sink api stepSink,
    edgeCapability (resolved_Edge e) = Done c /\ edge_Sink (resolved_Edge e) = Some sink /\
    t = elementTemplate e c /\
    subflow_Steps sf = [[elementStep e c sourceID stepSink api]] /\
    (if Virtual sink then subflow_FlowType sf = ReadFlow /\ stepSink = None
     else subflow_FlowType sf = CopyFlow /\ stepSink = Some (mkStepSink (sourceID +:+ "-copy"))).

Lemma addElement_ok p item application e st w st' w' :
  addElement p item application e st w = Done ((None, st'), w') ->
  exists sf t sink, contributes e (fs_DatasetID st) sf t /\ edge_Sink (resolved_Edge e) = Some sink /\
    fs_SubFlows st' = fs_SubFlows st ++ [sf] /\ fs_Templates st' = fs_Templates st ++ [t] /\
    (if Virtual sink then fs_DatasetID st' = fs_DatasetID st /\ fs_Assets st' = fs_Assets st
     else fs_DatasetID st' = fs_DatasetID st +:+ "-copy" /\
       exists store, fs_Assets st' =
         <[fs_DatasetID st +:+ "-copy" := mkAssetDetails (fs_DatasetID st) store]> (fs_Assets st)).
Proof.
  unfold addElement, contributes. intros E. m_step E. m_step E0. m_step E.
  destruct a0 as [api|err]; [|m_step E].
  destruct (edge_Sink (resolved_Edge e)) as [sink|] eqn:Hsink; [|m_step E].
  destruct st as [id assets ts sfs prov]. simpl in *. destruct (Virtual sink) eqn:Hv; simpl in E.
  - m_step E. eexists _, _, sink. split; [|by rewrite Hv].
    eexists a, sink, api, None. rewrite Hv. repeat split; done.
  - m_step E. destruct a0 as [[store|err] prov']; simpl in E; m_step E.
    eexists _, _, sink. split; [|rewrite Hv; eauto 10].
    eexists a, sink, api, _. rewrite Hv. repeat split; done.
Qed.

(** The contributions of a path, each one reading what the previous one wrote. *)
Inductive flow_of : string -> Solution -> list SubFlow -> list Template -> string -> Prop :=
| flow_of_nil id : flow_of id [] [] [] id
| flow_of_cons id e sink path sf sfs t ts id' :
    contributes e id sf t -> edge_Sink (resolved_Edge e) = Some sink ->
    flow_of (if Virtual sink then id else id +:+ "-copy") path sfs ts id' ->
    flow_of id (e :: path) (sf :: sfs) (t :: ts) id'.

Lemma addElements_ok p item application path st w st' w' :
  addElements p item application path st w = Done ((None, st'), w') ->
  exists sfs ts, flow_of (fs_DatasetID st) path sfs ts (fs_DatasetID st') /\
    fs_SubFlows st' = fs_SubFlows st ++ sfs /\ fs_Templates st' = fs_Templates st ++ ts.
Proof.
  revert st w. induction path as [|e path IH]; intros st w E; cbn [addElements] in E.
  { m_step E. exists [], []. rewrite !app_nil_r. split; [constructor|done]. }
  m_step E. destruct a as [[err|] st1]; simpl in E; [m_step E|].
  apply addElement_ok in E0 as (sf & t & sink & Hc & Hs & Hsf & Ht & Hid).
  apply IH in E as (sfs & ts & Hflow & Hsfs & Hts).
  exists (sf :: sfs), (t :: ts). split.
  - econstructor; [done..|]. destruct (Virtual sink); destruct Hid as [<- _]; exact Hflow.
  - rewrite Hsfs, Hts, Hsf, Ht, <- !app_assoc. done.
Qed.
Lemma subflow_reads_mono assets assets' sf step ps :
  (forall k, is_Some (assets !! k) -> is_Some (assets' !! k)) ->
  subflow_reads assets sf step ps -> subflow_reads assets' sf step ps.
Proof.
  intros Hk (Hs & id & Hsrc & Hne & Ha & Ht). split; [done|].
  exists id. do 2 (split; [done|]). split; [by apply Hk|].
  destruct Ht as [?|(? & sid & ? & ?)]; [by left|]. right. split; [done|]. exists sid. auto.
Qed.

Lemma contributes_reads e id sf t assets :
  contributes e id sf t -> id <> "" -> is_Some (assets !! id) ->
  (forall sink, edge_Sink (resolved_Edge e) = Some sink -> Virtual sink = false ->
     is_Some (assets !! (id +:+ "-copy"))) ->
  exists step ps, subflow_reads assets sf step ps /\ step_Template step = template_Name t.
Proof.
  intros (c & sink & api & snk & Hc & Hs & -> & Hsteps & Hv) Hne Ha Hcopy.
  eexists _, _. split; [split; [by split|]|reflexivity]. exists id. do 3 (split; [done|]).
  destruct (Virtual sink) eqn:V; destruct Hv as [Hv ->]; [by left|]. right. eauto.
Qed.

(** The sub-flows of a path read and write assets that are recorded. *)
Lemma addElements_wf p item application path st w st' w' :
  addElements p item application path st w = Done ((None, st'), w') ->
  fs_DatasetID st <> "" -> is_Some (fs_Assets st !! fs_DatasetID st) ->
  exists sfs ts, fs_SubFlows st' = fs_SubFlows st ++ sfs /\ fs_Templates st' = fs_Templates st ++ ts /\
    (forall k, is_Some (fs_Assets st !! k) -> is_Some (fs_Assets st' !! k)) /\
    Forall2 (fun sf t => exists step ps, subflow_reads (fs_Assets st') sf step ps /\
      step_Template step = template_Name t) sfs ts.
Proof.
  revert st w. induction path as [|e path IH]; intros st w E Hne Ha; cbn [addElements] in E.
  { m_step E. exists [], []. rewrite !app_nil_r. auto. }
  m_step E. destruct a as [[err|] st1]; simpl in E; [m_step E|].
  apply addElement_ok in E0 as (sf & t & sink & Hc & Hs & Hsf & Ht & Hid).
  assert (fs_DatasetID st1 <> "" /\ is_Some (fs_Assets st1 !! fs_DatasetID st1) /\
    (forall k, is_Some (fs_Assets st !! k) -> is_Some (fs_Assets st1 !! k)) /\
    (Virtual sink = false -> is_Some (fs_Assets st1 !! (fs_DatasetID st +:+ "-copy"))))
    as (Hne1 & Ha1 & Hmono & Hcopy).
  { destruct (Virtual sink); destruct Hid as [-> Hst1]; [by rewrite Hst1|].
    destruct Hst1 as (store & ->). split; [by destruct (fs_DatasetID st)|].
    rewrite lookup_insert_eq. repeat split; auto. intros k Hk.
    destruct (decide (k = fs_DatasetID st +:+ "-copy")) as [->|]; by simplify_map_eq. }
  destruct (IH _ _ E Hne1 Ha1) as (sfs & ts & Hsfs & Hts & Hmono' & Hall).
  exists (sf :: sfs), (t :: ts). rewrite Hsfs, Hts, Hsf, Ht, <- !app_assoc.
  do 2 (split; [done|]). split; [auto|]. constructor; [|done].
  eapply contributes_reads; [done..|auto|]. intros sink' Hs' Hv. rewrite Hs in Hs'. simplify_eq. auto.
Qed.

(** Inserting templates keeps the others and makes theirs known. *)
Lemma templates_known (ts : list Template) (m : gmap string Template) k :
  is_Some (m !! k) \/ k ∈ template_Name <$> ts ->
  is_Some (foldl (fun ts t => <[template_Name t := t]> ts) m ts !! k).
Proof.
  revert m. induction ts as [|t ts IH]; intros m Hk; simpl; [set_solver|].
  apply IH. destruct (decide (k = template_Name t)) as [->|Hne].
  - left. by rewrite lookup_insert_eq.
  - rewrite lookup_insert_ne by done. set_solver.
Qed.
Lemma AddFlowInfoForAsset_ok p item application prov spec w prov' spec' w' :
  AddFlowInfoForAsset p item application prov spec w = Done ((None, prov', spec'), w') ->
  exists selection rest st lastFlow,
    FindPaths (pg_Select p) item application = Done (selection :: rest) /\
    addElements p item application selection (initialFlowState item prov) w = Done ((None, st), w') /\
    list.last (fs_SubFlows st) = Some lastFlow /\
    spec' = addFlow item st (subflow_FlowType lastFlow) spec.
Proof.
  unfold AddFlowInfoForAsset. intros E. m_step E. m_step E0.
  destruct a as [|selection rest]; [m_step E|]. m_step E. destruct a as [[err|] st]; simpl in E; [m_step E|].
  destruct (list.last (fs_SubFlows st)) as [lastFlow|] eqn:L; [|m_step E]. m_step E. eauto 10.
Qed.

(** Each sub-flow comes from an element of the path and each element gives one. *)
Lemma flow_of_subflow id path sfs ts id' sf :
  flow_of id path sfs ts id' -> sf ∈ sfs -> exists e i t, e ∈ path /\ contributes e i sf t.
Proof.
  induction 1 as [|id e sink path sf' sfs t ts id' Hc _ _ IH]; [set_solver|].
  intros [->|Hin]%elem_of_cons; [exists e, id, t; set_solver|].
  destruct (IH Hin) as (e' & i & t' & ? & ?). exists e', i, t'. set_solver.
Qed.

Lemma flow_of_element id path sfs ts id' e :
  flow_of id path sfs ts id' -> e ∈ path -> exists sf i t, sf ∈ sfs /\ contributes e i sf t.
Proof.
  induction 1 as [|id e' sink path sf' sfs t ts id' Hc _ _ IH]; [set_solver|].
  intros [->|Hin]%elem_of_cons; [exists sf', id, t; set_solver|].
  destruct (IH Hin) as (sf & i & t' & ? & ?). exists sf, i, t'. set_solver.
Qed.

(** The flow of an asset enforces the decisions about it: every action is performed
    by some step; every step was planned for a capability of a registered module that
    supports the actions it is given, on a registered cluster that satisfies the
    restrictions on it. *)
Definition performs (flow : Flow) (a : Action) : Prop :=
  exists sf step ps, sf ∈ flow_SubFlows flow /\ step_of sf step ps /\ a ∈ params_Actions ps.

(** The module is registered, and the capability is one of its capabilities. *)
Definition offers (p : PlotterGenerator W) (m : FybrikModule) (c : ModuleCapability) : Prop :=
  (exists k, gen_Modules (pg_Select p) !! k = Some m) /\ c ∈ modspec_Capabilities (module_Spec m).

Definition placed (p : PlotterGenerator W) (item : DataInfo) (sf : SubFlow) : Prop :=
  exists step ps m c cluster,
    step_of sf step ps /\ offers p m c /\ step_Template step = capability_Capability c /\
    Forall (fun a => capSupportsAction c a = true) (params_Actions ps) /\
    cluster ∈ gen_Clusters (pg_Select p) /\ step_Cluster step = cluster_Name cluster /\
    cluster_allowed item (capability_Capability c) cluster /\
    (params_Actions ps <> [] -> cluster_allowed item Transform cluster).

Record enforces (p : PlotterGenerator W) (item : DataInfo) (flow : Flow) : Prop := {
  enforces_asset : flow_AssetID flow = DataSetID (Context item);
  enforces_actions : forall a, a ∈ Actions item -> performs flow a;
  enforces_steps : Forall (placed p item) (flow_SubFlows flow)
}.

(** What a template must say for a capability of a module to be deployed. *)
Definition template_for (m : FybrikModule) (c : ModuleCapability) : Template :=
  mkTemplate (capability_Capability c)
    [mkModuleInfo (module_Name m) (modspec_Type (module_Spec m)) (modspec_Chart (module_Spec m)) (capability_Scope c)].

(** The template of the step deploys a registered module with a capability that supports
    the actions of the step. *)
Definition runs (p : PlotterGenerator W) (templates : gmap string Template) (sf : SubFlow) : Prop :=
  exists step ps m c, step_of sf step ps /\ offers p m c /\
    Forall (fun a => capSupportsAction c a = true) (params_Actions ps) /\
    templates !! step_Template step = Some (template_for m c).

(** The name of the template of a sub-flow, and its last use in a sequence of them. *)
Definition template_name (sf : SubFlow) : option string :=
  match subflow_Steps sf with [[step]] => Some (step_Template step) | _ => None end.
Definition last_use (sfs : list SubFlow) (i : nat) (sf : SubFlow) : Prop :=
  sfs !! i = Some sf /\ forall j sf', i < j -> sfs !! j = Some sf' -> template_name sf' <> template_name sf.

Lemma flow_of_lookup id path sfs ts id' i sf :
  flow_of id path sfs ts id' -> sfs !! i = Some sf ->
  exists e x t, e ∈ path /\ ts !! i = Some t /\ contributes e x sf t.
Proof.
  intros Hf. revert i. induction Hf as [|id e sink path sf' sfs t ts id' Hc _ _ IH]; intros [|i] Hi; simplify_eq/=.
  - exists e, id, t. set_solver.
  - destruct (IH i Hi) as (e' & x & t' & He & Ht & Hc'). exists e', x, t'. set_solver.
Qed.
Lemma flow_of_length id path sfs ts id' : flow_of id path sfs ts id' -> length sfs = length ts.
Proof. induction 1; simpl; congruence. Qed.

Lemma contributes_name e x sf t : contributes e x sf t -> template_name sf = Some (template_Name t).
Proof. intros (c & sink & api & snk & _ & _ & -> & Hst & _). unfold template_name. by rewrite Hst. Qed.

Lemma templates_untouched (ts : list Template) (m : gmap string Template) name :
  (forall t, t ∈ ts -> template_Name t <> name) ->
  foldl (fun ts t => <[template_Name t := t]> ts) m ts !! name = m !! name.
Proof.
  revert m. induction ts as [|t ts IH]; intros m Ht; simpl; [done|]. rewrite IH by set_solver.
  rewrite lookup_insert_ne by set_solver. done.
Qed.
Lemma templates_last_use (ts : list Template) (m : gmap string Template) i t :
  ts !! i = Some t -> (forall j t', i < j -> ts !! j = Some t' -> template_Name t' <> template_Name t) ->
  foldl (fun ts t => <[template_Name t := t]> ts) m ts !! template_Name t = Some t.
Proof.
  intros Hi Hlast. rewrite <- (take_drop_middle ts i t Hi), foldl_app. simpl.
  rewrite templates_untouched; [apply lookup_insert_eq|]. intros t' (j & Hj)%list_elem_of_lookup.
  rewrite lookup_drop in Hj. apply (Hlast (S i + j)); [lia|done].
Qed.

(** The modules of a selected path are registered. *)
Lemma connects_offers (p : PlotterGenerator W) item source sink raw s :
  connects (gen_Modules (pg_Select p)) item source sink raw -> resolved_Edge <$> s = resolved_Edge <$> raw ->
  forall e c, e ∈ s -> edgeCapability (resolved_Edge e) = Done c -> offers p (edge_Module (resolved_Edge e)) c.
Proof.
  intros [Hhops _ _] Hedges e c (j & He)%list_elem_of_lookup Hcap.
  assert ((resolved_Edge <$> raw) !! j = Some (resolved_Edge e)) as Hj.
  { rewrite <- Hedges, list_lookup_fmap, He. done. }
  rewrite list_lookup_fmap in Hj. destruct (raw !! j) as [e'|] eqn:Er; [|done]. injection Hj as Hj.
  destruct (Hhops j e' Er) as (src & snk & m & i & c' & -> & ((k & Hk) & Hc & _) & _).
  rewrite <- Hj in Hcap |- *. rewrite (edgeCapability_at _ c') in Hcap by done. injection Hcap as <-. simpl.
  split; [by exists k|]. by eapply list_elem_of_lookup_2.
Qed.

(** What the call adds to the plotter. *)
Record adds_flow (p : PlotterGenerator W) (item : DataInfo) (spec spec' : PlotterSpec) (flow : Flow) : Prop := {
  adds_flows : plotter_Flows spec' = plotter_Flows spec ++ [flow];
  adds_selector : plotter_Selector spec' = plotter_Selector spec;
  adds_enforces : enforces p item flow;
  adds_runs : forall i sf, last_use (flow_SubFlows flow) i sf -> runs p (plotter_Templates spec') sf;
  adds_keeps : forall name, (forall sf, sf ∈ flow_SubFlows flow -> template_name sf <> Some name) ->
    plotter_Templates spec' !! name = plotter_Templates spec !! name
}.

Lemma AddFlowInfoForAsset_flow `{!NestedStringLaws} p item application prov spec w prov' spec' w' :
  AddFlowInfoForAsset p item application prov spec w = Done ((None, prov', spec'), w') ->
  exists flow, adds_flow p item spec spec' flow.
Proof.
  intros (selection & rest & st & lastFlow & HF & HA & HL & ->)%AddFlowInfoForAsset_ok.
  destruct (FindPaths_spec (pg_Select p) item application) as (sols & HF' & Hsols).
  rewrite HF in HF'. injection HF' as <-.
  destruct (proj1 (Hsols selection)) as (raw & Hc & _ & Hv); [by left|].
  destruct (validate_spec (pg_Select p) item application raw (connects_unresolved _ _ _ _ _ Hc))
    as (r & Hr & Hs). rewrite Hv in Hr. injection Hr as <-. destruct (Hs _ eq_refl) as [[Hel Hact _] Hedges].
  apply addElements_ok in HA as (sfs & ts & Hflow & Hsfs & Hts). simpl in Hsfs, Hts. subst sfs ts.
  pose proof (connects_offers p _ _ _ _ _ Hc Hedges) as Hoff. rewrite list.Forall_forall in Hel.
  eexists; split; [reflexivity|done| | |]; simpl.
  - split; simpl; [done| |].
    + intros a (e & He & Ha)%Hact.
      destruct (flow_of_element _ _ _ _ _ e Hflow He) as (sf & i & t & Hin & (c & sink & api & snk & _ & _ & _ & Hst & _)).
      eexists sf, _, _. split; [done|]. split; [by split|]. exact Ha.
    + apply list.Forall_forall. intros sf Hin. destruct (flow_of_subflow _ _ _ _ _ sf Hflow Hin)
        as (e & i & t & He & (c & sink & api & snk & Hcap & _ & _ & Hst & _)).
      destruct (Hel e He) as (c' & _ & Hcap' & _ & Hsup & (cl & Hcl & Hn & Hal & Htr) & _).
      rewrite Hcap in Hcap'. injection Hcap' as <-.
      eexists _, _, _, c, cl. split; [by split|]. split; [by apply (Hoff e c)|]. simpl. repeat split; done.
  - intros i sf [Hi Hlast]. destruct (flow_of_lookup _ _ _ _ _ i sf Hflow Hi) as (e & x & t & He & Ht & Hcon).
    pose proof Hcon as (c & sink & api & snk & Hcap & _ & Et & Hst & _).
    destruct (Hel e He) as (c' & _ & Hcap' & _ & Hsup & _). rewrite Hcap in Hcap'. injection Hcap' as <-.
    eexists _, _, (edge_Module (resolved_Edge e)), c. split; [by split|]. split; [by apply Hoff|]. split; [exact Hsup|].
    simpl. change (capability_Capability c) with (template_Name (elementTemplate e c)). subst t.
    rewrite (templates_last_use _ _ i (elementTemplate e c)); [done|done|].
    intros j t' Hij Ht' Heq. destruct (lookup_lt_is_Some_2 (fs_SubFlows st) j) as [sf' Hsf'].
    { rewrite (flow_of_length _ _ _ _ _ Hflow). by eapply lookup_lt_Some. }
    destruct (flow_of_lookup _ _ _ _ _ j sf' Hflow Hsf') as (e' & x' & t2 & _ & Ht2 & Hcon').
    rewrite Ht' in Ht2. injection Ht2 as <-. apply (Hlast j sf' Hij Hsf').
    rewrite (contributes_name _ _ _ _ Hcon), (contributes_name _ _ _ _ Hcon'). by rewrite Heq.
  - intros name Hname. apply templates_untouched. intros t (j & Ht)%list_elem_of_lookup Heq.
    destruct (lookup_lt_is_Some_2 (fs_SubFlows st) j) as [sf' Hsf'].
    { rewrite (flow_of_length _ _ _ _ _ Hflow). by eapply lookup_lt_Some. }
    destruct (flow_of_lookup _ _ _ _ _ j sf' Hflow Hsf') as (e' & x' & t2 & _ & Ht2 & Hcon').
    rewrite Ht in Ht2. injection Ht2 as <-. apply (Hname sf'); [by eapply list_elem_of_lookup_2|].
    rewrite (contributes_name _ _ _ _ Hcon'). by rewrite Heq.
Qed.

(** C3: the flow added for an asset enforces the governance decisions: every action
    the policy manager demands for reading the asset is performed by some step of
    the flow, and every step was planned for a capability of a registered module that
    supports all the actions it is given, on a registered cluster that satisfies the admin
    restrictions on the capability and, when the step transforms data, those on
    transformations.  The template through which a step is deployed is named after the
    capability only: for a step that is the last one of the flow with its template, the
    plotter has the template of a registered module (its name, type, chart and scope) with a
    capability that supports the actions of the step; a step before it with the same template
    runs that module too, whatever was planned for it.  The templates that the flow does not
    use stay as they were. *)
Theorem AddFlowInfoForAsset_enforces `{!NestedStringLaws} p item application prov spec w prov' spec' w' :
  AddFlowInfoForAsset p item application prov spec w = Done ((None, prov', spec'), w') ->
  exists flow, plotter_Flows spec' = plotter_Flows spec ++ [flow] /\ enforces p item flow /\
    (forall i sf, last_use (flow_SubFlows flow) i sf -> runs p (plotter_Templates spec') sf) /\
    (forall name, (forall sf, sf ∈ flow_SubFlows flow -> template_name sf <> Some name) ->
       plotter_Templates spec' !! name = plotter_Templates spec !! name).
Proof. intros (flow & [Hf _ He Hr Hk])%AddFlowInfoForAsset_flow. by exists flow. Qed.

Lemma AddFlowInfoForAsset_error p item a prov spec w err prov' spec' w' :
  AddFlowInfoForAsset p item a prov spec w = Done ((Some err, prov', spec'), w') -> spec' = spec.
Proof.
  unfold AddFlowInfoForAsset. intros E. m_step E. m_step E0. destruct a0 as [|sel rest]; [by m_step E|].
  m_step E. destruct a0 as [[e|] st]; simpl in E; [by m_step E|]. by destruct (list.last _); m_step E.
Qed.

Lemma initialFlowState_assets item prov :
  fs_Assets (initialFlowState item prov) !! DataSetID (Context item) =
    Some (mkAssetDetails "" (sourceDataStore item)).
Proof. apply lookup_singleton_eq. Qed.

Lemma AddFlowInfoForAsset_keeps_wf p item application prov spec w prov' spec' w' :
  AddFlowInfoForAsset p item application prov spec w = Done ((None, prov', spec'), w') ->
  DataSetID (Context item) <> "" -> plotter_wf spec -> plotter_wf spec'.
Proof.
  intros (selection & rest & st & lastFlow & _ & HA & HL & ->)%AddFlowInfoForAsset_ok Hne Hwf.
  apply addElements_wf in HA as (sfs & ts & Hsfs & Hts & Hmono & Hall);
    [|done|eexists; apply initialFlowState_assets].
  simpl in Hsfs, Hts. subst sfs ts.
  assert (forall k, is_Some (plotter_Assets spec !! k) \/ is_Some (fs_Assets st !! k) ->
    is_Some ((fs_Assets st ∪ plotter_Assets spec) !! k)) as Hunion.
  { intros k Hk. apply lookup_union_is_Some. tauto. }
  apply Forall_app. split.
  - eapply list.Forall_impl; [exact Hwf|]. intros flow [Hf Hsf]. split; [done|].
    eapply list.Forall_impl; [exact Hsf|]. intros sf (step & ps & Hr & Ht). exists step, ps. split.
    + eapply subflow_reads_mono; [|exact Hr]. auto.
    + apply templates_known. auto.
  - apply Forall_singleton. simpl. split; [by intros E; rewrite E in HL|].
    apply Forall_lookup. intros i sf Hi.
    destruct (Forall2_lookup_l _ _ _ _ _ Hall Hi) as (t & Ht & step & ps & Hr & Htn).
    exists step, ps. split; [eapply subflow_reads_mono; [|exact Hr]; auto|].
    apply templates_known. right. rewrite Htn. apply list_elem_of_fmap_2.
    by eapply list_elem_of_lookup_2.
Qed.

(** Adding the flow of an asset keeps the plotter well formed: every sub-flow
    has one step, which names a template of the plotter, reads an asset of the
    plotter and, when it is a copy, writes to an asset of the plotter. *)
Theorem AddFlowInfoForAsset_wf p item application prov spec w prov' spec' w' :
  AddFlowInfoForAsset p item application prov spec w = Done ((None, prov', spec'), w') ->
  DataSetID (Context item) <> "" -> plotter_wf spec -> plotter_wf spec'.
Proof. apply AddFlowInfoForAsset_keeps_wf. Qed.

(** *** The generator does not panic *)

(** The connection of a module API carries the properties of its type. *)
Definition api_wf (api : ResourceDetails) : Prop :=
  exists props, mget (Items (connection_AdditionalProperties (details_Connection api)))
                  (connection_Name (details_Connection api)) = Some (VMap props).

Definition modules_wf (modules : gmap string FybrikModule) : Prop :=
  forall k m c api, modules !! k = Some m -> c ∈ modspec_Capabilities (module_Spec m) ->
    capability_API c = Some api -> api_wf api.

Definition world_returns (p : PlotterGenerator W) : Prop :=
  (forall ns w, returns (ListStorageAccounts (pg_Client p) ns w)) /\
  (forall ref b owner w, returns (CreateDataset (pg_Provision p) ref b owner w)).

Lemma moduleAPIToService_returns api scope application moduleName assetID :
  api_wf api -> returns (moduleAPIToService api scope application moduleName assetID).
Proof.
  intros (props & Hp). unfold moduleAPIToService.
  destruct (GetReleaseName_returns (app_Name application) (app_Namespace application)
    (apiInstanceName scope moduleName assetID)) as (name & ->). simpl. rewrite Hp.
  destruct (renderProps _ _ _); by eexists.
Qed.

Lemma AllocateBucket_returns p name geo w :
  world_returns p -> returns (AllocateBucket (pg_Client p) name geo w).
Proof.
  intros [HL _]. unfold AllocateBucket. destruct (HL GetSystemNamespace w) as ([r w'] & E).
  rewrite (M_bind_run _ _ _ _ _ E). destruct r as [accounts|]; [|by eexists].
  destruct (findAccount accounts geo) as [[endpoint account]|]; by eexists.
Qed.

Lemma GetCopyDestination_returns p item interface geo prov w :
  world_returns p -> returns (GetCopyDestination p item (Some interface) geo prov w).
Proof.
  intros Hw. unfold GetCopyDestination.
  destruct (K8sConformName_returns (ReplaceAll (nn_Name (pg_Owner p) +:+ "-" +:+
    nn_Namespace (pg_Owner p) +:+ Hash (DataSetID (Context item)) 10) "."%char "-"%char)) as (name & E).
  rewrite (M_bind_run _ _ _ name w) by (unfold generateBucketName; by rewrite E).
  destruct (AllocateBucket_returns p name geo w Hw) as ([r w1] & E1). rewrite (M_bind_run _ _ _ _ _ E1).
  destruct r as [b|]; [|by eexists].
  destruct (proj2 Hw (mkNamespacedName (bucket_Name b) GetSystemNamespace) b (pg_Owner p) w1) as ([e w2] & E2).
  rewrite (M_bind_run _ _ _ _ _ E2). destruct e; by eexists.
Qed.

(** An element the selection may return. *)
Definition element_wf (e : ResolvedEdge) : Prop :=
  exists c sink interface, edgeCapability (resolved_Edge e) = Done c /\
    edge_Sink (resolved_Edge e) = Some sink /\ node_Connection sink = Some interface /\
    forall api, capability_API c = Some api -> api_wf api.

Lemma addElement_returns p item application e st w :
  world_returns p -> element_wf e -> returns (addElement p item application e st w).
Proof.
  intros Hw (c & sink & interface & Hc & Hs & Hi & Hapi). unfold addElement.
  rewrite (M_bind_run _ _ _ c w) by (by rewrite Hc). cbv zeta.
  destruct st as [id assets ts sfs prov]. simpl.
  assert (exists r, (match capability_API c with
    | Some api => lift (moduleAPIToService api (capability_Scope c) application
          (module_Name (edge_Module (resolved_Edge e))) id) ≫= (fun r : ResourceDetails + error =>
            mret (match r with inl service => inl (Some service) | inr err => inr err end))
    | None => mret (inl None)
    end : M W (option ResourceDetails + error)) w = Done (r, w)) as (r & Er).
  { destruct (capability_API c) as [api|]; [|by eexists].
    destruct (moduleAPIToService_returns api (capability_Scope c) application
      (module_Name (edge_Module (resolved_Edge e))) id (Hapi api eq_refl)) as (r & Er).
    eexists. rewrite (M_bind_run _ _ _ r w) by (by rewrite Er). reflexivity. }
  rewrite (M_bind_run _ _ _ _ _ Er). destruct r as [api|]; [|by eexists]. rewrite Hs.
  destruct (Virtual sink); simpl; [by eexists|]. rewrite Hi.
  destruct (GetCopyDestination_returns p item interface (resolved_StorageAccountRegion e) prov w Hw)
    as ([[rs prov'] w1] & E1).
  rewrite (M_bind_run _ _ _ _ _ E1). destruct rs; by eexists.
Qed.

Lemma addElements_returns p item application path st w :
  world_returns p -> Forall element_wf path -> returns (addElements p item application path st w).
Proof.
  intros Hw Hp. revert st w. induction Hp as [|e path He _ IH]; intros st w; cbn [addElements]; [by eexists|].
  destruct (addElement_returns p item application e st w Hw He) as ([[err st'] w'] & E).
  rewrite (M_bind_run _ _ _ _ _ E). destruct err; [by eexists|apply IH].
Qed.

Lemma capSupportsSink_connection c sink :
  capSupportsSink c sink = true -> exists interface, node_Connection sink = Some interface.
Proof.
  unfold capSupportsSink. destruct (node_Connection sink) as [i|]; [eauto|]. intros E. exfalso.
  apply orb_true_iff in E as [E|(x & _ & E)%existsb_exists].
  - destruct (capability_API c); [|done]. by apply andb_true_iff in E as [_ ?].
  - by destruct (inout_Sink x).
Qed.

Lemma connects_wf modules item source sink raw s :
  modules_wf modules -> connects modules item source sink raw ->
  resolved_Edge <$> s = resolved_Edge <$> raw -> Forall element_wf s.
Proof.
  intros Hm [Hhops _ _] Hedges. apply Forall_lookup. intros j e He.
  assert ((resolved_Edge <$> raw) !! j = Some (resolved_Edge e)) as Hj.
  { rewrite <- Hedges, list_lookup_fmap, He. done. }
  rewrite list_lookup_fmap in Hj. destruct (raw !! j) as [e'|] eqn:Er; [|done]. injection Hj as Hj.
  destruct (Hhops j e' Er) as (src & snk & m & i & c & -> & ((k & Hk) & Hc & _ & Hsnk) & _).
  destruct (capSupportsSink_connection c snk Hsnk) as (interface & Hi).
  exists c, snk, interface. rewrite <- Hj. simpl. repeat split; [by apply edgeCapability_at|done|].
  intros api Hapi. eapply Hm; [done| |done]. by eapply list_elem_of_lookup_2.
Qed.

Lemma AddFlowInfoForAsset_runs `{!NestedStringLaws} p item application prov spec w :
  world_returns p -> modules_wf (gen_Modules (pg_Select p)) ->
  exists err prov' spec' w',
    AddFlowInfoForAsset p item application prov spec w = Done ((err, prov', spec'), w') /\
    (err <> None -> spec' = spec).
Proof.
  intros Hw Hm. unfold AddFlowInfoForAsset.
  destruct (FindPaths_spec (pg_Select p) item application) as (sols & HF & Hsols).
  rewrite (M_bind_run _ _ _ sols w) by (by rewrite HF).
  destruct sols as [|selection rest]; [by eexists _, _, _, _|].
  destruct (proj1 (Hsols selection)) as (raw & Hc & _ & Hv); [by left|].
  destruct (validate_spec (pg_Select p) item application raw (connects_unresolved _ _ _ _ _ Hc))
    as (r & Hr & Hs). rewrite Hv in Hr. injection Hr as <-. destruct (Hs _ eq_refl) as [_ Hedges].
  destruct (addElements_returns p item application selection (initialFlowState item prov) w Hw
    (connects_wf _ _ _ _ _ _ Hm Hc Hedges)) as ([[err st] w'] & E).
  rewrite (M_bind_run _ _ _ _ _ E). destruct err as [err|]; simpl; [by eexists _, _, _, _|].
  apply addElements_ok in E as (sfs & ts & Hflow & Hsfs & _). simpl in Hsfs. rewrite Hsfs.
  destruct Hflow as [|id e sink path sf sfs t ts id' _ _ _].
  - destruct raw as [|x raw]; [by apply connects_nonempty in Hc|done].
  - destruct (list.last (sf :: sfs)) as [lf|] eqn:L; [by eexists _, _, _, _|by apply last_None in L].
Qed.

(** For every asset [AddFlowInfoForAsset] runs to completion without a panic,
    provided that the module APIs carry the properties of their connection type
    and that listing the storage accounts and creating a Dataset return; when it
    reports an error the plotter specification is left as it was. *)
Theorem AddFlowInfoForAsset_returns `{!NestedStringLaws} p item application prov spec w :
  world_returns p -> modules_wf (gen_Modules (pg_Select p)) ->
  exists err prov' spec' w',
    AddFlowInfoForAsset p item application prov spec w = Done ((err, prov', spec'), w') /\
    (err <> None -> spec' = spec).
Proof. apply AddFlowInfoForAsset_runs. Qed.

(** *** Storage of several copies *)

Lemma GetCopyDestination_ok p item interface geo prov w store prov' w' :
  GetCopyDestination p item interface geo prov w = Done ((inl store, prov'), w') ->
  exists b, generateBucketName (pg_Owner p) (DataSetID (Context item)) = Done (bucket_Name b) /\
    ds_Connection store = s3Connection b (objectKeyName (pg_Owner p) item) /\
    prov' = <[DataSetID (Context item) := mkNewAssetInfo b]> prov.
Proof.
  unfold GetCopyDestination. intros E. m_step E. m_step E0. m_step E.
  destruct a0 as [b|]; [|m_step E]. m_step E. destruct a0; [m_step E|].
  destruct interface; m_step E. exists b. split; [|done].
  unfold AllocateBucket in E0. m_step E0. destruct a0 as [accounts|]; [|m_step E0].
  destruct (findAccount accounts geo) as [[? ?]|]; m_step E0. done.
Qed.

(** Every copy made for an asset is given the same bucket name and the same
    object key, whatever its format and geography: a path with two copies in one
    geography makes the second one overwrite the object it reads. *)
Theorem copies_share_location p item i1 i2 geo1 geo2 prov1 prov2 w1 w2 s1 s2 prov1' prov2' w1' w2' :
  GetCopyDestination p item i1 geo1 prov1 w1 = Done ((inl s1, prov1'), w1') ->
  GetCopyDestination p item i2 geo2 prov2 w2 = Done ((inl s2, prov2'), w2') ->
  exists b1 b2 key, ds_Connection s1 = s3Connection b1 key /\ ds_Connection s2 = s3Connection b2 key /\
    bucket_Name b1 = bucket_Name b2.
Proof.
  intros (b1 & E1 & -> & _)%GetCopyDestination_ok (b2 & E2 & -> & _)%GetCopyDestination_ok.
  exists b1, b2, (objectKeyName (pg_Owner p) item). rewrite E1 in E2. by injection E2 as ->.
Qed.

(** *** Templates *)

Lemma templates_last (ts : list Template) t (m : gmap string Template) :
  list.last ts = Some t ->
  foldl (fun ts t => <[template_Name t := t]> ts) m ts !! template_Name t = Some t.
Proof.
  intros (ts' & ->)%last_Some. rewrite foldl_app. simpl. by rewrite lookup_insert_eq.
Qed.

Lemma flow_of_last id path sfs ts id' e c :
  flow_of id path sfs ts id' -> list.last path = Some e -> edgeCapability (resolved_Edge e) = Done c ->
  list.last ts = Some (elementTemplate e c).
Proof.
  induction 1 as [|id e' sink path sf sfs t ts id' Hc _ Hflow IH]; [done|].
  destruct Hflow as [|id1 e1 sink1 path sf1 sfs t1 ts id1' Hc1 Hs1 Hflow]; [|exact IH].
  simpl. intros [= ->] Hcap. destruct Hc as (c' & ? & ? & ? & Hcap' & _ & -> & _). congruence.
Qed.

(** The template of a capability is the one of the asset added last: whatever
    module an earlier flow selected under that capability name, its steps (which
    are kept and refer to the template by the capability) now run the module
    selected for the new asset. *)
Theorem template_last_wins p item application prov spec w prov' spec' w' selection rest e c :
  AddFlowInfoForAsset p item application prov spec w = Done ((None, prov', spec'), w') ->
  FindPaths (pg_Select p) item application = Done (selection :: rest) ->
  list.last selection = Some e -> edgeCapability (resolved_Edge e) = Done c ->
  plotter_Templates spec' !! capability_Capability c = Some (elementTemplate e c) /\
  forall flow, flow ∈ plotter_Flows spec -> flow ∈ plotter_Flows spec'.
Proof.
  intros (sel & rest' & st & lastFlow & HF & HA & HL & ->)%AddFlowInfoForAsset_ok HF' Hlast Hc.
  rewrite HF in HF'. injection HF' as -> ->.
  apply addElements_ok in HA as (sfs & ts & Hflow & _ & Hts). simpl in Hts. subst ts. simpl. split.
  - change (capability_Capability c) with (template_Name (elementTemplate e c)).
    apply templates_last. by eapply flow_of_last.
  - intros flow Hf. apply elem_of_app. by left.
Qed.
End GeneratorFacts.

(** ** The small deployment, with a storage account *)
Module PlotterExamples.
Import SelectExamples.

Definition verbatim : TemplateEngine := {|
  ParsedTemplate := string; ParseTemplate _ s := inl s; ExecuteTemplate t _ := inl t |}.

Definition account : FybrikStorageAccount :=
  mkFybrikStorageAccount (meta "account")
    (mkFybrikStorageAccountSpec "account" "secret" {[ "theshire" := "http://s3" ]}).
Definition plotterGen (g : Generator) : PlotterGenerator (list ProvisionedBucket) :=
  mkPlotterGenerator (ConcreteStore.onlyAccounts [account]) g (mkNamespacedName "notebook" "default")
    ProvisionTest.provision.
Definition emptySpec : PlotterSpec :=
  mkPlotterSpec (appspec_Selector (app_Spec application)) ∅ [] "fybrik-blueprints" ∅.

Notation addFlowInfo := (@AddFlowInfoForAsset canonical_range Concrete.k8s (Concrete.env [])
  Concrete.accept_all verbatim (list ProvisionedBucket)).

(** The result of a run, for evaluation. *)
Definition specOf {A B W} (r : outcome (option error * A * B * W)) : option B :=
  match r with Done (None, _, b, _) => Some b | _ => None end.

Lemma generator_returns g : world_returns (plotterGen g).
Proof. split; intros; by eexists. Qed.

Lemma example_modules_wf : modules_wf (gen_Modules generator).
Proof.
  intros k m c api Hk. unfold generator in Hk. simpl in Hk.
  apply lookup_singleton_Some in Hk as [_ <-]. simpl.
  intros [->|[->|[->|[]%not_elem_of_nil]%elem_of_cons]%elem_of_cons]%elem_of_cons [= <-];
    eexists; by vm_compute.
Qed.

Lemma AddFlowInfoForAsset_returns_witness :
  exists err prov' spec' w',
    addFlowInfo (plotterGen generator) (item ∅) application ∅ emptySpec [] =
      Done ((err, prov', spec'), w') /\ (err <> None -> spec' = emptySpec).
Proof.
  apply (@AddFlowInfoForAsset_returns canonical_range Concrete.k8s (Concrete.env []) Concrete.accept_all
    verbatim (list ProvisionedBucket) Concrete.k8s_nested (plotterGen generator) (item ∅) application).
  - apply generator_returns.
  - apply example_modules_wf.
Defined.

Lemma example_run : exists prov' spec' w',
  addFlowInfo (plotterGen generator) (item ∅) application ∅ emptySpec [] = Done ((None, prov', spec'), w').
Proof. eexists _, _, _. vm_compute. reflexivity. Qed.

Lemma AddFlowInfoForAsset_enforces_witness :
  exists prov' spec' w',
    addFlowInfo (plotterGen generator) (item ∅) application ∅ emptySpec [] = Done ((None, prov', spec'), w') /\
    exists flow sf step ps, plotter_Flows spec' = [flow] /\ sf ∈ flow_SubFlows flow /\
      step_of sf step ps /\ redact ∈ params_Actions ps.
Proof.
  destruct example_run as (prov' & spec' & w' & E). exists prov', spec', w'. split; [exact E|].
  destruct (@AddFlowInfoForAsset_enforces canonical_range Concrete.k8s (Concrete.env []) Concrete.accept_all
    verbatim (list ProvisionedBucket) Concrete.k8s_nested (plotterGen generator) (item ∅) application
    ∅ emptySpec [] prov' spec' w' E) as (flow & Hflow & [_ Hact _] & _).
  destruct (Hact redact) as (sf & step & ps & Hsf & Hst & Ha); [by left|].
  exists flow, sf, step, ps. split; [exact Hflow|]. split; [exact Hsf|]. split; [exact Hst|exact Ha].
Defined.

Lemma AddFlowInfoForAsset_wf_witness :
  exists prov' spec' w',
    addFlowInfo (plotterGen generator) (item ∅) application ∅ emptySpec [] = Done ((None, prov', spec'), w') /\
    plotter_wf spec'.
Proof.
  destruct example_run as (prov' & spec' & w' & E). exists prov', spec', w'. split; [exact E|].
  apply (@AddFlowInfoForAsset_wf canonical_range Concrete.k8s (Concrete.env []) Concrete.accept_all
    verbatim (list ProvisionedBucket) (plotterGen generator) (item ∅) application
    ∅ emptySpec [] prov' spec' w' E); [discriminate|constructor].
Defined.

Notation copyDestination := (@GetCopyDestination (Concrete.env []) (list ProvisionedBucket)
  (plotterGen generator) (item ∅)).

Lemma copies_share_location_witness :
  exists s1 s2 prov1 prov2 w1 w2,
    copyDestination (Some s3) "theshire" ∅ [] = Done ((inl s1, prov1), w1) /\
    copyDestination (Some s3parquet) "theshire" prov1 w1 = Done ((inl s2, prov2), w2) /\
    exists b1 b2 key, ds_Connection s1 = s3Connection b1 key /\ ds_Connection s2 = s3Connection b2 key /\
      bucket_Name b1 = bucket_Name b2.
Proof.
  assert (exists s1 s2 prov1 prov2 w1 w2,
    copyDestination (Some s3) "theshire" ∅ [] = Done ((inl s1, prov1), w1) /\
    copyDestination (Some s3parquet) "theshire" prov1 w1 = Done ((inl s2, prov2), w2))
    as (s1 & s2 & prov1 & prov2 & w1 & w2 & E1 & E2).
  { eexists _, _, _, _, _, _. split; vm_compute; reflexivity. }
  exists s1, s2, prov1, prov2, w1, w2. split; [exact E1|]. split; [exact E2|].
  exact (copies_share_location (plotterGen generator) (item ∅) _ _ _ _ _ _ _ _ _ _ _ _ _ _ E1 E2).
Defined.

(** Two assets served by two modules with the same capability "read". *)
Definition csvReader : FybrikModule := module "csv-reader" []
  [mkModuleCapability "read" "workload" [mkModuleInOut (Some s3) None] (Some flightAPI) [mkModuleSupportedAction "redact"] []].
Definition parquetReader : FybrikModule := module "parquet-reader" []
  [mkModuleCapability "read" "workload" [mkModuleInOut (Some s3parquet) None] (Some flightAPI) [mkModuleSupportedAction "redact"] []].
Definition readers : Generator :=
  mkGenerator {[ "csv-reader" := csvReader; "parquet-reader" := parquetReader ]} [cluster] allow [].
Definition itemOf (id format : string) : DataInfo :=
  mkDataInfo (mkGetAssetResponse (mkResourceMetadata "" "" "theshire" None [])
      (mkResourceDetails (mkConnection "s3" noProps) format) "")
    (mkDataContext id "" (Requirements context)) (mkEvaluatorOutput true "" "" "" ∅ []) cluster [].

(** The parts of a finished run. *)
Definition resultOf {A B W} (a : A) (b : B) (w : W) (r : outcome (option error * A * B * W)) : A * B * W :=
  match r with Done (_, a', b', w') => (a', b', w') | Panic _ => (a, b, w) end.
Definition run1 := resultOf ∅ emptySpec []
  (addFlowInfo (plotterGen readers) (itemOf "one" "csv") application ∅ emptySpec []).
Definition run2 := resultOf ∅ emptySpec []
  (addFlowInfo (plotterGen readers) (itemOf "two" "parquet") application run1.1.1 run1.1.2 run1.2).
Definition readModule (spec : PlotterSpec) : option string :=
  t ← plotter_Templates spec !! "read"; m ← list.last (template_Modules t); Some (info_Name m).
Definition parquetRead : ModuleCapability :=
  mkModuleCapability "read" "workload" [mkModuleInOut (Some s3parquet) None] (Some flightAPI)
    [mkModuleSupportedAction "redact"] [].
Definition parquetElement : ResolvedEdge :=
  mkResolvedEdge (mkEdge (Some parquet) (Some workload) parquetReader 0) [] "thegreendragon" "".

Lemma template_last_wins_witness :
  readModule run1.1.2 = Some "csv-reader" /\ readModule run2.1.2 = Some "parquet-reader" /\
  forall flow, flow ∈ plotter_Flows run1.1.2 -> flow ∈ plotter_Flows run2.1.2.
Proof.
  split; [vm_compute; reflexivity|].
  assert (addFlowInfo (plotterGen readers) (itemOf "two" "parquet") application run1.1.1 run1.1.2 run1.2 =
    Done ((None, run2.1.1, run2.1.2), run2.2)) as E by (vm_compute; reflexivity).
  assert (@FindPaths canonical_range Concrete.k8s (Concrete.env []) Concrete.accept_all readers
    (itemOf "two" "parquet") application = Done [[parquetElement]]) as HF by (vm_compute; reflexivity).
  destruct (template_last_wins (plotterGen readers) (itemOf "two" "parquet") application _ _ _ _ _ _
    [parquetElement] [] parquetElement parquetRead E HF eq_refl eq_refl) as [Ht Hf].
  split; [|exact Hf]. unfold readModule. change (capability_Capability parquetRead) with "read" in Ht.
  rewrite Ht. vm_compute. reflexivity.
Defined.
End PlotterExamples.
