(* ===== verification/Conditions.v ===== *)
(** * Conditions of an application

    [manager/controllers/app/fybrikapplication_conditions.go]: the status of a
    FybrikApplication records for each asset three conditions at fixed positions. *)
From stdpp Require Import base gmap strings list numbers.
From Stdlib Require Import Ascii.
From S2P Require Import Prelude GoStrings Types.

Definition ReadyConditionIndex : nat := 0.
Definition DenyConditionIndex : nat := 1.
Definition ErrorConditionIndex : nat := 2.

Definition newline : string := String (ascii_of_nat 10) EmptyString.

Definition assetIDs (a : FybrikApplication) : list string := DataSetID <$> appspec_Data (app_Spec a).

(** [resetAssetState]: an entry is written into the map of states. *)
Definition freshConditions : list Condition :=
  [ mkCondition ReadyCondition ConditionFalse "" 0;
    mkCondition DenyCondition ConditionFalse "" 0;
    mkCondition ErrorCondition ConditionFalse "" 0 ].

Definition resetAssetState (states : gomap AssetState) (assetID : string) : outcome (gomap AssetState) :=
  mset states assetID (mkAssetState freshConditions "" zeroConnection).

Fixpoint resetAssetStates (states : gomap AssetState) (ids : list string) : outcome (gomap AssetState) :=
  match ids with
  | [] => mret states
  | id :: rest => states' ← resetAssetState states id; resetAssetStates states' rest
  end.

Definition initStatus (a : FybrikApplication) : outcome FybrikApplication :=
  states ← resetAssetStates (Some ∅) (assetIDs a);
  mret (a <| app_Status := (app_Status a)
            <| appstatus_ErrorMessage := "" |>
            <| appstatus_AssetStates := states |>
            <| appstatus_Ready := Nat.eqb (length (appspec_Data (app_Spec a))) 0 |> |>).

Definition assetStates (a : FybrikApplication) : gomap AssetState := appstatus_AssetStates (app_Status a).
Definition setAssetStates (states : gomap AssetState) (a : FybrikApplication) : FybrikApplication :=
  a <| app_Status := (app_Status a) <| appstatus_AssetStates := states |> |>.

(** [AssetStates[assetID].Conditions[index] = ...]: the state of an unknown asset
    has no conditions, and the slice is updated in place. *)
Definition updateCondition (a : FybrikApplication) (assetID : string) (index : nat)
    (f : Condition -> Condition) : outcome FybrikApplication :=
  let state := default zeroAssetState (mget (assetStates a) assetID) in
  match state_Conditions state !! index with
  | None => Panic "index out of range"
  | Some c =>
      let state := state <| state_Conditions := <[index := f c]> (state_Conditions state) |> in
      Done (setAssetStates (Some (<[assetID := state]> (gm (assetStates a)))) a)
  end.

Definition errorText (assetID msg : string) : string :=
  "An error was received for asset " +:+ assetID +:+
  " . If the error persists, please contact an operator." +:+ "Error description: " +:+ msg.

Definition setErrorCondition (a : FybrikApplication) (assetID msg : string) : outcome FybrikApplication :=
  updateCondition a assetID ErrorConditionIndex
    (fun _ => mkCondition ErrorCondition ConditionTrue (errorText assetID msg) 0).

Definition setDenyCondition (a : FybrikApplication) (assetID msg : string) : outcome FybrikApplication :=
  updateCondition a assetID DenyConditionIndex (fun _ => mkCondition DenyCondition ConditionTrue msg 0).

Definition setReadyCondition (a : FybrikApplication) (assetID : string) : outcome FybrikApplication :=
  updateCondition a assetID ReadyConditionIndex (fun c => c <| cond_Status := ConditionTrue |>).

(** [Conditions[index].Status] of an asset *)
Definition conditionAt (state : AssetState) (index : nat) : outcome Condition :=
  match state_Conditions state !! index with
  | Some c => Done c
  | None => Panic "index out of range"
  end.

Definition assetState (a : FybrikApplication) (assetID : string) : AssetState :=
  default zeroAssetState (mget (assetStates a) assetID).

Fixpoint allReady (a : FybrikApplication) (ids : list string) : outcome bool :=
  match ids with
  | [] => mret true
  | id :: rest =>
      let state := assetState a id in
      if Nat.eqb (length (state_Conditions state)) 0 then mret false
      else
        deny ← conditionAt state DenyConditionIndex;
        if cond_Status deny =? ConditionFalse then
          ready ← conditionAt state ReadyConditionIndex;
          if cond_Status ready =? ConditionFalse then mret false else allReady a rest
        else allReady a rest
  end.

Definition isReady (a : FybrikApplication) : outcome bool :=
  if Nat.eqb (length (appspec_Data (app_Spec a))) 0 then mret true
  else match assetStates a with
       | None => mret false
       | Some _ => allReady a (assetIDs a)
       end.

Section Messages.
Context `{MapRange}.

Fixpoint errorMessages (states : list (string * AssetState)) : outcome (list string) :=
  match states with
  | [] => mret []
  | (_, state) :: rest =>
      c ← conditionAt state ErrorConditionIndex;
      msgs ← errorMessages rest;
      mret (if cond_Status c =? ConditionTrue then cond_Message c :: msgs else msgs)
  end.

Definition getErrorMessages (a : FybrikApplication) : outcome string :=
  if appstatus_ErrorMessage (app_Status a) <>? "" then mret (appstatus_ErrorMessage (app_Status a))
  else
    msgs ← errorMessages (range (gm (assetStates a)));
    mret (Join msgs newline).
End Messages.

(** ** The invariant

    Every recorded state has the three conditions, and every asset of the
    specification has a state. *)
Definition three (state : AssetState) : Prop :=
  exists ready deny err, state_Conditions state = [ready; deny; err].

Definition states_wf (states : gomap AssetState) (ids : list string) : Prop :=
  exists m, states = Some m /\ map_Forall (fun _ => three) m /\ Forall (fun id => is_Some (m !! id)) ids.

Definition app_wf (a : FybrikApplication) : Prop := states_wf (assetStates a) (assetIDs a).

Lemma app_wf_state a id :
  app_wf a -> id ∈ assetIDs a ->
  exists st, mget (assetStates a) id = Some st /\ three st.
Proof.
  intros (m & Hm & H3 & Hids) Hin. rewrite list.Forall_forall in Hids.
  destruct (Hids id Hin) as (st & Hst). exists st. unfold mget. rewrite Hm. split; [done|]. by eapply H3.
Qed.

Lemma resetAssetStates_spec m ids :
  exists m', resetAssetStates (Some m) ids = Done (Some m') /\
    forall id, m' !! id = if decide (id ∈ ids) then Some (mkAssetState freshConditions "" zeroConnection)
                          else m !! id.
Proof.
  revert m. induction ids as [|id ids IH]; intros m; [by exists m|]. simpl.
  destruct (IH (<[id := mkAssetState freshConditions "" zeroConnection]> m)) as (m' & E & Hm').
  exists m'. split; [exact E|]. intros k. rewrite Hm'.
  destruct (decide (k ∈ ids)); [rewrite decide_True by set_solver; done|].
  destruct (decide (k = id)) as [->|Hne].
  - rewrite lookup_insert_eq, decide_True; set_solver.
  - rewrite lookup_insert_ne, decide_False by set_solver. done.
Qed.

Lemma initStatus_spec a :
  exists a', initStatus a = Done a' /\ app_wf a' /\
    (forall id, id ∈ assetIDs a -> mget (assetStates a') id = Some (mkAssetState freshConditions "" zeroConnection)) /\
    app_Meta a' = app_Meta a /\ app_Spec a' = app_Spec a /\
    appstatus_ErrorMessage (app_Status a') = "" /\
    appstatus_Generated (app_Status a') = appstatus_Generated (app_Status a) /\
    appstatus_ProvisionedStorage (app_Status a') = appstatus_ProvisionedStorage (app_Status a).
Proof.
  unfold initStatus. destruct (resetAssetStates_spec ∅ (assetIDs a)) as (m & -> & Hm). simpl.
  destruct a as [am asp ast]. simpl in *. eexists; split; [reflexivity|]. simpl.
  split; [|repeat split; try (by destruct ast); intros id Hid; unfold mget; simpl; by rewrite Hm, decide_True].
  exists m. split; [done|]. split.
  - intros k st Hk. rewrite Hm in Hk. case_decide; [|by rewrite lookup_empty in Hk].
    injection Hk as <-. by eexists _, _, _.
  - apply list.Forall_forall. intros id Hid. rewrite Hm, decide_True by done. by eexists.
Qed.

Lemma mget_setAssetStates m a id : mget (assetStates (setAssetStates (Some m) a)) id = m !! id.
Proof. by destruct a as [? ? []]. Qed.

Lemma assetIDs_setAssetStates m a : assetIDs (setAssetStates m a) = assetIDs a.
Proof. by destruct a. Qed.

(** Writing a condition of an asset of the specification succeeds, keeps the
    invariant and changes nothing else. *)
Lemma updateCondition_spec a id i f :
  app_wf a -> id ∈ assetIDs a -> i < 3 ->
  exists st c st', mget (assetStates a) id = Some st /\ state_Conditions st !! i = Some c /\
    st' = st <| state_Conditions := <[i := f c]> (state_Conditions st) |> /\
    updateCondition a id i f = Done (setAssetStates (Some (<[id := st']> (gm (assetStates a)))) a) /\
    app_wf (setAssetStates (Some (<[id := st']> (gm (assetStates a)))) a).
Proof.
  intros Hwf Hin Hi. destruct (app_wf_state a id Hwf Hin) as (st & Hst & (r & d & e & H3)).
  destruct (lookup_lt_is_Some_2 (state_Conditions st) i) as (c & Hc); [rewrite H3; simpl; lia|].
  exists st, c, (st <| state_Conditions := <[i := f c]> (state_Conditions st) |>).
  do 3 (split; [done|]). split; [unfold updateCondition; rewrite Hst; simpl; by rewrite Hc|].
  destruct Hwf as (m & Hm & Hall & Hids). unfold app_wf.
  rewrite assetIDs_setAssetStates, Hm. simpl.
  exists (<[id := st <| state_Conditions := <[i := f c]> (state_Conditions st) |>]> m).
  split; [by destruct a as [? ? []]|]. split.
  - apply map_Forall_insert_2; [|done]. unfold three. destruct st as [cs cat ep]. simpl in *. rewrite H3.
    destruct i as [|[|[|]]]; [by eexists _, _, _..|lia].
  - eapply list.Forall_impl; [exact Hids|]. intros k Hk. simpl.
    destruct (decide (k = id)) as [->|]; by simplify_map_eq.
Qed.

(** The status of a condition of an asset, as read by a client. *)
Definition statusOf (a : FybrikApplication) (id : string) (i : nat) : string :=
  from_option cond_Status "" (state_Conditions (assetState a id) !! i).

Lemma conditionAt_three st i : three st -> i < 3 ->
  exists c, conditionAt st i = Done c /\ state_Conditions st !! i = Some c.
Proof.
  intros (r & d & e & H3) Hi. unfold conditionAt. rewrite H3.
  destruct i as [|[|[|]]]; simpl; [eauto..|lia].
Qed.

Lemma allReady_spec a ids :
  app_wf a -> Forall (fun id => id ∈ assetIDs a) ids ->
  exists b, allReady a ids = Done b /\
    (b = true <-> Forall (fun id => statusOf a id DenyConditionIndex <> ConditionFalse \/
                                    statusOf a id ReadyConditionIndex <> ConditionFalse) ids).
Proof.
  intros Hwf. induction 1 as [|id ids Hin _ IH]; [by exists true|]. cbn [allReady].
  destruct IH as (b & -> & Hb).
  destruct (app_wf_state a id Hwf Hin) as (st & Hst & H3).
  assert (assetState a id = st) as Est by (unfold assetState; by rewrite Hst).
  setoid_rewrite list.Forall_cons. unfold statusOf. rewrite !Est.
  destruct (conditionAt_three st DenyConditionIndex H3) as (d & -> & Hd); [unfold DenyConditionIndex; lia|].
  destruct (conditionAt_three st ReadyConditionIndex H3) as (r & -> & Hr); [unfold ReadyConditionIndex; lia|].
  rewrite Hd, Hr. destruct H3 as (? & ? & ? & ->). simpl.
  destruct (String.eqb_spec (cond_Status d) ConditionFalse) as [Ed|Ed]; simpl; [|naive_solver].
  destruct (String.eqb_spec (cond_Status r) ConditionFalse) as [Er|Er]; simpl; [|naive_solver].
  exists false. naive_solver.
Qed.

(** On a well-formed status [isReady] does not panic, and it holds exactly when
    for every asset of the application the Ready or the Deny condition has been set:
    an application is ready when each asset is either accessible or denied. *)
Theorem isReady_correct a :
  app_wf a ->
  exists b, isReady a = Done b /\
    (b = true <-> forall id, id ∈ assetIDs a ->
       statusOf a id DenyConditionIndex <> ConditionFalse \/
       statusOf a id ReadyConditionIndex <> ConditionFalse).
Proof.
  intros Hwf. unfold isReady.
  destruct (Nat.eqb_spec (length (appspec_Data (app_Spec a))) 0) as [El|_].
  { apply nil_length_inv in El. exists true. split; [done|]. unfold assetIDs. rewrite El. set_solver. }
  destruct (allReady_spec a (assetIDs a) Hwf) as (b & E & Hb); [by apply list.Forall_forall|].
  destruct Hwf as (m & -> & _). exists b. split; [exact E|]. by rewrite Hb, list.Forall_forall.
Qed.

Section MessagesFacts.
Context `{MapRange}.

Lemma errorMessages_spec (states : list (string * AssetState)) :
  Forall (fun kv => three kv.2) states ->
  exists msgs, errorMessages states = Done msgs /\
    forall msg, msg ∈ msgs <-> exists k st c, (k, st) ∈ states /\
      state_Conditions st !! ErrorConditionIndex = Some c /\ cond_Status c = ConditionTrue /\
      cond_Message c = msg.
Proof.
  induction 1 as [|[k st] states H3 _ (msgs & E & IH)]; [exists []; split; [done|]; set_solver|].
  cbn [errorMessages]. destruct (conditionAt_three st ErrorConditionIndex H3) as (c & -> & Hc);
    [unfold ErrorConditionIndex; lia|].
  simpl. rewrite E. eexists; split; [reflexivity|]. intros msg.
  destruct (String.eqb_spec (cond_Status c) ConditionTrue) as [Et|Et].
  - rewrite elem_of_cons, IH. split.
    + intros [->|(k' & st' & c' & Hin & Hc')]; [exists k, st, c; set_solver|].
      exists k', st', c'. set_solver.
    + intros (k' & st' & c' & [[= -> ->]|Hin]%elem_of_cons & Hc' & Ht & Hm); [left; congruence|right; eauto 10].
  - rewrite IH. split.
    + intros (k' & st' & c' & Hin & Hc'). exists k', st', c'. set_solver.
    + intros (k' & st' & c' & [[= -> ->]|Hin]%elem_of_cons & Hc' & Ht & Hm); [congruence|eauto 10].
Qed.

Lemma Join_nonempty msgs sep : (exists m, m ∈ msgs /\ m <> "") -> Join msgs sep <> "".
Proof.
  intros (m & Hin & Hm). induction msgs as [|x msgs IH]; [set_solver|].
  destruct msgs as [|y msgs].
  - apply list_elem_of_singleton in Hin as ->. done.
  - change (Join (x :: y :: msgs) sep) with (x +:+ sep +:+ Join (y :: msgs) sep).
    apply elem_of_cons in Hin as [<-|Hin]; [by destruct m|].
    specialize (IH Hin). destruct x; [|done]. destruct sep; simpl; [exact IH|done].
Qed.

(** The messages are empty unless some asset is in error. *)
Lemma getErrorMessages_spec a :
  app_wf a -> appstatus_ErrorMessage (app_Status a) = "" ->
  exists msg, getErrorMessages a = Done msg /\
    ((forall k st c, mget (assetStates a) k = Some st -> state_Conditions st !! ErrorConditionIndex = Some c ->
        cond_Status c <> ConditionTrue) -> msg = "") /\
    ((exists k st c, mget (assetStates a) k = Some st /\ state_Conditions st !! ErrorConditionIndex = Some c /\
        cond_Status c = ConditionTrue /\ cond_Message c <> "") -> msg <> "").
Proof.
  intros (m & Hm & Hall & _) He. unfold getErrorMessages, mget. rewrite He, Hm. simpl.
  destruct (errorMessages_spec (range m)) as (msgs & -> & Hmsgs).
  { by apply (range_Forall (fun _ st => three st)). }
  eexists; split; [reflexivity|]. split.
  - intros Hno. destruct msgs as [|msg msgs]; [done|].
    destruct (proj1 (Hmsgs msg)) as (k & st & c & Hk%range_elem & Hc & Ht & _); [by left|].
    by destruct (Hno k st c Hk Hc).
  - intros (k & st & c & Hk & Hc & Ht & Hne). apply Join_nonempty.
    exists (cond_Message c). split; [|done]. apply Hmsgs. exists k, st, c. by rewrite range_elem.
Qed.

(** After an error has been recorded for an asset of a well-formed application
    the error messages are not empty, so that the controller does not go on to
    generate a plotter. *)
Theorem error_is_reported a id msg :
  app_wf a -> id ∈ assetIDs a ->
  exists a' text, setErrorCondition a id msg = Done a' /\ app_wf a' /\
    getErrorMessages a' = Done text /\ text <> "".
Proof.
  intros Hwf Hin. unfold setErrorCondition.
  destruct (updateCondition_spec a id ErrorConditionIndex
    (fun _ => mkCondition ErrorCondition ConditionTrue (errorText id msg) 0) Hwf Hin)
    as (st & c & st' & Hst & Hc & Hst' & -> & Hwf'); [unfold ErrorConditionIndex; lia|].
  eexists _. destruct (decide (appstatus_ErrorMessage (app_Status a) = "")) as [He|He].
  - destruct (getErrorMessages_spec _ Hwf') as (text & E & _ & Herr); [by destruct a as [? ? []]|].
    exists text. do 3 (split; [done|]). apply Herr.
    exists id, st', (mkCondition ErrorCondition ConditionTrue (errorText id msg) 0).
    rewrite mget_setAssetStates, lookup_insert_eq. split; [done|]. subst st'.
    destruct st as [cs cat ep]. simpl in *.
    rewrite list_lookup_insert_eq by (by eapply lookup_lt_Some). done.
  - exists (appstatus_ErrorMessage (app_Status a)). do 2 (split; [done|]). split; [|done].
    unfold getErrorMessages. destruct a as [? ? [? msg' ? ? ? ? ? ?]]. simpl in *.
    apply String.eqb_neq in He. by rewrite He.
Qed.
End MessagesFacts.
