(* ===== verification/ResourceGen.v ===== *)
(** * The generated resource

    [manager/controllers/app/resource_gen.go]: the interface through which the
    application controller manages the resource it generates, and its
    implementation for plotters. *)
From stdpp Require Import base gmap strings list numbers.
From S2P Require Import Prelude GoStrings Types External Utils World.

(** [ContextInterface] *)
Record ContextInterface (W : Type) := mkContextInterface {
  ResourceExists : option ResourceReference -> M W bool;
  CreateOrUpdateResource : ResourceReference -> ResourceReference -> PlotterSpec -> gomap string ->
    string -> M W (option error);
  DeleteResource : ResourceReference -> M W (option error);
  GetResourceStatus : option ResourceReference -> M W (ObservedState + error);
  CreateResourceReference : ResourceReference -> ResourceReference
}.
Arguments mkContextInterface {W}.
Arguments ResourceExists {W}.
Arguments CreateOrUpdateResource {W}.
Arguments DeleteResource {W}.
Arguments GetResourceStatus {W}.
Arguments CreateResourceReference {W}.

(** [ownerLabels] of [fybrikapplication_controller.go] *)
Definition ownerLabels (id : NamespacedName) : gmap string string :=
  {[ ApplicationNamespaceLabel := nn_Namespace id; ApplicationNameLabel := nn_Name id ]}.

Module PlotterInterface.
Section Interface.
Context `{Runtime, Semantic} {W : Type} (cl : ObjectClient W Plotter).

Definition CreateResourceReference (owner : ResourceReference) : ResourceReference :=
  mkResourceReference (ref_Name owner +:+ "-" +:+ ref_Namespace owner) GetSystemNamespace "Plotter"
    (ref_AppVersion owner).

Definition refKey (ref : ResourceReference) : NamespacedName :=
  mkNamespacedName (ref_Name ref) (ref_Namespace ref).

Definition ResourceExists (ref : option ResourceReference) : M W bool :=
  match ref with
  | None => mret false
  | Some ref =>
      if ref_Namespace ref =? "" then mret false
      else
        r ← Get cl (refKey ref);
        mret (match r with inl _ => true | inr _ => false end)
  end.

Definition emptyPlotterSpec : PlotterSpec :=
  mkPlotterSpec (mkSelector "" (mkLabelSelector ∅ [])) ∅ [] "" ∅.
Definition emptyPlotterStatus : PlotterStatus :=
  mkPlotterStatus (mkObservedState false "") 0 ∅ None [] None.

Definition GetResourceSignature (ref : ResourceReference) : Plotter :=
  mkPlotter (mkObjectMeta (ref_Name ref) (ref_Namespace ref) "" 0 None [] None None "")
    emptyPlotterSpec emptyPlotterStatus.

(** The function passed to [CreateOrUpdate]. *)
Definition mutatePlotter (owner : ResourceReference) (plotterSpec : PlotterSpec) (labels : gomap string)
    (uuid : string) (plotter : Plotter) : Plotter :=
  let debugLabels := ownerLabels (mkNamespacedName (ref_Name owner) (ref_Namespace owner)) in
  let m := pl_Meta plotter in
  let m := m <| meta_Labels := Some (debugLabels ∪ gm labels) |> in
  let m := match meta_Annotations m with
           | None => m <| meta_Annotations := Some {[ FybrikAppUUID := uuid ]} |>
           | Some _ => m
           end in
  plotter <| pl_Spec := plotterSpec |> <| pl_Meta := m |>.

Definition CreateOrUpdateResource (owner ref : ResourceReference) (plotterSpec : PlotterSpec)
    (labels : gomap string) (uuid : string) : M W (option error) :=
  r ← Get cl (refKey ref);
  let plotter := match r with inl plotter => plotter | inr _ => GetResourceSignature ref end in
  let unchanged := match r with
                   | inl plotter => equal_PlotterSpec (pl_Spec plotter) plotterSpec
                   | inr _ => false
                   end in
  if (unchanged : bool) then mret None
  else CreateOrUpdate cl plotter (mutatePlotter owner plotterSpec labels uuid).

Definition DeleteResource (ref : ResourceReference) : M W (option error) :=
  Delete cl (GetResourceSignature ref).

Definition GetResourceStatus (ref : option ResourceReference) : M W (ObservedState + error) :=
  match ref with
  | None => mret (inl (mkObservedState false ""))
  | Some ref =>
      if ref_Namespace ref =? "" then mret (inl (mkObservedState false ""))
      else
        r ← Get cl (refKey ref);
        mret (match r with
              | inl plotter => inl (plstatus_ObservedState (pl_Status plotter))
              | inr err => inr err
              end)
  end.

Definition interface : ContextInterface W :=
  mkContextInterface ResourceExists CreateOrUpdateResource DeleteResource GetResourceStatus
    CreateResourceReference.
End Interface.
End PlotterInterface.

(** ** Properties *)

(** Two different applications can be given the same plotter, although the name
    of a plotter is meant to identify the application: the name and the namespace
    are joined by a dash, which both may contain. *)
Theorem plotter_name_collision `{Runtime} v :
  PlotterInterface.CreateResourceReference (mkResourceReference "notebook-a" "b" "" v) =
  PlotterInterface.CreateResourceReference (mkResourceReference "notebook" "a-b" "" v) /\
  mkNamespacedName "notebook-a" "b" <> mkNamespacedName "notebook" "a-b".
Proof. by split. Qed.

(** The condition under which the name does identify the application. *)
Lemma plotter_name_injective `{Runtime} n1 ns1 n2 ns2 v k :
  String.length ns1 = String.length ns2 ->
  PlotterInterface.CreateResourceReference (mkResourceReference n1 ns1 k v) =
  PlotterInterface.CreateResourceReference (mkResourceReference n2 ns2 k v) -> n1 = n2 /\ ns1 = ns2.
Proof.
  intros Hlen E. unfold PlotterInterface.CreateResourceReference in E. simpl in E. injection E as E.
  assert (String.length n1 = String.length n2) as Hn.
  { apply (f_equal String.length) in E. rewrite !str_length_app in E. simpl in E. lia. }
  clear Hlen. revert n2 E Hn. induction n1 as [|c n1 IH]; intros [|c2 n2] E Hn; simplify_eq/=; [done|].
  destruct (IH n2) as [-> ->]; auto.
Qed.

Section PlotterFacts.
Context `{Runtime, Semantic} {W : Type} (cl : ObjectClient W Plotter).

(** Generating a resource that already exists with the wanted specification
    writes nothing: the call only reads the plotter. *)
Theorem CreateOrUpdateResource_unchanged `{!SemanticLaws} owner ref spec labels uuid plotter w w' :
  Get cl (PlotterInterface.refKey ref) w = Done (inl plotter, w') -> pl_Spec plotter = spec ->
  PlotterInterface.CreateOrUpdateResource cl owner ref spec labels uuid w = Done (None, w').
Proof.
  intros HG HS. unfold PlotterInterface.CreateOrUpdateResource.
  rewrite (M_bind_run _ _ _ _ _ HG). subst spec. by rewrite equal_PlotterSpec_refl.
Qed.
End PlotterFacts.
