(* ===== verification/AppController.v ===== *)
(** * The application controller

    [manager/controllers/app/fybrikapplication_controller.go],
    [data_catalog_interface.go], [manager/apis/app/v1alpha1/fybrikapplication_webhook.go]
    and [GetClusters] of [pkg/multicluster/local]. *)
From stdpp Require Import base gmap strings list numbers.
From S2P Require Import Prelude GoStrings Types External Utils Policy AdminConfig World MultiCluster Storage SelectModules PlotterGen Conditions ResourceGen.

(** [clients.DataCatalog.GetAssetInfo(request, credentials)]: any service. *)
Definition DataCatalog : Type := GetAssetRequest -> string -> GetAssetResponse + error.

(** [FybrikApplicationReconciler] *)
Record Reconciler (W : Type) := mkReconciler {
  r_Client : Client W;
  r_Name : string;
  r_PolicyManager : PolicyManager;
  r_DataCatalog : DataCatalog;
  r_ResourceInterface : ContextInterface W;
  r_GetClusters : M W (list Cluster + error);
  r_Provision : Provision W;
  r_ConfigEvaluator : Evaluator
}.
Arguments mkReconciler {W}.
Arguments r_Client {W}.
Arguments r_Name {W}.
Arguments r_PolicyManager {W}.
Arguments r_DataCatalog {W}.
Arguments r_ResourceInterface {W}.
Arguments r_GetClusters {W}.
Arguments r_Provision {W}.
Arguments r_ConfigEvaluator {W}.

(** [json.Marshal] of an application, used only as input of the schema validator. *)
Class Encoder := { encodeApplication : FybrikApplication -> value }.

(** ** JSON of a catalog response *)
Definition omitTags (k : string) (t : option Tags) (m : gmap string value) : gmap string value :=
  match t with
  | None => m
  | Some t => <[k := match Items (tags_Properties t) with Some items => VMap items | None => VNull end]> m
  end.
Definition ResourceColumn_JSON (c : ResourceColumn) : value :=
  VMap (omitTags "tags" (column_Tags c) {[ "name" := VString (column_Name c) ]}).
Definition ResourceMetadata_JSON (r : ResourceMetadata) : value :=
  let columns : gmap string value :=
    match resource_Columns r with [] => ∅ | cs => {[ "columns" := VList (ResourceColumn_JSON <$> cs) ]} end in
  VMap (omitempty "name" (resource_Name r) (omitempty "owner" (resource_Owner r)
    (omitempty "geography" (resource_Geography r) (omitTags "tags" (resource_Tags r) columns)))).
Definition ResourceDetails_JSON (d : ResourceDetails) : value :=
  VMap (omitempty "dataFormat" (details_DataFormat d)
    {[ "connection" := Connection_MarshalJSON (details_Connection d) ]}).
Definition GetAssetResponse_JSON (r : GetAssetResponse) : value :=
  VMap {[ "resourceMetadata" := ResourceMetadata_JSON (asset_ResourceMetadata r);
          "details" := ResourceDetails_JSON (asset_Details r);
          "credentials" := VString (asset_Credentials r) ]}.

Section Controller.
Context `{MapRange, K8sMeta, Runtime, Schema, TemplateEngine, Encoder} {W : Type}.
Implicit Types (r : Reconciler W).

(** ** Validation against the taxonomy *)

Definition taxonomyError (kind name : string) (result : list FieldError * option error) : option error :=
  match result with
  | (_, Some err) => Some err
  | ([], None) => None
  | (allErrs, None) => Some (NewInvalid kind name allErrs)
  end.

Definition ApplicationTaxonomy : string := "/tmp/taxonomy/fybrik_application.json".
Definition DataCatalogTaxonomy : string := "/tmp/taxonomy/datacatalog.json#/definitions/GetAssetResponse".

Definition ValidateFybrikApplication (a : FybrikApplication) (taxonomyFile : string) : option error :=
  taxonomyError "FybrikApplication" (app_Name a) (TaxonomyCheck (encodeApplication a) taxonomyFile).

(** The webhook validates an application on creation and on every update, whatever it was
    before; a deletion is always admitted. *)
Definition Application_ValidateCreate (a : FybrikApplication) : option error :=
  ValidateFybrikApplication a ApplicationTaxonomy.
Definition Application_ValidateUpdate (a old : FybrikApplication) : option error :=
  ValidateFybrikApplication a ApplicationTaxonomy.
Definition Application_ValidateDelete (a : FybrikApplication) : option error := None.

Definition ValidateAssetResponse (response : GetAssetResponse) (taxonomyFile datasetID : string)
    : option error :=
  taxonomyError "DataCatalog-AssetResponse" datasetID
    (TaxonomyCheck (GetAssetResponse_JSON response) taxonomyFile).

(** ** Data catalog *)

Definition RegisterAsset (catalogID : string) (info : DatasetDetails) (input : FybrikApplication)
    : string * option error := ("", Some (newError "Unsupported feature")).

(** ** Readiness *)

Definition getBucketResourceRef (name : string) : NamespacedName :=
  mkNamespacedName name GetSystemNamespace.

(** The body of the loop of [checkReadiness] over the assets. *)
Definition checkAsset (r : Reconciler W) (status : ObservedState) (dataCtx : DataContext)
    (a : FybrikApplication) : M W FybrikApplication :=
  let assetID := DataSetID dataCtx in
  let catalogID := catalog_CatalogID (copy_Catalog (requirements_Copy (Requirements dataCtx))) in
  deny ← lift (conditionAt (assetState a assetID) DenyConditionIndex);
  if cond_Status deny =? ConditionTrue then mret a
  else if os_Error status <>? "" then lift (setErrorCondition a assetID (os_Error status))
  else if negb (os_Ready status) then mret a
  else if catalogID <>? "" then
    if state_CatalogedAsset (assetState a assetID) <>? "" then mret a
    else
      match mget (appstatus_ProvisionedStorage (app_Status a)) assetID with
      | None =>
          lift (setErrorCondition a assetID
            ("No copy has been created for the asset " +:+ assetID +:+ " required to be registered"))
      | Some provisionedBucketRef =>
          err ← SetPersistent (r_Provision r)
                  (getBucketResourceRef (dataset_DatasetRef provisionedBucketRef)) true;
          match err with
          | Some err => lift (setErrorCondition a assetID (Error err))
          | None =>
              match RegisterAsset catalogID provisionedBucketRef a with
              | (newAssetID, None) =>
                  let state := (assetState a assetID) <| state_CatalogedAsset := newAssetID |> in
                  states ← lift (mset (assetStates a) assetID state);
                  lift (setReadyCondition (setAssetStates states a) assetID)
              | (_, Some err) => lift (setErrorCondition a assetID (Error err))
              end
          end
      end
  else lift (setReadyCondition a assetID).

Fixpoint checkAssets (r : Reconciler W) (status : ObservedState) (data : list DataContext)
    (a : FybrikApplication) : M W FybrikApplication :=
  match data with
  | [] => mret a
  | d :: rest => a' ← checkAsset r status d a; checkAssets r status rest a'
  end.

(** [checkReadiness] always returns nil. *)
Definition checkReadiness (r : Reconciler W) (a : FybrikApplication) (status : ObservedState)
    : M W FybrikApplication :=
  a ← lift (match assetStates a with None => initStatus a | Some _ => mret a end);
  checkAssets r status (appspec_Data (app_Spec a)) a.

(** ** Deletion *)

Fixpoint deleteDatasets (r : Reconciler W) (storage : list (string * DatasetDetails))
    : M W (list string * list string) :=
  match storage with
  | [] => mret ([], [])
  | (datasetID, details) :: rest =>
      err ← DeleteDataset (r_Provision r) (getBucketResourceRef (dataset_DatasetRef details));
      rs ← deleteDatasets r rest;
      mret (match err with
            | Some err => (rs.1, Error err :: rs.2)
            | None => (datasetID :: rs.1, rs.2)
            end)
  end.

Definition setProvisioned (s : gomap DatasetDetails) (a : FybrikApplication) : FybrikApplication :=
  a <| app_Status := (app_Status a) <| appstatus_ProvisionedStorage := s |> |>.
Definition setGenerated (g : option ResourceReference) (a : FybrikApplication) : FybrikApplication :=
  a <| app_Status := (app_Status a) <| appstatus_Generated := g |> |>.

Definition deleteExternalResources (r : Reconciler W) (a : FybrikApplication)
    : M W (option error * FybrikApplication) :=
  let storage := appstatus_ProvisionedStorage (app_Status a) in
  rs ← deleteDatasets r (range (gm storage));
  let a := setProvisioned (foldl mdelete storage rs.1) a in
  if negb (Nat.eqb (length rs.2) 0) then mret (Some (newError (Join rs.2 ";")), a)
  else match appstatus_Generated (app_Status a) with
       | None => mret (None, a)
       | Some ref =>
           err ← DeleteResource (r_ResourceInterface r) ref;
           match err with
           | Some err => mret (Some err, a)
           | None => mret (None, setGenerated None a)
           end
       end.

Definition isDeleted (m : ObjectMeta) : bool :=
  match meta_DeletionTimestamp m with Some _ => true | None => false end.

Definition setFinalizers (fs : list string) (a : FybrikApplication) : FybrikApplication :=
  a <| app_Meta := (app_Meta a) <| meta_Finalizers := fs |> |>.

Definition finalizerName (r : Reconciler W) : string := r_Name r +:+ ".finalizer".

Definition reconcileFinalizers (r : Reconciler W) (a : FybrikApplication)
    : M W (option error * FybrikApplication) :=
  let hasFinalizer := ContainsFinalizer (meta_Finalizers (app_Meta a)) (finalizerName r) in
  if isDeleted (app_Meta a) || Nat.eqb (length (appspec_Data (app_Spec a))) 0 then
    if (hasFinalizer : bool) then
      ea ← deleteExternalResources r a;
      match ea.1 with
      | Some err => mret (Some err, ea.2)
      | None =>
          let a := setFinalizers (RemoveFinalizer (meta_Finalizers (app_Meta ea.2)) (finalizerName r)) ea.2 in
          u ← UpdateFinalizers (Applications (r_Client r)) a;
          mret (u.2, u.1)
      end
    else mret (None, a)
  else if negb hasFinalizer then
    let a := setFinalizers (AddFinalizer (meta_Finalizers (app_Meta a)) (finalizerName r)) a in
    u ← UpdateFinalizers (Applications (r_Client r)) a;
    mret (u.2, u.1)
  else mret (None, a).

(** ** Endpoints *)

(** The last step of each sequence of a read sub-flow exposes the reading API. *)
Fixpoint sequenceEndpoints (assetID : string) (steps : list (list DataFlowStep))
    (endpoints : gmap string Connection) : outcome (gmap string Connection) :=
  match steps with
  | [] => mret endpoints
  | sequentialSteps :: rest =>
      match list.last sequentialSteps with
      | None => Panic "index out of range [-1]"
      | Some lastStep =>
          match step_Parameters lastStep with
          | None => Panic "invalid memory address or nil pointer dereference"
          | Some ps =>
              sequenceEndpoints assetID rest
                (match params_API ps with
                 | Some api => <[assetID := details_Connection api]> endpoints
                 | None => endpoints
                 end)
          end
      end
  end.

Fixpoint subflowEndpoints (assetID : string) (subflows : list SubFlow) (endpoints : gmap string Connection)
    : outcome (gmap string Connection) :=
  match subflows with
  | [] => mret endpoints
  | sf :: rest =>
      endpoints' ← (if subflow_FlowType sf =? ReadFlow
                    then sequenceEndpoints assetID (subflow_Steps sf) endpoints else mret endpoints);
      subflowEndpoints assetID rest endpoints'
  end.

Fixpoint readEndpoints (flows : list Flow) (endpoints : gmap string Connection)
    : outcome (gmap string Connection) :=
  match flows with
  | [] => mret endpoints
  | flow :: rest =>
      endpoints' ← (if flow_FlowType flow =? ReadFlow
                    then subflowEndpoints (flow_AssetID flow) (flow_SubFlows flow) endpoints
                    else mret endpoints);
      readEndpoints rest endpoints'
  end.

Fixpoint populateEndpoints (endpoints : gmap string Connection) (ids : list string)
    (a : FybrikApplication) : outcome FybrikApplication :=
  match ids with
  | [] => mret a
  | id :: rest =>
      let state := (assetState a id) <| state_Endpoint := default zeroConnection (endpoints !! id) |> in
      states ← mset (assetStates a) id state;
      populateEndpoints endpoints rest (setAssetStates states a)
  end.

Definition setReadModulesEndpoints (a : FybrikApplication) (flows : list Flow) : outcome FybrikApplication :=
  endpoints ← readEndpoints flows ∅;
  populateEndpoints endpoints (assetIDs a) a.

(** ** Requirements of an asset *)

Definition CreateDataRequest (a : FybrikApplication) (dataCtx : DataContext)
    (assetMetadata : ResourceMetadata) : DataRequest :=
  let read := Z.ltb 0 (LabelSelector_Size (selector_WorkloadSelector (appspec_Selector (app_Spec a)))) in
  mkDataRequest (DataSetID dataCtx) (requirements_Interface (Requirements dataCtx))
    (<[CopyFlow := copy_Required (requirements_Copy (Requirements dataCtx))]>
      (<[ReadFlow := read]> (∅ : gmap string bool)))
    (Some assetMetadata).

Definition readOperation (cluster : Cluster) : RequestAction :=
  let region := cluster_Region (cluster_Metadata cluster) in
  mkRequestAction ActionType_READ region region.

(** [constructDataInfo]: the filled-in requirements, or the error. *)
Definition constructDataInfo (r : Reconciler W) (context : DataContext) (input : FybrikApplication)
    (workloadCluster : Cluster) : DataInfo + error :=
  let credentialPath := requestCredentials input in
  let request := mkGetAssetRequest (DataSetID context) OperationType_READ in
  match r_DataCatalog r request credentialPath with
  | inr err => inr err
  | inl response =>
      match ValidateAssetResponse response DataCatalogTaxonomy (DataSetID context) with
      | Some err => inr err
      | None =>
          let dataRequest := CreateDataRequest input context (asset_ResourceMetadata response) in
          let '(actions, err) :=
            if default false (request_Usage dataRequest !! ReadFlow)
            then LookupPolicyDecisions (DataSetID context) (r_PolicyManager r) input
                   (readOperation workloadCluster)
            else ([], None) in
          match err with
          | Some err => inr err
          | None =>
              let workload := mkWorkloadInfo (GetFybrikApplicationUUID input) "" workloadCluster
                                (appspec_AppInfo (app_Spec input)) in
              let evaluatorInput := mkEvaluatorInput workload dataRequest actions in
              match r_ConfigEvaluator r evaluatorInput with
              | (_, Some err) => inr err
              | (configDecisions, None) =>
                  inl (mkDataInfo response context configDecisions workloadCluster actions)
              end
          end
      end
  end.

Fixpoint clusterByName (clusters : list Cluster) (name : string) : option Cluster :=
  match clusters with
  | [] => None
  | c :: rest => if cluster_Name c =? name then Some c else clusterByName rest name
  end.

Definition GetWorkloadCluster (r : Reconciler W) (a : FybrikApplication) : M W (Cluster + error) :=
  let clusterName := selector_ClusterName (appspec_Selector (app_Spec a)) in
  if clusterName =? "" then
    if Z.eqb (LabelSelector_Size (selector_WorkloadSelector (appspec_Selector (app_Spec a)))) 0
    then mret (inl zeroCluster)
    else
      cs ← Local.GetClusters (r_Client r) GetSystemNamespace;
      mret (match cs with
            | inr err => inr err
            | inl [c] => inl c
            | inl _ => inl zeroCluster
            end)
  else
    cs ← r_GetClusters r;
    mret (match cs with
          | inr err => inr err
          | inl clusters =>
              match clusterByName clusters clusterName with
              | Some c => inl c
              | None => inr (newError ("Cluster " +:+ clusterName +:+ " is not available"))
              end
          end).

(** [AnalyzeError] on a non-nil error: denials are final, other errors are not. *)
Definition isDenial (msg : string) : bool :=
  existsb (fun m => msg =? m)
    [InvalidAssetID; ReadAccessDenied; CopyNotAllowed; WriteNotAllowed; InvalidAssetDataStore].

Definition AnalyzeError (a : FybrikApplication) (assetID : string) (err : error) : outcome FybrikApplication :=
  if isDenial (Error err) then setDenyCondition a assetID (Error err)
  else setErrorCondition a assetID (Error err).

(** ** Construction of the plotter *)

Definition GetAllModules (r : Reconciler W) : M W (gmap string FybrikModule + error) :=
  ms ← List_ (ModulesClient (r_Client r)) GetSystemNamespace;
  mret (match ms with
        | inr err => inr err
        | inl items => inl (foldl (fun m module => <[module_Name module := module]> m) ∅ items)
        end).

Definition getStorageAccountRegions (r : Reconciler W) : M W (list string + error) :=
  accounts ← ListStorageAccounts (r_Client r) GetSystemNamespace;
  mret (match accounts with
        | inr err => inr err
        | inl items => inl (items ≫= (fun account => (range (account_Endpoints (account_Spec account))).*1))
        end).

(** The loop over the requirements: failures are recorded in the status. *)
Fixpoint addFlows (p : PlotterGenerator W) (requirements : list DataInfo) (a : FybrikApplication)
    (provisioned : ProvisionedMap) (spec : PlotterSpec)
    : M W (FybrikApplication * ProvisionedMap * PlotterSpec) :=
  match requirements with
  | [] => mret (a, provisioned, spec)
  | item :: rest =>
      res ← AddFlowInfoForAsset p item a provisioned spec;
      let '(err, provisioned, spec) := res in
      a ← lift (match err with
                | Some err => AnalyzeError a (DataSetID (Context item)) err
                | None => mret a
                end);
      addFlows p rest a provisioned spec
  end.

Definition initialPlotterSpec (a : FybrikApplication) : PlotterSpec :=
  mkPlotterSpec (appspec_Selector (app_Spec a)) ∅ [] GetDefaultModulesNamespace ∅.

Definition plotterGenerator (r : Reconciler W) (a : FybrikApplication) (modules : gmap string FybrikModule)
    (clusters : list Cluster) (regions : list string) : PlotterGenerator W :=
  mkPlotterGenerator (r_Client r) (mkGenerator modules clusters (r_PolicyManager r) regions)
    (ObjectKey a) (r_Provision r).

Definition buildSolution (r : Reconciler W) (a : FybrikApplication) (requirements : list DataInfo)
    : M W ((ProvisionedMap * PlotterSpec + error) * FybrikApplication) :=
  modules ← GetAllModules r;
  match modules with
  | inr err => mret (inr err, a)
  | inl moduleMap =>
      regions ← getStorageAccountRegions r;
      match regions with
      | inr err => mret (inr err, a)
      | inl regions =>
          clusters ← r_GetClusters r;
          match clusters with
          | inr err => mret (inr err, a)
          | inl clusters =>
              res ← addFlows (plotterGenerator r a moduleMap clusters regions) requirements a ∅
                      (initialPlotterSpec a);
              let '(a, provisioned, spec) := res in
              mret (inl (provisioned, spec), a)
          end
      end
  end.

(** ** Provisioned storage *)

(** Buckets that are no longer used are deleted; a failure is ignored. *)
Fixpoint cleanStorage (r : Reconciler W) (provisioned : ProvisionedMap)
    (entries : list (string * DatasetDetails)) (storage : gomap DatasetDetails)
    : M W (gomap DatasetDetails) :=
  match entries with
  | [] => mret storage
  | (datasetID, details) :: rest =>
      match provisioned !! datasetID with
      | Some _ => cleanStorage r provisioned rest storage
      | None =>
          _ ← DeleteDataset (r_Provision r) (getBucketResourceRef (dataset_DatasetRef details));
          cleanStorage r provisioned rest (mdelete storage datasetID)
      end
  end.

Definition datasetDetails (info : NewAssetInfo) : DatasetDetails :=
  mkDatasetDetails (bucket_Name (info_Storage info)) (nn_Name (bucket_SecretRef (info_Storage info))).

Fixpoint recordStorage (entries : list (string * NewAssetInfo)) (storage : gomap DatasetDetails)
    : outcome (gomap DatasetDetails) :=
  match entries with
  | [] => mret storage
  | (datasetID, info) :: rest =>
      storage' ← mset storage datasetID (datasetDetails info);
      recordStorage rest storage'
  end.

Fixpoint storageReady (r : Reconciler W) (entries : list (string * DatasetDetails))
    : M W (bool * option error) :=
  match entries with
  | [] => mret (true, None)
  | (id, details) :: rest =>
      res ← GetDatasetStatus (r_Provision r) (getBucketResourceRef (dataset_DatasetRef details));
      match res with
      | inr _ => mret (false, None)
      | inl res =>
          if negb (Provisioned res) then
            if ErrorMsg res <>? "" then mret (false, Some (newError (ErrorMsg res)))
            else mret (false, None)
          else storageReady r rest
      end
  end.

Definition updateProvisionedStorageStatus (r : Reconciler W) (a : FybrikApplication)
    (provisioned : ProvisionedMap) : M W (bool * option error * FybrikApplication) :=
  let storage := appstatus_ProvisionedStorage (app_Status a) in
  storage ← cleanStorage r provisioned (range (gm storage)) storage;
  storage ← lift (recordStorage (range provisioned) storage);
  ready ← storageReady r (range (gm storage));
  mret (ready.1, ready.2, setProvisioned storage a).

(** ** reconcile *)

(** The loop over the datasets of the application. *)
Fixpoint collectRequirements (r : Reconciler W) (workloadCluster : Cluster) (data : list DataContext)
    (a : FybrikApplication) : outcome (list DataInfo * FybrikApplication) :=
  match data with
  | [] => mret ([], a)
  | dataset :: rest =>
      match constructDataInfo r dataset a workloadCluster with
      | inr err =>
          a' ← AnalyzeError a (DataSetID dataset) err;
          collectRequirements r workloadCluster rest a'
      | inl req =>
          res ← collectRequirements r workloadCluster rest a;
          mret (req :: res.1, res.2)
      end
  end.

Definition ownerRef (a : FybrikApplication) : ResourceReference :=
  mkResourceReference (app_Name a) (app_Namespace a) "" (meta_Generation (app_Meta a)).

Definition setErrorMessage (msg : string) (a : FybrikApplication) : FybrikApplication :=
  a <| app_Status := (app_Status a) <| appstatus_ErrorMessage := msg |> |>.

(** The plotter is created or updated and its reference recorded. *)
Definition generateResource (r : Reconciler W) (uuid : string) (a : FybrikApplication)
    (plotterSpec : PlotterSpec) : M W (Result * option error * FybrikApplication) :=
  a ← lift (setReadModulesEndpoints a (plotter_Flows plotterSpec));
  let resourceRef := CreateResourceReference (r_ResourceInterface r) (ownerRef a) in
  err ← CreateOrUpdateResource (r_ResourceInterface r) (ownerRef a) resourceRef plotterSpec
          (meta_Labels (app_Meta a)) uuid;
  match err with
  | Some err =>
      if Error err =? InvalidClusterConfiguration then mret (noResult, None, setErrorMessage (Error err) a)
      else mret (noResult, Some err, a)
  | None => mret (noResult, None, setGenerated (Some resourceRef) a)
  end.

Definition ensureStorageMap (a : FybrikApplication) : FybrikApplication :=
  match appstatus_ProvisionedStorage (app_Status a) with
  | None => setProvisioned (Some ∅) a
  | Some _ => a
  end.

Definition reconcile (r : Reconciler W) (uuid : string) (a : FybrikApplication)
    : M W (Result * option error * FybrikApplication) :=
  a ← lift (initStatus a);
  let a := ensureStorageMap a in
  if Nat.eqb (length (appspec_Data (app_Spec a))) 0 then mret (noResult, None, a)
  else
    wc ← GetWorkloadCluster r a;
    match wc with
    | inr err => mret (noResult, Some err, a)
    | inl workloadCluster =>
        reqs ← lift (collectRequirements r workloadCluster (appspec_Data (app_Spec a)) a);
        let '(requirements, a) := reqs in
        if Nat.eqb (length requirements) 0 then mret (noResult, None, a)
        else
          sol ← buildSolution r a requirements;
          let a := sol.2 in
          match sol.1 with
          | inr err => mret (noResult, Some err, a)
          | inl (provisioned, plotterSpec) =>
              msgs ← lift (getErrorMessages a);
              if msgs <>? "" then mret (noResult, None, a)
              else
                upd ← updateProvisionedStorageStatus r a provisioned;
                let '(storageReady, allocationErr, a) := upd in
                if negb storageReady then mret (mkResult 2, allocationErr, a)
                else generateResource r uuid a plotterSpec
          end
    end.

(** ** Reconcile *)

Definition setStatus (f : FybrikApplicationStatus -> FybrikApplicationStatus) (a : FybrikApplication)
    : FybrikApplication := a <| app_Status := f (app_Status a) |>.

(** The validation of an application that no webhook has validated: [true] when
    the reconcile goes on. *)
Definition validateApplication (r : Reconciler W) (a : FybrikApplication)
    : M W (option (Result * option error) * FybrikApplication) :=
  let appVersion := meta_Generation (app_Meta a) in
  let st := app_Status a in
  if (Getenv "ENABLE_WEBHOOKS" <>? "true") &&
     ((appstatus_ValidApplication st =? "") || negb (Z.eqb (appstatus_ValidatedGeneration st) appVersion))
  then
    let err := ValidateFybrikApplication a ApplicationTaxonomy in
    let a := setStatus (fun s => s <| appstatus_ValidatedGeneration := appVersion |>) a in
    match err with
    | Some err =>
        let a := setStatus (fun s => s <| appstatus_ErrorMessage := Error err |>
                                       <| appstatus_ValidApplication := ConditionFalse |>) a in
        u ← UpdateStatus (Applications (r_Client r)) a;
        mret (Some (noResult, u.2), u.1)
    | None => mret (None, setStatus (fun s => s <| appstatus_ValidApplication := ConditionTrue |>) a)
    end
  else mret (None, a).

(** The status is written back and another attempt scheduled unless the
    application is ready. *)
Definition finishReconcile (r : Reconciler W) (a : FybrikApplication) : M W (Result * option error) :=
  ready ← lift (isReady a);
  let a := setStatus (fun s => s <| appstatus_Ready := ready |>) a in
  u ← (if negb (isDeleted (app_Meta a)) then UpdateStatus (Applications (r_Client r)) a
       else mret (a, None));
  match u.2 with
  | Some err => mret (noResult, Some err)
  | None =>
      _ ← lift (getErrorMessages u.1);
      ready ← lift (isReady u.1);
      if negb ready then mret (mkResult 10, None) else mret (noResult, None)
  end.

Definition generationComplete (r : Reconciler W) (a : FybrikApplication) : M W bool :=
  let generated := appstatus_Generated (app_Status a) in
  exists_ ← ResourceExists (r_ResourceInterface r) generated;
  match generated with
  | Some ref => mret ((exists_ : bool) && Z.eqb (ref_AppVersion ref) (meta_Generation (app_Meta a)))
  | None => if (exists_ : bool) then panic "invalid memory address or nil pointer dereference" else mret false
  end.

Definition Reconcile (r : Reconciler W) (req : NamespacedName) : M W (Result * option error) :=
  got ← Get (Applications (r_Client r)) req;
  match got with
  | inr err => mret (noResult, IgnoreNotFound err)
  | inl application =>
      let uuid := GetFybrikApplicationUUID application in
      fin ← reconcileFinalizers r application;
      match fin.1 with
      | Some err => mret (noResult, Some err)
      | None =>
          let a := fin.2 in
          if isDeleted (app_Meta a) then mret (noResult, None)
          else
            let appVersion := meta_Generation (app_Meta a) in
            let observedGeneration := appstatus_ObservedGeneration (app_Status a) in
            v ← validateApplication r a;
            match v.1 with
            | Some done => mret done
            | None =>
                let observed := a in
                let a := v.2 in
                if appstatus_ValidApplication (app_Status a) =? ConditionFalse then mret (noResult, None)
                else
                  complete ← generationComplete r observed;
                  if negb complete || negb (Z.eqb observedGeneration appVersion) then
                    res ← reconcile r uuid a;
                    let '(result, err, a) := res in
                    match err with
                    | Some err =>
                        _ ← UpdateStatus (Applications (r_Client r)) a;
                        mret (result, Some err)
                    | None =>
                        finishReconcile r (setStatus (fun s => s <| appstatus_ObservedGeneration := appVersion |>) a)
                    end
                  else
                    st ← GetResourceStatus (r_ResourceInterface r) (appstatus_Generated (app_Status a));
                    match st with
                    | inr err => mret (noResult, Some err)
                    | inl resourceStatus =>
                        a ← checkReadiness r a resourceStatus;
                        finishReconcile r a
                    end
            end
      end
  end.

(** ** The requests a change of a plotter gives rise to *)
Definition mapFn (m : ObjectMeta) : list NamespacedName :=
  match meta_Labels m with
  | None => []
  | Some labels =>
      if isDeleted m then []
      else match labels !! ApplicationNamespaceLabel, labels !! ApplicationNameLabel with
           | Some namespace, Some name => [mkNamespacedName name namespace]
           | _, _ => []
           end
  end.
End Controller.
