(* ===== verification/Connectors.v ===== *)
(** * The connectors shipped with Fybrik

    [connectors/katalog]: a catalog whose assets are custom resources;
    [connectors/opa]: a policy manager that asks an OPA server.  Both are REST services:
    a handler gets the decoded request and writes JSON responses.  Decoding by gin, the
    HTTP client and [json.Unmarshal] of an OPA answer are parameters. *)
From stdpp Require Import base gmap strings list numbers.
From Stdlib Require Import Ascii.
From S2P Require Import Prelude GoStrings Types External Utils Policy Proto CatalogClient AppController.

(** A response: [c.JSON(status, body)]. *)
Record HTTPResponse := mkHTTPResponse { StatusCode : Z; Body : value }.
Definition StatusOK : Z := 200.
Definition StatusBadRequest : Z := 400.
Definition StatusInternalServerError : Z := 500.

(** [gin.H{"error": message}] *)
Definition errorBody (message : string) : value := VMap {[ "error" := VString message ]}.

(** ** Katalog *)
Module Katalog.

Record SecretRef := mkSecretRef { secretRef_Name : string }.
Record AssetSpec := mkAssetSpec {
  spec_Details : ResourceDetails;
  spec_Metadata : ResourceMetadata;
  spec_SecretRef : SecretRef
}.
Record Asset := mkAsset { asset_Meta : ObjectMeta; asset_Spec : AssetSpec }.

Section Handler.
Context {W : Type} (Get : NamespacedName -> M W (Asset + error)).

(** The answer for an asset of a namespace. *)
Definition assetResponse (namespace : string) (asset : Asset) : GetAssetResponse :=
  mkGetAssetResponse (spec_Metadata (asset_Spec asset)) (spec_Details (asset_Spec asset))
    (PathForReadingKubeSecret namespace (secretRef_Name (spec_SecretRef (asset_Spec asset)))).

(** [Handler.getAssetInfo]: the responses it writes.  After the response for an invalid
    identifier the handler goes on, and indexes the missing part. *)
Definition getAssetInfo (request : GetAssetRequest + error) : M W (list HTTPResponse) :=
  match request with
  | inr err => mret [mkHTTPResponse StatusBadRequest (errorBody (Error err))]
  | inl request =>
      let splittedID := SplitN2 (assetReq_AssetID request) "/" in
      let written :=
        if Nat.eqb (length splittedID) 2 then []
        else [mkHTTPResponse StatusBadRequest
                (errorBody ("request has an invalid asset ID " +:+ assetReq_AssetID request +:+
                            " (must be in namespace/name format)"))] in
      match splittedID !! 0, splittedID !! 1 with
      | Some namespace, Some name =>
          got ← Get (mkNamespacedName name namespace);
          mret (written ++ match got with
                           | inr err => [mkHTTPResponse StatusInternalServerError (errorBody (Error err))]
                           | inl asset => [mkHTTPResponse StatusOK (GetAssetResponse_JSON (assetResponse namespace asset))]
                           end)
      | _, _ => panic "index out of range"
      end
  end.
End Handler.
End Katalog.

(** ** OPA *)
Module OPA.

(** [strings.TrimLeft] and [strings.TrimRight] with a set of one byte. *)
Fixpoint TrimLeft (s : string) (c : ascii) : string :=
  match s with
  | EmptyString => EmptyString
  | String d s' => if Ascii.eqb d c then TrimLeft s' c else s
  end.
Fixpoint TrimRight (s : string) (c : ascii) : string :=
  match s with
  | EmptyString => EmptyString
  | String d s' =>
      match TrimRight s' c with
      | EmptyString => if Ascii.eqb d c then EmptyString else String d EmptyString
      | t => String d t
      end
  end.

Definition policyEndpoint : string := "/v1/data/dataapi/authz/verdict".

Definition RequestAction_JSON (a : RequestAction) : value :=
  VMap (omitempty "processingLocation" (reqAction_ProcessingLocation a)
    (omitempty "destination" (reqAction_Destination a)
      {[ "actionType" := VString (reqAction_ActionType a) ]})).
Definition Resource_JSON (r : Resource) : value :=
  let id : gmap string value := {[ "id" := VString (res_ID r) ]} in
  VMap (match res_Metadata r with
        | Some md => <["metadata" := ResourceMetadata_JSON md]> id
        | None => id
        end).
Definition Properties_JSON (p : Properties) : value :=
  match Items p with Some items => VMap items | None => VNull end.
Definition PolicyRequest_JSON (r : GetPolicyDecisionsRequest) : value :=
  VMap {[ "context" := Properties_JSON (pdReq_Context r); "action" := RequestAction_JSON (pdReq_Action r);
          "resource" := Resource_JSON (pdReq_Resource r) ]}.

(** An answer of the OPA server: its status code and its body, unless reading it fails. *)
Record OpaAnswer := mkOpaAnswer { opa_StatusCode : Z; opa_Body : string + error }.

Record ConnectorController (W : Type) := mkConnectorController {
  OpaServerURL : string;
  OpaPost : string -> value -> M W (OpaAnswer + error);
  CatalogClient_GetAssetInfo : GetAssetRequest -> string -> M W (GetAssetResponse + error)
}.
Arguments mkConnectorController {W}.
Arguments OpaServerURL {W}.
Arguments OpaPost {W}.
Arguments CatalogClient_GetAssetInfo {W}.

(** The request with the metadata of the asset, and the body sent to OPA. *)
Definition enrich (request : GetPolicyDecisionsRequest) (assetInfo : GetAssetResponse) : GetPolicyDecisionsRequest :=
  request <| pdReq_Resource := (pdReq_Resource request)
               <| res_Metadata := Some (asset_ResourceMetadata assetInfo) |> |>.
Definition opaInput (request : GetPolicyDecisionsRequest) : value :=
  VMap {[ "input" := PolicyRequest_JSON request ]}.

Section Handler.
Context {W : Type} (r : ConnectorController W).
(** [json.Unmarshal] of the text of an answer into a response *)
Context (decode : string -> GetPolicyDecisionsResponse + error).

Definition endpoint : string := TrimRight (OpaServerURL r) "/" +:+ "/" +:+ TrimLeft policyEndpoint "/".

Definition failed (code : Z) (message : string) : list HTTPResponse := [mkHTTPResponse code (errorBody message)].

(** The part of the handler after OPA has answered. *)
Definition relay (answer : OpaAnswer + error) : list HTTPResponse :=
  match answer with
  | inr err => failed StatusInternalServerError (Error err)
  | inl answer =>
      match opa_Body answer with
      | inr err => failed StatusInternalServerError (Error err)
      | inl body =>
          if negb (Z.eqb (opa_StatusCode answer) StatusOK) then failed (opa_StatusCode answer) body
          else match decode body with
               | inr err => failed StatusInternalServerError (Error err)
               | inl response => [mkHTTPResponse StatusOK (PolicyResponse_JSON response)]
               end
      end
  end.

(** [ConnectorController.GetPoliciesDecisions], given the decoded request and the
    header with the credentials. *)
Definition GetPoliciesDecisions (request : GetPolicyDecisionsRequest + error) (credentials : string)
    : M W (list HTTPResponse) :=
  match request with
  | inr err => mret (failed StatusBadRequest (Error err))
  | inl request =>
      let requestToCatalog := mkGetAssetRequest (res_ID (pdReq_Resource request)) OperationType_READ in
      assetInfo ← CatalogClient_GetAssetInfo r requestToCatalog credentials;
      match assetInfo with
      | inr err => mret (failed StatusInternalServerError (Error err))
      | inl assetInfo =>
          answer ← OpaPost r endpoint (opaInput (enrich request assetInfo));
          mret (relay answer)
      end
  end.
End Handler.

(** [RunCmd]: the configuration of the connector from the environment: the URL of the
    OPA server, the address and the name of the catalog and the timeout in seconds. *)
Section Configuration.
Context `{Runtime}.

Definition runConfig : (string * string * string * Z) + error :=
  match MustGetEnv "OPA_SERVER_URL" with
  | (_, Some err) => inr (wrapError "failed to retrieve URL for communicating with OPA server" err)
  | (opaServerURL, None) =>
      if negb (HasPrefix opaServerURL "https://") && negb (HasPrefix opaServerURL "http://")
      then inr (newError "server URL for OPA server must have http or https schema")
      else
        match MustGetEnv "CATALOG_CONNECTOR_URL" with
        | (_, Some err) => inr (wrapError "failed to retrieve URL for communicating with data catalog" err)
        | (catalogConnectorAddress, None) =>
            match MustGetEnv "CATALOG_PROVIDER_NAME" with
            | (_, Some err) => inr (wrapError "failed to get catalog provider name from the environment" err)
            | (catalogProviderName, None) =>
                inl (opaServerURL, catalogConnectorAddress, catalogProviderName,
                     GetEnvAsInt "CONNECTION_TIMEOUT" 10)
            end
        end
  end.
End Configuration.
End OPA.

(** ** What the connectors promise *)

Lemma SplitN2_none s sep : negb (existsb (Ascii.eqb sep) (String.list_ascii_of_string s)) = true -> SplitN2 s sep = [s].
Proof.
  induction s as [|c s IH]; [done|]. simpl. rewrite Ascii.eqb_sym.
  destruct (Ascii.eqb c sep); [done|]. simpl. intros Hs. by rewrite (IH Hs).
Qed.

Lemma SplitN2_cut s t sep : negb (existsb (Ascii.eqb sep) (String.list_ascii_of_string s)) = true ->
  SplitN2 (s +:+ String sep t) sep = [s; t].
Proof.
  induction s as [|c s IH].
  - intros _. simpl. by rewrite Ascii.eqb_refl.
  - rewrite str_app_cons. simpl. rewrite Ascii.eqb_sym. destruct (Ascii.eqb c sep); [done|].
    simpl. intros Hs. by rewrite (IH Hs).
Qed.

(** Whether an identifier has a part before a slash. *)
Definition namespaced (id : string) : bool := existsb (Ascii.eqb "/") (String.list_ascii_of_string id).

(** The Katalog connector answers a request for [namespace/name] with the metadata
    and the details of the asset of that name in that namespace and the Vault path of
    its secret in the same namespace; when the asset cannot be read it answers with an
    error; it writes one response. *)
Theorem katalog_serves_asset {W} Get (w : W) namespace name op got w' :
  namespaced namespace = false ->
  Get (mkNamespacedName name namespace) w = Done (got, w') ->
  Katalog.getAssetInfo Get (inl (mkGetAssetRequest (namespace +:+ "/" +:+ name) op)) w =
    Done ([match got with
           | inl asset => mkHTTPResponse StatusOK (GetAssetResponse_JSON (mkGetAssetResponse
               (Katalog.spec_Metadata (Katalog.asset_Spec asset)) (Katalog.spec_Details (Katalog.asset_Spec asset))
               ("/v1/kubernetes-secrets/" +:+ Katalog.secretRef_Name (Katalog.spec_SecretRef (Katalog.asset_Spec asset))
                  +:+ "?namespace=" +:+ namespace)))
           | inr err => mkHTTPResponse StatusInternalServerError (errorBody (Error err))
           end], w').
Proof.
  intros Hn E.
  assert (SplitN2 (namespace +:+ "/" +:+ name) "/" = [namespace; name]) as Es.
  { apply (SplitN2_cut namespace name). by apply negb_true_iff. }
  unfold Katalog.getAssetInfo. cbn [assetReq_AssetID]. rewrite Es. simpl. rewrite (M_bind_run _ _ _ _ _ E).
  by destruct got.
Qed.

(** An identifier without a namespace stops the handler: it does not return after
    it has written the response for the invalid request. *)
Theorem katalog_invalid_id_panics {W} Get (w : W) request :
  namespaced (assetReq_AssetID request) = false ->
  Katalog.getAssetInfo Get (inl request) w = Panic "index out of range".
Proof.
  intros Hn. unfold Katalog.getAssetInfo. rewrite SplitN2_none by (by apply negb_true_iff). done.
Qed.

(** The OPA connector relays the verdict of the OPA server on the request with the
    metadata of the asset from the catalog: it asks the catalog for the asset of the
    request with the credentials of the caller, posts the request with the metadata it
    got to the server, and its only response is the answer of the server, or an error
    when the server fails, answers with a status other than 200 or with a document that
    is not a response. *)
Theorem opa_relays_verdict {W} (r : OPA.ConnectorController W) decode request creds w info w1 answer w2 :
  OPA.CatalogClient_GetAssetInfo r (mkGetAssetRequest (res_ID (pdReq_Resource request)) OperationType_READ) creds w =
    Done (inl info, w1) ->
  OPA.OpaPost r (OPA.endpoint r) (VMap {[ "input" := OPA.PolicyRequest_JSON
    (mkGetPolicyDecisionsRequest (pdReq_Context request) (pdReq_Action request)
       (mkResource (res_ID (pdReq_Resource request)) (Some (asset_ResourceMetadata info)))) ]}) w1 = Done (answer, w2) ->
  exists resp, OPA.GetPoliciesDecisions r decode (inl request) creds w = Done ([resp], w2) /\
    (StatusCode resp = StatusOK <->
       exists body verdict, answer = inl (OPA.mkOpaAnswer StatusOK (inl body)) /\ decode body = inl verdict /\
         Body resp = PolicyResponse_JSON verdict).
Proof.
  intros Ec Ep. unfold OPA.GetPoliciesDecisions. rewrite (M_bind_run _ _ _ _ _ Ec).
  destruct request as [ctx act [id md]]. simpl in *. rewrite (M_bind_run _ _ _ _ _ Ep).
  unfold OPA.relay. destruct answer as [[code [body|err]]|err]; simpl;
    [|eexists; split; [done|]; split; [done|]; intros (? & ? & [= ?] & _)..].
  destruct (Z.eqb_spec code StatusOK) as [->|Hc]; simpl.
  - destruct (decode body) as [verdict|err] eqn:Ed; eexists; (split; [done|]); simpl; split.
    + intros _. by exists body, verdict.
    + done.
    + done.
    + intros (b & v & [= <-] & Ev & _). congruence.
  - eexists. split; [done|]. simpl. split; [done|]. intros (b & v & [= -> <-] & _). done.
Qed.

(** ** Instances *)
Module ConnectorExamples.

Definition asset : Katalog.Asset := Katalog.mkAsset (mkObjectMeta "paysim" "demo" "" 0 None [] None None "")
  (Katalog.mkAssetSpec (mkResourceDetails (mkConnection "s3" (mkProperties None)) "csv")
     (mkResourceMetadata "paysim" "alice" "theshire" None []) (Katalog.mkSecretRef "creds")).
Definition Get (key : NamespacedName) : M unit (Katalog.Asset + error) :=
  mret (if (nn_Name key =? "paysim") && (nn_Namespace key =? "demo") then inl asset else inr (newError "not found")).

Lemma katalog_serves_asset_witness :
  Katalog.getAssetInfo Get (inl (mkGetAssetRequest "demo/paysim" "read")) tt =
    Done ([mkHTTPResponse StatusOK (GetAssetResponse_JSON (mkGetAssetResponse
      (mkResourceMetadata "paysim" "alice" "theshire" None [])
      (mkResourceDetails (mkConnection "s3" (mkProperties None)) "csv")
      "/v1/kubernetes-secrets/creds?namespace=demo"))], tt).
Proof. exact (katalog_serves_asset Get tt "demo" "paysim" "read" (inl asset) tt eq_refl eq_refl). Defined.

Lemma katalog_invalid_id_panics_witness :
  Katalog.getAssetInfo Get (inl (mkGetAssetRequest "paysim" "read")) tt = Panic "index out of range".
Proof. exact (katalog_invalid_id_panics Get tt (mkGetAssetRequest "paysim" "read") eq_refl). Defined.

Definition verdict : GetPolicyDecisionsResponse :=
  mkGetPolicyDecisionsResponse "1" [mkResultItem "p" (mkAction "Deny" (mkProperties None))].
Definition opa : OPA.ConnectorController unit := OPA.mkConnectorController "http://opa:8181/"
  (fun _ _ => mret (inl (OPA.mkOpaAnswer 200 (inl "{}")))) (fun _ _ => mret (inl (Katalog.assetResponse "demo" asset))).
Definition request : GetPolicyDecisionsRequest :=
  mkGetPolicyDecisionsRequest (mkProperties None) (mkRequestAction "read" "" "") (mkResource "demo/paysim" None).

Lemma opa_relays_verdict_witness :
  OPA.endpoint opa = "http://opa:8181/v1/data/dataapi/authz/verdict" /\
  exists resp, OPA.GetPoliciesDecisions opa (fun _ => inl verdict) (inl request) "" tt = Done ([resp], tt) /\
    (StatusCode resp = StatusOK <->
       exists body v, inl (OPA.mkOpaAnswer 200 (inl "{}")) = inl (B := error) (OPA.mkOpaAnswer StatusOK (inl body)) /\
         (fun _ : string => inl (B := error) verdict) body = inl v /\ Body resp = PolicyResponse_JSON v).
Proof.
  split; [vm_compute; reflexivity|].
  exact (opa_relays_verdict opa (fun _ => inl verdict) request "" tt (Katalog.assetResponse "demo" asset) tt
    (inl (OPA.mkOpaAnswer 200 (inl "{}"))) tt eq_refl eq_refl).
Defined.
End ConnectorExamples.
