(* ===== verification/OpenAPIClient.v ===== *)
(** * The REST clients of the connectors

    [pkg/connectors/policymanager/openapiclient] and its twin for the catalog
    [pkg/connectors/datacatalog/openapiclient]: the choice of a server
    ([configuration.go]), the construction of a request and the decoding of an answer
    ([client.go]), the one operation of each service ([api_default.go]), and the clients
    of [policymanager_openapi.go] and [datacatalog_openapi.go] on top of them.

    Both clients are called with [context.Background()], which carries no values, and
    send a struct without form parameters or files: the authentication of
    [prepareRequest] and its multipart and form branches are in OpenAPIRuntime.v, which is
    shown to agree with this file on such calls.  The URL parser,
    the XML encoder and [json.Unmarshal] into a struct are parameters. *)
From stdpp Require Import base gmap strings list numbers.
From Stdlib Require Import Ascii.
From S2P Require Import Prelude GoStrings GoInt GoJSON Types External Utils Policy Proto PolicyClient CatalogClient AppController Connectors.

(** ** net/http *)

(** [textproto.CanonicalMIMEHeaderKey]: the first letter and the letters after a hyphen
    are upper case, the others lower case; a key with an invalid byte is left as it is. *)
Definition isUpper (c : ascii) : bool := let n := nat_of_ascii c in Nat.leb 65 n && Nat.leb n 90.
Definition isLower (c : ascii) : bool := let n := nat_of_ascii c in Nat.leb 97 n && Nat.leb n 122.
Definition isDigit (c : ascii) : bool := let n := nat_of_ascii c in Nat.leb 48 n && Nat.leb n 57.
Definition upper (c : ascii) : ascii := if isLower c then ascii_of_nat (nat_of_ascii c - 32) else c.
Definition validHeaderFieldByte (c : ascii) : bool :=
  isUpper c || isLower c || isDigit c || existsb (Ascii.eqb c) (String.list_ascii_of_string "!#$%&'*+-.^_`|~").
Fixpoint canonical (up : bool) (s : string) : string :=
  match s with
  | EmptyString => EmptyString
  | String c s' => String (if up then upper c else lower c) (canonical (Ascii.eqb c "-") s')
  end.
Definition CanonicalHeaderKey (s : string) : string :=
  if forallb validHeaderFieldByte (String.list_ascii_of_string s) then canonical true s else s.

Notation Header := (gmap string (list string)).
Definition Header_Set (k v : string) (h : Header) : Header := <[CanonicalHeaderKey k := [v]]> h.
Definition Header_Add (k v : string) (h : Header) : Header :=
  <[CanonicalHeaderKey k := default [] (h !! CanonicalHeaderKey k) ++ [v]]> h.
Definition Header_Get (k : string) (h : Header) : string :=
  match h !! CanonicalHeaderKey k with Some (v :: _) => v | _ => "" end.

Record Request := mkRequest {
  rq_Method : string;
  rq_URL : string;
  rq_Header : Header;
  rq_Body : option string
}.

(** A response: the bytes that can be read from its body and the error that ends them,
    and the error of closing it. *)
Record Response := mkResponse {
  rs_StatusCode : Z;
  rs_Status : string;
  rs_Header : Header;
  rs_Bytes : string;
  rs_ReadError : option error;
  rs_Close : option error
}.
(** [ioutil.ReadAll(resp.Body)] *)
Definition rs_Body (r : Response) : string + error :=
  match rs_ReadError r with Some err => inr err | None => inl (rs_Bytes r) end.

(** [net/url] *)
Class NetURL := {
  URL : Type;
  url_Parse : string -> URL + error;
  url_SetHost : string -> URL -> URL;
  url_SetScheme : string -> URL -> URL;
  url_Query : URL -> gmap string (list string);
  url_SetRawQuery : string -> URL -> URL;
  url_Encode : gmap string (list string) -> string;
  url_String : URL -> string;
  (** the error of [http.NewRequest] for a method and a URL *)
  http_NewRequest : string -> string -> option error
}.

(** [strings.Replace(s, old, new, -1)] for an [old] that is not empty; [skip] bytes of
    an occurrence are still to be dropped. *)
Fixpoint replaceFrom (skip : nat) (s old new : string) : string :=
  match s with
  | EmptyString => EmptyString
  | String c s' =>
      match skip with
      | S skip => replaceFrom skip s' old new
      | 0 => if HasPrefix s old then new +:+ replaceFrom (pred (String.length old)) s' old new
             else String c (replaceFrom 0 s' old new)
      end
  end.
Definition Replace (s old new : string) : string := replaceFrom 0 s old new.

Example Replace_braces : Replace "http://{host}:{port}/{host}" "{host}" "opa" = "http://opa:{port}/opa".
Proof. vm_compute. reflexivity. Qed.
Example CanonicalHeaderKey_cred : CanonicalHeaderKey "x-request-CRED" = "X-Request-Cred".
Proof. vm_compute. reflexivity. Qed.

(** ** configuration.go *)

(** The values a context may carry for the choice of a server. *)
Inductive ctxValue :=
| CtxInt (i : Z)
| CtxIndices (m : gmap string Z)
| CtxVariables (m : gmap string string)
| CtxOperationVariables (m : gmap string (gmap string string))
| CtxString (s : string)
| CtxBasicAuth (userName password : string)
(** an [oauth2.TokenSource] of the named type: the type and the text of its token *)
| CtxTokenSource (type : string) (token : string * string + error)
| CtxOther (type : string).
Definition typeName (v : ctxValue) : string :=
  match v with
  | CtxInt _ => "int"
  | CtxIndices _ => "map[string]int"
  | CtxVariables _ => "map[string]string"
  | CtxOperationVariables _ => "map[string]map[string]string"
  | CtxString _ => "string"
  | CtxBasicAuth _ _ => "openapiclient.BasicAuth"
  | CtxTokenSource type _ => type
  | CtxOther type => type
  end.
(** [context.Context], which may be nil, and its values by key *)
Definition Context_ : Type := option (gmap string ctxValue).
Definition Background : Context_ := Some ∅.
Definition ContextServerIndex : string := "serverIndex".
Definition ContextOperationServerIndices : string := "serverOperationIndices".
Definition ContextServerVariables : string := "serverVariables".
Definition ContextOperationServerVariables : string := "serverOperationVariables".

Record ServerVariable := mkServerVariable { sv_DefaultValue : string; sv_EnumValues : list string }.
Record ServerConfiguration := mkServerConfiguration { server_URL : string; server_Variables : gmap string ServerVariable }.

Record Configuration := mkConfiguration {
  cfg_Host : string;
  cfg_Scheme : string;
  cfg_DefaultHeader : gmap string string;
  cfg_UserAgent : string;
  cfg_Debug : bool;
  cfg_Servers : list ServerConfiguration;
  cfg_OperationServers : gmap string (list ServerConfiguration)
}.

Section Configuration.
Context `{MapRange}.

(** The loop over the variables of a server. *)
Fixpoint substitute (todo : list (string * ServerVariable)) (variables : gmap string string) (url : string)
    : string + error :=
  match todo with
  | [] => inl url
  | (name, variable) :: rest =>
      match variables !! name with
      | Some value =>
          if negb (match sv_EnumValues variable with [] => true | _ => HasString value (sv_EnumValues variable) end)
          then inr (newError ("The variable " +:+ name +:+ " in the server URL has invalid value " +:+ value
                              +:+ ". Must be [" +:+ Join (sv_EnumValues variable) " " +:+ "]"))
          else substitute rest variables (Replace url ("{" +:+ name +:+ "}") value)
      | None => substitute rest variables (Replace url ("{" +:+ name +:+ "}") (sv_DefaultValue variable))
      end
  end.

(** [ServerConfigurations.URL] *)
Definition ServerConfigurations_URL (sc : list ServerConfiguration) (index : Z) (variables : gmap string string)
    : string + error :=
  match (if Z.ltb index 0 then None else sc !! Z.to_nat index) with
  | None => inr (newError ("Index " +:+ Itoa index +:+ " out of range " +:+ Itoa (Z.of_nat (length sc) - 1)))
  | Some server => substitute (range (server_Variables server)) variables (server_URL server)
  end.

Definition getServerIndex (ctx : gmap string ctxValue) : Z + error :=
  match ctx !! ContextServerIndex with
  | Some (CtxInt index) => inl index
  | Some si => inr (newError ("Invalid type " +:+ typeName si +:+ " should be int"))
  | None => inl 0%Z
  end.

Definition getServerOperationIndex (ctx : gmap string ctxValue) (endpoint : string) : Z + error :=
  match ctx !! ContextOperationServerIndices with
  | Some (CtxIndices operationIndices) =>
      match operationIndices !! endpoint with Some index => inl index | None => getServerIndex ctx end
  | Some osi => inr (newError ("Invalid type " +:+ typeName osi +:+ " should be map[string]int"))
  | None => getServerIndex ctx
  end.

Definition getServerVariables (ctx : gmap string ctxValue) : gmap string string + error :=
  match ctx !! ContextServerVariables with
  | Some (CtxVariables variables) => inl variables
  | Some sv => inr (newError ("ctx value of ContextServerVariables has invalid type " +:+ typeName sv
                              +:+ " should be map[string]string"))
  | None => inl ∅
  end.

Definition getServerOperationVariables (ctx : gmap string ctxValue) (endpoint : string)
    : gmap string string + error :=
  match ctx !! ContextOperationServerVariables with
  | Some (CtxOperationVariables operationVariables) =>
      match operationVariables !! endpoint with Some variables => inl variables | None => getServerVariables ctx end
  | Some osv => inr (newError ("ctx value of ContextOperationServerVariables has invalid type " +:+ typeName osv
                               +:+ " should be map[string]map[string]string"))
  | None => getServerVariables ctx
  end.

(** [Configuration.ServerURLWithContext] *)
Definition ServerURLWithContext (c : Configuration) (ctx : Context_) (endpoint : string) : string + error :=
  let sc := default (cfg_Servers c) (cfg_OperationServers c !! endpoint) in
  match ctx with
  | None => ServerConfigurations_URL sc 0 ∅
  | Some ctx =>
      match getServerOperationIndex ctx endpoint with
      | inr err => inr err
      | inl index =>
          match getServerOperationVariables ctx endpoint with
          | inr err => inr err
          | inl variables => ServerConfigurations_URL sc index variables
          end
      end
  end.
End Configuration.

(** ** client.go *)

(** [contains]: the case is ignored. *)
Definition contains (haystack : list string) (needle : string) : bool :=
  existsb (fun a => ToLower a =? ToLower needle) haystack.
Definition selectHeaderContentType (contentTypes : list string) : string :=
  match contentTypes with
  | [] => ""
  | first :: _ => if contains contentTypes "application/json" then "application/json" else first
  end.
Definition selectHeaderAccept (accepts : list string) : string :=
  match accepts with
  | [] => ""
  | _ => if contains accepts "application/json" then "application/json" else Join accepts ","
  end.

(** The regular expressions for content types: an occurrence anywhere, in any case. *)
Fixpoint occurs (p : string -> bool) (s : string) : bool :=
  p s || match s with EmptyString => false | String _ s' => occurs p s' end.
Fixpoint vendorJson (s : string) : bool :=
  HasPrefix s "+json" || match s with String ";" _ | EmptyString => false | String _ s' => vendorJson s' end.
(** [(?:vnd\.[^;]+\+)?json] *)
Definition jsonSubtype (s : string) : bool :=
  HasPrefix s "json" ||
  (HasPrefix s "vnd." && match str_drop 4 s with String ";" _ | EmptyString => false | String _ s' => vendorJson s' end).
Definition mediaType (subtype : string -> bool) (s : string) : bool :=
  (HasPrefix s "application/" && subtype (str_drop 12 s)) || (HasPrefix s "text/" && subtype (str_drop 5 s)).
Definition jsonCheck (contentType : string) : bool := occurs (mediaType jsonSubtype) (ToLower contentType).
Definition xmlCheck (contentType : string) : bool :=
  occurs (mediaType (fun s => HasPrefix s "xml")) (ToLower contentType).

Example jsonCheck_types :
  jsonCheck <$> ["application/json; charset=utf-8"; "Text/JSON"; "application/vnd.api+json"; "application/vnd.;a+json"; "text/plain"]
  = [true; true; true; false; false].
Proof. vm_compute. reflexivity. Qed.

(** A body: text, or a struct, given by its JSON document. *)
Inductive postBody := TextBody (s : string) | StructBody (document : value).

Definition detectContentType (body : postBody) : string :=
  match body with
  | StructBody _ => "application/json; charset=utf-8"
  | TextBody _ => "text/plain; charset=utf-8"
  end.

Section Client.
Context `{MapRange, NetURL} (xml_Encode : value -> string + error).

Definition newlineC : string := String "010" EmptyString.

(** [setBody]; [json.Encoder.Encode] ends the document with a newline. *)
Definition setBody (body : postBody) (contentType : string) : string + error :=
  let written :=
    match body with
    | TextBody s => inl s
    | StructBody document =>
        if jsonCheck contentType then inl (json_Marshal document +:+ newlineC)
        else if xmlCheck contentType then xml_Encode document
        else inl ""
    end in
  match written with
  | inr err => inr err
  | inl text => if text =? "" then inr (newError ("Invalid body type " +:+ contentType +:+ newlineC)) else inl text
  end.

(** The body and the header parameters with the type of the body. *)
Definition requestBody (body : option postBody) (headerParams : gmap string string)
    : (option string * gmap string string) + error :=
  match body with
  | None => inl (None, headerParams)
  | Some body =>
      let given := default "" (headerParams !! "Content-Type") in
      let contentType := if given =? "" then detectContentType body else given in
      let headerParams := if given =? "" then <["Content-Type" := contentType]> headerParams else headerParams in
      match setBody body contentType with
      | inr err => inr err
      | inl text => inl (Some text, headerParams)
      end
  end.

(** [query.Add] for each value of each parameter *)
Definition addQuery (query : gmap string (list string)) (kv : string * list string) : gmap string (list string) :=
  foldl (fun q v => <[kv.1 := default [] (q !! kv.1) ++ [v]]> q) query kv.2.

Definition requestURL (cfg : Configuration) (path : string) (queryParams : gmap string (list string)) : string + error :=
  match url_Parse path with
  | inr err => inr err
  | inl url =>
      let url := if cfg_Host cfg <>? "" then url_SetHost (cfg_Host cfg) url else url in
      let url := if cfg_Scheme cfg <>? "" then url_SetScheme (cfg_Scheme cfg) url else url in
      let query := foldl addQuery (url_Query url) (range queryParams) in
      inl (url_String (url_SetRawQuery (url_Encode query) url))
  end.

Definition prepareRequest (cfg : Configuration) (path method : string) (body : option postBody)
    (headerParams : gmap string string) (queryParams : gmap string (list string)) : Request + error :=
  match requestBody body headerParams with
  | inr err => inr err
  | inl (body, headerParams) =>
      match requestURL cfg path queryParams with
      | inr err => inr err
      | inl url =>
          match http_NewRequest method url with
          | Some err => inr err
          | None =>
              let headers := foldl (fun h (kv : string * string) => Header_Set kv.1 kv.2 h) ∅ (range headerParams) in
              let headers := Header_Add "User-Agent" (cfg_UserAgent cfg) headers in
              inl (mkRequest method url
                     (foldl (fun h (kv : string * string) => Header_Add kv.1 kv.2 h) headers (range (cfg_DefaultHeader cfg)))
                     body)
          end
      end
  end.

(** [HTTPClient.Do] gives a response, which may be nil, and an error; the dumps of a
    debugged client may fail. *)
Context (Do : Request -> option Response * option error).
Context (DumpRequestOut : Request -> option error) (DumpResponse : option Response -> option error).

Definition callAPI (cfg : Configuration) (request : Request) : option Response * option error :=
  match (if cfg_Debug cfg then DumpRequestOut request else None) with
  | Some err => (None, Some err)
  | None =>
      match Do request with
      | (resp, Some err) => (resp, Some err)
      | (resp, None) => (resp, if cfg_Debug cfg then DumpResponse resp else None)
      end
  end.

(** [decode] into a struct that is not a union *)
Definition decode {A} (zero : A) (json_Unmarshal xml_Unmarshal : string -> A + error) (b contentType : string) : A + error :=
  if b =? "" then inl zero
  else if xmlCheck contentType then xml_Unmarshal b
  else if jsonCheck contentType then json_Unmarshal b
  else inr (newError "undefined response type").

(** ** api_default.go *)

(** The operations of the two services differ in their names and types: the operation,
    its path, the header for the credentials. *)
Record operation := mkOperation { op_Endpoint : string; op_Path : string; op_CredHeader : string }.

(** The headers both operations send. *)
Definition headerParamsOf (op : operation) (cred : string) : gmap string string :=
  let contentType := selectHeaderContentType ["application/json"] in
  let accept := selectHeaderAccept ["application/json"] in
  let headers := if contentType <>? "" then <["Content-Type" := contentType]> ∅ else ∅ in
  let headers := if accept <>? "" then <["Accept" := accept]> headers else headers in
  <[op_CredHeader op := cred]> headers.

(** What is done with the answer. *)
Definition readAnswer {A} (zero : A) (json_Unmarshal xml_Unmarshal : string -> A + error) (resp : Response)
    : A * option error :=
  match rs_Close resp with
  | Some err => (zero, Some err)
  | None =>
      match rs_Body resp with
      | inr err => (zero, Some err)
      | inl body =>
          if Z.leb 300 (rs_StatusCode resp) then (zero, Some (newError (rs_Status resp)))
          else match decode zero json_Unmarshal xml_Unmarshal body (Header_Get "Content-Type" (rs_Header resp)) with
               | inr err => (zero, Some (newError (Error err)))
               | inl v => (v, None)
               end
      end
  end.

Definition execute {A} (zero : A) (json_Unmarshal xml_Unmarshal : string -> A + error) (op : operation)
    (missingCred missingRequest : string) (cfg : Configuration) (ctx : Context_)
    (cred : option string) (request : option value) : A * option error :=
  match ServerURLWithContext cfg ctx (op_Endpoint op) with
  | inr err => (zero, Some (newError (Error err)))
  | inl localBasePath =>
      match cred, request with
      | None, _ => (zero, Some (newError missingCred))
      | _, None => (zero, Some (newError missingRequest))
      | Some cred, Some request =>
          match prepareRequest cfg (localBasePath +:+ op_Path op) "POST" (Some (StructBody request))
                  (headerParamsOf op cred) ∅ with
          | inr err => (zero, Some err)
          | inl req =>
              match callAPI cfg req with
              | (_, Some err) => (zero, Some err)
              | (None, None) => (zero, None)
              | (Some resp, None) => readAnswer zero json_Unmarshal xml_Unmarshal resp
              end
          end
      end
  end.

Definition policiesDecisions : operation :=
  mkOperation "DefaultApiService.GetPoliciesDecisionsPost" "/getPoliciesDecisions" "X-Request-Cred".
Definition zeroResponse : GetPolicyDecisionsResponse := mkGetPolicyDecisionsResponse "" [].

Definition GetPoliciesDecisionsPostExecute (json_Unmarshal xml_Unmarshal : string -> GetPolicyDecisionsResponse + error)
    (cfg : Configuration) (ctx : Context_) (xRequestCred : option string)
    (policyManagerRequest : option GetPolicyDecisionsRequest) : GetPolicyDecisionsResponse * option error :=
  execute zeroResponse json_Unmarshal xml_Unmarshal policiesDecisions
    "xRequestCred is required and must be specified" "policyManagerRequest is required and must be specified"
    cfg ctx xRequestCred (OPA.PolicyRequest_JSON <$> policyManagerRequest).

Definition assetInfo : operation :=
  mkOperation "DefaultApiService.GetAssetInfoPost" "/getAssetInfo" "X-Request-Datacatalog-Cred".
Definition zeroAssetResponse : GetAssetResponse :=
  mkGetAssetResponse (mkResourceMetadata "" "" "" None []) (mkResourceDetails zeroConnection "") "".
Definition GetAssetRequest_JSON (r : GetAssetRequest) : value :=
  VMap {[ "assetID" := VString (assetReq_AssetID r); "operationType" := VString (assetReq_OperationType r) ]}.

Definition GetAssetInfoPostExecute (json_Unmarshal xml_Unmarshal : string -> GetAssetResponse + error)
    (cfg : Configuration) (ctx : Context_) (xRequestDataCatalogCred : option string)
    (dataCatalogRequest : option GetAssetRequest) : GetAssetResponse * option error :=
  execute zeroAssetResponse json_Unmarshal xml_Unmarshal assetInfo
    "xRequestDataCatalogCred is required and must be specified" "dataCatalogRequest is required and must be specified"
    cfg ctx xRequestDataCatalogCred (GetAssetRequest_JSON <$> dataCatalogRequest).

(** ** policymanager_openapi.go, datacatalog_openapi.go *)

(** The configuration both constructors make; the timeout of the connection is not used. *)
Definition openAPIConfiguration (connectionURL : string) : Configuration :=
  mkConfiguration "" "" ∅ "OpenAPI-Generator/1.0.0/go" false [mkServerConfiguration connectionURL ∅] ∅.

(** [resp, _, err := ...Execute()] *)
Definition executed {A} (r : A * option error) : A + error :=
  match r with (_, Some err) => inr err | (v, None) => inl v end.

Definition NewOpenAPIPolicyManager (json_Unmarshal xml_Unmarshal : string -> GetPolicyDecisionsResponse + error)
    (name connectionURL : string) : PolicyManager :=
  openapi_GetPoliciesDecisions name (fun creds req => executed
    (GetPoliciesDecisionsPostExecute json_Unmarshal xml_Unmarshal (openAPIConfiguration connectionURL) Background
       (Some creds) (Some req))).

Definition NewOpenAPIDataCatalog (json_Unmarshal xml_Unmarshal : string -> GetAssetResponse + error)
    (name connectionURL : string) : GetAssetRequest -> string -> outcome (GetAssetResponse + error) :=
  openapi_GetAssetInfo name (fun creds req => executed
    (GetAssetInfoPostExecute json_Unmarshal xml_Unmarshal (openAPIConfiguration connectionURL) Background
       (Some creds) (Some req))).
End Client.
