(* ===== verification/OpenAPIFacts.v ===== *)
(** * What the REST clients promise *)
From stdpp Require Import base gmap strings list numbers.
From Stdlib Require Import Ascii.
From S2P Require Import Prelude GoStrings GoJSON Types External Utils Policy Proto PolicyClient CatalogClient AppController Connectors OpenAPIClient.

(** ** Headers *)

(** Header parameters with canonical keys are sent as they are, in whatever order they
    are set. *)
Lemma set_headers `{MapRange} (params : gmap string string) :
  map_Forall (fun k _ => CanonicalHeaderKey k = k) params ->
  foldl (fun h (kv : string * string) => Header_Set kv.1 kv.2 h) ∅ (range params) = (fun v => [v]) <$> params.
Proof.
  intros Hk. apply map_eq. intros k. rewrite lookup_fmap. unfold Header_Set.
  destruct (foldl _ _ _ !! k) as [vs|] eqn:E.
  - apply foldl_insert_lookup in E as [([k' v] & Hin%range_elem & Hf & Hg)|[E _]]; [|by rewrite lookup_empty in E].
    simpl in *. rewrite (Hk _ _ Hin) in Hf. subst k'. by rewrite Hin, <- Hg.
  - destruct (params !! k) as [v|] eqn:Ek; [|done]. exfalso.
    assert (is_Some (foldl (fun (h : Header) kv => <[CanonicalHeaderKey kv.1 := [kv.2]]> h) ∅ (range params) !! k)) as [x Hx].
    { rewrite <- (Hk k v Ek). apply (foldl_insert_present (fun kv => CanonicalHeaderKey kv.1) (fun kv => [kv.2]) _ _ (k, v)).
      by apply range_elem. }
    congruence.
Qed.

Section Facts.
Context `{MapRange, NetURL} (xml_Encode : value -> string + error).
Context (Do : Request -> option Response * option error).
Context (DumpRequestOut : Request -> option error) (DumpResponse : option Response -> option error).

Lemma background_url url endpoint : ServerURLWithContext (openAPIConfiguration url) Background endpoint = inl url.
Proof.
  unfold ServerURLWithContext, getServerOperationIndex, getServerOperationVariables, getServerIndex, getServerVariables.
  simpl. rewrite !lookup_empty. simpl. unfold ServerConfigurations_URL. simpl. by rewrite range_empty.
Qed.

(** The address a request is sent to: the query of the URL is encoded again. *)
Definition target (u : URL) : string := url_String (url_SetRawQuery (url_Encode (url_Query u)) u).

Lemma json_string_nonempty (text : string) : (text +:+ newlineC =? "") = false.
Proof. by destruct text. Qed.

(** The request for an operation. *)
Definition requestOf (op : operation) (u : URL) (cred : string) (document : value) : Request :=
  mkRequest "POST" (target u)
    (<["User-Agent" := ["OpenAPI-Generator/1.0.0/go"]]> ((fun v => [v]) <$> headerParamsOf op cred))
    (Some (json_Marshal document +:+ newlineC)).

(** The header for the credentials is canonical and is none of the others. *)
Definition credential_header (op : operation) : Prop :=
  CanonicalHeaderKey (op_CredHeader op) = op_CredHeader op /\
  op_CredHeader op <> "Content-Type" /\ op_CredHeader op <> "User-Agent".

Lemma prepareRequest_exact op url u cred document :
  credential_header op -> url_Parse (url +:+ op_Path op) = inl u -> http_NewRequest "POST" (target u) = None ->
  prepareRequest xml_Encode (openAPIConfiguration url) (url +:+ op_Path op) "POST" (Some (StructBody document))
    (headerParamsOf op cred) ∅ = inl (requestOf op u cred document).
Proof.
  intros (Hcan & Hct & Hua) Hu Hn. unfold prepareRequest, requestBody.
  assert (headerParamsOf op cred !! "Content-Type" = Some "application/json") as ->.
  { unfold headerParamsOf. by rewrite lookup_insert_ne. }
  change (default "" (Some "application/json")) with "application/json".
  change ("application/json" =? "") with false. cbn beta iota zeta.
  unfold setBody. change (jsonCheck "application/json") with true. cbn beta iota. rewrite json_string_nonempty.
  unfold requestURL. rewrite Hu. simpl. rewrite range_empty. simpl. fold (target u). rewrite Hn, range_empty. simpl.
  unfold requestOf. do 2 f_equal. rewrite set_headers; cycle 1.
  { unfold headerParamsOf. simpl. apply map_Forall_insert_2; [done|]. apply map_Forall_insert_2; [done|].
    apply map_Forall_insert_2; [done|]. apply map_Forall_empty. }
  unfold Header_Add. change (CanonicalHeaderKey "User-Agent") with "User-Agent". rewrite lookup_fmap.
  assert (headerParamsOf op cred !! "User-Agent" = None) as ->; [|done].
  unfold headerParamsOf. simpl. by rewrite lookup_insert_ne.
Qed.

(** A request is only made when its address is understood. *)
Lemma prepareRequest_address url path method body headerParams rq :
  prepareRequest xml_Encode (openAPIConfiguration url) path method body headerParams ∅ = inl rq ->
  exists u, url_Parse path = inl u /\ http_NewRequest method (target u) = None.
Proof.
  unfold prepareRequest. destruct (requestBody _ _ _) as [[text params]|]; [|done]. unfold requestURL.
  destruct (url_Parse path) as [u|]; [|done]. change (cfg_Host (openAPIConfiguration url)) with "".
  change (cfg_Scheme (openAPIConfiguration url)) with "". change ("" <>? "") with false. cbn beta iota zeta.
  rewrite range_empty. cbn [foldl]. fold (target u). destruct (http_NewRequest _ _) eqn:E; [done|]. by exists u.
Qed.

Context {A : Type} (zero : A) (json_Unmarshal xml_Unmarshal : string -> A + error).

(** An operation sends one request, and its answer is read. *)
Lemma execute_exact op mc mr url u cred document :
  credential_header op -> url_Parse (url +:+ op_Path op) = inl u -> http_NewRequest "POST" (target u) = None ->
  execute xml_Encode Do DumpRequestOut DumpResponse zero json_Unmarshal xml_Unmarshal op mc mr (openAPIConfiguration url)
    Background (Some cred) (Some document) =
  match Do (requestOf op u cred document) with
  | (_, Some err) => (zero, Some err)
  | (None, None) => (zero, None)
  | (Some resp, None) => readAnswer zero json_Unmarshal xml_Unmarshal resp
  end.
Proof.
  intros Hop Hu Hn. unfold execute. rewrite background_url. cbn beta iota.
  rewrite (prepareRequest_exact op url u) by done. unfold callAPI. simpl.
  destruct (Do _) as [[resp|] [err|]]; done.
Qed.

(** A value comes out of an answer only when the answer was read, has a status below 300
    and a body that was decoded, or no body. *)
Lemma readAnswer_exact resp v :
  readAnswer zero json_Unmarshal xml_Unmarshal resp = (v, None) <->
  rs_Close resp = None /\ (rs_StatusCode resp < 300)%Z /\ exists body, rs_Body resp = inl body /\
    decode zero json_Unmarshal xml_Unmarshal body (Header_Get "Content-Type" (rs_Header resp)) = inl v.
Proof.
  unfold readAnswer. destruct (rs_Close resp) as [err|]; [naive_solver|].
  destruct (rs_Body resp) as [body|err]; [|naive_solver].
  destruct (Z.leb_spec 300 (rs_StatusCode resp)) as [Hs|Hs]; [split; [done|intros (_ & ? & _); lia]|].
  destruct (decode _ _ _ _ _) as [v'|err] eqn:E; split; try done.
  - intros [= <-]. split; [done|]. split; [done|]. by exists body.
  - intros (_ & _ & b & [= <-] & Ev). congruence.
  - intros (_ & _ & b & [= <-] & Ev). congruence.
Qed.
End Facts.

Lemma policiesDecisions_header : credential_header policiesDecisions.
Proof. by vm_compute. Qed.
Lemma assetInfo_header : credential_header assetInfo.
Proof. by vm_compute. Qed.

(** The headers of a request for decisions. *)
Lemma policiesDecisions_headers creds :
  <["User-Agent" := ["OpenAPI-Generator/1.0.0/go"]]> ((fun v : string => [v]) <$> headerParamsOf policiesDecisions creds) =
  {[ "User-Agent" := ["OpenAPI-Generator/1.0.0/go"]; "X-Request-Cred" := [creds]; "Accept" := ["application/json"];
     "Content-Type" := ["application/json"] ]}.
Proof.
  unfold headerParamsOf. simpl. change (selectHeaderAccept ["application/json"]) with "application/json".
  change (selectHeaderContentType ["application/json"]) with "application/json". simpl.
  rewrite !fmap_insert, fmap_empty. done.
Qed.

Lemma openapi_client_spec `{MapRange, NetURL} xml_Encode Do DumpRequestOut DumpResponse json_Unmarshal xml_Unmarshal
    name url u req creds v :
  url_Parse (url +:+ "/getPoliciesDecisions") = inl u -> http_NewRequest "POST" (target u) = None ->
  let request := mkRequest "POST" (target u)
    {[ "User-Agent" := ["OpenAPI-Generator/1.0.0/go"]; "X-Request-Cred" := [creds]; "Accept" := ["application/json"];
       "Content-Type" := ["application/json"] ]} (Some (json_Marshal (OPA.PolicyRequest_JSON req) +:+ newlineC)) in
  NewOpenAPIPolicyManager xml_Encode Do DumpRequestOut DumpResponse json_Unmarshal xml_Unmarshal name url req creds = inl v <->
  (Do request = (None, None) /\ v = zeroResponse) \/
  exists resp body, Do request = (Some resp, None) /\ rs_Close resp = None /\ (rs_StatusCode resp < 300)%Z /\
    rs_Body resp = inl body /\
    (if body =? "" then v = zeroResponse
     else if xmlCheck (Header_Get "Content-Type" (rs_Header resp)) then xml_Unmarshal body = inl v
     else jsonCheck (Header_Get "Content-Type" (rs_Header resp)) = true /\ json_Unmarshal body = inl v).
Proof.
  intros Hu Hn request. unfold NewOpenAPIPolicyManager, openapi_GetPoliciesDecisions, GetPoliciesDecisionsPostExecute.
  simpl fmap. rewrite (execute_exact _ _ _ _ _ _ _ policiesDecisions _ _ url u) by (done || apply policiesDecisions_header).
  unfold requestOf. rewrite policiesDecisions_headers. fold request.
  destruct (Do request) as [[resp|] [err|]]; simpl.
  - split; [done|]. intros [[? _]|(? & ? & ? & _)]; done.
  - destruct (readAnswer _ _ _ resp) as [v' o] eqn:E.
    assert ((match executed (v', o) with inl x => inl x | inr err =>
      inr (wrapError ("get policies decisions from " +:+ name +:+ " failed") err) end) = inl v <-> (v', o) = (v, None)) as ->.
    { destruct o; simpl; split; naive_solver. }
    rewrite <- E, readAnswer_exact. split.
    + intros (Hc & Hs & body & Hb & Hd). right. exists resp, body. repeat (split; [done|]). unfold decode in Hd.
      destruct (body =? ""); [congruence|]. destruct (xmlCheck _); [done|]. by destruct (jsonCheck _).
    + intros [[[=] _]|(resp' & body & [= <-] & Hc & Hs & Hb & Hd)]. split; [done|]. split; [done|]. exists body.
      split; [done|]. unfold decode. destruct (body =? ""); [by subst|]. destruct (xmlCheck _); [done|].
      destruct Hd as [-> ->]. done.
  - split; [done|]. intros [[? _]|(? & ? & ? & _)]; done.
  - split; [intros [= <-]; by left|]. intros [[_ ->]|(? & ? & ? & _)]; done.
Qed.

(** C21: what the generated REST client of a policy manager sends and accepts: when the
    address of the manager is understood, it posts the request as a JSON document, followed by
    a newline, to the path "/getPoliciesDecisions" of that address, with exactly the headers
    for the credentials, the accepted and the sent content type and the generator as the user
    agent, and gives a response exactly when the answer was read and closed without errors,
    has a status below 300 and a body that is decoded by its content type (XML before JSON),
    or has no body, which counts as a response without decisions; it gives such a response
    also if the HTTP client returns neither an answer nor an error. *)
Theorem openapi_client_exact `{MapRange, NetURL} xml_Encode Do DumpRequestOut DumpResponse json_Unmarshal xml_Unmarshal
    name url u req creds v :
  url_Parse (url +:+ "/getPoliciesDecisions") = inl u -> http_NewRequest "POST" (target u) = None ->
  let request := mkRequest "POST" (target u)
    {[ "User-Agent" := ["OpenAPI-Generator/1.0.0/go"]; "X-Request-Cred" := [creds]; "Accept" := ["application/json"];
       "Content-Type" := ["application/json"] ]} (Some (json_Marshal (OPA.PolicyRequest_JSON req) +:+ newlineC)) in
  NewOpenAPIPolicyManager xml_Encode Do DumpRequestOut DumpResponse json_Unmarshal xml_Unmarshal name url req creds = inl v <->
  (Do request = (None, None) /\ v = zeroResponse) \/
  exists resp body, Do request = (Some resp, None) /\ rs_Close resp = None /\ (rs_StatusCode resp < 300)%Z /\
    rs_Body resp = inl body /\
    (if body =? "" then v = zeroResponse
     else if xmlCheck (Header_Get "Content-Type" (rs_Header resp)) then xml_Unmarshal body = inl v
     else jsonCheck (Header_Get "Content-Type" (rs_Header resp)) = true /\ json_Unmarshal body = inl v).
Proof. apply openapi_client_spec. Qed.

(** ** The manager, the OPA connector and OPA together *)
Section Governance.
Context {W : Type} (ctrl : OPA.ConnectorController W).
(** gin's decoding of a request, [json.Unmarshal] of a response *)
Context (bind : string -> GetPolicyDecisionsRequest + error) (unmarshal : string -> GetPolicyDecisionsResponse + error).

(** The statuses that come with a body. *)
Definition bodyAllowed (code : Z) : bool :=
  negb ((Z.leb 100 code && Z.leb code 199) || Z.eqb code 204 || Z.eqb code 304).

(** The response to a request that reaches the connector: the handler gets the body and the
    header of the request; what it writes comes back with its status, as a JSON document when
    the status allows a body; when it panics, gin answers with an error status. *)
Definition answers_with (w : W) (rq : Request) (resp : Response) : Prop :=
  match OPA.GetPoliciesDecisions ctrl unmarshal (bind (default "" (rq_Body rq)))
          (Header_Get "X-Request-Cred" (rq_Header rq)) w with
  | Done ([r], _) =>
      rs_StatusCode resp = StatusCode r /\
      Header_Get "Content-Type" (rs_Header resp) = "application/json; charset=utf-8" /\
      forall body, rs_Body resp = inl body -> body = if bodyAllowed (StatusCode r) then json_Marshal (Body r) else ""
  | _ => (300 <= rs_StatusCode resp)%Z
  end.

(** What the HTTP client promises: without an error there is a response, and a response to
    the request is one of the connector; the connection may fail in any way. *)
Record delivers (w : W) (Do : Request -> option Response * option error) : Prop := {
  delivers_something : forall rq, Do rq <> (None, None);
  delivers_answer : forall rq resp, Do rq = (Some resp, None) -> answers_with w rq resp
}.

(** A response below 300 of the handler: the verdict of OPA, or its status and text. *)
Lemma handler_answer request creds w resp w' :
  OPA.GetPoliciesDecisions ctrl unmarshal request creds w = Done ([resp], w') -> (StatusCode resp < 300)%Z ->
  exists received info w1 code text, request = inl received /\
    OPA.CatalogClient_GetAssetInfo ctrl (mkGetAssetRequest (res_ID (pdReq_Resource received)) OperationType_READ) creds w =
      Done (inl info, w1) /\
    OPA.OpaPost ctrl (OPA.endpoint ctrl) (OPA.opaInput (OPA.enrich received info)) w1 =
      Done (inl (OPA.mkOpaAnswer code (inl text)), w') /\
    ((code = StatusOK /\ exists verdict, unmarshal text = inl verdict /\
        resp = mkHTTPResponse StatusOK (PolicyResponse_JSON verdict)) \/
     (code <> StatusOK /\ resp = mkHTTPResponse code (errorBody text))).
Proof.
  intros E Hs. unfold OPA.GetPoliciesDecisions in E.
  assert (forall code msg, (300 <= code)%Z -> [resp] = OPA.failed code msg -> False) as Hfail.
  { intros code msg Hc [= ->]. simpl in Hs. lia. }
  destruct request as [received|err]; [|m_step E; by edestruct (Hfail StatusBadRequest)].
  m_step E. destruct a as [info|err]; [|m_step E; by edestruct (Hfail StatusInternalServerError)]. m_step E. m_step E.
  destruct a as [[code body]|err]; simpl in *; [|by edestruct (Hfail StatusInternalServerError)].
  destruct body as [text|err]; [|by edestruct (Hfail StatusInternalServerError)].
  exists received, info, w0, code, text. split_and!; [done..|].
  destruct (Z.eqb_spec code StatusOK) as [->|Hne]; simpl in *; [left|right; unfold OPA.failed in *; by simplify_eq/=].
  split; [done|]. destruct (unmarshal text) as [verdict|err] eqn:Ev; simplify_eq/=; [by exists verdict|].
  by edestruct (Hfail StatusInternalServerError).
Qed.
End Governance.

(** The client of the policy manager gives a response only when one was read from the answer
    to its request. *)
Lemma openapi_client_answered `{MapRange, NetURL} xml_Encode Do DumpRequestOut DumpResponse json_Unmarshal xml_Unmarshal
    name url req creds v :
  (forall rq, Do rq <> (None, None)) ->
  NewOpenAPIPolicyManager xml_Encode Do DumpRequestOut DumpResponse json_Unmarshal xml_Unmarshal name url req creds = inl v ->
  exists rq resp body, rq_Body rq = Some (json_Marshal (OPA.PolicyRequest_JSON req) +:+ newlineC) /\
    Header_Get "X-Request-Cred" (rq_Header rq) = creds /\ Do rq = (Some resp, None) /\
    (rs_StatusCode resp < 300)%Z /\ rs_Body resp = inl body /\
    decode zeroResponse json_Unmarshal xml_Unmarshal body (Header_Get "Content-Type" (rs_Header resp)) = inl v.
Proof.
  intros Hsome E. assert (exists u, url_Parse (url +:+ "/getPoliciesDecisions") = inl u /\
    http_NewRequest "POST" (target u) = None) as (u & Hu & Hn).
  { revert E. unfold NewOpenAPIPolicyManager, openapi_GetPoliciesDecisions, GetPoliciesDecisionsPostExecute, execute.
    rewrite background_url. cbn [fmap option_fmap option_map]. destruct (prepareRequest _ _ _ _ _ _ _) eqn:Ep; [|done].
    intros _. by eapply prepareRequest_address. }
  destruct (proj1 (openapi_client_spec _ _ _ _ _ _ _ _ u _ _ _ Hu Hn) E) as [[Hd _]|(resp & body & Hd & Hc & Hs & Hb & Hv)];
    [by destruct (Hsome _ Hd)|].
  eexists _, resp, body. split; [|split; [|split; [exact Hd|]]]; [reflexivity|reflexivity|]. split_and!; [done..|].
  unfold decode. destruct (body =? ""); [by subst|]. destruct (xmlCheck _); [done|]. destruct Hv as [-> ->]. done.
Qed.

(** C6: access is only given by an answer of OPA: when the lookup of the manager, through its
    REST client and the OPA connector, permits an operation on an asset with some actions,
    then the connector received a request, decoded from the one the manager sent; the catalog
    knew its asset; OPA was asked about this request with the metadata of the asset and
    answered with a status below 300; and the actions are exactly those of a response that
    the client decoded and that does not deny the operation.  If the status is 200, OPA's text
    was a verdict, and the response was decoded from the document the connector renders of
    it.  If it is another status below 300 there need not be a verdict: the client has
    decoded the error document that the connector makes of OPA's text, or read a response
    without decisions from an answer without a body.  No other failure on the way gives
    access.  Assumed of HTTP: without an error the client has a response, and a
    response is that of the connector to the request, with its status, content type and
    document (no body where the status forbids it; an error status if the handler panics);
    the connection may fail in any way.  The decoders are arbitrary functions. *)
Theorem access_needs_verdict `{Runtime, Schema, MapRange, NetURL} {W} (ctrl : OPA.ConnectorController W) bind unmarshal
    xml_Encode Do DumpRequestOut DumpResponse xml_Unmarshal name url (w : W) ds app op actions :
  delivers ctrl bind unmarshal w Do ->
  LookupPolicyDecisions ds (NewOpenAPIPolicyManager xml_Encode Do DumpRequestOut DumpResponse
    unmarshal xml_Unmarshal name url) app op = (actions, None) ->
  exists received info w1 code text w2 response,
    bind (json_Marshal (OPA.PolicyRequest_JSON (ConstructOpenAPIReq ds app op)) +:+ newlineC) = inl received /\
    OPA.CatalogClient_GetAssetInfo ctrl (mkGetAssetRequest (res_ID (pdReq_Resource received)) OperationType_READ)
      (requestCredentials app) w = Done (inl info, w1) /\
    OPA.OpaPost ctrl (OPA.endpoint ctrl) (OPA.opaInput (OPA.enrich received info)) w1 =
      Done (inl (OPA.mkOpaAnswer code (inl text)), w2) /\
    denies response = false /\ actions = result_Action <$> pdResp_Result response /\
    ((code = StatusOK /\ exists verdict, unmarshal text = inl verdict /\
        unmarshal (json_Marshal (PolicyResponse_JSON verdict)) = inl response) \/
     (code <> StatusOK /\ (code < 300)%Z /\
        (if bodyAllowed code then unmarshal (json_Marshal (errorBody text)) = inl response
         else response = zeroResponse))).
Proof.
  intros [Hsome Hans] Hl. apply LookupPolicyDecisions_ok in Hl as (v & Hpm & Hd & ->).
  apply openapi_client_answered in Hpm as (rq & resp & body & Hbody & Hcred & Hdo & Hs & Hb & Hdec); [|done].
  apply Hans in Hdo. unfold answers_with in Hdo. rewrite Hbody, Hcred in Hdo.
  destruct (OPA.GetPoliciesDecisions _ _ _ _ _) as [[[|r [|? ?]] w2]|] eqn:Eh; try lia.
  destruct Hdo as (Ec & Et & Hdoc). apply Hdoc in Hb. rewrite Et in Hdec. rewrite Ec in Hs.
  destruct (handler_answer ctrl unmarshal _ _ _ _ _ Eh Hs)
    as (received & info & w1 & code & text & Er & Ecat & Ep & Hcase).
  exists received, info, w1, code, text, w2, v. split_and!; [done..|].
  unfold decode in Hdec. change (xmlCheck _) with false in Hdec. change (jsonCheck _) with true in Hdec. cbn beta iota in Hdec.
  destruct Hcase as [(-> & verdict & Ev & ->)|(Hne & ->)]; [left|right]; (split; [done|]); cbn [StatusCode Body] in *.
  - exists verdict. split; [done|]. rewrite Hb in Hdec. change (bodyAllowed StatusOK) with true in Hdec.
    change (json_Marshal (PolicyResponse_JSON verdict) =? "") with false in Hdec. exact Hdec.
  - split; [done|]. rewrite Hb in Hdec. destruct (bodyAllowed code); [|by injection Hdec as <-].
    change (json_Marshal (errorBody text) =? "") with false in Hdec. exact Hdec.
Qed.

(** ** Instances *)
Module OpenAPIExamples.
Import ConnectorExamples.

(** URLs as their texts, without a query. *)
Definition urls : NetURL := {|
  URL := string; url_Parse s := inl s; url_SetHost _ u := u; url_SetScheme _ u := u; url_Query _ := ∅;
  url_SetRawQuery _ u := u; url_Encode _ := ""; url_String u := u; http_NewRequest _ _ := None |}.

Definition redaction : GetPolicyDecisionsResponse :=
  mkGetPolicyDecisionsResponse "1" [mkResultItem "p" (mkAction "redact" (mkProperties None))].
Definition answered (rq : Request) : option Response * option error :=
  (Some (mkResponse 200 "200 OK" {[ "Content-Type" := ["application/json"] ]} "{}" None None), None).

(** A client whose server always answers with the redaction. *)
Definition client (Do : Request -> option Response * option error) : PolicyManager :=
  @NewOpenAPIPolicyManager canonical_range urls (fun _ => inr (newError "xml")) Do (fun _ => None) (fun _ => None)
    (fun _ => inl redaction) (fun _ => inr (newError "xml")) "opa" "http://opa-connector:80".

Lemma openapi_client_exact_witness : client answered ConnectorExamples.request "token" = inl redaction.
Proof.
  unfold client.
  apply (@openapi_client_exact canonical_range urls (fun _ => inr (newError "xml")) answered (fun _ => None) (fun _ => None)
    (fun _ => inl redaction) (fun _ => inr (newError "xml")) "opa" "http://opa-connector:80"
    "http://opa-connector:80/getPoliciesDecisions" ConnectorExamples.request "token" redaction); [reflexivity..|].
  right. eexists _, "{}". split; [reflexivity|]. split; [reflexivity|]. split; [reflexivity|]. split; [reflexivity|].
  vm_compute. split; reflexivity.
Defined.

(** The request of the application for the asset, over the connector of the examples. *)
Definition notebook : FybrikApplication := PolicyClientExamples.app0.
Definition reading : RequestAction := PolicyClientExamples.read_op.
Definition received : GetPolicyDecisionsRequest := ConstructOpenAPIReq "demo/paysim" notebook reading.

(** A server whose OPA answers with the code. *)
Definition answering (code : Z) : OPA.ConnectorController unit :=
  OPA.mkConnectorController "http://opa:8181/" (fun _ _ => mret (inl (OPA.mkOpaAnswer code (inl "{}"))))
    (fun _ _ => mret (inl (Katalog.assetResponse "demo" ConnectorExamples.asset))).
Definition served (code : Z) (rq : Request) : option Response * option error :=
  match OPA.GetPoliciesDecisions (answering code) (fun _ => inl redaction) (inl received)
          (Header_Get "X-Request-Cred" (rq_Header rq)) tt with
  | Done ([r], _) =>
      (Some (mkResponse (StatusCode r) "" {[ "Content-Type" := ["application/json; charset=utf-8"] ]}
               (if bodyAllowed (StatusCode r) then json_Marshal (Body r) else "") None None), None)
  | _ => (None, Some (newError "EOF"))
  end.

Lemma served_delivers code : delivers (answering code) (fun _ => inl received) (fun _ => inl redaction) tt (served code).
Proof.
  split.
  - intros rq. unfold served. destruct (OPA.GetPoliciesDecisions _ _ _ _ _) as [[[|r [|? ?]] w]|]; discriminate.
  - intros rq resp. unfold served, answers_with.
    destruct (OPA.GetPoliciesDecisions _ _ _ _ _) as [[[|r [|? ?]] w]|]; [discriminate| |discriminate..].
    intros [= <-]. split; [reflexivity|]. split; [reflexivity|]. by intros body [= <-].
Qed.

(** The decisions of OPA behind the status 200, and what the client makes of the status 202. *)
Definition decisions (code : Z) (unmarshal : string -> GetPolicyDecisionsResponse + error) : list Action * option error :=
  @LookupPolicyDecisions (Concrete.env []) Concrete.accept_all "demo/paysim"
    (@NewOpenAPIPolicyManager canonical_range urls (fun _ => inr (newError "xml")) (served code) (fun _ => None) (fun _ => None)
      unmarshal (fun _ => inr (newError "xml")) "opa" "http://opa-connector:80") notebook reading.

Lemma access_needs_verdict_witness : exists received info w1 text w2 verdict,
  OPA.CatalogClient_GetAssetInfo (answering 200) (mkGetAssetRequest (res_ID (pdReq_Resource received)) OperationType_READ)
    (@requestCredentials (Concrete.env []) notebook) tt = Done (inl info, w1) /\
  OPA.OpaPost (answering 200) (OPA.endpoint (answering 200)) (OPA.opaInput (OPA.enrich received info)) w1 =
    Done (inl (OPA.mkOpaAnswer StatusOK (inl text)), w2) /\
  (fun _ : string => inl (B := error) redaction) text = inl verdict.
Proof.
  destruct (@access_needs_verdict (Concrete.env []) Concrete.accept_all canonical_range urls unit (answering 200)
    (fun _ => inl received) (fun _ => inl redaction) (fun _ => inr (newError "xml")) (served 200) (fun _ => None) (fun _ => None)
    (fun _ => inr (newError "xml")) "opa" "http://opa-connector:80" tt "demo/paysim" notebook reading
    [mkAction "redact" (mkProperties None)] (served_delivers 200) ltac:(vm_compute; reflexivity))
    as (rc & info & w1 & code & text & w2 & response & _ & Ecat & Ep & _ & _ & Hcase).
  injection Ep as <- <- <-. destruct Hcase as [(_ & verdict & Ev & _)|[Hne _]]; [|by destruct Hne].
  exists rc, info, w1, "{}", w1, verdict. split; [exact Ecat|]. split; [reflexivity|exact Ev].
Defined.

(** Any other status below 300 of OPA gives access without actions, when the error document
    of the connector is decoded as a response without decisions (as [encoding/json] does,
    which ignores the member "error"). *)
Example accepted_gives_access :
  decisions 202 (fun _ => inl zeroResponse) = ([], None) /\ decisions 204 (fun _ => inl redaction) = ([], None).
Proof. vm_compute. split; reflexivity. Qed.
End OpenAPIExamples.
