(* ===== verification/Nullable.v ===== *)
(** * Nullable values of the REST clients

    [pkg/connectors/policymanager/openapiclient/utils.go] and its twin for the catalog:
    the pointers to constants and the nullable types, which tell a member that is missing
    from one that is null.  The file declares the same seven operations for each of eight
    types: a record of operations per type, and the laws they all have.  A pointer is the
    value it points to, and nil; that [Get] and [Set] share the pointer with the caller is
    not modelled. *)
From stdpp Require Import base gmap strings list numbers.
From Stdlib Require Import Ascii.
From S2P Require Import Prelude GoStrings GoInt GoJSON JSONParse JSONFacts.

(** ** Pointers to constants *)
Section Pointers.
Context {float32 float64 Time : Type}.
Definition PtrBool (v : bool) : option bool := Some v.
Definition PtrInt (v : Z) : option Z := Some v.
Definition PtrInt32 (v : Z) : option Z := Some v.
Definition PtrInt64 (v : Z) : option Z := Some v.
Definition PtrFloat32 (v : float32) : option float32 := Some v.
Definition PtrFloat64 (v : float64) : option float64 := Some v.
Definition PtrString (v : string) : option string := Some v.
Definition PtrTime (v : Time) : option Time := Some v.
End Pointers.

(** ** How a type is written and read as JSON *)
Record Codec (A : Type) := mkCodec {
  codec_zero : A;
  (** [json.Marshal], which fails for a number that is not finite *)
  codec_encode : A -> value + error;
  (** [json.Unmarshal] of a value other than null over the old content: the new content
      and the error *)
  codec_decode : A -> value -> A * option error
}.
Arguments mkCodec {A}.
Arguments codec_zero {A}.
Arguments codec_encode {A}.
Arguments codec_decode {A}.

(** A value of another type leaves the content as it is. *)
Definition typeError : error := newError "json: cannot unmarshal value into Go value".

Definition bool_codec : Codec bool := {|
  codec_zero := false; codec_encode b := inl (VBool b);
  codec_decode old v := match v with VBool b => (b, None) | _ => (old, Some typeError) end |}.
Definition string_codec : Codec string := {|
  codec_zero := ""; codec_encode s := inl (VString s);
  codec_decode old v := match v with VString s => (s, None) | _ => (old, Some typeError) end |}.

(** An integer of [bits] bits: the literal has no fraction or exponent, and its value is in
    range. *)
Definition in_bits (bits : Z) (z : Z) : bool := Z.leb (- 2 ^ (bits - 1)) z && Z.ltb z (2 ^ (bits - 1)).
Definition int_codec (bits : Z) : Codec Z := {|
  codec_zero := 0%Z; codec_encode z := inl (VNumber (Itoa z));
  codec_decode old v :=
    match v with
    | VNumber lit => match Atoi lit with
                     | Some z => if in_bits bits z then (z, None) else (old, Some typeError)
                     | None => (old, Some typeError)
                     end
    | _ => (old, Some typeError)
    end |}.

(** ** The operations *)
Record Nullable (A : Type) := mkNullable { null_value : option A; null_isSet : bool }.
Arguments mkNullable {A}.
Arguments null_value {A}.
Arguments null_isSet {A}.

Record NullableOps (A : Type) := mkNullableOps {
  Get : Nullable A -> option A;
  Set_ : option A -> Nullable A -> Nullable A;
  IsSet : Nullable A -> bool;
  Unset_ : Nullable A -> Nullable A;
  NewNullable : option A -> Nullable A;
  MarshalJSON : Nullable A -> outcome (string + error);
  UnmarshalJSON : string -> Nullable A -> Nullable A * option error
}.
Arguments mkNullableOps {A}.
Arguments Get {A}.
Arguments Set_ {A}.
Arguments IsSet {A}.
Arguments Unset_ {A}.
Arguments NewNullable {A}.
Arguments MarshalJSON {A}.
Arguments UnmarshalJSON {A}.

Section JSON.
Context {A : Type} (c : Codec A).

(** [json.Marshal] of a pointer *)
Definition marshalPointer (p : option A) : string + error :=
  match p with
  | None => inl (json_Marshal VNull)
  | Some a => match codec_encode c a with inl v => inl (json_Marshal v) | inr err => inr err end
  end.

(** [json.Unmarshal(src, &p)]: a text that is not JSON leaves the pointer, null makes it
    nil, and another value is read over the content, which is made when there is none. *)
Definition unmarshalPointer (src : string) (p : option A) : option A * option error :=
  match json_Parse src with
  | inr err => (p, Some err)
  | inl VNull => (None, None)
  | inl v => let '(a, err) := codec_decode c (default (codec_zero c) p) v in (Some a, err)
  end.
End JSON.

Definition NullableBool : NullableOps bool := {|
  Get v := null_value v;
  Set_ val v := mkNullable val true;
  IsSet v := null_isSet v;
  Unset_ v := mkNullable None false;
  NewNullable val := mkNullable val true;
  MarshalJSON v := Done (marshalPointer bool_codec (null_value v));
  UnmarshalJSON src v := let '(p, err) := unmarshalPointer bool_codec src (null_value v) in (mkNullable p true, err) |}.

Definition NullableInt : NullableOps Z := {|
  Get v := null_value v;
  Set_ val v := mkNullable val true;
  IsSet v := null_isSet v;
  Unset_ v := mkNullable None false;
  NewNullable val := mkNullable val true;
  MarshalJSON v := Done (marshalPointer (int_codec 64) (null_value v));
  UnmarshalJSON src v := let '(p, err) := unmarshalPointer (int_codec 64) src (null_value v) in (mkNullable p true, err) |}.

Definition NullableInt32 : NullableOps Z := {|
  Get v := null_value v;
  Set_ val v := mkNullable val true;
  IsSet v := null_isSet v;
  Unset_ v := mkNullable None false;
  NewNullable val := mkNullable val true;
  MarshalJSON v := Done (marshalPointer (int_codec 32) (null_value v));
  UnmarshalJSON src v := let '(p, err) := unmarshalPointer (int_codec 32) src (null_value v) in (mkNullable p true, err) |}.

Definition NullableInt64 : NullableOps Z := {|
  Get v := null_value v;
  Set_ val v := mkNullable val true;
  IsSet v := null_isSet v;
  Unset_ v := mkNullable None false;
  NewNullable val := mkNullable val true;
  MarshalJSON v := Done (marshalPointer (int_codec 64) (null_value v));
  UnmarshalJSON src v := let '(p, err) := unmarshalPointer (int_codec 64) src (null_value v) in (mkNullable p true, err) |}.

Definition NullableString : NullableOps string := {|
  Get v := null_value v;
  Set_ val v := mkNullable val true;
  IsSet v := null_isSet v;
  Unset_ v := mkNullable None false;
  NewNullable val := mkNullable val true;
  MarshalJSON v := Done (marshalPointer string_codec (null_value v));
  UnmarshalJSON src v := let '(p, err) := unmarshalPointer string_codec src (null_value v) in (mkNullable p true, err) |}.

(** Floating-point numbers and times are written and read by their own codecs. *)
Section OtherTypes.
Context {float32 float64 Time : Type}.
Context (float32_codec : Codec float32) (float64_codec : Codec float64) (time_codec : Codec Time).

Definition NullableFloat32 : NullableOps float32 := {|
  Get v := null_value v;
  Set_ val v := mkNullable val true;
  IsSet v := null_isSet v;
  Unset_ v := mkNullable None false;
  NewNullable val := mkNullable val true;
  MarshalJSON v := Done (marshalPointer float32_codec (null_value v));
  UnmarshalJSON src v := let '(p, err) := unmarshalPointer float32_codec src (null_value v) in (mkNullable p true, err) |}.

Definition NullableFloat64 : NullableOps float64 := {|
  Get v := null_value v;
  Set_ val v := mkNullable val true;
  IsSet v := null_isSet v;
  Unset_ v := mkNullable None false;
  NewNullable val := mkNullable val true;
  MarshalJSON v := Done (marshalPointer float64_codec (null_value v));
  UnmarshalJSON src v := let '(p, err) := unmarshalPointer float64_codec src (null_value v) in (mkNullable p true, err) |}.

(** [v.value.MarshalJSON()] calls the method of the time itself: a nil pointer panics. *)
Definition NullableTime : NullableOps Time := {|
  Get v := null_value v;
  Set_ val v := mkNullable val true;
  IsSet v := null_isSet v;
  Unset_ v := mkNullable None false;
  NewNullable val := mkNullable val true;
  MarshalJSON v :=
    match null_value v with
    | None => Panic "value method time.Time.MarshalJSON called using nil *Time pointer"
    | Some t => Done (marshalPointer time_codec (Some t))
    end;
  UnmarshalJSON src v := let '(p, err) := unmarshalPointer time_codec src (null_value v) in (mkNullable p true, err) |}.
End OtherTypes.

(** ** The laws *)

(** A nullable value tells three states apart: missing, null and a value.  What is set is
    got, and a value that can be written is read back over any other. *)
Record NullableLaws {A} (ops : NullableOps A) (valid : A -> Prop) : Prop := {
  law_Set val v : Get ops (Set_ ops val v) = val /\ IsSet ops (Set_ ops val v) = true;
  law_New val v : NewNullable ops val = Set_ ops val v;
  law_Unset v : Get ops (Unset_ ops v) = None /\ IsSet ops (Unset_ ops v) = false;
  law_value a v : valid a -> exists text, MarshalJSON ops (NewNullable ops (Some a)) = Done (inl text) /\
    UnmarshalJSON ops text v = (NewNullable ops (Some a), None);
  law_null v : UnmarshalJSON ops "null" v = (NewNullable ops None, None);
  law_syntax text err v : json_Parse text = inr err -> UnmarshalJSON ops text v = (Set_ ops (Get ops v) v, Some err)
}.

(** A codec that reads what it writes. *)
Definition codec_ok {A} (c : Codec A) (valid : A -> Prop) : Prop :=
  forall a, valid a -> exists v, codec_encode c a = inl v /\ v <> VNull /\ value_ok v /\
    forall old, codec_decode c old v = (a, None).

Lemma Parse_Marshal_exact v : value_ok v -> json_Parse (json_Marshal v) = inl v.
Proof. intros Hv. rewrite <- (str_app_nil_r (json_Marshal v)). by apply Parse_Marshal. Qed.

Lemma unmarshal_marshal {A} (c : Codec A) valid a old :
  codec_ok c valid -> valid a ->
  exists text, marshalPointer c (Some a) = inl text /\ unmarshalPointer c text old = (Some a, None).
Proof.
  intros Hc Ha. destruct (Hc a Ha) as (v & Ev & Hne & Hok & Hd). unfold marshalPointer, unmarshalPointer. rewrite Ev.
  eexists. split; [done|]. rewrite Parse_Marshal_exact by done. specialize (Hd (default (codec_zero c) old)).
  destruct v; try done; by rewrite Hd.
Qed.

Ltac nullable_laws Hc := split;
  [ done | done | done
  | intros a v Ha; destruct (unmarshal_marshal _ _ a (null_value v) Hc Ha) as (text & E & Eu);
    exists text; cbn -[marshalPointer unmarshalPointer]; rewrite E, Eu; done
  | done
  | intros text err v E; cbn -[unmarshalPointer]; unfold unmarshalPointer; by rewrite E ].

Lemma bool_codec_ok : codec_ok bool_codec (fun _ => True).
Proof. intros b _. exists (VBool b). repeat split; [done|constructor]. Qed.
Lemma string_codec_ok : codec_ok string_codec (fun _ => True).
Proof. intros s _. exists (VString s). repeat split; [done|constructor]. Qed.

(** *** Integers *)
Lemma digit_char_digit d : (0 <= d < 10)%Z -> isDigit (digit_char d) = true /\ (digit_char d = "0"%char -> d = 0%Z).
Proof.
  intros Hd. assert (d ∈ (seqZ 0 10)) as Hin by (apply elem_of_seqZ; lia).
  assert (Forall (fun d => isDigit (digit_char d) = true /\ (digit_char d = "0"%char -> d = 0%Z)) (seqZ 0 10)) as HF
    by (by repeat constructor).
  rewrite list.Forall_forall in HF. auto.
Qed.

Definition allDigits (s : string) : Prop := spanDigits s = (s, "").

Lemma decimal_digits fuel n acc : (0 <= n)%Z -> allDigits acc -> allDigits (decimal fuel n acc).
Proof.
  revert n acc. induction fuel as [|fuel IH]; intros n acc Hn Hacc; [done|]. cbn [decimal].
  assert (Hcons : forall d, (0 <= d < 10)%Z -> allDigits (String (digit_char d) acc)).
  { intros d Hd. unfold allDigits in *. simpl. destruct (digit_char_digit d Hd) as [-> _]. by rewrite Hacc. }
  destruct (Z.ltb_spec n 10); [apply Hcons; lia|]. apply IH; [apply Z.div_pos; lia|].
  apply Hcons, Z.mod_pos_bound. lia.
Qed.

(** A number other than 0 does not start with 0. *)
Lemma decimal_leading fuel n acc :
  (1 <= n < 10 ^ Z.of_nat fuel)%Z -> exists d s, decimal fuel n acc = String (digit_char d) s /\ (1 <= d < 10)%Z.
Proof.
  revert n acc. induction fuel as [|fuel IH]; intros n acc Hn; [simpl in Hn; lia|]. cbn [decimal].
  destruct (Z.ltb_spec n 10) as [Hlt|Hge]; [exists n, acc; split; [done|lia]|].
  rewrite Nat2Z.inj_succ, Z.pow_succ_r in Hn by lia. apply IH. split.
  - apply Z.div_le_lower_bound; lia.
  - apply Z.div_lt_upper_bound; lia.
Qed.

Lemma integerPart_decimal n :
  (0 <= n < 10 ^ 19)%Z -> integerPart (decimal 19 n "") = Some (decimal 19 n "", "").
Proof.
  intros Hn. destruct (decide (n = 0%Z)) as [->|Hne]; [done|].
  pose proof (decimal_digits 19 n "" ltac:(lia) eq_refl) as Hd.
  destruct (decimal_leading 19 n "") as (d & s & E & Hd'); [lia|]. rewrite E in *.
  destruct (digit_char_digit d) as [Hdig H0]; [lia|].
  assert (someDigits (String (digit_char d) s) = Some (String (digit_char d) s, "")) as Hs.
  { unfold someDigits. by rewrite Hd. }
  assert (digit_char d <> "0"%char) as Hnz by (intros ?; specialize (H0 ltac:(done)); lia).
  rewrite <- Hs. destruct (digit_char d) as [[] [] [] [] [] [] [] []]; first [reflexivity|by destruct Hnz].
Qed.

Lemma Itoa_number z : (- 2 ^ 63 <= z < 2 ^ 63)%Z -> number_ok (Itoa z).
Proof.
  intros Hz. unfold number_ok, Itoa, parseNumber. destruct (Z.ltb_spec z 0) as [Hneg|Hpos].
  - cbn [optional]. change (Ascii.eqb "-" "-") with true. cbv iota.
    rewrite integerPart_decimal by lia. simpl. by rewrite str_app_nil_r.
  - pose proof (integerPart_decimal z ltac:(lia)) as Hi.
    destruct (decimal_first 19 z "") as (d & s & E & Hd); [lia|lia|]. rewrite E in *. cbn [optional].
    destruct (Ascii.eqb_spec (digit_char d) "-") as [Hm|_]; [by destruct (digit_char_plain d Hd)|].
    rewrite Hi. simpl. by rewrite str_app_nil_r.
Qed.

Lemma Atoi_Itoa_int64 z : (- 2 ^ 63 <= z < 2 ^ 63)%Z -> Atoi (Itoa z) = Some z.
Proof.
  intros Hz. destruct (Z.ltb_spec z 0) as [Hneg|Hpos]; [|apply Atoi_Itoa; lia].
  unfold Itoa. destruct (Z.ltb_spec z 0); [|lia]. unfold Atoi.
  pose proof (digits_decimal 19 (- z) "" ltac:(lia)) as Hd.
  assert (unsigned (decimal 19 (- z) "") = Some (- z)%Z) as ->.
  { destruct (decimal_first 19 (- z) "") as (d & s & E & _); [lia|lia|]. unfold unsigned. rewrite E in *. by rewrite Hd. }
  simpl.
  rewrite Z.opp_involutive. assert (in_int64 z = true) as -> by (apply in_int64_spec; lia). done.
Qed.

Lemma int_codec_ok bits :
  (1 <= bits <= 64)%Z -> codec_ok (int_codec bits) (fun z => in_bits bits z = true).
Proof.
  intros Hb z Hz. exists (VNumber (Itoa z)).
  assert (- 2 ^ 63 <= z < 2 ^ 63)%Z as Hz'.
  { unfold in_bits in Hz. pose proof (Z.pow_le_mono_r 2 (bits - 1) 63 ltac:(lia) ltac:(lia)). lia. }
  split; [done|]. split; [done|]. split; [constructor; by apply Itoa_number|]. intros old.
  cbn [codec_decode int_codec]. by rewrite (Atoi_Itoa_int64 z Hz'), Hz.
Qed.

(** The nullable types of the generated REST clients keep apart a member that was never
    set, one that is null and one with a value, and every valid value is read back from the
    JSON it is written as, whatever the variable held; a text that is not JSON is reported
    and leaves the value.  A nullable time that is null cannot be written: it panics. *)
Theorem nullable_laws {float32 float64 Time} (c32 : Codec float32) (c64 : Codec float64) (ct : Codec Time) v32 v64 vt :
  codec_ok c32 v32 -> codec_ok c64 v64 -> codec_ok ct vt ->
  NullableLaws NullableBool (fun _ => True) /\ NullableLaws NullableString (fun _ => True) /\
  NullableLaws NullableInt (fun z => in_bits 64 z = true) /\ NullableLaws NullableInt32 (fun z => in_bits 32 z = true) /\
  NullableLaws NullableInt64 (fun z => in_bits 64 z = true) /\
  NullableLaws (NullableFloat32 c32) v32 /\ NullableLaws (NullableFloat64 c64) v64 /\ NullableLaws (NullableTime ct) vt /\
  (forall v, null_value v = None -> exists why, MarshalJSON (NullableTime ct) v = Panic why).
Proof.
  intros H32 H64 Ht. pose proof (int_codec_ok 64 ltac:(lia)) as Hi64. pose proof (int_codec_ok 32 ltac:(lia)) as Hi32.
  pose proof bool_codec_ok as Hb. pose proof string_codec_ok as Hs.
  split; [nullable_laws Hb|]. split; [nullable_laws Hs|]. split; [nullable_laws Hi64|]. split; [nullable_laws Hi32|].
  split; [nullable_laws Hi64|]. split; [nullable_laws H32|]. split; [nullable_laws H64|]. split; [nullable_laws Ht|].
  intros v E. cbn [MarshalJSON NullableTime]. rewrite E. eauto.
Qed.

(** Floating-point numbers with whole values, and times as their texts. *)
Lemma nullable_laws_witness :
  NullableLaws (NullableFloat32 (int_codec 64)) (fun z => in_bits 64 z = true) /\
  UnmarshalJSON NullableInt32 "2147483648" (mkNullable (Some 7%Z) false) = (mkNullable (Some 7%Z) true, Some typeError) /\
  UnmarshalJSON NullableInt "-9223372036854775808" (mkNullable None false) =
    (mkNullable (Some (-9223372036854775808)%Z) true, None).
Proof.
  destruct (nullable_laws (int_codec 64) (int_codec 64) string_codec _ _ _
    (int_codec_ok 64 ltac:(lia)) (int_codec_ok 64 ltac:(lia)) string_codec_ok) as (_ & _ & _ & _ & _ & H & _).
  split; [exact H|]. split; vm_compute; reflexivity.
Defined.
