(* ===== verification/OpenAPIRuntime.v ===== *)
(** * The REST client as it is generated

    [pkg/connectors/policymanager/openapiclient] in full, for any caller: bodies of every
    type, multipart and URL-encoded forms, the authentication a context carries, the answers
    of every type, the requests as they are built ([client.go], [configuration.go],
    [api_default.go], [response.go]).  [OpenAPIClient] is what these come to for the calls
    the manager makes.  The operating system (files), [net/url], XML, the detection of
    content types and [time.Parse] are parameters. *)
From stdpp Require Import base gmap strings list numbers.
From Stdlib Require Import Ascii.
From S2P Require Import Prelude GoStrings Base64 GoInt GoJSON Types External Utils Policy Proto PolicyClient CatalogClient AppController Connectors OpenAPIClient.

(** ** strings, unicode/utf8, path/filepath *)
Definition inSet (cutset : string) (c : ascii) : bool := existsb (Ascii.eqb c) (String.list_ascii_of_string cutset).
Fixpoint TrimLeft (s cutset : string) : string :=
  match s with String c s' => if inSet cutset c then TrimLeft s' cutset else s | EmptyString => "" end.
Fixpoint TrimRight (s cutset : string) : string :=
  match s with
  | EmptyString => ""
  | String c s' =>
      match TrimRight s' cutset with
      | EmptyString => if inSet cutset c then "" else String c ""
      | t => String c t
      end
  end.
Definition Trim (s cutset : string) : string := TrimRight (TrimLeft s cutset) cutset.

(** [utf8.RuneCountInString]: a byte that does not start a valid sequence counts as one. *)
Definition between (lo hi : nat) (c : ascii) : bool := let n := nat_of_ascii c in Nat.leb lo n && Nat.leb n hi.
Definition cont : ascii -> bool := between 128 191.
(** The bounds of the second byte, and how many bytes follow it. *)
Definition leading (c : ascii) : option (nat * nat * nat) :=
  if between 194 223 c then Some (128, 191, 0)
  else if between 224 224 c then Some (160, 191, 1)
  else if between 237 237 c then Some (128, 159, 1)
  else if between 225 239 c then Some (128, 191, 1)
  else if between 240 240 c then Some (144, 191, 2)
  else if between 241 243 c then Some (128, 191, 2)
  else if between 244 244 c then Some (128, 143, 2)
  else None.
Fixpoint RuneCount (s : string) : nat :=
  match s with
  | EmptyString => 0
  | String c s1 =>
      S (match leading c, s1 with
         | Some (lo, hi, k), String c1 s2 =>
             if between lo hi c1 then
               match k, s2 with
               | 0, _ => RuneCount s2
               | 1, String c2 s3 => if cont c2 then RuneCount s3 else RuneCount s1
               | S (S _), String c2 (String c3 s4) => if cont c2 && cont c3 then RuneCount s4 else RuneCount s1
               | _, _ => RuneCount s1
               end
             else RuneCount s1
         | _, _ => RuneCount s1
         end)
  end.
Definition strlen (s : string) : Z := Z.of_nat (RuneCount s).

(** [filepath.Base] *)
Definition Base (path : string) : string :=
  if path =? "" then "."
  else let base := afterLastSlash (TrimRight path "/") in if base =? "" then "/" else base.

Example library_examples :
  base64 "user:pass" = "dXNlcjpwYXNz" /\ base64 "ab" = "YWI=" /\ Base "/a/b.csv" = "b.csv" /\ Base "//" = "/" /\
  strlen (String "226" (String "130" (String "172" (String "255" "a")))) = 3%Z /\ Trim "[a b]" "[]" = "a b".
Proof. vm_compute. repeat split. Qed.

(** ** configuration.go *)
Definition contextKey_String (c : string) : string := "auth " +:+ c.
Definition ContextOAuth2 : string := "token".
Definition ContextBasicAuth : string := "basic".
Definition ContextAccessToken : string := "accesstoken".
Definition ContextAPIKeys : string := "apiKeys".
Definition ContextHttpSignatureAuth : string := "httpsignature".

Record BasicAuth := mkBasicAuth { auth_UserName : string; auth_Password : string }.
Record APIKey := mkAPIKey { key_Key : string; key_Prefix : string }.

Definition NewConfiguration : Configuration :=
  mkConfiguration "" "" ∅ "OpenAPI-Generator/1.0.0/go" false [mkServerConfiguration "https://localhost:8080" ∅] ∅.
Definition AddDefaultHeader (key value : string) (c : Configuration) : Configuration :=
  c <| cfg_DefaultHeader := <[key := value]> (cfg_DefaultHeader c) |>.
Definition ServerURL `{MapRange} (c : Configuration) (index : Z) (variables : gmap string string) : string + error :=
  ServerConfigurations_URL (cfg_Servers c) index variables.

(** ** client.go: parameters *)

(** [typeCheckParameter]; an object is given by the name of its type, and may be nil. *)
Definition typeCheckParameter (obj : option string) (expected name : string) : option error :=
  match obj with
  | None => None
  | Some type =>
      if type <>? expected
      then Some (newError ("Expected " +:+ name +:+ " to be of type " +:+ expected +:+ " but received " +:+ type +:+ "."))
      else None
  end.

(** A parameter: nil, a slice of values, a time (by its text in RFC 3339), or another value;
    values by the text [%v] gives. *)
Inductive parameter :=
| ParamNil
| ParamSlice (elements : list string)
| ParamTime (rfc3339 : string)
| ParamValue (text : string).

Definition delimiterOf (collectionFormat : string) : string :=
  if collectionFormat =? "pipes" then "|"
  else if collectionFormat =? "ssv" then " "
  else if collectionFormat =? "tsv" then String "009" ""
  else if collectionFormat =? "csv" then ","
  else "".

Definition parameterToString (obj : parameter) (collectionFormat : string) : outcome string :=
  match obj with
  | ParamNil => Panic "invalid memory address or nil pointer dereference"
  | ParamSlice elements =>
      Done (Trim (Replace ("[" +:+ Join elements " " +:+ "]") " " (delimiterOf collectionFormat)) "[]")
  | ParamTime t => Done t
  | ParamValue text => Done text
  end.

(** [parameterToJson] of what [json.Marshal] gives *)
Definition parameterToJson (document : value + error) : string + error :=
  match document with inl v => inl (json_Marshal v) | inr err => inr err end.

Definition atoi (s : string) : option Z := Atoi s.
Definition reportError (text : string) : error := newError text.

(** ** client.go: caching *)
Definition parseDirective (cc : gmap string string) (part : string) : outcome (gmap string string) :=
  let part := Trim part " " in
  if part =? "" then Done cc
  else if existsb (Ascii.eqb "=") (String.list_ascii_of_string part) then
    match Split part "=" with
    | k :: v :: _ => Done (<[Trim k " " := Trim v ","]> cc)
    | _ => Panic "index out of range"
    end
  else Done (<[part := ""]> cc).

Fixpoint parseDirectives (parts : list string) (cc : gmap string string) : outcome (gmap string string) :=
  match parts with
  | [] => Done cc
  | part :: parts => cc ← parseDirective cc part; parseDirectives parts cc
  end.

Definition parseCacheControl (headers : Header) : outcome (gmap string string) :=
  parseDirectives (Split (Header_Get "Cache-Control" headers) ",") ∅.

(** [time]: durations in nanoseconds *)
Class GoTime := {
  Time : Type;
  zeroTime : Time;
  time_Parse_RFC1123 : string -> Time + error;
  time_ParseDuration : string -> Z + error;
  time_Add : Time -> Z -> Time
}.

(** [CacheExpires]; [now] is [time.Now()]. *)
Definition CacheExpires `{GoTime} (now : Time) (r : Response) : outcome Time :=
  match time_Parse_RFC1123 (Header_Get "date" (rs_Header r)) with
  | inr _ => Done now
  | inl date =>
      cc ← parseCacheControl (rs_Header r);
      Done (match cc !! "max-age" with
            | Some maxAge =>
                match time_ParseDuration (maxAge +:+ "s") with
                | inr _ => date
                | inl lifetime => time_Add date lifetime
                end
            | None =>
                let expiresHeader := Header_Get "Expires" (rs_Header r) in
                if expiresHeader <>? "" then
                  match time_Parse_RFC1123 expiresHeader with inr _ => date | inl expires => expires end
                else zeroTime
            end)
  end.

(** ** client.go: bodies *)

(** [reflect.Kind], as far as it is told apart *)
Inductive Kind := KStruct | KMap | KPtr | KString | KSlice | KOther.

(** A body of type [interface{}]: a reader, a pointer to a file (which may be nil), bytes, a
    string, a pointer to a string, or a value with what [json.Marshal] gives for it and its
    XML.  The bytes of a reader end with end of file or an error. *)
Inductive anyBody :=
| ReaderBody (kind : Kind) (bytes : string) (readError : option error)
| FileBody (file : option (string * option error))
| BytesBody (bytes : string)
| StringBody (s : string)
| StringPtrBody (s : option string)
| ModelBody (kind : Kind) (document : value + error) (xml : string + error).

Definition kindOf (body : anyBody) : Kind :=
  match body with
  | ReaderBody kind _ _ => kind
  | FileBody _ => KPtr
  | BytesBody _ => KSlice
  | StringBody _ => KString
  | StringPtrBody _ => KPtr
  | ModelBody kind _ _ => kind
  end.

(** [bodyBuf.ReadFrom] *)
Definition ReadFrom (bytes : string) (readError : option error) : string + error :=
  match readError with Some err => inr err | None => inl bytes end.

(** ** mime/multipart

    The writer: its boundary, what was written, and whether a part was started. *)
Record Writer := mkWriter { w_boundary : string; w_text : string; w_started : bool }.
Definition crlf : string := String "013" (String "010" "").
Definition dquote : string := String quote "".

Definition NewWriter (boundary : string) : Writer := mkWriter boundary "" false.
Definition CreatePart (header : list (string * string)) (w : Writer) : Writer :=
  mkWriter (w_boundary w)
    (w_text w +:+ (if w_started w then crlf else "") +:+ "--" +:+ w_boundary w +:+ crlf
     +:+ Join ((fun kv => kv.1 +:+ ": " +:+ kv.2 +:+ crlf) <$> header) "" +:+ crlf) true.
Definition WritePart (text : string) (w : Writer) : Writer :=
  mkWriter (w_boundary w) (w_text w +:+ text) (w_started w).
Fixpoint escapeQuotes (s : string) : string :=
  match s with
  | EmptyString => ""
  | String c s' =>
      (if Ascii.eqb c backslash || Ascii.eqb c quote then escape (String c "") else String c "") +:+ escapeQuotes s'
  end.
Definition named (attribute value : string) : string := attribute +:+ "=" +:+ dquote +:+ escapeQuotes value +:+ dquote.
Definition WriteField (fieldname value : string) (w : Writer) : Writer :=
  WritePart value (CreatePart [("Content-Disposition", "form-data; " +:+ named "name" fieldname)] w).
Definition CreateFormFile (fieldname filename : string) (w : Writer) : Writer :=
  CreatePart [("Content-Disposition", "form-data; " +:+ named "name" fieldname +:+ "; " +:+ named "filename" filename);
              ("Content-Type", "application/octet-stream")] w.
Definition Writer_Close (w : Writer) : Writer :=
  WritePart (crlf +:+ "--" +:+ w_boundary w +:+ "--" +:+ crlf) w.
Definition FormDataContentType (w : Writer) : string :=
  let b := w_boundary w in
  "multipart/form-data; boundary=" +:+
  (if existsb (inSet (String quote (String backslash "()<>@,;:/[]?= "))) (String.list_ascii_of_string b)
   then dquote +:+ b +:+ dquote else b).

Section Runtime.
Context `{MapRange, NetURL}.
(** [http.DetectContentType]; opening the cleaned path of a file and reading it *)
Context (DetectContentType : string -> string) (os_Open : string -> (string * option error) + error).
(** the random boundary of a multipart writer *)
Context (boundary : string).

Definition detectContentTypeOf (body : anyBody) : string :=
  match kindOf body with
  | KStruct | KMap | KPtr => "application/json; charset=utf-8"
  | KString => "text/plain; charset=utf-8"
  | kind =>
      match body, kind with
      | BytesBody b, _ => DetectContentType b
      | _, KSlice => "application/json; charset=utf-8"
      | _, _ => "text/plain; charset=utf-8"
      end
  end.

Definition setBodyOf (body : anyBody) (contentType : string) : outcome (string + error) :=
  written ←
    match body with
    | ReaderBody _ bytes readError => Done (ReadFrom bytes readError)
    | FileBody None => Panic "invalid memory address or nil pointer dereference"
    | FileBody (Some (bytes, readError)) => Done (ReadFrom bytes readError)
    | BytesBody b => Done (inl b)
    | StringBody s => Done (inl s)
    | StringPtrBody None => Panic "invalid memory address or nil pointer dereference"
    | StringPtrBody (Some s) => Done (inl s)
    | ModelBody _ document xml =>
        if jsonCheck contentType then
          Done (match document with inl v => inl (json_Marshal v +:+ newlineC) | inr err => inr err end)
        else if xmlCheck contentType then Done xml
        else Done (inl "")
    end;
  Done (match written with
        | inr err => inr err
        | inl text => if text =? "" then inr (newError ("Invalid body type " +:+ contentType +:+ newlineC)) else inl text
        end).

(** The body and the header parameters with its type. *)
Definition postBodyOf (body : option anyBody) (headerParams : gmap string string)
    : outcome ((option string * gmap string string) + error) :=
  match body with
  | None => Done (inl (None, headerParams))
  | Some body =>
      let given := default "" (headerParams !! "Content-Type") in
      let contentType := if given =? "" then detectContentTypeOf body else given in
      let headerParams := if given =? "" then <["Content-Type" := contentType]> headerParams else headerParams in
      r ← setBodyOf body contentType;
      Done (match r with inr err => inr err | inl text => inl (Some text, headerParams) end)
  end.

(** ** client.go: forms *)
Definition addFile (fieldName path : string) (w : Writer) : Writer + error :=
  match os_Open path with
  | inr err => inr err
  | inl (content, readError) =>
      let w := WritePart content (CreateFormFile fieldName (Base path) w) in
      match readError with Some err => inr err | None => inl w end
  end.

(** The values of a form, one field each. *)
Definition formFields (formParams : gmap string (list string)) : list (string * string) :=
  range formParams ≫= fun kv => (fun iv => (kv.1, iv)) <$> kv.2.

Fixpoint writeFields (fields : list (string * string)) (w : Writer) : Writer + error :=
  match fields with
  | [] => inl w
  | (k, iv) :: fields =>
      if HasPrefix k "@" then
        match addFile (str_drop 1 k) iv w with
        | inr err => inr err
        | inl w => writeFields fields w
        end
      else writeFields fields (WriteField k iv w)
  end.

Definition given (fileBytes fileName : string) : bool := (fileBytes <>? "") && (fileName <>? "").

Definition hasFields (formParams : gmap string (list string)) : bool := negb (Nat.eqb (size formParams) 0).

(** The multipart form: its length is taken before the writer is closed. *)
Definition multipartForm (body : option string) (headerParams : gmap string string)
    (formParams : gmap string (list string)) (formFileName fileName fileBytes : string)
    : (option string * gmap string string) + error :=
  if (HasPrefix (default "" (headerParams !! "Content-Type")) "multipart/form-data" && hasFields formParams)
     || given fileBytes fileName then
    match body with
    | Some _ => inr (newError "Cannot specify postBody and multipart form at the same time.")
    | None =>
        match writeFields (formFields formParams) (NewWriter boundary) with
        | inr err => inr err
        | inl w =>
            let w := if given fileBytes fileName
                     then WritePart fileBytes (CreateFormFile formFileName (Base fileName) w) else w in
            let headerParams := <["Content-Type" := FormDataContentType w]> headerParams in
            let headerParams :=
              <["Content-Length" := Itoa (Z.of_nat (String.length (w_text w)))]> headerParams in
            inl (Some (w_text (Writer_Close w)), headerParams)
        end
    end
  else inl (body, headerParams).

Definition urlencodedForm (body : option string) (headerParams : gmap string string)
    (formParams : gmap string (list string)) : (option string * gmap string string) + error :=
  if HasPrefix (default "" (headerParams !! "Content-Type")) "application/x-www-form-urlencoded" && hasFields formParams then
    match body with
    | Some _ => inr (newError "Cannot specify postBody and x-www-form-urlencoded form at the same time.")
    | None =>
        let text := url_Encode formParams in
        inl (Some text, <["Content-Length" := Itoa (Z.of_nat (String.length text))]> headerParams)
    end
  else inl (body, headerParams).

(** ** client.go: authentication *)
Definition SetBasicAuth (userName password : string) (h : Header) : Header :=
  Header_Set "Authorization" ("Basic " +:+ base64 (userName +:+ ":" +:+ password)) h.

(** The three kinds, one after the other; values of other types are ignored. *)
Definition authenticate (ctx : Context_) (h : Header) : Header + error :=
  match ctx with
  | None => inl h
  | Some ctx =>
      let token :=
        match ctx !! ContextOAuth2 with
        | Some (CtxTokenSource _ (inr err)) => inr err
        | Some (CtxTokenSource _ (inl (type, accessToken))) =>
            inl (Header_Set "Authorization" (type +:+ " " +:+ accessToken) h)
        | _ => inl h
        end in
      match token with
      | inr err => inr err
      | inl h =>
          let h := match ctx !! ContextBasicAuth with
                   | Some (CtxBasicAuth userName password) => SetBasicAuth userName password h
                   | _ => h
                   end in
          inl (match ctx !! ContextAccessToken with
               | Some (CtxString auth) => Header_Add "Authorization" ("Bearer " +:+ auth) h
               | _ => h
               end)
      end
  end.

(** ** client.go: prepareRequest *)
Definition prepareRequestFor (cfg : Configuration) (ctx : Context_) (path method : string) (body : option anyBody)
    (headerParams : gmap string string) (queryParams formParams : gmap string (list string))
    (formFileName fileName fileBytes : string) : outcome (Request + error) :=
  r ← postBodyOf body headerParams;
  Done (match r with
  | inr err => inr err
  | inl (body, headerParams) =>
  match multipartForm body headerParams formParams formFileName fileName fileBytes with
  | inr err => inr err
  | inl (body, headerParams) =>
  match urlencodedForm body headerParams formParams with
  | inr err => inr err
  | inl (body, headerParams) =>
  match requestURL cfg path queryParams with
  | inr err => inr err
  | inl url =>
  match http_NewRequest method url with
  | Some err => inr err
  | None =>
      let headers := foldl (fun h (kv : string * string) => Header_Set kv.1 kv.2 h) ∅ (range headerParams) in
      let headers := Header_Add "User-Agent" (cfg_UserAgent cfg) headers in
      match authenticate ctx headers with
      | inr err => inr err
      | inl headers =>
          inl (mkRequest method url
                 (foldl (fun h (kv : string * string) => Header_Add kv.1 kv.2 h) headers (range (cfg_DefaultHeader cfg)))
                 body)
      end
  end end end end end).

(** ** client.go: answers *)

(** What [decode] writes to: a string, a file, a union ([GetActualInstance]) with its
    [UnmarshalJSON] if it has one, or another value.  [Unmarshal] gives what is left in the
    value, and the error. *)
Inductive target_ (A : Type) := TargetString | TargetFile | TargetUnion (unmarshal : option (string -> A * option error)) | TargetModel.
Inductive decoded (A : Type) := Untouched | DecodedString (s : string) | DecodedFile (content : option string) | DecodedModel (a : A).
(** creating a temporary file, writing to it and rewinding it: the file that is left *)
Context (TempFile : string -> option string * option error).

Definition decodeInto {A} (json_Unmarshal xml_Unmarshal : string -> A * option error) (v : target_ A)
    (b contentType : string) : decoded A * option error :=
  if b =? "" then (Untouched A, None)
  else
    let model (r : A * option error) := (DecodedModel A r.1, r.2) in
    match v with
    | TargetString _ => (DecodedString A b, None)
    | TargetFile _ => let '(file, err) := TempFile b in (DecodedFile A file, err)
    | TargetUnion _ _ | TargetModel _ =>
        if xmlCheck contentType then model (xml_Unmarshal b)
        else if jsonCheck contentType then
          match v with
          | TargetUnion _ (Some unmarshal) => model (unmarshal b)
          | TargetUnion _ None =>
              (Untouched A, Some (newError "Unknown type with GetActualInstance but no unmarshalObj.UnmarshalJSON defined"))
          | _ => model (json_Unmarshal b)
          end
        else (Untouched A, Some (newError "undefined response type"))
    end.

(** [GenericOpenAPIError] *)
Record GenericOpenAPIError := mkGenericOpenAPIError { generic_body : string; generic_error : string; generic_model : option value }.
Definition Generic_Error (e : GenericOpenAPIError) : string := generic_error e.
Definition Generic_Body (e : GenericOpenAPIError) : string := generic_body e.
Definition Generic_Model (e : GenericOpenAPIError) : option value := generic_model e.
Inductive clientError := ApiError (e : GenericOpenAPIError) | OtherError (e : error).
Definition clientError_Error (e : clientError) : string :=
  match e with ApiError e => Generic_Error e | OtherError e => Error e end.

(** [APIClient]: its configuration with an HTTP client *)
Definition HTTPClient : Type := Request -> option Response * option error.
Record APIClient := mkAPIClient { client_cfg : Configuration; client_HTTPClient : HTTPClient }.
Definition NewAPIClient (cfg : Configuration) (httpClient : option HTTPClient) (DefaultClient : HTTPClient) : APIClient :=
  mkAPIClient cfg (default DefaultClient httpClient).
Definition GetConfig (c : APIClient) : Configuration := client_cfg c.

(** ** response.go *)
Record APIResponse := mkAPIResponse {
  resp_Response : option Response;
  resp_Message : string;
  resp_Operation : string;
  resp_RequestURL : string;
  resp_Method : string;
  resp_Payload : string
}.
Definition NewAPIResponse (r : option Response) : APIResponse := mkAPIResponse r "" "" "" "" "".
Definition NewAPIResponseWithError (errorMessage : string) : APIResponse := mkAPIResponse None errorMessage "" "" "" "".

(** ** api_default.go *)
Context (DumpRequestOut : Request -> option error) (DumpResponse : option Response -> option error).

(** The response with its body as it was read. *)
Definition withBody (body : string) (r : Response) : Response :=
  mkResponse (rs_StatusCode r) (rs_Status r) (rs_Header r) body None None.

(** What [decode] leaves in a value. *)
Definition decodedOr {A} (zero : A) (d : decoded A) : A := match d with DecodedModel _ a => a | _ => zero end.

Definition answer {A} (zero : A) (json_Unmarshal xml_Unmarshal : string -> A * option error) (resp : Response)
    : A * option Response * option clientError :=
  let body := rs_Bytes resp in
  match rs_Close resp with
  | Some err => (zero, None, Some (OtherError err))
  | None =>
      let resp' := withBody body resp in
      match rs_ReadError resp with
      | Some err => (zero, Some resp', Some (OtherError err))
      | None =>
          if Z.leb 300 (rs_StatusCode resp)
          then (zero, Some resp', Some (ApiError (mkGenericOpenAPIError body (rs_Status resp) None)))
          else
            let '(v, err) := decodeInto json_Unmarshal xml_Unmarshal (TargetModel A) body
                               (Header_Get "Content-Type" (rs_Header resp)) in
            match err with
            | Some err => (decodedOr zero v, Some resp', Some (ApiError (mkGenericOpenAPIError body (Error err) None)))
            | None => (decodedOr zero v, Some resp', None)
            end
      end
  end.

Definition executeOperation {A} (zero : A) (json_Unmarshal xml_Unmarshal : string -> A * option error) (op : operation)
    (missingCred missingRequest : string) (client : APIClient) (ctx : Context_)
    (cred : option string) (request : option anyBody) : outcome (A * option Response * option clientError) :=
  let cfg := client_cfg client in
  match ServerURLWithContext cfg ctx (op_Endpoint op) with
  | inr err => Done (zero, None, Some (ApiError (mkGenericOpenAPIError "" (Error err) None)))
  | inl localBasePath =>
      match cred, request with
      | None, _ => Done (zero, None, Some (OtherError (reportError missingCred)))
      | _, None => Done (zero, None, Some (OtherError (reportError missingRequest)))
      | Some cred, Some request =>
          credText ← parameterToString (ParamValue cred) "";
          r ← prepareRequestFor cfg ctx (localBasePath +:+ op_Path op) "POST" (Some request)
                (headerParamsOf op credText) ∅ ∅ "" "" "";
          Done (match r with
                | inr err => (zero, None, Some (OtherError err))
                | inl req =>
                    match callAPI (client_HTTPClient client) DumpRequestOut DumpResponse cfg req with
                    | (resp, Some err) => (zero, resp, Some (OtherError err))
                    | (None, None) => (zero, None, None)
                    | (Some resp, None) => answer zero json_Unmarshal xml_Unmarshal resp
                    end
                end)
      end
  end.

(** *** The service of a policy manager *)
Context (xml_Encode : value -> string + error).

Record ApiGetPoliciesDecisionsPostRequest := mkPoliciesDecisionsPost {
  pdp_ctx : Context_;
  pdp_ApiService : APIClient;
  pdp_xRequestCred : option string;
  pdp_policyManagerRequest : option GetPolicyDecisionsRequest
}.
Definition GetPoliciesDecisionsPost (a : APIClient) (ctx : Context_) : ApiGetPoliciesDecisionsPostRequest :=
  mkPoliciesDecisionsPost ctx a None None.
Definition XRequestCred (xRequestCred : string) (b : ApiGetPoliciesDecisionsPostRequest) : ApiGetPoliciesDecisionsPostRequest :=
  mkPoliciesDecisionsPost (pdp_ctx b) (pdp_ApiService b) (Some xRequestCred) (pdp_policyManagerRequest b).
Definition PolicyManagerRequest_ (req : GetPolicyDecisionsRequest) (b : ApiGetPoliciesDecisionsPostRequest)
    : ApiGetPoliciesDecisionsPostRequest :=
  mkPoliciesDecisionsPost (pdp_ctx b) (pdp_ApiService b) (pdp_xRequestCred b) (Some req).

(** A pointer to a struct as a body *)
Definition structPointer (document : value) : anyBody := ModelBody KPtr (inl document) (xml_Encode document).

Definition policiesDecisionsPostExecute (json_Unmarshal xml_Unmarshal : string -> GetPolicyDecisionsResponse * option error)
    (b : ApiGetPoliciesDecisionsPostRequest) : outcome (GetPolicyDecisionsResponse * option Response * option clientError) :=
  executeOperation zeroResponse json_Unmarshal xml_Unmarshal policiesDecisions
    "xRequestCred is required and must be specified" "policyManagerRequest is required and must be specified"
    (pdp_ApiService b) (pdp_ctx b) (pdp_xRequestCred b)
    (structPointer ∘ OPA.PolicyRequest_JSON <$> pdp_policyManagerRequest b).
Definition PoliciesDecisions_Execute json_Unmarshal xml_Unmarshal (b : ApiGetPoliciesDecisionsPostRequest) :=
  policiesDecisionsPostExecute json_Unmarshal xml_Unmarshal b.

(** *** The service of a catalog *)
Record ApiGetAssetInfoPostRequest := mkAssetInfoPost {
  aip_ctx : Context_;
  aip_ApiService : APIClient;
  aip_xRequestDataCatalogCred : option string;
  aip_dataCatalogRequest : option GetAssetRequest
}.
Definition GetAssetInfoPost (a : APIClient) (ctx : Context_) : ApiGetAssetInfoPostRequest := mkAssetInfoPost ctx a None None.
Definition XRequestDataCatalogCred (cred : string) (b : ApiGetAssetInfoPostRequest) : ApiGetAssetInfoPostRequest :=
  mkAssetInfoPost (aip_ctx b) (aip_ApiService b) (Some cred) (aip_dataCatalogRequest b).
Definition DataCatalogRequest_ (req : GetAssetRequest) (b : ApiGetAssetInfoPostRequest) : ApiGetAssetInfoPostRequest :=
  mkAssetInfoPost (aip_ctx b) (aip_ApiService b) (aip_xRequestDataCatalogCred b) (Some req).

Definition assetInfoPostExecute (json_Unmarshal xml_Unmarshal : string -> GetAssetResponse * option error)
    (b : ApiGetAssetInfoPostRequest) : outcome (GetAssetResponse * option Response * option clientError) :=
  executeOperation zeroAssetResponse json_Unmarshal xml_Unmarshal assetInfo
    "xRequestDataCatalogCred is required and must be specified" "dataCatalogRequest is required and must be specified"
    (aip_ApiService b) (aip_ctx b) (aip_xRequestDataCatalogCred b)
    (structPointer ∘ GetAssetRequest_JSON <$> aip_dataCatalogRequest b).
Definition AssetInfo_Execute json_Unmarshal xml_Unmarshal (b : ApiGetAssetInfoPostRequest) :=
  assetInfoPostExecute json_Unmarshal xml_Unmarshal b.
End Runtime.

Example basic_authentication :
  authenticate (Some {[ ContextBasicAuth := CtxBasicAuth "user" "pass"; ContextAccessToken := CtxString "t" ]}) ∅ =
  inl {[ "Authorization" := ["Basic dXNlcjpwYXNz"; "Bearer t"] ]}.
Proof. vm_compute. reflexivity. Qed.
