(* ===== verification/OpenAPIRuntimeFacts.v ===== *)
(** * What the generated REST client does

    For the calls of the manager it comes to the client of [OpenAPIClient]; which
    credentials of a context are sent; the directives of a cache and the parameters that
    are written and read; the length of a multipart form. *)
From stdpp Require Import base gmap strings list numbers.
From Stdlib Require Import Ascii.
From S2P Require Import Prelude GoStrings Base64 GoInt GoJSON Types External Utils Policy Proto PolicyClient CatalogClient AppController Connectors OpenAPIClient OpenAPIFacts OpenAPIRuntime.

(** ** The calls of the manager *)

(** A context without credentials. *)
Definition no_credentials (ctx : Context_) : Prop :=
  match ctx with
  | None => True
  | Some m => m !! ContextOAuth2 = None /\ m !! ContextBasicAuth = None /\ m !! ContextAccessToken = None
  end.

Lemma authenticate_none ctx h : no_credentials ctx -> authenticate ctx h = inl h.
Proof. destruct ctx as [m|]; [|done]. intros (E1 & E2 & E3). unfold authenticate. by rewrite E1, E2, E3. Qed.

(** What [Unmarshal] gives, without the content it leaves when it fails. *)
Definition asSum {A} (f : string -> A * option error) (b : string) : A + error :=
  match f b with (a, None) => inl a | (_, Some err) => inr err end.
Definition asError (e : clientError) : error :=
  match e with ApiError e => newError (Generic_Error e) | OtherError e => e end.
(** [resp, _, err := ...Execute()] *)
Definition outcomeOf {A} (r : A * option Response * option clientError) : A + error :=
  match r with (v, _, None) => inl v | (_, _, Some e) => inr (asError e) end.

Section Calls.
Context `{MapRange, NetURL} (DetectContentType : string -> string) (os_Open : string -> (string * option error) + error).
Context (boundary : string) (TempFile : string -> option string * option error).
Context (DumpRequestOut : Request -> option error) (DumpResponse : option Response -> option error).
Context (xml_Encode : value -> string + error).

Lemma prepareRequest_struct cfg ctx path method document headerParams queryParams :
  no_credentials ctx ->
  prepareRequestFor DetectContentType os_Open boundary cfg ctx path method (Some (structPointer xml_Encode document))
    headerParams queryParams ∅ "" "" "" =
  Done (prepareRequest xml_Encode cfg path method (Some (StructBody document)) headerParams queryParams).
Proof.
  intros Hctx. unfold prepareRequestFor, prepareRequest, postBodyOf, requestBody, setBodyOf, setBody. simpl.
  change (detectContentTypeOf DetectContentType (structPointer xml_Encode document)) with "application/json; charset=utf-8".
  set (ct := if _ =? "" then "application/json; charset=utf-8" else _). set (hp := if _ =? "" then _ else headerParams).
  assert (Hrest : forall text hp, multipartForm os_Open boundary (Some text) hp ∅ "" "" "" = inl (Some text, hp) /\
    urlencodedForm (Some text) hp ∅ = inl (Some text, hp)).
  { intros text hp'. unfold multipartForm, urlencodedForm, hasFields. rewrite map_size_empty. simpl.
    by rewrite !andb_false_r. }
  f_equal. destruct (jsonCheck ct); simpl.
  - rewrite json_string_nonempty. destruct (Hrest (json_Marshal document +:+ newlineC) hp) as [-> ->].
    destruct (requestURL _ _ _); [|done]. destruct (http_NewRequest _ _); [done|]. by rewrite authenticate_none.
  - destruct (xmlCheck ct); [|done]. destruct (xml_Encode document) as [text|err]; [|done]. simpl.
    destruct (text =? ""); [done|]. destruct (Hrest text hp) as [-> ->].
    destruct (requestURL _ _ _); [|done]. destruct (http_NewRequest _ _); [done|]. by rewrite authenticate_none.
Qed.

Context {A : Type} (zero : A) (json_Unmarshal xml_Unmarshal : string -> A * option error).

Lemma answer_refines resp :
  outcomeOf (answer TempFile zero json_Unmarshal xml_Unmarshal resp) =
  executed (readAnswer zero (asSum json_Unmarshal) (asSum xml_Unmarshal) resp).
Proof.
  unfold answer, readAnswer, rs_Body, decodeInto, decode, asSum.
  destruct (rs_Close resp); [done|]. destruct (rs_ReadError resp); [done|].
  destruct (Z.leb 300 _); [done|]. destruct (rs_Bytes resp =? ""); [done|].
  destruct (xmlCheck _); [by destruct (xml_Unmarshal _) as [? []]|].
  destruct (jsonCheck _); [|done]. by destruct (json_Unmarshal _) as [? []].
Qed.

(** An operation of the generated client returns, and gives what the operation of
    [OpenAPIClient] gives. *)
Lemma execute_refines op mc mr client ctx cred document :
  no_credentials ctx ->
  exists r, executeOperation DetectContentType os_Open boundary TempFile DumpRequestOut DumpResponse zero
      json_Unmarshal xml_Unmarshal op mc mr client ctx cred (structPointer xml_Encode <$> document) = Done r /\
    outcomeOf r = executed (execute xml_Encode (client_HTTPClient client) DumpRequestOut DumpResponse zero
      (asSum json_Unmarshal) (asSum xml_Unmarshal) op mc mr (client_cfg client) ctx cred document).
Proof.
  intros Hctx. unfold executeOperation, execute.
  destruct (ServerURLWithContext _ _ _) as [url|err]; [|by eexists].
  destruct cred as [cred|]; [|by eexists]. destruct document as [document|]; [|by eexists].
  cbn [fmap option_fmap option_map parameterToString mbind outcome_bind].
  rewrite prepareRequest_struct by done. cbn [mbind outcome_bind]. eexists. split; [reflexivity|].
  destruct (prepareRequest _ _ _ _ _ _ _) as [req|err]; [|done].
  destruct (callAPI _ _ _ _ _) as [[resp|] [err|]]; [done| |done|done]. apply answer_refines.
Qed.
End Calls.

(** The generated REST clients, for any context that carries no credentials: building a
    request step by step and executing it returns without a panic, and gives exactly the
    answer or the error of the client the manager's theorems are stated for, whatever the
    configuration, the server and the operating system do. *)
Theorem generated_client_refines `{MapRange, NetURL} DetectContentType os_Open boundary TempFile DumpRequestOut DumpResponse
    xml_Encode client ctx cred :
  no_credentials ctx ->
  (forall ju xu req, exists r,
     PoliciesDecisions_Execute DetectContentType os_Open boundary TempFile DumpRequestOut DumpResponse xml_Encode ju xu
       (PolicyManagerRequest_ req (XRequestCred cred (GetPoliciesDecisionsPost client ctx))) = Done r /\
     outcomeOf r = executed (GetPoliciesDecisionsPostExecute xml_Encode (client_HTTPClient client) DumpRequestOut DumpResponse
       (asSum ju) (asSum xu) (client_cfg client) ctx (Some cred) (Some req))) /\
  (forall ju xu req, exists r,
     AssetInfo_Execute DetectContentType os_Open boundary TempFile DumpRequestOut DumpResponse xml_Encode ju xu
       (DataCatalogRequest_ req (XRequestDataCatalogCred cred (GetAssetInfoPost client ctx))) = Done r /\
     outcomeOf r = executed (GetAssetInfoPostExecute xml_Encode (client_HTTPClient client) DumpRequestOut DumpResponse
       (asSum ju) (asSum xu) (client_cfg client) ctx (Some cred) (Some req))).
Proof.
  intros Hctx. split; intros ju xu req;
    apply (execute_refines DetectContentType os_Open boundary TempFile DumpRequestOut DumpResponse xml_Encode _ ju xu
      _ _ _ client ctx (Some cred) (Some _) Hctx).
Qed.

(** ** Credentials *)

(** The value of the Authorization header before an access token is added. *)
Definition authorization (m : gmap string ctxValue) (h : Header) : list string :=
  match m !! ContextBasicAuth, m !! ContextOAuth2 with
  | Some (CtxBasicAuth userName password), _ => ["Basic " +:+ base64 (userName +:+ ":" +:+ password)]
  | _, Some (CtxTokenSource _ (inl (type, token))) => [type +:+ " " +:+ token]
  | _, _ => default [] (h !! "Authorization")
  end.

(** Basic authentication replaces an OAuth2 token, an access token is sent beside either,
    and no other header changes; only a token source that fails stops a request. *)
Theorem authenticate_exact m h h' :
  authenticate (Some m) h = inl h' ->
  (default [] (h' !! "Authorization") =
     authorization m h ++ match m !! ContextAccessToken with Some (CtxString t) => ["Bearer " +:+ t] | _ => [] end) /\
  forall k, k <> "Authorization" -> h' !! k = h !! k.
Proof.
  unfold authenticate, authorization, SetBasicAuth, Header_Set, Header_Add.
  change (CanonicalHeaderKey "Authorization") with "Authorization".
  destruct (m !! ContextOAuth2) as [[]|]; simpl; try destruct token as [[? ?]|?]; try done;
  destruct (m !! ContextBasicAuth) as [[]|]; simpl;
  destruct (m !! ContextAccessToken) as [[]|]; simpl; intros [= <-]; rewrite ?app_nil_r;
  (split; [by simplify_map_eq|intros k Hk; by rewrite ?lookup_insert_ne by done]).
Qed.

(** ** Parameters *)

(** A credential is sent as it is. *)
Lemma parameterToString_value s format : parameterToString (ParamValue s) format = Done s.
Proof. done. Qed.

(** Lists with different elements are sent alike: a space in an element becomes a
    delimiter, and brackets at the ends are dropped. *)
Theorem parameter_list_ambiguous :
  parameterToString (ParamSlice ["a b"; "c"]) "csv" = parameterToString (ParamSlice ["a"; "b"; "c"]) "csv" /\
  parameterToString (ParamSlice ["[x]"]) "csv" = parameterToString (ParamSlice ["x"]) "csv".
Proof. split; vm_compute; reflexivity. Qed.

(** ** Forms *)

(** The length announced for a multipart form is short of its length by the closing
    boundary, which is written after it is taken. *)
Theorem multipart_length_short `{MapRange} os_Open boundary headerParams formParams formFileName fileName fileBytes text hp :
  multipartForm os_Open boundary None headerParams formParams formFileName fileName fileBytes = inl (Some text, hp) ->
  exists n, hp !! "Content-Length" = Some (Itoa (Z.of_nat n)) /\ n + String.length boundary + 8 = String.length text.
Proof.
  assert (Hb : forall fields w w', writeFields os_Open fields w = inl w' -> w_boundary w' = w_boundary w).
  { intros fields. induction fields as [|[k iv] fields IH]; intros w w'; simpl; [by intros [= ->]|].
    destruct (HasPrefix k "@"); [|intros E%IH; done]. unfold addFile. destruct (os_Open iv) as [[content [err|]]|err]; try done.
    intros E%IH. done. }
  unfold multipartForm. destruct (_ || _); [|done].
  destruct (writeFields _ _ _) as [w|err] eqn:E; [|done]. apply Hb in E. intros [= <- <-].
  set (w' := if given fileBytes fileName then _ else w).
  assert (w_boundary w' = boundary) as Hw by (unfold w'; destruct (given _ _); exact E).
  exists (String.length (w_text w')). split; [by rewrite lookup_insert_eq|].
  unfold Writer_Close, WritePart. cbn [w_text]. rewrite Hw, !str_length_app. simpl. lia.
Qed.

(** ** The directives of a cache *)
Lemma Split_equals part :
  existsb (Ascii.eqb "=") (String.list_ascii_of_string part) = true -> exists k v rest, Split part "=" = k :: v :: rest.
Proof.
  induction part as [|c part IH]; [done|]. cbn [String.list_ascii_of_string existsb Split]. rewrite Ascii.eqb_sym.
  destruct (Ascii.eqb c "=") eqn:E; cbn [orb].
  - intros _. destruct (Split part "=") as [|v rest] eqn:Es; [by apply Split_nonempty in Es|]. eauto.
  - intros (k & v & rest & ->)%IH. eauto.
Qed.

(** The directives of every header are read without a panic, and so is the time an answer
    expires at. *)
Lemma parseCacheControl_returns headers : returns (parseCacheControl headers).
Proof.
  unfold parseCacheControl. generalize (∅ : gmap string string) as cc.
  induction (Split _ ",") as [|part parts IH]; intros cc; simpl; [by eexists|].
  assert (returns (parseDirective cc part)) as (cc' & ->).
  { unfold parseDirective. destruct (Trim part " " =? ""); [by eexists|].
    destruct (existsb _ _) eqn:E; [|by eexists].
    destruct (Split_equals _ E) as (k & v & rest & ->). by eexists. }
  apply IH.
Qed.

Lemma CacheExpires_returns `{GoTime} now r : returns (CacheExpires now r).
Proof.
  unfold CacheExpires. destruct (time_Parse_RFC1123 _); [|by eexists].
  destruct (parseCacheControl_returns (rs_Header r)) as (cc & ->). by eexists.
Qed.

(** *** A list of directives is read back *)

(** A word of a directive: no separator, and no space at its ends. *)
Definition plain (s : string) : Prop :=
  s <> "" /\ Forall (fun c => c <> ","%char /\ c <> "="%char /\ c <> " "%char) (String.list_ascii_of_string s).

(** [k=v], or [k] alone when there is no value *)
Definition directive (kv : string * string) : string :=
  if kv.2 =? "" then kv.1 else kv.1 +:+ "=" +:+ kv.2.
Definition directiveWf (kv : string * string) : Prop := plain kv.1 /\ (kv.2 = "" \/ plain kv.2).

Definition free (c : ascii) (s : string) : Prop := c ∉ String.list_ascii_of_string s.

Lemma free_cons c d s : free c (String d s) <-> d <> c /\ free c s.
Proof. unfold free. simpl. rewrite not_elem_of_cons. naive_solver. Qed.
Lemma free_app c s t : free c (s +:+ t) <-> free c s /\ free c t.
Proof.
  induction s as [|d s IH]; [unfold free; set_solver|].
  change (String d s +:+ t) with (String d (s +:+ t)). rewrite !free_cons, IH. naive_solver.
Qed.

Lemma Split_free s sep : free sep s -> Split s sep = [s].
Proof.
  induction s as [|c s IH]; [done|]. rewrite free_cons. intros [Hc Hs]. simpl.
  rewrite IH by done. by destruct (Ascii.eqb_spec c sep).
Qed.
Lemma Split_app s sep t : free sep s -> Split (s +:+ String sep t) sep = s :: Split t sep.
Proof.
  induction s as [|c s IH]; intros Hs.
  - simpl. by rewrite Ascii.eqb_refl.
  - apply free_cons in Hs as [Hc Hs]. change (String c s +:+ String sep t) with (String c (s +:+ String sep t)).
    cbn [Split]. rewrite IH by done. by destruct (Ascii.eqb_spec c sep).
Qed.

Lemma inSet_one d c : inSet (String d "") c = Ascii.eqb c d.
Proof. unfold inSet. simpl. apply orb_false_r. Qed.
Lemma TrimRight_free c s : free c s -> TrimRight s (String c "") = s.
Proof.
  induction s as [|d s IH]; [done|]. rewrite free_cons. intros [Hd Hs]. cbn [TrimRight]. rewrite IH, inSet_one by done.
  destruct s; [|done]. by destruct (Ascii.eqb_spec d c).
Qed.
Lemma Trim_free c s : free c s -> Trim s (String c "") = s.
Proof.
  intros Hs. unfold Trim. assert (TrimLeft s (String c "") = s) as ->; [|by apply TrimRight_free].
  destruct s as [|d s]; [done|]. apply free_cons in Hs as [Hd _]. cbn [TrimLeft]. rewrite inSet_one.
  by destruct (Ascii.eqb_spec d c).
Qed.
Lemma Trim_space s : free " " s -> Trim (String " " s) " " = s.
Proof. intros Hs. unfold Trim. cbn [TrimLeft]. rewrite inSet_one. apply (Trim_free " " s Hs). Qed.

Lemma plain_free s : plain s -> free "," s /\ free "=" s /\ free " " s.
Proof.
  intros [_ Hs]. rewrite list.Forall_forall in Hs.
  split; [|split]; intros Hin; destruct (Hs _ Hin) as (H1 & H2 & H3); done.
Qed.

Lemma directive_free kv : directiveWf kv -> free "," (directive kv) /\ free " " (directive kv) /\ directive kv <> "".
Proof.
  intros [Hk Hv]. destruct (plain_free _ Hk) as (Hk1 & _ & Hk2). unfold directive.
  destruct (String.eqb_spec kv.2 "") as [|Hne]; [split; [done|split; [done|apply Hk]]|].
  destruct Hv as [?|Hv]; [done|]. destruct (plain_free _ Hv) as (Hv1 & _ & Hv2).
  rewrite !free_app. split; [|split].
  - split; [done|]. split; [|done]. unfold free. simpl. set_solver.
  - split; [done|]. split; [|done]. unfold free. simpl. set_solver.
  - destruct kv.1; [by destruct Hk|done].
Qed.

Lemma existsb_free c s : free c s -> existsb (Ascii.eqb c) (String.list_ascii_of_string s) = false.
Proof.
  intros Hs. apply not_true_is_false. intros (d & Hin & E%Ascii.eqb_eq)%existsb_exists. subst d.
  apply Hs. by apply list_elem_of_In.
Qed.

Lemma parseDirective_exact cc kv part :
  directiveWf kv -> Trim part " " = directive kv -> parseDirective cc part = Done (<[kv.1 := kv.2]> cc).
Proof.
  intros Hwf Hpart. destruct (directive_free kv Hwf) as (_ & _ & Hne). destruct Hwf as [Hk Hv].
  destruct (plain_free _ Hk) as (_ & Hk1 & Hk2). unfold parseDirective. rewrite Hpart.
  destruct (String.eqb_spec (directive kv) "") as [|_]; [done|]. unfold directive.
  destruct (String.eqb_spec kv.2 "") as [E|Hv0]; [by rewrite existsb_free, E by done|].
  destruct Hv as [?|Hv]; [done|]. destruct (plain_free _ Hv) as (Hv1 & Hv2 & Hv3).
  assert (existsb (Ascii.eqb "=") (String.list_ascii_of_string (kv.1 +:+ "=" +:+ kv.2)) = true) as ->.
  { apply existsb_exists. exists "="%char. split; [|done]. apply list_elem_of_In.
    clear. induction kv.1 as [|c s IH]; simpl; set_solver. }
  change ("=" +:+ kv.2) with (String "=" kv.2). rewrite Split_app, (Split_free kv.2) by done. by rewrite !Trim_free by done.
Qed.

(** Directives that are written as a header are read back, the last value of each. *)
Theorem parseCacheControl_roundtrip ds :
  Forall directiveWf ds ->
  parseCacheControl {[ "Cache-Control" := [Join (directive <$> ds) ", "] ]} =
  Done (foldl (fun cc kv => <[kv.1 := kv.2]> cc) ∅ ds).
Proof.
  intros Hds. unfold parseCacheControl, Header_Get. change (CanonicalHeaderKey "Cache-Control") with "Cache-Control".
  rewrite lookup_singleton_eq. generalize (∅ : gmap string string) as cc.
  destruct Hds as [|kv ds Hkv Hds]; [done|].
  assert (Hgen : forall pre, Trim (pre +:+ directive kv) " " = directive kv -> free "," pre -> forall cc,
    parseDirectives (Split (pre +:+ Join (directive <$> kv :: ds) ", ") ",") cc =
    Done (foldl (fun cc kv => <[kv.1 := kv.2]> cc) cc (kv :: ds))); [|intros cc; apply (Hgen "")].
  2: { destruct (directive_free kv Hkv) as (_ & Hs & _). by apply (Trim_free " "). }
  2: { unfold free. simpl. set_solver. }
  revert kv Hkv. induction Hds as [|kv' ds Hkv' Hds IH]; intros kv Hkv pre Hpre Hfree cc;
    destruct (directive_free kv Hkv) as (Hc & Hs & _).
  - cbn [fmap list_fmap Join]. rewrite Split_free by (by apply free_app). cbn [parseDirectives].
    by rewrite (parseDirective_exact _ kv).
  - change (Join (directive <$> kv :: kv' :: ds) ", ") with
      (directive kv +:+ String "," (" " +:+ Join (directive <$> kv' :: ds) ", ")).
    rewrite <- str_app_assoc, Split_app by (by apply free_app). cbn [parseDirectives].
    rewrite (parseDirective_exact _ kv) by done. apply (IH kv' Hkv' " ").
    + destruct (directive_free kv' Hkv') as (_ & Hs' & _). by apply Trim_space.
    + unfold free. simpl. set_solver.
Qed.

(** ** Instances *)
Module RuntimeExamples.
Import OpenAPIExamples.

(** The client of a policy manager whose server always answers, without credentials in the
    context. *)
Definition api : APIClient := NewAPIClient (openAPIConfiguration "http://opa-connector:80") (Some answered) answered.

Lemma generated_client_refines_witness : exists r,
  @PoliciesDecisions_Execute canonical_range urls (fun _ => "text/plain") (fun _ => inr (newError "no file")) "b"
    (fun _ => (None, None)) (fun _ => None) (fun _ => None) (fun _ => inr (newError "xml"))
    (fun _ => (redaction, None)) (fun _ => (redaction, None))
    (PolicyManagerRequest_ ConnectorExamples.request (XRequestCred "token" (GetPoliciesDecisionsPost api Background))) = Done r /\
  outcomeOf r = inl redaction.
Proof.
  destruct (@generated_client_refines canonical_range urls (fun _ => "text/plain") (fun _ => inr (newError "no file")) "b"
    (fun _ => (None, None)) (fun _ => None) (fun _ => None) (fun _ => inr (newError "xml")) api Background "token")
    as [Hp _]; [by repeat split|].
  destruct (Hp (fun _ => (redaction, None)) (fun _ => (redaction, None)) ConnectorExamples.request) as (r & E & Ho).
  exists r. split; [exact E|]. rewrite Ho. vm_compute. reflexivity.
Defined.
End RuntimeExamples.
