(* ===== verification/OpenAPICatalog.v ===== *)
(** * The REST client of a catalog

    [pkg/connectors/datacatalog/openapiclient] is generated by the same generator as the
    package of the policy manager: [client.go], [configuration.go], [response.go] and
    [utils.go] of the two packages are the same text but for the name of the service in a
    comment.  The definitions of this file are those of the first package, under the names
    they have in the second; its [api_default.go], which differs, is in [OpenAPIRuntime]. *)
From S2P Require Import OpenAPIClient OpenAPIRuntime Nullable.

(** ** client.go *)
Definition jsonCheck := @OpenAPIClient.jsonCheck.
Definition xmlCheck := @OpenAPIClient.xmlCheck.
Definition APIClient := @OpenAPIRuntime.APIClient.
Definition NewAPIClient := @OpenAPIRuntime.NewAPIClient.
Definition atoi := @OpenAPIRuntime.atoi.
Definition selectHeaderContentType := @OpenAPIClient.selectHeaderContentType.
Definition selectHeaderAccept := @OpenAPIClient.selectHeaderAccept.
Definition contains := @OpenAPIClient.contains.
Definition typeCheckParameter := @OpenAPIRuntime.typeCheckParameter.
Definition parameterToString := @OpenAPIRuntime.parameterToString.
Definition delimiterOf := @OpenAPIRuntime.delimiterOf.
Definition parameterToJson := @OpenAPIRuntime.parameterToJson.
Definition callAPI := @OpenAPIClient.callAPI.
Definition GetConfig := @OpenAPIRuntime.GetConfig.
Definition postBodyOf := @OpenAPIRuntime.postBodyOf.
Definition multipartForm := @OpenAPIRuntime.multipartForm.
Definition writeFields := @OpenAPIRuntime.writeFields.
Definition urlencodedForm := @OpenAPIRuntime.urlencodedForm.
Definition requestURL := @OpenAPIClient.requestURL.
Definition authenticate := @OpenAPIRuntime.authenticate.
Definition prepareRequestFor := @OpenAPIRuntime.prepareRequestFor.
Definition decodeInto := @OpenAPIRuntime.decodeInto.
Definition addFile := @OpenAPIRuntime.addFile.
Definition reportError := @OpenAPIRuntime.reportError.
Definition setBodyOf := @OpenAPIRuntime.setBodyOf.
Definition detectContentTypeOf := @OpenAPIRuntime.detectContentTypeOf.
Definition parseDirective := @OpenAPIRuntime.parseDirective.
Definition parseCacheControl := @OpenAPIRuntime.parseCacheControl.
Definition CacheExpires := @OpenAPIRuntime.CacheExpires.
Definition strlen := @OpenAPIRuntime.strlen.
Definition GenericOpenAPIError := @OpenAPIRuntime.GenericOpenAPIError.
Definition Generic_Error := @OpenAPIRuntime.Generic_Error.
Definition Generic_Body := @OpenAPIRuntime.Generic_Body.
Definition Generic_Model := @OpenAPIRuntime.Generic_Model.
(** ** configuration.go *)
Definition contextKey_String := @OpenAPIRuntime.contextKey_String.
Definition ContextOAuth2 := @OpenAPIRuntime.ContextOAuth2.
Definition ContextBasicAuth := @OpenAPIRuntime.ContextBasicAuth.
Definition ContextAccessToken := @OpenAPIRuntime.ContextAccessToken.
Definition ContextAPIKeys := @OpenAPIRuntime.ContextAPIKeys.
Definition ContextHttpSignatureAuth := @OpenAPIRuntime.ContextHttpSignatureAuth.
Definition ContextServerIndex := @OpenAPIClient.ContextServerIndex.
Definition ContextOperationServerIndices := @OpenAPIClient.ContextOperationServerIndices.
Definition ContextServerVariables := @OpenAPIClient.ContextServerVariables.
Definition ContextOperationServerVariables := @OpenAPIClient.ContextOperationServerVariables.
Definition BasicAuth := @OpenAPIRuntime.BasicAuth.
Definition APIKey := @OpenAPIRuntime.APIKey.
Definition ServerVariable := @OpenAPIClient.ServerVariable.
Definition ServerConfiguration := @OpenAPIClient.ServerConfiguration.
Definition Configuration := @OpenAPIClient.Configuration.
Definition NewConfiguration := @OpenAPIRuntime.NewConfiguration.
Definition AddDefaultHeader := @OpenAPIRuntime.AddDefaultHeader.
Definition ServerConfigurations_URL := @OpenAPIClient.ServerConfigurations_URL.
Definition substitute := @OpenAPIClient.substitute.
Definition ServerURL := @OpenAPIRuntime.ServerURL.
Definition getServerIndex := @OpenAPIClient.getServerIndex.
Definition getServerOperationIndex := @OpenAPIClient.getServerOperationIndex.
Definition getServerVariables := @OpenAPIClient.getServerVariables.
Definition getServerOperationVariables := @OpenAPIClient.getServerOperationVariables.
Definition ServerURLWithContext := @OpenAPIClient.ServerURLWithContext.
(** ** response.go *)
Definition APIResponse := @OpenAPIRuntime.APIResponse.
Definition NewAPIResponse := @OpenAPIRuntime.NewAPIResponse.
Definition NewAPIResponseWithError := @OpenAPIRuntime.NewAPIResponseWithError.
(** ** utils.go *)
Definition PtrBool := @Nullable.PtrBool.
Definition NullableBool := @Nullable.NullableBool.
Definition PtrInt := @Nullable.PtrInt.
Definition NullableInt := @Nullable.NullableInt.
Definition PtrInt32 := @Nullable.PtrInt32.
Definition NullableInt32 := @Nullable.NullableInt32.
Definition PtrInt64 := @Nullable.PtrInt64.
Definition NullableInt64 := @Nullable.NullableInt64.
Definition PtrFloat32 := @Nullable.PtrFloat32.
Definition NullableFloat32 := @Nullable.NullableFloat32.
Definition PtrFloat64 := @Nullable.PtrFloat64.
Definition NullableFloat64 := @Nullable.NullableFloat64.
Definition PtrString := @Nullable.PtrString.
Definition NullableString := @Nullable.NullableString.
Definition PtrTime := @Nullable.PtrTime.
Definition NullableTime := @Nullable.NullableTime.
