(* ===== verification/AppFacts.v ===== *)
(** * Correctness of the application controller *)
From stdpp Require Import base gmap strings list numbers.
From S2P Require Import Prelude GoStrings Types External Utils Policy AdminConfig World MultiCluster Storage SelectModules PlotterGen Conditions ResourceGen AppController.

(** [a'] differs from [a] in its status only. *)
Definition same_object (a a' : FybrikApplication) : Prop :=
  app_Meta a' = app_Meta a /\ app_Spec a' = app_Spec a.

#[export] Instance same_object_preorder : PreOrder same_object.
Proof. split; [done|]. intros a b c [? ?] [? ?]. split; congruence. Qed.

Lemma same_object_ids a a' : same_object a a' -> assetIDs a' = assetIDs a.
Proof. intros [_ E]. unfold assetIDs. by rewrite E. Qed.

Lemma same_object_setAssetStates m a : same_object a (setAssetStates m a).
Proof. by destruct a. Qed.

(** The parts of the status other than the states of the assets. *)
Definition same_status (a a' : FybrikApplication) : Prop :=
  appstatus_Generated (app_Status a') = appstatus_Generated (app_Status a) /\
  appstatus_ProvisionedStorage (app_Status a') = appstatus_ProvisionedStorage (app_Status a) /\
  appstatus_ErrorMessage (app_Status a') = appstatus_ErrorMessage (app_Status a).

#[export] Instance same_status_preorder : PreOrder same_status.
Proof. split; [done|]. intros a b c (? & ? & ?) (? & ? & ?). repeat split; congruence. Qed.

(** The outcome of the validation and the observed generation are kept. *)
Definition same_validity (a a' : FybrikApplication) : Prop :=
  appstatus_ValidApplication (app_Status a') = appstatus_ValidApplication (app_Status a) /\
  appstatus_ValidatedGeneration (app_Status a') = appstatus_ValidatedGeneration (app_Status a) /\
  appstatus_ObservedGeneration (app_Status a') = appstatus_ObservedGeneration (app_Status a).

#[export] Instance same_validity_preorder : PreOrder same_validity.
Proof. split; [done|]. intros a b c (? & ? & ?) (? & ? & ?). repeat split; congruence. Qed.

(** A step that only sets conditions: the object is the same, the invariant is kept
    and no condition is taken back. *)
Record progress (a a' : FybrikApplication) : Prop := {
  pr_object : same_object a a';
  pr_status : same_status a a';
  pr_validity : same_validity a a';
  pr_wf : app_wf a';
  pr_deny : forall id, statusOf a id DenyConditionIndex = ConditionTrue ->
    statusOf a' id DenyConditionIndex = ConditionTrue;
  pr_error : forall id, statusOf a id ErrorConditionIndex = ConditionTrue ->
    statusOf a' id ErrorConditionIndex = ConditionTrue;
  pr_ready : forall id, statusOf a id ReadyConditionIndex = ConditionTrue ->
    statusOf a' id ReadyConditionIndex = ConditionTrue
}.

Lemma progress_refl a : app_wf a -> progress a a.
Proof. by split. Qed.

Lemma progress_trans a b c : progress a b -> progress b c -> progress a c.
Proof. intros [] []. split; [by etrans|by etrans|by etrans|done|auto..]. Qed.

Lemma statusOf_update a id st' k i :
  statusOf (setAssetStates (Some (<[id := st']> (gm (assetStates a)))) a) k i =
    if decide (k = id) then from_option cond_Status "" (state_Conditions st' !! i) else statusOf a k i.
Proof.
  unfold statusOf, assetState. rewrite mget_setAssetStates. case_decide as E; [subst|];
    by simplify_map_eq.
Qed.

(** Setting a condition to True. *)
Lemma setCondition_progress a id i f :
  app_wf a -> id ∈ assetIDs a -> i < 3 -> (forall c, cond_Status (f c) = ConditionTrue) ->
  exists a', updateCondition a id i f = Done a' /\ progress a a' /\ statusOf a' id i = ConditionTrue /\
    forall k j, (k, j) <> (id, i) -> statusOf a' k j = statusOf a k j.
Proof.
  intros Hwf Hin Hi Hf.
  destruct (updateCondition_spec a id i f Hwf Hin Hi) as (st & c & st' & Hst & Hc & Hst' & E & Hwf').
  exists (setAssetStates (Some (<[id := st']> (gm (assetStates a)))) a). split; [exact E|].
  assert (i < length (state_Conditions st)) as Hlt by (by eapply lookup_lt_Some).
  assert (state_Conditions st' = <[i := f c]> (state_Conditions st)) as Hcs by (subst st'; by destruct st).
  assert (forall k j, (k, j) <> (id, i) ->
    statusOf (setAssetStates (Some (<[id := st']> (gm (assetStates a)))) a) k j = statusOf a k j) as Hother.
  { intros k j Hne. rewrite statusOf_update. case_decide as E'; [subst k|done].
    rewrite Hcs. rewrite list_lookup_insert_ne by congruence.
    unfold statusOf, assetState. by rewrite Hst. }
  assert (statusOf (setAssetStates (Some (<[id := st']> (gm (assetStates a)))) a) id i = ConditionTrue) as Hset.
  { rewrite statusOf_update, decide_True, Hcs, list_lookup_insert_eq by done. simpl. apply Hf. }
  split; [|auto]. split; [apply same_object_setAssetStates|by destruct a as [? ? []]|by destruct a as [? ? []]|done| | |].
  - intros k Hk. destruct (decide ((k, DenyConditionIndex) = (id, i))) as [[= -> <-]|Hne]; [done|].
    by rewrite Hother.
  - intros k Hk. destruct (decide ((k, ErrorConditionIndex) = (id, i))) as [[= -> <-]|Hne]; [done|].
    by rewrite Hother.
  - intros k Hk. destruct (decide ((k, ReadyConditionIndex) = (id, i))) as [[= -> <-]|Hne]; [done|].
    by rewrite Hother.
Qed.

(** A failure is recorded as a denial or as an error of the asset. *)
Lemma AnalyzeError_spec a id err :
  app_wf a -> id ∈ assetIDs a ->
  exists a', AnalyzeError a id err = Done a' /\ progress a a' /\
    statusOf a' id (if isDenial (Error err) then DenyConditionIndex else ErrorConditionIndex) = ConditionTrue.
Proof.
  intros Hwf Hin. unfold AnalyzeError. destruct (isDenial (Error err)).
  - edestruct (setCondition_progress a id DenyConditionIndex) as (a' & E & Hp & Hs & _);
      [done|done|unfold DenyConditionIndex; lia| |by exists a']. done.
  - edestruct (setCondition_progress a id ErrorConditionIndex) as (a' & E & Hp & Hs & _);
      [done|done|unfold ErrorConditionIndex; lia| |by exists a']. done.
Qed.

Section Requirements.
Context `{MapRange, K8sMeta, Runtime, Schema, TemplateEngine, Encoder} {W : Type}.
Implicit Types (r : Reconciler W).

(** The requirements of an asset do not depend on the status. *)
Lemma constructDataInfo_same r context a a' wc :
  same_object a a' -> constructDataInfo r context a' wc = constructDataInfo r context a wc.
Proof.
  intros [Em Es].
  assert (requestCredentials a' = requestCredentials a) as Hcred.
  { unfold requestCredentials, app_Namespace. by rewrite Es, Em. }
  assert (forall ds pm op, LookupPolicyDecisions ds pm a' op = LookupPolicyDecisions ds pm a op) as HL.
  { intros ds pm op. unfold LookupPolicyDecisions. rewrite Hcred. unfold ConstructOpenAPIReq. by rewrite Es. }
  unfold constructDataInfo. rewrite Hcred. destruct (r_DataCatalog r _ _) as [response|]; [|done].
  assert (CreateDataRequest a' context (asset_ResourceMetadata response) =
    CreateDataRequest a context (asset_ResourceMetadata response)) as ->.
  { unfold CreateDataRequest. by rewrite Es. }
  rewrite HL, Es. unfold GetFybrikApplicationUUID. by rewrite Em.
Qed.

Lemma constructDataInfo_context r context a wc item :
  constructDataInfo r context a wc = inl item -> Context item = context.
Proof.
  unfold constructDataInfo. destruct (r_DataCatalog r _ _); [|done].
  destruct (ValidateAssetResponse _ _ _); [done|].
  destruct (if default false _ then _ else _) as [actions [err|]]; [done|].
  destruct (r_ConfigEvaluator r _) as [out [err|]]; [done|]. by intros [= <-].
Qed.

(** Every dataset gives requirements, or is marked as denied or in error. *)
Lemma collectRequirements_spec r wc data a :
  app_wf a -> Forall (fun d => DataSetID d ∈ assetIDs a) data ->
  exists reqs a', collectRequirements r wc data a = Done (reqs, a') /\ progress a a' /\
    (forall item, item ∈ reqs <-> Context item ∈ data /\ constructDataInfo r (Context item) a wc = inl item) /\
    (forall d err, d ∈ data -> constructDataInfo r d a wc = inr err ->
       statusOf a' (DataSetID d) (if isDenial (Error err) then DenyConditionIndex else ErrorConditionIndex)
         = ConditionTrue).
Proof.
  intros Hwf Hids. revert a Hwf Hids. induction data as [|d data IH]; intros a Hwf Hids.
  { exists [], a. split; [done|]. split; [by apply progress_refl|]. set_solver. }
  apply Forall_cons_1 in Hids as [Hd Hids]. cbn [collectRequirements].
  destruct (constructDataInfo r d a wc) as [req|err] eqn:E.
  - destruct (IH a Hwf Hids) as (reqs & a' & -> & Hp & Hreqs & Herr). simpl.
    exists (req :: reqs), a'. split; [done|]. split; [done|].
    pose proof (constructDataInfo_context _ _ _ _ _ E) as Hctx. split.
    + intros item. rewrite !elem_of_cons, Hreqs. split.
      * intros [->|[Hin Hi]]; [rewrite Hctx; auto|auto].
      * intros [[Hc|Hin] Hi]; [left; rewrite Hc, E in Hi; by injection Hi|auto].
    + intros d' err [->|Hin]%elem_of_cons Hd'; [congruence|]. by apply Herr.
  - destruct (AnalyzeError_spec a (DataSetID d) err Hwf Hd) as (a1 & -> & Hp1 & Hs1). simpl.
    destruct (IH a1) as (reqs & a' & -> & Hp & Hreqs & Herr).
    { apply Hp1. }
    { rewrite (same_object_ids a a1) by apply Hp1. done. }
    exists reqs, a'. split; [done|]. split; [by eapply progress_trans|].
    pose proof (fun c => constructDataInfo_same r c a a1 wc (pr_object _ _ Hp1)) as Hsame. split.
    + intros item. rewrite Hreqs, elem_of_cons, Hsame. split; [intros [? ?]; auto|].
      intros [[Hc|Hin] Hi]; [rewrite Hc, E in Hi; discriminate|auto].
    + intros d' err' [->|Hin]%elem_of_cons Hd'; [|apply Herr; [done|by rewrite Hsame]].
      assert (err' = err) as -> by congruence.
      destruct (isDenial (Error err)); [by apply (pr_deny _ _ Hp)|by apply (pr_error _ _ Hp)].
Qed.

(** An asset the policy manager denies access to. *)
Definition read_denied r (a : FybrikApplication) (d : DataContext) (wc : Cluster) : Prop :=
  exists response resp,
    r_DataCatalog r (mkGetAssetRequest (DataSetID d) OperationType_READ) (requestCredentials a) = inl response /\
    ValidateAssetResponse response DataCatalogTaxonomy (DataSetID d) = None /\
    (0 < LabelSelector_Size (selector_WorkloadSelector (appspec_Selector (app_Spec a))))%Z /\
    r_PolicyManager r (ConstructOpenAPIReq (DataSetID d) a (readOperation wc)) (requestCredentials a) = inl resp /\
    ValidatePolicyDecisionsResponse resp PolicyManagerTaxonomy = None /\ denies resp = true.

Lemma constructDataInfo_denied r a d wc :
  read_denied r a d wc -> constructDataInfo r d a wc = inr (newError ReadAccessDenied).
Proof.
  intros (response & resp & Hcat & Hval & Hsel & Hpm & Hv & Hd).
  unfold constructDataInfo. rewrite Hcat, Hval.
  assert (default false (request_Usage (CreateDataRequest a d (asset_ResourceMetadata response)) !! ReadFlow) = true)
    as ->. { simpl. apply Z.ltb_lt in Hsel. rewrite Hsel. by vm_compute. }
  pose proof (LookupPolicyDecisions_denied (DataSetID d) (r_PolicyManager r) a (readOperation wc) resp Hpm Hv Hd)
    as HL. simpl in HL.
  destruct (LookupPolicyDecisions _ _ _ _) as [actions [err|]]; simpl in HL; [|done].
  injection HL as ->. done.
Qed.

(** C13: an asset the policy manager denies access to is marked with the Deny
    condition and is not passed on to the construction of the plotter, whatever
    the other assets of the application are. *)
Theorem denied_asset_excluded r wc a d :
  app_wf a -> d ∈ appspec_Data (app_Spec a) -> read_denied r a d wc ->
  exists reqs a', collectRequirements r wc (appspec_Data (app_Spec a)) a = Done (reqs, a') /\
    statusOf a' (DataSetID d) DenyConditionIndex = ConditionTrue /\
    forall item, item ∈ reqs -> Context item <> d.
Proof.
  intros Hwf Hin Hden.
  destruct (collectRequirements_spec r wc (appspec_Data (app_Spec a)) a Hwf) as (reqs & a' & E & Hp & Hreqs & Herr).
  { apply list.Forall_forall. intros x Hx. by apply list_elem_of_fmap_2. }
  exists reqs, a'. split; [done|]. pose proof (constructDataInfo_denied r a d wc Hden) as Hd. split.
  - exact (Herr d _ Hin Hd).
  - intros item [_ Hi]%Hreqs Heq. rewrite Heq in Hi. congruence.
Qed.

(** Decisions of the admin policies that are not valid are used all the same:
    the evaluator reports conflicting policies by [Valid = false] without an error,
    and the controller builds the data path from the decisions merged so far. *)
Theorem invalid_configuration_is_used r a d wc item out :
  constructDataInfo r d a wc = inl item ->
  (forall input, r_ConfigEvaluator r input = (out, None)) -> output_Valid out = false ->
  Configuration item = out.
Proof.
  unfold constructDataInfo. intros E Hev _. destruct (r_DataCatalog r _ _); [|done].
  destruct (ValidateAssetResponse _ _ _); [done|].
  destruct (if default false _ then _ else _) as [actions [err|]]; [done|].
  rewrite Hev in E. by injection E as <-.
Qed.
End Requirements.

(** ** The plotter of an application *)
Section Solution.
Context `{MapRange, K8sMeta, Runtime, Schema, TemplateEngine, Encoder} {W : Type}.
Context `{!NestedStringLaws}.
Implicit Types (r : Reconciler W).

(** The asset is marked as denied or in error. *)
Definition refused (a : FybrikApplication) (id : string) : Prop :=
  statusOf a id DenyConditionIndex = ConditionTrue \/ statusOf a id ErrorConditionIndex = ConditionTrue.

Lemma progress_refused a a' id : progress a a' -> refused a id -> refused a' id.
Proof. intros Hp [?|?]; [left; by apply (pr_deny _ _ Hp)|right; by apply (pr_error _ _ Hp)]. Qed.

(** All the steps of a plotter, in the order of their flows. *)
Definition subflows (spec : PlotterSpec) : list SubFlow := plotter_Flows spec ≫= flow_SubFlows.

(** What the plotter promises for the requirements it is built from.  Templates are shared
    by the flows: the last step with a template decides which module it deploys. *)
Record serves (p : PlotterGenerator W) (reqs : list DataInfo) (a : FybrikApplication)
    (spec : PlotterSpec) : Prop := {
  serves_wf : plotter_wf spec;
  serves_all : forall item, item ∈ reqs ->
    refused a (DataSetID (Context item)) \/ exists flow, flow ∈ plotter_Flows spec /\ enforces p item flow;
  serves_only : forall flow, flow ∈ plotter_Flows spec -> exists item, item ∈ reqs /\ enforces p item flow;
  serves_selector : plotter_Selector spec = appspec_Selector (app_Spec a);
  serves_runs : forall i sf, last_use (subflows spec) i sf -> runs p (plotter_Templates spec) sf
}.

Definition known_items (a : FybrikApplication) (reqs : list DataInfo) : Prop :=
  Forall (fun item => DataSetID (Context item) ∈ assetIDs a /\ DataSetID (Context item) <> "") reqs.

Lemma known_items_same a a' reqs : same_object a a' -> known_items a reqs -> known_items a' reqs.
Proof. intros Ho. unfold known_items. by rewrite (same_object_ids a a' Ho). Qed.

Lemma serves_initial p a : serves p [] a (initialPlotterSpec a).
Proof. split; [constructor|set_solver|set_solver|done|]. intros i sf [Hi _]. discriminate Hi. Qed.

(** An asset that could not be served is marked. *)
Lemma serves_refuse p done item a a' spec :
  serves p done a spec -> progress a a' -> refused a' (DataSetID (Context item)) -> serves p (done ++ [item]) a' spec.
Proof.
  intros [Hwf Hall Honly Hsel Hruns] Hp Href. split; [done| | | |done].
  - intros it [Hit|Hit]%elem_of_app.
    + destruct (Hall it Hit) as [?|?]; [left; by eapply progress_refused|by right].
    + apply list_elem_of_singleton in Hit as ->. by left.
  - intros flow (it & Hit & He)%Honly. exists it. split; [apply elem_of_app; by left|done].
  - rewrite Hsel. by destruct (pr_object _ _ Hp) as [_ ->].
Qed.

Lemma last_use_app l1 l2 i sf : last_use (l1 ++ l2) i sf ->
  (exists j, last_use l2 j sf) \/ last_use l1 i sf /\ forall sf', sf' ∈ l2 -> template_name sf' <> template_name sf.
Proof.
  intros [Hi Hlast]. apply lookup_app_Some in Hi as [Hi|[Hle Hi]].
  - right. split.
    + split; [done|]. intros j sf' Hij Hj. apply (Hlast j sf' Hij). by apply lookup_app_l_Some.
    + intros sf' (j & Hj)%list_elem_of_lookup. apply (Hlast (length l1 + j)).
      * apply lookup_lt_Some in Hi. lia.
      * rewrite lookup_app_r by lia. by replace (length l1 + j - length l1) with j by lia.
  - left. exists (i - length l1). split; [done|]. intros j sf' Hij Hj. apply (Hlast (length l1 + j)); [lia|].
    rewrite lookup_app_r by lia. by replace (length l1 + j - length l1) with j by lia.
Qed.

(** An asset that was served has its flow. *)
Lemma serves_add p done item a spec spec' flow :
  serves p done a spec -> adds_flow p item spec spec' flow -> plotter_wf spec' -> serves p (done ++ [item]) a spec'.
Proof.
  intros [_ Hall Honly Hsel Hruns] [Hflows Hsel' Henf Hruns' Hkeep] Hwf.
  split; [done| | |by rewrite Hsel'|]; [rewrite Hflows; intros it [Hit|Hit]%elem_of_app..|].
  - destruct (Hall it Hit) as [?|(f & Hf & He)]; [by left|right]. exists f. split; [apply elem_of_app; by left|done].
  - apply list_elem_of_singleton in Hit as ->. right. exists flow. split; [apply elem_of_app; right; by left|done].
  - destruct (Honly it Hit) as (x & Hx & He). exists x. split; [apply elem_of_app; by left|done].
  - apply list_elem_of_singleton in Hit as ->. exists item. split; [apply elem_of_app; right; by left|done].
  - assert (subflows spec' = subflows spec ++ flow_SubFlows flow) as Hsub.
    { unfold subflows. rewrite Hflows, bind_app. simpl. by rewrite app_nil_r. }
    rewrite Hsub. intros i sf [(j & Hj)|[Hi Hother]]%last_use_app; [by eapply Hruns'|].
    destruct (Hruns i sf Hi) as (step & ps & m & c & Hst & Hoff & Hsup & Ht). exists step, ps, m, c.
    split_and!; [done..|]. rewrite <- Ht. apply Hkeep. intros sf' Hsf' En. apply (Hother sf' Hsf'). rewrite En.
    unfold template_name. by rewrite (proj1 Hst).
Qed.

(** What the loop over the requirements leaves behind when it returns. *)
Lemma addFlows_serves (p : PlotterGenerator W) done reqs a prov spec w a' prov' spec' w' :
  app_wf a -> known_items a reqs -> serves p done a spec ->
  addFlows p reqs a prov spec w = Done ((a', prov', spec'), w') ->
  progress a a' /\ serves p (done ++ reqs) a' spec'.
Proof.
  revert done a prov spec w. induction reqs as [|item reqs IH];
    intros done a prov spec w Hwf Hk Hserves E; cbn [addFlows] in E.
  { m_step E. rewrite app_nil_r. split; [by apply progress_refl|done]. }
  pose proof Hk as [[Hin Hne] Hk']%Forall_cons_1. m_step E. destruct a0 as [[err prov1] spec1].
  m_step E. rename E into Erest. m_step E1. rename a0 into a1.
  match goal with Ha : _ = Done a1 |- _ => rename Ha into Ea1 end.
  assert (progress a a1 /\ serves p (done ++ [item]) a1 spec1) as [Hp1 Hs1].
  { destruct err as [err|].
    - destruct (AnalyzeError_spec a (DataSetID (Context item)) err Hwf Hin) as (a2 & Ea & Hp & Hst).
      rewrite Ea in Ea1. injection Ea1 as ->. split; [done|]. apply AddFlowInfoForAsset_error in E0 as ->.
      apply serves_refuse with a; [done|done|]. unfold refused. destruct (isDenial (Error err)); auto.
    - injection Ea1 as <-. split; [by apply progress_refl|].
      destruct (AddFlowInfoForAsset_flow _ _ _ _ _ _ _ _ _ E0) as (flow & Hadds).
      eapply serves_add; [done|done|]. by eapply AddFlowInfoForAsset_keeps_wf, Hserves. }
  destruct (IH (done ++ [item]) a1 prov1 spec1 w0) as [Hp' Hs']; [apply Hp1| |done|done|].
  { by eapply known_items_same; [apply Hp1|]. }
  split; [by eapply progress_trans|]. by rewrite <- app_assoc in Hs'.
Qed.

Lemma addFlows_returns (p : PlotterGenerator W) reqs a prov spec w :
  world_returns p -> modules_wf (gen_Modules (pg_Select p)) -> app_wf a -> known_items a reqs ->
  returns (addFlows p reqs a prov spec w).
Proof.
  intros Hw Hm. revert a prov spec w. induction reqs as [|item reqs IH]; intros a prov spec w Hwf Hk;
    cbn [addFlows]; [by eexists|].
  apply Forall_cons_1 in Hk as [[Hin Hne] Hk].
  destruct (AddFlowInfoForAsset_runs p item a prov spec w Hw Hm) as (err & prov1 & spec1 & w1 & E & _).
  rewrite (M_bind_run _ _ _ _ _ E).
  assert (exists a1, (match err with
      | Some err => AnalyzeError a (DataSetID (Context item)) err | None => mret a end) = Done a1 /\
    progress a a1) as (a1 & Ea1 & Hp1).
  { destruct err as [err|]; [|exists a; split; [done|by apply progress_refl]].
    destruct (AnalyzeError_spec a (DataSetID (Context item)) err Hwf Hin) as (a1 & Ea & Hp & _). eauto. }
  rewrite (M_bind_run _ _ _ a1 w1) by (by rewrite Ea1).
  apply IH; [apply Hp1|]. by eapply known_items_same; [apply Hp1|].
Qed.

(** *** Services that answer

    The operations of the world the controller calls return (with a value or an
    error, without a panic), and listed modules have well-formed APIs. *)
Definition module_wf (m : FybrikModule) : Prop :=
  forall c api, c ∈ modspec_Capabilities (module_Spec m) -> capability_API c = Some api -> api_wf api.

Record services (r : Reconciler W) : Prop := {
  sv_modules : forall ns w, exists ms w', List_ (ModulesClient (r_Client r)) ns w = Done (ms, w') /\
    forall l, ms = inl l -> Forall module_wf l;
  sv_accounts : forall ns w, returns (ListStorageAccounts (r_Client r) ns w);
  sv_configmap : forall k w, returns (GetConfigMap (r_Client r) k w);
  sv_clusters : forall w, returns (r_GetClusters r w);
  sv_create : forall ref b owner w, returns (CreateDataset (r_Provision r) ref b owner w);
  sv_delete : forall ref w, returns (DeleteDataset (r_Provision r) ref w);
  sv_status : forall ref w, returns (GetDatasetStatus (r_Provision r) ref w);
  sv_persistent : forall ref b w, returns (SetPersistent (r_Provision r) ref b w);
  sv_resource : forall o ref spec l uuid w,
    returns (CreateOrUpdateResource (r_ResourceInterface r) o ref spec l uuid w)
}.

Lemma modules_by_name (items : list FybrikModule) (m : gmap string FybrikModule) :
  modules_wf m -> Forall module_wf items ->
  modules_wf (foldl (fun m module => <[module_Name module := module]> m) m items).
Proof.
  intros Hm Hitems. revert m Hm. induction Hitems as [|x items Hx _ IH]; intros m Hm; [done|].
  apply IH. intros k y c api Hk. destruct (decide (k = module_Name x)) as [->|Hne].
  - rewrite lookup_insert_eq in Hk. injection Hk as <-. apply Hx.
  - rewrite lookup_insert_ne in Hk by done. by eapply Hm.
Qed.

(** What is registered when the plotter is built, each listed in the world the previous
    listing leaves. *)
Definition surveys r (w : W) modules regions clusters : Prop :=
  exists w1 w2 w3, GetAllModules r w = Done (inl modules, w1) /\
    getStorageAccountRegions r w1 = Done (inl regions, w2) /\ r_GetClusters r w2 = Done (inl clusters, w3).

(** A plotter that has been built serves the requirements, with what is registered. *)
Lemma buildSolution_ok r a reqs w prov spec a' w' :
  app_wf a -> known_items a reqs -> buildSolution r a reqs w = Done ((inl (prov, spec), a'), w') ->
  progress a a' /\ exists modules regions clusters, surveys r w modules regions clusters /\
    serves (plotterGenerator r a modules clusters regions) reqs a' spec.
Proof.
  intros Hwf Hk E. unfold buildSolution in E. m_step E. destruct a0 as [modules|]; [|by m_step E].
  m_step E. destruct a0 as [regions|]; [|by m_step E]. m_step E. destruct a0 as [clusters|]; [|by m_step E].
  m_step E. destruct a0 as [[a1 prov1] spec1]. m_step E.
  edestruct addFlows_serves as [Hp Hs]; [exact Hwf|exact Hk|apply serves_initial|eassumption|].
  split; [done|]. exists modules, regions, clusters. split; [by eexists _, _, _|done].
Qed.

Lemma buildSolution_returns r a reqs w :
  services r -> app_wf a -> known_items a reqs ->
  exists res a' w', buildSolution r a reqs w = Done ((res, a'), w') /\ (forall err, res = inr err -> a' = a).
Proof.
  intros Hsv Hwf Hk. unfold buildSolution, GetAllModules, getStorageAccountRegions.
  destruct (sv_modules r Hsv GetSystemNamespace w) as (ms & w1 & E1 & Hms).
  rewrite (M_bind_run _ _ _ _ _ (M_bind_run _ _ _ _ _ E1)).
  destruct ms as [items|err]; [|by eexists _, a, _].
  destruct (sv_accounts r Hsv GetSystemNamespace w1) as ([acc w2] & E2).
  rewrite (M_bind_run _ _ _ _ _ (M_bind_run _ _ _ _ _ E2)).
  destruct acc as [accounts|err]; [|by eexists _, a, _].
  destruct (sv_clusters r Hsv w2) as ([cls w3] & E3). rewrite (M_bind_run _ _ _ _ _ E3).
  destruct cls as [clusters|err]; [|by eexists _, a, _].
  destruct (addFlows_returns (plotterGenerator r a (foldl (fun m module => <[module_Name module := module]> m) ∅ items)
    clusters (accounts ≫= (fun account => (range (account_Endpoints (account_Spec account))).*1)))
    reqs a ∅ (initialPlotterSpec a) w3) as ([[[a' prov] spec] w4] & E4); [| |done|done|].
  - split; [exact (sv_accounts r Hsv)|exact (sv_create r Hsv)].
  - apply modules_by_name; [by intros k m c api Hk'|]. by apply Hms.
  - rewrite (M_bind_run _ _ _ _ _ E4). by eexists _, a', w4.
Qed.

Lemma buildSolution_spec r a reqs w :
  services r -> app_wf a -> known_items a reqs ->
  exists res a' w', buildSolution r a reqs w = Done ((res, a'), w') /\ progress a a' /\
    forall prov spec, res = inl (prov, spec) -> exists modules regions clusters,
      surveys r w modules regions clusters /\ serves (plotterGenerator r a modules clusters regions) reqs a' spec.
Proof.
  intros Hsv Hwf Hk. destruct (buildSolution_returns r a reqs w Hsv Hwf Hk) as (res & a' & w' & E & Herr).
  exists res, a', w'. split; [done|]. destruct res as [[prov spec]|err].
  - destruct (buildSolution_ok r a reqs w prov spec a' w' Hwf Hk E) as [Hp Hs]. split; [done|]. by intros ? ? [= <- <-].
  - rewrite (Herr err eq_refl). split; [by apply progress_refl|done].
Qed.

(** C7: the plotter built for the requirements of an application serves them.  When the
    services the controller calls return (with a value or an error), the modules it lists
    have well-formed APIs, the status of the application is initialised and the requirements
    are about assets of the application with non-empty identifiers, then the construction
    returns without a panic and changes nothing of the application but the conditions of its
    assets.  If it gives a plotter, then with the modules, storage regions and clusters
    that were listed during the construction: every asset is marked as denied or in error, or
    has a flow that performs all the governance actions required for it, in steps planned for
    capabilities of those modules that support them, on those of the clusters that the
    administrator permits; every flow belongs to such an asset; the template of a step that
    is the last one of the plotter with it deploys one of those modules with a capability
    that supports the actions of the step; the workload selector is the one of the
    application; and the plotter is well formed. *)
Theorem buildSolution_serves r a reqs w :
  services r -> app_wf a -> known_items a reqs ->
  exists res a' w', buildSolution r a reqs w = Done ((res, a'), w') /\ progress a a' /\
    forall prov spec, res = inl (prov, spec) -> exists modules regions clusters,
      surveys r w modules regions clusters /\ serves (plotterGenerator r a modules clusters regions) reqs a' spec.
Proof. apply buildSolution_spec. Qed.
End Solution.

(** ** Provisioned storage *)
Section StorageFacts.
Context `{MapRange, K8sMeta, Runtime, Schema, TemplateEngine, Encoder} {W : Type}.
Implicit Types (r : Reconciler W).

Lemma cleanStorage_spec r prov entries m w :
  (forall ref w, returns (DeleteDataset (r_Provision r) ref w)) ->
  exists m' w', cleanStorage r prov entries (Some m) w = Done (Some m', w') /\
    forall k, m' !! k = if decide (k ∈ entries.*1 /\ prov !! k = None) then None else m !! k.
Proof.
  intros Hd. revert m w. induction entries as [|[id d] entries IH]; intros m w; cbn [cleanStorage].
  { exists m, w. split; [done|]. intros k. rewrite decide_False; [done|]. set_solver. }
  destruct (prov !! id) as [info|] eqn:Ep.
  - destruct (IH m w) as (m' & w' & E & Hm'). exists m', w'. split; [done|]. intros k. rewrite Hm'.
    apply decide_ext. simpl. rewrite elem_of_cons. naive_solver.
  - destruct (Hd (getBucketResourceRef (dataset_DatasetRef d)) w) as ([e w1] & E1).
    rewrite (M_bind_run _ _ _ _ _ E1).
    destruct (IH (delete id m) w1) as (m' & w' & E & Hm'). exists m', w'. split; [exact E|].
    intros k. rewrite Hm', fmap_cons. cbn [fst]. destruct (decide (k = id)) as [->|Hne].
    + rewrite lookup_delete_eq. destruct (decide (id ∈ id :: entries.*1 /\ prov !! id = None)) as [_|Hn].
      * by case_decide.
      * destruct Hn. split; [by left|done].
    + rewrite lookup_delete_ne by done. apply decide_ext. rewrite elem_of_cons. naive_solver.
Qed.

Lemma recordStorage_spec entries m :
  NoDup entries.*1 ->
  exists m', recordStorage entries (Some m) = Done (Some m') /\
    forall k, m' !! k = match (list_to_map entries : ProvisionedMap) !! k with
                        | Some info => Some (datasetDetails info)
                        | None => m !! k
                        end.
Proof.
  revert m. induction entries as [|[id info] entries IH]; intros m Hnd; [by exists m|].
  apply list.NoDup_cons in Hnd as [Hid Hnd]. cbn [recordStorage]. simpl.
  destruct (IH (<[id := datasetDetails info]> m) Hnd) as (m' & E & Hm'). exists m'. split; [exact E|].
  intros k. rewrite Hm'. destruct (decide (k = id)) as [->|Hne].
  - rewrite lookup_insert_eq, (not_elem_of_list_to_map_1 _ id), lookup_insert_eq by done. done.
  - by rewrite !lookup_insert_ne by done.
Qed.

Lemma list_to_map_range {A} (m : gmap string A) : list_to_map (range m) = m.
Proof.
  rewrite <- (list_to_map_to_list m) at 2. apply list_to_map_proper; [apply range_NoDup|apply range_perm].
Qed.

Lemma storageReady_returns r entries w :
  (forall ref w, returns (GetDatasetStatus (r_Provision r) ref w)) -> returns (storageReady r entries w).
Proof.
  intros Hs. revert w. induction entries as [|[id d] entries IH]; intros w; cbn [storageReady]; [by eexists|].
  destruct (Hs (getBucketResourceRef (dataset_DatasetRef d)) w) as ([res w1] & E1).
  rewrite (M_bind_run _ _ _ _ _ E1). destruct res as [res|]; [|by eexists].
  destruct (negb (Provisioned res)); [destruct (ErrorMsg res <>? ""); by eexists|apply IH].
Qed.

Lemma updateProvisionedStorageStatus_spec r a m provisioned w :
  (forall ref w, returns (DeleteDataset (r_Provision r) ref w)) ->
  (forall ref w, returns (GetDatasetStatus (r_Provision r) ref w)) ->
  appstatus_ProvisionedStorage (app_Status a) = Some m ->
  exists ready err w', updateProvisionedStorageStatus r a provisioned w =
    Done ((ready, err, setProvisioned (Some (datasetDetails <$> provisioned)) a), w').
Proof.
  intros Hd Hs Ha. unfold updateProvisionedStorageStatus. rewrite Ha. simpl.
  destruct (cleanStorage_spec r provisioned (range m) m w Hd) as (m1 & w1 & E1 & Hm1).
  rewrite (M_bind_run _ _ _ _ _ E1).
  destruct (recordStorage_spec (range provisioned) m1 (range_NoDup _)) as (m2 & E2 & Hm2).
  rewrite (M_bind_run _ _ _ (Some m2) w1) by (by rewrite E2).
  assert (m2 = datasetDetails <$> provisioned) as ->.
  { apply map_eq. intros k. rewrite Hm2, list_to_map_range, lookup_fmap.
    destruct (provisioned !! k) as [info|] eqn:Ek; [done|]. simpl. rewrite Hm1.
    destruct (m !! k) as [d|] eqn:Emk; [|by case_decide].
    rewrite decide_True; [done|]. split; [|done].
    apply list_elem_of_fmap. exists (k, d). split; [done|]. by apply range_elem. }
  destruct (storageReady_returns r (range (datasetDetails <$> provisioned)) w1 Hs) as ([[ready err] w2] & E3).
  simpl. rewrite (M_bind_run _ _ _ _ _ E3). by eexists _, _, _.
Qed.

(** After the update the recorded storage is exactly the storage provisioned for
    the new plotter: entries of assets that no longer need a copy are removed (and
    their Datasets deleted), the others are added or replaced. *)
Theorem updateProvisionedStorageStatus_exact r a m provisioned w :
  (forall ref w, returns (DeleteDataset (r_Provision r) ref w)) ->
  (forall ref w, returns (GetDatasetStatus (r_Provision r) ref w)) ->
  appstatus_ProvisionedStorage (app_Status a) = Some m ->
  exists ready err w', updateProvisionedStorageStatus r a provisioned w =
    Done ((ready, err, setProvisioned (Some (datasetDetails <$> provisioned)) a), w').
Proof. apply updateProvisionedStorageStatus_spec. Qed.

(** *** Deletion of what an application owns *)

(** The Datasets of the entries are deleted one after the other, each under its recorded
    name in the system namespace, with these answers. *)
Inductive deletions r : list (string * DatasetDetails) -> W -> list (string * option error) -> W -> Prop :=
| deletions_nil w : deletions r [] w [] w
| deletions_cons id d rest w err w1 answers w' :
    DeleteDataset (r_Provision r) (mkNamespacedName (dataset_DatasetRef d) GetSystemNamespace) w = Done (err, w1) ->
    deletions r rest w1 answers w' -> deletions r ((id, d) :: rest) w ((id, err) :: answers) w'.

(** The messages of the failures. *)
Definition failures (answers : list (string * option error)) : list string :=
  answers ≫= (fun x => match x.2 with Some err => [Error err] | None => [] end).

Lemma deleteDatasets_spec r entries w :
  (forall ref w, returns (DeleteDataset (r_Provision r) ref w)) ->
  exists answers deleted w', deletions r entries w answers w' /\
    deleteDatasets r entries w = Done ((deleted, failures answers), w') /\
    forall id, id ∈ deleted <-> (id, None) ∈ answers.
Proof.
  intros Hd. revert w. induction entries as [|[id d] entries IH]; intros w; cbn [deleteDatasets].
  { exists [], [], w. split; [constructor|]. split; [done|]. set_solver. }
  destruct (Hd (getBucketResourceRef (dataset_DatasetRef d)) w) as ([res w1] & E1).
  rewrite (M_bind_run _ _ _ _ _ E1). destruct (IH w1) as (answers & deleted & w2 & Hdel & E2 & Hin).
  rewrite (M_bind_run _ _ _ _ _ E2). destruct res as [err|];
    eexists ((id, _) :: answers), _, w2; (split; [by econstructor|]); (split; [reflexivity|]);
    intros id'; cbn [fst]; rewrite ?elem_of_cons, Hin; naive_solver.
Qed.

Lemma foldl_mdelete (keys : list string) (s : gomap DatasetDetails) k :
  mget (foldl mdelete s keys) k = if decide (k ∈ keys) then None else mget s k.
Proof.
  revert s. induction keys as [|x keys IH]; intros s; [done|].
  cbn [foldl]. rewrite IH. destruct (decide (k ∈ keys)); [rewrite decide_True; set_solver|].
  unfold mget. destruct s as [m|]; simpl; [|by case_decide].
  destruct (decide (k = x)) as [->|Hne].
  - rewrite lookup_delete_eq, decide_True; set_solver.
  - rewrite lookup_delete_ne, decide_False; set_solver.
Qed.

(** Without failures every Dataset was deleted. *)
Lemma deletions_all r entries w answers w' id d :
  deletions r entries w answers w' -> failures answers = [] -> (id, d) ∈ entries -> (id, None) ∈ answers.
Proof.
  induction 1 as [|? ? ? ? err ? ? ? _ _ IH]; [by intros _ ?%not_elem_of_nil|].
  intros Hf [[= -> ->]|Hin]%elem_of_cons; unfold failures in Hf; simpl in Hf; destruct err; try discriminate Hf.
  - by left.
  - right. by apply IH.
Qed.

(** C30: deleting what an application owns, exactly, when the calls to the storage and to
    the generated resource return: each Dataset that its status records is deleted once, in
    the order in which the map is visited; the status forgets those whose deletion was
    accepted and keeps the others.  If some deletion failed, the failures are reported, joined
    by semicolons, and the generated resource is left alone; otherwise no storage is recorded
    any more and the generated resource, if any, is deleted too: an error of that is
    reported and the reference kept, and otherwise the reference is cleared.  Nothing else of
    the application changes.  (Whether an object whose deletion was accepted is gone is up
    to the API server.) *)
Theorem deleteExternalResources_exact r a w :
  (forall ref w, returns (DeleteDataset (r_Provision r) ref w)) ->
  (forall ref w, returns (DeleteResource (r_ResourceInterface r) ref w)) ->
  let storage := appstatus_ProvisionedStorage (app_Status a) in
  let generated := appstatus_Generated (app_Status a) in
  exists answers w1 storage' generated' err w', deletions r (range (gm storage)) w answers w1 /\
    deleteExternalResources r a w = Done ((err, setGenerated generated' (setProvisioned storage' a)), w') /\
    (forall id, mget storage' id = if decide ((id, None) ∈ answers) then None else mget storage id) /\
    match failures answers with
    | [] => (forall id, mget storage' id = None) /\
        match generated with
        | None => err = None /\ generated' = None /\ w' = w1
        | Some ref => DeleteResource (r_ResourceInterface r) ref w1 = Done (err, w') /\
            generated' = match err with None => None | Some _ => generated end
        end
    | msgs => err = Some (newError (Join msgs ";")) /\ generated' = generated /\ w' = w1
    end.
Proof.
  intros Hd Hr storage generated.
  destruct (deleteDatasets_spec r (range (gm storage)) w Hd) as (answers & deleted & w1 & Hdel & E & Hin).
  assert (forall id, mget (foldl mdelete storage deleted) id = if decide ((id, None) ∈ answers) then None else mget storage id)
    as Hget. { intros id. rewrite foldl_mdelete. by apply decide_ext, Hin. }
  assert (setGenerated generated (setProvisioned (foldl mdelete storage deleted) a) =
    setProvisioned (foldl mdelete storage deleted) a) as Hsame by (subst generated; by destruct a as [? ? []]).
  unfold deleteExternalResources. fold storage. rewrite (M_bind_run _ _ _ _ _ E). cbv zeta. cbn [fst snd].
  assert (appstatus_Generated (app_Status (setProvisioned (foldl mdelete storage deleted) a)) = generated) as ->
    by (by destruct a as [? ? []]).
  destruct (failures answers) as [|msg msgs] eqn:Hf; cbn [length Nat.eqb negb].
  - assert (forall id, mget (foldl mdelete storage deleted) id = None) as Hempty.
    { intros id. rewrite Hget. case_decide as Hid; [done|]. destruct (mget storage id) as [d|] eqn:Ed; [|done].
      destruct Hid. eapply deletions_all; [exact Hdel|exact Hf|]. apply range_elem. exact Ed. }
    destruct generated as [ref|] eqn:Eg.
    + destruct (Hr ref w1) as ([err w2] & E2). rewrite (M_bind_run _ _ _ _ _ E2).
      exists answers, w1, (foldl mdelete storage deleted), (match err with None => None | Some _ => Some ref end), err, w2.
      rewrite Hf. split_and!; [done| |done|done|exact E2|by destruct err]. destruct err; [by rewrite Hsame|done].
    + exists answers, w1, (foldl mdelete storage deleted), None, None, w1. rewrite Hf, Hsame. done.
  - exists answers, w1, (foldl mdelete storage deleted), generated, (Some (newError (Join (msg :: msgs) ";"))), w1.
    rewrite Hf, Hsame. done.
Qed.
End StorageFacts.

(** ** reconcile *)
Section Reconcile.
Context `{MapRange, K8sMeta, Runtime, Schema, TemplateEngine, Encoder} {W : Type}.
Context `{!NestedStringLaws}.
Implicit Types (r : Reconciler W).

(** The endpoints of a well-formed plotter. *)
Lemma subflowEndpoints_returns assets templates id sfs endpoints :
  Forall (subflow_wf assets templates) sfs -> returns (subflowEndpoints id sfs endpoints).
Proof.
  intros Hs. revert endpoints. induction Hs as [|sf sfs (step & ps & ((Hsteps & Hps) & _) & _) _ IH];
    intros endpoints; cbn [subflowEndpoints]; [by eexists|].
  destruct (subflow_FlowType sf =? ReadFlow); [|apply IH].
  rewrite Hsteps. cbn [sequenceEndpoints list.last]. rewrite Hps. apply IH.
Qed.

Lemma readEndpoints_returns spec flows endpoints :
  Forall (fun flow => flow_SubFlows flow <> [] /\
    Forall (subflow_wf (plotter_Assets spec) (plotter_Templates spec)) (flow_SubFlows flow)) flows ->
  returns (readEndpoints flows endpoints).
Proof.
  intros Hf. revert endpoints. induction Hf as [|flow flows [_ Hs] _ IH];
    intros endpoints; cbn [readEndpoints]; [by eexists|].
  destruct (flow_FlowType flow =? ReadFlow); [|apply IH].
  destruct (subflowEndpoints_returns _ _ (flow_AssetID flow) (flow_SubFlows flow) endpoints Hs) as (e & ->).
  apply IH.
Qed.

(** Recording endpoints does not touch the conditions. *)
Lemma populateEndpoints_spec endpoints ids a :
  app_wf a -> Forall (fun id => id ∈ assetIDs a) ids ->
  exists a', populateEndpoints endpoints ids a = Done a' /\ progress a a' /\
    forall k i, statusOf a' k i = statusOf a k i.
Proof.
  intros Hwf Hids. revert a Hwf Hids. induction ids as [|id ids IH]; intros a Hwf Hids; cbn [populateEndpoints].
  { exists a. split; [done|]. split; [by apply progress_refl|done]. }
  apply Forall_cons_1 in Hids as [Hid Hids].
  destruct (app_wf_state a id Hwf Hid) as (st & Hst & Hthree).
  assert (assetState a id = st) as -> by (unfold assetState; by rewrite Hst).
  set (st' := st <| state_Endpoint := _ |>).
  assert (state_Conditions st' = state_Conditions st) as Hcs by (by destruct st).
  destruct Hwf as (m & Hm & Hall & Hids'). rewrite Hm. simpl mset.
  set (a1 := setAssetStates (Some (<[id := st']> m)) a).
  assert (forall k i, statusOf a1 k i = statusOf a k i) as Hsame.
  { intros k i. unfold a1. replace m with (gm (assetStates a)) by (by rewrite Hm).
    rewrite statusOf_update. case_decide as E; [subst k|done].
    rewrite Hcs. unfold statusOf, assetState. by rewrite Hst. }
  assert (progress a a1) as Hp1.
  { split; [apply same_object_setAssetStates|by destruct a as [? ? []]|by destruct a as [? ? []]| |intros ?; by rewrite Hsame..].
    unfold app_wf, a1. rewrite assetIDs_setAssetStates. exists (<[id := st']> m).
    split; [by destruct a as [? ? []]|]. split.
    - apply map_Forall_insert_2; [|done]. unfold three. by rewrite Hcs.
    - eapply list.Forall_impl; [exact Hids'|]. intros k Hk. simpl.
      destruct (decide (k = id)) as [->|]; by simplify_map_eq. }
  destruct (IH a1) as (a' & E & Hp & Hs); [apply Hp1|by rewrite (same_object_ids a a1) by apply Hp1|].
  exists a'. split; [exact E|]. split; [by eapply progress_trans|]. intros k i. by rewrite Hs.
Qed.

Lemma generateResource_spec r uuid a spec w :
  services r -> app_wf a -> plotter_wf spec ->
  exists res err a' w', generateResource r uuid a spec w = Done ((res, err, a'), w') /\
    same_object a a' /\ app_wf a' /\ same_validity a a'.
Proof.
  intros Hsv Hwf Hspec. unfold generateResource, setReadModulesEndpoints.
  destruct (readEndpoints_returns spec (plotter_Flows spec) ∅ Hspec) as (endpoints & E1).
  destruct (populateEndpoints_spec endpoints (assetIDs a) a Hwf) as (a1 & E2 & Hp & _);
    [by apply list.Forall_forall|].
  rewrite (M_bind_run _ _ _ a1 w) by (rewrite E1; simpl; by rewrite E2).
  destruct (sv_resource r Hsv (ownerRef a1) (CreateResourceReference (r_ResourceInterface r) (ownerRef a1))
    spec (meta_Labels (app_Meta a1)) uuid w) as ([err w1] & E3).
  rewrite (M_bind_run _ _ _ _ _ E3). pose proof (pr_object _ _ Hp) as Ho. pose proof (pr_wf _ _ Hp) as Hwf1.
  pose proof (pr_validity _ _ Hp) as Hv1.
  destruct err as [err|]; [destruct (Error err =? InvalidClusterConfiguration)|];
    eexists _, _, _, _; (split; [reflexivity|]); destruct a1 as [? ? []]; done.
Qed.

Lemma GetWorkloadCluster_returns r a w : services r -> returns (GetWorkloadCluster r a w).
Proof.
  intros Hsv. unfold GetWorkloadCluster, Local.GetClusters.
  destruct (selector_ClusterName _ =? ""); [destruct (Z.eqb _ 0); [by eexists|]|].
  - destruct (sv_configmap r Hsv (mkNamespacedName "cluster-metadata" GetSystemNamespace) w) as ([cm w1] & E).
    rewrite (M_bind_run _ _ _ _ _ (M_bind_run _ _ _ _ _ E)). by eexists.
  - destruct (sv_clusters r Hsv w) as ([cs w1] & E). rewrite (M_bind_run _ _ _ _ _ E). by eexists.
Qed.

(** What the rest of [reconcile] starts from. *)
Lemma reconcile_start a :
  exists a1, initStatus a = Done a1 /\ same_object a (ensureStorageMap a1) /\ app_wf (ensureStorageMap a1) /\
    (exists m, appstatus_ProvisionedStorage (app_Status (ensureStorageMap a1)) = Some m) /\
    appstatus_Generated (app_Status (ensureStorageMap a1)) = appstatus_Generated (app_Status a) /\
    appstatus_ErrorMessage (app_Status (ensureStorageMap a1)) = "" /\ same_validity a (ensureStorageMap a1).
Proof.
  destruct (initStatus_spec a) as (a1 & E & Hwf & _ & Hm & Hs & Hmsg & Hg & _). exists a1. split; [done|].
  assert (same_validity a a1) as Hv.
  { revert E. unfold initStatus. destruct (resetAssetStates _ _); simpl; [|done]. intros [= <-]. by destruct a as [? ? []]. }
  unfold ensureStorageMap. destruct a1 as [am asp [? ? ? ? ? ? ? storage]]. simpl in *.
  destruct storage as [m|]; simpl; (split; [done|]); (split; [done|]); eauto.
Qed.

(** [reconcile] runs to completion; it changes the status only, and not the outcome of the
    validation. *)
Lemma reconcile_runs r uuid a w :
  services r -> Forall (fun id => id <> "") (assetIDs a) ->
  exists res err a' w', reconcile r uuid a w = Done ((res, err, a'), w') /\
    same_object a a' /\ app_wf a' /\ same_validity a a'.
Proof.
  intros Hsv Hne. unfold reconcile.
  destruct (reconcile_start a) as (a0 & E0 & Ho & Hwf & (m & Hstor) & _ & Hmsg & Hv).
  rewrite (M_bind_run _ _ _ a0 w) by (by rewrite E0). cbv zeta.
  set (a1 := ensureStorageMap a0) in *.
  destruct (Nat.eqb _ 0); [by eexists _, _, _, _|].
  destruct (GetWorkloadCluster_returns r a1 w Hsv) as ([wc w1] & E1). rewrite (M_bind_run _ _ _ _ _ E1).
  destruct wc as [wc|err]; [|by eexists _, _, _, _].
  destruct (collectRequirements_spec r wc (appspec_Data (app_Spec a1)) a1 Hwf) as (reqs & a2 & E2 & Hp2 & Hreqs & _).
  { apply list.Forall_forall. intros x Hx. by apply list_elem_of_fmap_2. }
  rewrite (M_bind_run _ _ _ (reqs, a2) w1) by (by rewrite E2).
  assert (same_object a a2) as Ho2 by (etrans; [exact Ho|apply Hp2]).
  assert (same_validity a a2) as Hv2 by (etrans; [exact Hv|apply Hp2]).
  destruct (Nat.eqb (length reqs) 0); [eexists _, _, _, _; split; [done|]; split; [done|split; [apply Hp2|done]]|].
  destruct (buildSolution_spec r a2 reqs w1 Hsv (pr_wf _ _ Hp2)) as (sol & a3 & w2 & E3 & Hp3 & Hserves).
  { apply list.Forall_forall. intros item [Hin _]%Hreqs.
    assert (DataSetID (Context item) ∈ assetIDs a) as Hid.
    { rewrite <- (same_object_ids a a1) by done. by apply list_elem_of_fmap_2. }
    rewrite (same_object_ids a a2) by done. split; [done|]. rewrite list.Forall_forall in Hne. by apply Hne. }
  rewrite (M_bind_run _ _ _ _ _ E3). cbn [fst snd].
  assert (same_object a a3) as Ho3 by (etrans; [exact Ho2|apply Hp3]).
  assert (same_validity a a3) as Hv3 by (etrans; [exact Hv2|apply Hp3]).
  destruct sol as [[prov spec]|err]; [|eexists _, _, _, _; split; [done|]; split; [done|split; [apply Hp3|done]]].
  destruct (Hserves _ _ eq_refl) as (ms & rs & cs & _ & [Hspec _ _ _ _]).
  destruct (getErrorMessages_spec a3 (pr_wf _ _ Hp3)) as (msg & E4 & _).
  { destruct (pr_status _ _ Hp3) as (_ & _ & ->), (pr_status _ _ Hp2) as (_ & _ & ->). done. }
  rewrite (M_bind_run _ _ _ msg w2) by (by rewrite E4).
  destruct (msg <>? ""); [eexists _, _, _, _; split; [done|]; split; [done|split; [apply Hp3|done]]|].
  destruct (updateProvisionedStorageStatus_spec r a3 m prov w2 (sv_delete r Hsv) (sv_status r Hsv))
    as (ready & aerr & w3 & E5).
  { destruct (pr_status _ _ Hp3) as (_ & -> & _), (pr_status _ _ Hp2) as (_ & -> & _). done. }
  rewrite (M_bind_run _ _ _ _ _ E5).
  assert (same_object a (setProvisioned (Some (datasetDetails <$> prov)) a3) /\
    app_wf (setProvisioned (Some (datasetDetails <$> prov)) a3) /\
    same_validity a (setProvisioned (Some (datasetDetails <$> prov)) a3)) as (Ho4 & Hwf4 & Hv4).
  { pose proof (pr_wf _ _ Hp3). destruct a3 as [? ? []]. done. }
  destruct ready; [|by eexists _, _, _, _].
  destruct (generateResource_spec r uuid _ spec w3 Hsv Hwf4 Hspec) as (res & err & a5 & w5 & E6 & Ho5 & Hwf5 & Hv5).
  exists res, err, a5, w5. split; [exact E6|]. split; [by etrans|]. split; [done|by etrans].
Qed.

(** C20: [reconcile] runs to completion on every application whose datasets have an
    identifier, whatever its status was: no index is out of range, no nil map is
    written and no nil pointer followed, as long as the services it calls answer
    (possibly with errors) and the modules it lists have well-formed APIs.  The
    status it leaves has the three conditions for every asset, and metadata and
    specification of the application are not changed. *)
Theorem reconcile_safe r uuid a w :
  services r -> Forall (fun id => id <> "") (assetIDs a) ->
  exists res err a' w', reconcile r uuid a w = Done ((res, err, a'), w') /\
    same_object a a' /\ app_wf a'.
Proof.
  intros Hsv Hne. destruct (reconcile_runs r uuid a w Hsv Hne) as (res & err & a' & w' & E & Ho & Hwf & _).
  by exists res, err, a', w'.
Qed.

(** When access to all the datasets is refused the previously generated plotter is
    left in place: [reconcile] returns without an error, without a call to the
    generated resource, and keeps the reference to it. *)
Theorem refused_application_keeps_plotter r uuid a w wc w1 a1 a2 :
  appspec_Data (app_Spec a) <> [] -> initStatus a = Done a1 ->
  GetWorkloadCluster r (ensureStorageMap a1) w = Done (inl wc, w1) ->
  collectRequirements r wc (appspec_Data (app_Spec a)) (ensureStorageMap a1) = Done ([], a2) ->
  reconcile r uuid a w = Done ((noResult, None, a2), w1) /\
  appstatus_Generated (app_Status a2) = appstatus_Generated (app_Status a).
Proof.
  intros Hd E0 E1 E2. destruct (reconcile_start a) as (a0 & E0' & [Hm Hs] & Hwf & _ & Hg & _).
  assert (a0 = a1) as -> by congruence.
  destruct (collectRequirements_spec r wc (appspec_Data (app_Spec a)) _ Hwf) as (reqs & a2' & E2' & Hp & _).
  { apply list.Forall_forall. intros x Hx. apply list_elem_of_fmap_2. by rewrite Hs. }
  rewrite E2 in E2'. injection E2' as <- <-. split.
  - unfold reconcile. rewrite (M_bind_run _ _ _ a1 w) by (by rewrite E0). cbv zeta. rewrite Hs.
    destruct (appspec_Data (app_Spec a)) as [|x l] eqn:Ed; [done|]. cbn [length Nat.eqb].
    rewrite (M_bind_run _ _ _ _ _ E1).
    rewrite (M_bind_run _ _ _ ([], a2) w1) by (by rewrite E2). done.
  - destruct (pr_status _ _ Hp) as (-> & _). done.
Qed.
End Reconcile.

(** ** Readiness *)
Section Readiness.
Context `{MapRange, K8sMeta, Runtime, Schema, TemplateEngine, Encoder} {W : Type}.
Implicit Types (r : Reconciler W).

(** The asset is not to be registered in a catalog. *)
Definition not_cataloged (d : DataContext) : Prop :=
  catalog_CatalogID (copy_Catalog (requirements_Copy (Requirements d))) = "".

Lemma deny_condition a id : app_wf a -> id ∈ assetIDs a ->
  exists c, conditionAt (assetState a id) DenyConditionIndex = Done c /\
    cond_Status c = statusOf a id DenyConditionIndex.
Proof.
  intros Hwf Hin. destruct (app_wf_state a id Hwf Hin) as (st & Hst & Hthree).
  unfold statusOf, assetState. rewrite Hst. simpl.
  destruct (conditionAt_three st DenyConditionIndex Hthree) as (c & Ec & Hc); [unfold DenyConditionIndex; lia|].
  exists c. by rewrite Hc.
Qed.

(** The step of [checkReadiness] for one asset. *)
Lemma checkAsset_spec r status d a w :
  app_wf a -> DataSetID d ∈ assetIDs a -> not_cataloged d ->
  exists a', checkAsset r status d a w = Done (a', w) /\ progress a a' /\
    (statusOf a (DataSetID d) DenyConditionIndex <> ConditionTrue ->
       (os_Error status <> "" -> statusOf a' (DataSetID d) ErrorConditionIndex = ConditionTrue) /\
       (os_Error status = "" -> os_Ready status = true ->
          statusOf a' (DataSetID d) ReadyConditionIndex = ConditionTrue)).
Proof.
  intros Hwf Hin Hcat. unfold checkAsset. unfold not_cataloged in Hcat. rewrite Hcat.
  destruct (deny_condition a _ Hwf Hin) as (c & Ec & Hc).
  rewrite (M_bind_run _ _ _ c w) by (by rewrite Ec). rewrite Hc.
  destruct (String.eqb_spec (statusOf a (DataSetID d) DenyConditionIndex) ConditionTrue) as [Ed|Ed].
  { exists a. split; [done|]. split; [by apply progress_refl|done]. }
  destruct (String.eqb_spec (os_Error status) "") as [Ee|Ee]; simpl.
  - destruct (os_Ready status); simpl.
    + destruct (setCondition_progress a (DataSetID d) ReadyConditionIndex
        (fun c => c <| cond_Status := ConditionTrue |>) Hwf Hin) as (a' & Ea & Hp & Hs & _);
        [unfold ReadyConditionIndex; lia|done|].
      exists a'. split; [unfold setReadyCondition; by rewrite Ea|]. split; [done|]. done.
    + exists a. split; [done|]. split; [by apply progress_refl|done].
  - destruct (setCondition_progress a (DataSetID d) ErrorConditionIndex
      (fun _ => mkCondition ErrorCondition ConditionTrue (errorText (DataSetID d) (os_Error status)) 0) Hwf Hin)
      as (a' & Ea & Hp & Hs & _); [unfold ErrorConditionIndex; lia|done|].
    exists a'. split; [unfold setErrorCondition; by rewrite Ea|]. split; [done|]. done.
Qed.

Lemma checkAssets_spec r status data a w :
  app_wf a -> Forall (fun d => DataSetID d ∈ assetIDs a /\ not_cataloged d) data ->
  exists a', checkAssets r status data a w = Done (a', w) /\ progress a a' /\
    forall d, d ∈ data ->
      statusOf a' (DataSetID d) DenyConditionIndex = ConditionTrue \/
      (os_Error status <> "" -> statusOf a' (DataSetID d) ErrorConditionIndex = ConditionTrue) /\
      (os_Error status = "" -> os_Ready status = true ->
         statusOf a' (DataSetID d) ReadyConditionIndex = ConditionTrue).
Proof.
  revert a. induction data as [|d data IH]; intros a Hwf Hd; cbn [checkAssets].
  { exists a. split; [done|]. split; [by apply progress_refl|]. set_solver. }
  apply Forall_cons_1 in Hd as [[Hin Hcat] Hd].
  destruct (checkAsset_spec r status d a w Hwf Hin Hcat) as (a1 & E1 & Hp1 & Hs1).
  rewrite (M_bind_run _ _ _ _ _ E1).
  destruct (IH a1) as (a' & E & Hp & Hs); [apply Hp1|by rewrite (same_object_ids a a1) by apply Hp1|].
  exists a'. split; [exact E|]. split; [by eapply progress_trans|].
  intros d' [->|Hin']%elem_of_cons; [|by apply Hs].
  destruct (decide (statusOf a (DataSetID d) DenyConditionIndex = ConditionTrue)) as [Ed|Ed].
  - left. by apply (pr_deny _ _ Hp), (pr_deny _ _ Hp1).
  - right. destruct (Hs1 Ed) as [He Hr]. split; intros.
    + by apply (pr_error _ _ Hp), He.
    + by apply (pr_ready _ _ Hp), Hr.
Qed.

(** When the generated plotter reports that it is ready, [checkReadiness] makes
    the application ready: every asset that is not denied gets the Ready condition
    (for assets that need not be registered in a catalog); when the plotter reports
    an error, every asset that is not denied gets the Error condition. *)
Theorem checkReadiness_correct r a status w :
  app_wf a -> Forall not_cataloged (appspec_Data (app_Spec a)) ->
  exists a', checkReadiness r a status w = Done (a', w) /\ progress a a' /\
    (os_Error status = "" -> os_Ready status = true -> isReady a' = Done true) /\
    (os_Error status <> "" -> forall id, id ∈ assetIDs a ->
       statusOf a' id DenyConditionIndex = ConditionTrue \/
       statusOf a' id ErrorConditionIndex = ConditionTrue).
Proof.
  intros Hwf Hcat. unfold checkReadiness.
  destruct (checkAssets_spec r status (appspec_Data (app_Spec a)) a w Hwf) as (a' & E & Hp & Hs).
  { apply list.Forall_forall. intros d Hd. split; [by apply list_elem_of_fmap_2|].
    rewrite list.Forall_forall in Hcat. by apply Hcat. }
  destruct Hwf as (m & Hm & _). rewrite Hm.
  rewrite (M_bind_run _ _ _ a w) by done. exists a'. split; [exact E|]. split; [done|]. split.
  - intros He Hr. unfold isReady.
    destruct (Nat.eqb _ 0); [done|].
    destruct (allReady_spec a' (assetIDs a') (pr_wf _ _ Hp)) as (b & Eb & Hb); [by apply list.Forall_forall|].
    destruct (pr_wf _ _ Hp) as (m' & -> & _). rewrite Eb. f_equal. apply Hb, list.Forall_forall.
    intros id Hid. rewrite (same_object_ids a a') in Hid by apply Hp.
    apply list_elem_of_fmap in Hid as (d & -> & Hd).
    destruct (Hs d Hd) as [->|[_ ->]]; auto.
  - intros He id Hid. apply list_elem_of_fmap in Hid as (d & -> & Hd).
    destruct (Hs d Hd) as [?|[? _]]; auto.
Qed.
End Readiness.

(** ** Finalizers *)
Section Finalizers.
Context `{MapRange, K8sMeta, !FinalizerLaws, Runtime, Schema, TemplateEngine, Encoder} {W : Type}.
Context (r : Reconciler W) (objects : W -> NamespacedName -> option FybrikApplication)
  `{!StoreLaws (Applications (r_Client r)) ObjectKey objects}.

(** Before anything is created for an application that is not being deleted and
    has datasets, the stored application carries the finalizer of the controller:
    [reconcileFinalizers] succeeds, writes the application only when the finalizer
    is missing, and changes nothing else of it. *)
Theorem reconcileFinalizers_protects a w :
  objects w (ObjectKey a) = Some a -> isDeleted (app_Meta a) = false ->
  appspec_Data (app_Spec a) <> [] ->
  exists a' w', reconcileFinalizers r a w = Done ((None, a'), w') /\
    objects w' (ObjectKey a) = Some a' /\
    ContainsFinalizer (meta_Finalizers (app_Meta a')) (finalizerName r) = true /\
    app_Spec a' = app_Spec a /\ app_Status a' = app_Status a /\
    (ContainsFinalizer (meta_Finalizers (app_Meta a)) (finalizerName r) = true -> w' = w).
Proof.
  intros Hobj Hdel Hdata. unfold reconcileFinalizers. rewrite Hdel.
  destruct (appspec_Data (app_Spec a)) as [|x l] eqn:Ed; [done|]. cbn [orb length Nat.eqb].
  destruct (ContainsFinalizer (meta_Finalizers (app_Meta a)) (finalizerName r)) eqn:Hc; cbn [negb].
  { exists a, w. rewrite Hc. by repeat split. }
  unfold UpdateFinalizers.
  set (a1 := setFinalizers (AddFinalizer (meta_Finalizers (app_Meta a)) (finalizerName r)) a).
  assert (ObjectKey a1 = ObjectKey a) as Hk by (by destruct a as [[] ? ?]).
  destruct (store_Update a1 w) as (w1 & E & Hw1); [rewrite Hk, Hobj; by eexists|].
  rewrite (M_bind_run _ _ _ _ _ (M_bind_run _ _ _ _ _ E)).
  exists a1, w1. split; [reflexivity|]. rewrite Hw1, Hk, decide_True by done. split; [done|].
  destruct a as [[] ? ?]. simpl in *. repeat split; [apply Contains_Add|done].
Qed.
End Finalizers.
