(* ===== verification/Mockup.v ===== *)
(** * The mock-ups of the services

    [manager/controllers/mockup]: the catalog, the policy manager and the cluster manager the
    tests of the application controller run against.  They are values of the interfaces the
    controller is written for, so that the theorems on the controller apply to them: what
    the mock-up of the policy manager denies, the controller refuses. *)
From stdpp Require Import base gmap strings list numbers.
From Stdlib Require Import Ascii.
From S2P Require Import Prelude GoStrings Types External Utils Policy AdminConfig World MultiCluster Storage SelectModules PlotterGen Conditions ResourceGen AppController AppFacts.

Module Mockup.

(** ** datacatalog.go *)
Record DataCatalogDummy := mkDataCatalogDummy { dataDetails : gmap string GetAssetResponse }.

(** A response can always be written as JSON, for the log. *)
Definition GetAssetInfo (d : DataCatalogDummy) (request : GetAssetRequest) (creds : string)
    : outcome (GetAssetResponse + error) :=
  match SplitN2 (assetReq_AssetID request) "/" with
  | [catalogID; _] =>
      Done (match dataDetails d !! catalogID with
            | Some details => inl details
            | None => inr (newError InvalidAssetID)
            end)
  | _ => Panic ("Invalid dataset ID for mock: " +:+ assetReq_AssetID request)
  end.
Definition Close (d : DataCatalogDummy) : option error := None.

Definition tags : Tags := mkTags (mkProperties (Some {[ "PI" := VBool true ]})).
Definition geo : string := "theshire".
Definition geoExternal : string := "neverland".
Definition texts (l : list (string * string)) : value := VMap (list_to_map ((fun kv => (kv.1, VString kv.2)) <$> l)).

Definition s3Connection : Connection := mkConnection "s3" (mkProperties (Some {[ "s3" := texts
  [("endpoint", "s3.eu-gb.cloud-object-storage.appdomain.cloud"); ("bucket", "fybrik-test-bucket");
   ("object_key", "small.csv")] ]})).
Definition db2Connection : Connection := mkConnection "db2" (mkProperties (Some {[ "db2" := texts
  [("database", "test-db"); ("table", "test-table");
   ("url", "dashdb-txn-sbox-yp-lon02-02.services.eu-gb.bluemix.net"); ("port", "5000"); ("ssl", "false")] ]})).
Definition kafkaConnection : Connection := mkConnection "kafka" (mkProperties (Some {[ "kafka" := texts
  [("topic_name", "topic"); ("security_protocol", "SASL_SSL"); ("sasl_mechanism", "SCRAM-SHA-512");
   ("ssl_truststore", "xyz123"); ("ssl_truststore_password", "xyz123"); ("schema_registry", "kafka-registry");
   ("bootstrap_servers", "http://kafka-servers");
   ("key_deserializer", "io.confluent.kafka.serializers.json.KafkaJsonSchemaDeserializer");
   ("value_deserializer", "io.confluent.kafka.serializers.json.KafkaJsonSchemaDeserializer")] ]})).

Definition asset (geography : string) (connection : Connection) (format : string) : GetAssetResponse :=
  mkGetAssetResponse (mkResourceMetadata "xxx" "" geography (Some tags) []) (mkResourceDetails connection format) "dummy".

Definition NewTestCatalog : DataCatalogDummy := mkDataCatalogDummy
  {[ "s3-external" := asset geoExternal s3Connection "csv";
     "s3" := asset geo s3Connection "parquet";
     "s3-csv" := asset geo s3Connection "csv";
     "db2" := asset geo db2Connection "";
     "kafka" := asset geo kafkaConnection "json" ]}.

(** ** policymanager.go *)

(** The action is written as JSON and read back: what is read is what was written. *)
Definition deserializeToTaxonomyAction (action : gmap string value) : outcome (Action + error) :=
  r ← Action_UnmarshalJSON (VMap action);
  Done (match r with
        | inr err => inr (newError ("error in unmarshalling in deserializeToTaxonomyAction: " +:+ Error err))
        | inl action => inl action
        end).

Definition denyDocument : gmap string value := {[ "name" := VString "Deny"; "Deny" := VMap ∅ ]}.
Definition redactDocument : gmap string value :=
  {[ "name" := VString "RedactAction"; "RedactAction" := VMap {[ "columns" := VList [VString "SSN"] ]} ]}.

(** The document of the action for an asset, if there is one. *)
Definition documentFor (assetID destination : string) : option (gmap string value) :=
  if assetID =? "allow-dataset" then None
  else if assetID =? "deny-dataset" then Some denyDocument
  else if assetID =? "allow-theshire" then if destination <>? "theshire" then Some denyDocument else None
  else if assetID =? "deny-theshire" then if destination =? "theshire" then Some denyDocument else None
  else Some redactDocument.

(** [decisionID] is what [random.Hex(20)] gives. *)
Definition GetPoliciesDecisions (decisionID : string) (input : GetPolicyDecisionsRequest) (creds : string)
    : outcome (GetPolicyDecisionsResponse + error) :=
  match SplitN2 (res_ID (pdReq_Resource input)) "/" with
  | [_; assetID] =>
      match documentFor assetID (reqAction_Destination (pdReq_Action input)) with
      | None => Done (inl (mkGetPolicyDecisionsResponse decisionID []))
      | Some document =>
          r ← deserializeToTaxonomyAction document;
          Done (match r with
                | inr err => inr err
                | inl action => inl (mkGetPolicyDecisionsResponse decisionID [mkResultItem "" action])
                end)
      end
  | _ => Panic ("Invalid dataset ID for mock: " +:+ res_ID (pdReq_Resource input))
  end.

(** ** clusterlister.go *)
Definition GetClusters {W} : M W (list Cluster + error) := fun w => Done (inl
  [mkCluster "thegreendragon" (mkClusterMetadata "theshire" "" "kubernetes");
   mkCluster "neverland-cluster" (mkClusterMetadata "neverland" "" "kubernetes")], w).

(** ** What the mock-ups do *)

(** The policy of the mock-up: the assets access to which is denied. *)
Definition denied (assetID destination : string) : bool :=
  (assetID =? "deny-dataset")
  || ((assetID =? "allow-theshire") && (destination <>? "theshire"))
  || ((assetID =? "deny-theshire") && (destination =? "theshire")).

Lemma SplitN2_slash catalogID assetID :
  "/"%char ∉ String.list_ascii_of_string catalogID -> SplitN2 (catalogID +:+ "/" +:+ assetID) "/" = [catalogID; assetID].
Proof.
  induction catalogID as [|c s IH]; [done|]. simpl. rewrite not_elem_of_cons. intros [Hc Hs].
  change (String c s +:+ "/" +:+ assetID) with (String c (s +:+ "/" +:+ assetID)). cbn [SplitN2].
  destruct (Ascii.eqb_spec c "/") as [->|_]; [done|]. by rewrite IH.
Qed.

(** The mock-up answers every request for an asset of a catalog, and its answer denies the
    access exactly under its policy. *)
Theorem decisions_of_mockup decisionID input creds catalogID assetID :
  "/"%char ∉ String.list_ascii_of_string catalogID ->
  res_ID (pdReq_Resource input) = catalogID +:+ "/" +:+ assetID ->
  exists resp, GetPoliciesDecisions decisionID input creds = Done (inl resp) /\
    denies resp = denied assetID (reqAction_Destination (pdReq_Action input)).
Proof.
  intros Hc E. unfold GetPoliciesDecisions. rewrite E, SplitN2_slash by done. unfold documentFor, denied.
  destruct (String.eqb_spec assetID "allow-dataset") as [->|_]; [by eexists|].
  destruct (String.eqb_spec assetID "deny-dataset") as [->|_]; [by eexists|].
  destruct (String.eqb_spec assetID "allow-theshire") as [->|_].
  { simpl. destruct (_ =? "theshire"); by eexists. }
  destruct (String.eqb_spec assetID "deny-theshire") as [->|_]; [|by eexists].
  simpl. destruct (_ =? "theshire"); by eexists.
Qed.

(** A service that answers, as the controller sees it. *)
Definition answering {A B} (f : A -> string -> outcome (B + error)) (a : A) (creds : string) : B + error :=
  match f a creds with Done r => r | Panic why => inr (newError why) end.
End Mockup.

(** An asset of the mock-up catalog which the mock-up policy manager denies is refused by
    the controller: no requirements are built for it. *)
Theorem mockup_denial `{MapRange, K8sMeta, Runtime, Schema, TemplateEngine, Encoder} {W} (r : Reconciler W)
    decisionID a d wc catalogID assetID details :
  r_DataCatalog r = Mockup.answering (Mockup.GetAssetInfo Mockup.NewTestCatalog) ->
  r_PolicyManager r = Mockup.answering (Mockup.GetPoliciesDecisions decisionID) ->
  "/"%char ∉ String.list_ascii_of_string catalogID -> DataSetID d = catalogID +:+ "/" +:+ assetID ->
  Mockup.dataDetails Mockup.NewTestCatalog !! catalogID = Some details ->
  Mockup.denied assetID (reqAction_Destination (readOperation wc)) = true ->
  (0 < LabelSelector_Size (selector_WorkloadSelector (appspec_Selector (app_Spec a))))%Z ->
  ValidateAssetResponse details DataCatalogTaxonomy (DataSetID d) = None ->
  (forall resp, ValidatePolicyDecisionsResponse resp PolicyManagerTaxonomy = None) ->
  constructDataInfo r d a wc = inr (newError ReadAccessDenied).
Proof.
  intros Hcat Hpm Hc Hid Hdet Hden Hsel Hval Hresp. apply constructDataInfo_denied.
  destruct (Mockup.decisions_of_mockup decisionID (ConstructOpenAPIReq (DataSetID d) a (readOperation wc))
    (requestCredentials a) catalogID assetID Hc Hid) as (resp & E & Hd).
  exists details, resp. rewrite Hcat, Hpm. unfold Mockup.answering, Mockup.GetAssetInfo. cbn [assetReq_AssetID].
  rewrite Hid, Mockup.SplitN2_slash by done. rewrite Hdet. split; [done|]. rewrite <- Hid. rewrite E.
  split; [done|]. split; [done|]. split; [done|]. split; [apply Hresp|]. by rewrite Hd.
Qed.
