(* ===== verification/AppExamples.v ===== *)
(** * The application controller on a small deployment

    Instances on which the hypotheses of the theorems about the application
    controller hold. *)
From stdpp Require Import base gmap strings list numbers.
From S2P Require Import Prelude GoStrings Types External Utils Policy AdminConfig World MultiCluster Storage SelectModules PlotterGen Conditions ResourceGen AppController AppFacts.
Import SelectExamples PlotterExamples.

Module AppExamples.

Definition noEncoding : Encoder := {| encodeApplication _ := VNull |}.

(** The application with a status that has the three conditions. *)
Definition fresh : FybrikApplication :=
  setAssetStates (Some {[ "assets/1" := mkAssetState freshConditions "" zeroConnection ]}) application.

Lemma fresh_wf : app_wf fresh.
Proof.
  eexists. split; [reflexivity|]. split.
  - apply map_Forall_singleton. by eexists _, _, _.
  - apply Forall_singleton. rewrite lookup_singleton_eq. by eexists.
Qed.

Lemma isReady_correct_witness :
  exists b, isReady fresh = Done b /\ (b = true <-> forall id, id ∈ assetIDs fresh ->
    statusOf fresh id DenyConditionIndex <> ConditionFalse \/
    statusOf fresh id ReadyConditionIndex <> ConditionFalse).
Proof. apply (isReady_correct fresh fresh_wf). Defined.

Lemma error_is_reported_witness :
  exists a' text, setErrorCondition fresh "assets/1" "boom" = Done a' /\ app_wf a' /\
    @getErrorMessages canonical_range a' = Done text /\ text <> "".
Proof.
  apply (@error_is_reported canonical_range fresh "assets/1" "boom" fresh_wf). by left.
Defined.

(** *** The generated resource *)
Definition plotterRef : ResourceReference := mkResourceReference "notebook-default" "fybrik-system" "Plotter" 1.
Definition plotter : Plotter :=
  (PlotterInterface.GetResourceSignature plotterRef) <| pl_Spec := emptySpec |>.
Definition plotterKey (p : Plotter) : NamespacedName := ObjectKey p.

Lemma CreateOrUpdateResource_unchanged_witness :
  @PlotterInterface.CreateOrUpdateResource Concrete.semantic _ (ConcreteStore.client plotterKey)
    plotterRef plotterRef emptySpec None "" {[ plotterKey plotter := plotter ]} =
  Done (None, {[ plotterKey plotter := plotter ]}).
Proof.
  apply (@CreateOrUpdateResource_unchanged Concrete.semantic _ (ConcreteStore.client plotterKey)
    Concrete.semantic_laws plotterRef plotterRef emptySpec None "" plotter).
  - change (PlotterInterface.refKey plotterRef) with (plotterKey plotter).
    cbn [Get ConcreteStore.client]. by rewrite lookup_singleton_eq.
  - reflexivity.
Defined.

(** *** A controller on the world of provisioned buckets *)
Definition world : Type := list ProvisionedBucket.

Definition client : Client world := {|
  Applications := ConcreteStore.absent; Plotters := ConcreteStore.absent; Blueprints := ConcreteStore.absent;
  ModulesClient := {|
    Get _ w := Done (inr ConcreteStore.notFound, w); List_ _ w := Done (inl [theModule], w);
    Create _ w := Done (inr ConcreteStore.notFound, w); Update _ w := Done (inr ConcreteStore.notFound, w);
    StatusUpdate _ w := Done (inr ConcreteStore.notFound, w);
    Delete _ w := Done (Some ConcreteStore.notFound, w);
    CreateOrUpdate _ _ w := Done (Some ConcreteStore.notFound, w); RetryOnConflict f o := f o |};
  ListStorageAccounts _ w := Done (inl [account], w);
  GetSecret _ w := Done (inr ConcreteStore.notFound, w);
  GetConfigMap _ w := Done (inl {[ "ClusterName" := "thegreendragon"; "Region" := "theshire" ]}, w) |}.

Definition resources : ContextInterface world := {|
  ResourceExists _ w := Done (false, w);
  CreateOrUpdateResource _ _ _ _ _ w := Done (None, w);
  DeleteResource _ w := Done (None, w);
  GetResourceStatus _ w := Done (inl (mkObservedState true ""), w);
  CreateResourceReference _ := plotterRef |}.

Definition evaluator (valid : bool) : Evaluator := fun _ => (mkEvaluatorOutput valid "" "" "" ∅ [], None).
Definition deny : PolicyManager := fun _ _ =>
  inl (mkGetPolicyDecisionsResponse "" [mkResultItem "" (mkAction "Deny" noProps)]).

Definition reconciler (pm : PolicyManager) (valid : bool) : Reconciler world :=
  mkReconciler client "FybrikApplication" pm (fun _ _ => inl asset) resources
    (fun w => Done (inl [cluster], w)) ProvisionTest.provision (evaluator valid).

Lemma theModule_wf : module_wf theModule.
Proof.
  intros c api Hc. apply (example_modules_wf "arrow-flight" theModule c api); [|exact Hc].
  apply lookup_singleton_eq.
Qed.

Lemma reconciler_services pm valid : services (reconciler pm valid).
Proof.
  split; intros; simpl.
  - eexists _, _. split; [reflexivity|]. intros l [= <-]. apply Forall_singleton, theModule_wf.
  - by eexists.
  - by eexists.
  - by eexists.
  - by eexists.
  - unfold ProvisionTest.DeleteDataset. destruct (ProvisionTest.hasDataset ref w); by eexists.
  - by eexists.
  - by eexists.
  - by eexists.
Qed.

Notation collect := (@collectRequirements Concrete.k8s (Concrete.env []) Concrete.accept_all world).

Lemma denied_asset_excluded_witness :
  exists reqs a', collect (reconciler deny true) cluster [context] fresh = Done (reqs, a') /\
    statusOf a' "assets/1" DenyConditionIndex = ConditionTrue /\
    forall item, item ∈ reqs -> Context item <> context.
Proof.
  apply (@denied_asset_excluded Concrete.k8s (Concrete.env []) Concrete.accept_all world
    (reconciler deny true) cluster fresh context fresh_wf); [by left|].
  eexists _, _. repeat split; reflexivity.
Defined.

Lemma invalid_configuration_is_used_witness :
  exists item, @constructDataInfo Concrete.k8s (Concrete.env []) Concrete.accept_all world
      (reconciler allow false) context fresh cluster = inl item /\
    Configuration item = mkEvaluatorOutput false "" "" "" ∅ [].
Proof.
  assert (exists item, @constructDataInfo Concrete.k8s (Concrete.env []) Concrete.accept_all world
      (reconciler allow false) context fresh cluster = inl item) as (item & E).
  { eexists. vm_compute. reflexivity. }
  exists item. split; [exact E|].
  apply (@invalid_configuration_is_used Concrete.k8s (Concrete.env []) Concrete.accept_all world
    (reconciler allow false) fresh context cluster item _ E); reflexivity.
Defined.

Lemma buildSolution_serves_witness :
  exists res a' w', @buildSolution canonical_range Concrete.k8s (Concrete.env []) Concrete.accept_all verbatim
      world (reconciler allow true) fresh [item ∅] [] = Done ((res, a'), w') /\ progress fresh a' /\
    forall prov spec, res = inl (prov, spec) -> exists modules regions clusters,
      @surveys canonical_range (Concrete.env []) world (reconciler allow true) [] modules regions clusters /\
      serves (plotterGenerator (reconciler allow true) fresh modules clusters regions) [item ∅] a' spec.
Proof.
  apply (@buildSolution_serves canonical_range Concrete.k8s (Concrete.env []) Concrete.accept_all verbatim
    world Concrete.k8s_nested (reconciler allow true) fresh [item ∅] []).
  - apply reconciler_services.
  - exact fresh_wf.
  - apply Forall_singleton. split; [by left|discriminate].
Defined.

Definition stored : FybrikApplication :=
  setProvisioned (Some {[ "old" := mkDatasetDetails "old-bucket" "secret" ]}) fresh.
Definition oldBucket : ProvisionedBucket :=
  mkProvisionedBucket "old-bucket" "http://s3" (mkNamespacedName "secret" "fybrik-system").

Lemma updateProvisionedStorageStatus_exact_witness :
  exists ready err w', @updateProvisionedStorageStatus canonical_range (Concrete.env []) world
      (reconciler allow true) stored {[ "assets/1" := mkNewAssetInfo StorageExamples.bucket ]} [oldBucket] =
    Done ((ready, err, setProvisioned (Some (datasetDetails <$>
      ({[ "assets/1" := mkNewAssetInfo StorageExamples.bucket ]} : ProvisionedMap))) stored), w').
Proof.
  apply (@updateProvisionedStorageStatus_exact canonical_range (Concrete.env []) world
    (reconciler allow true) stored {[ "old" := mkDatasetDetails "old-bucket" "secret" ]}).
  - intros ref w. exact (sv_delete _ (reconciler_services allow true) ref w).
  - intros ref w. exact (sv_status _ (reconciler_services allow true) ref w).
  - reflexivity.
Defined.

Definition outdated : FybrikApplication :=
  setProvisioned (Some {[ "old" := mkDatasetDetails "old-bucket" "secret"; "lost" := mkDatasetDetails "lost-bucket" "secret" ]}) fresh.

(** One of the two Datasets does not exist. *)
Lemma deleteExternalResources_exact_witness :
  exists answers storage' err w', @deletions (Concrete.env []) world (reconciler allow true)
      (@range canonical_range _ (gm (appstatus_ProvisionedStorage (app_Status outdated)))) [oldBucket] answers w' /\
    @deleteExternalResources canonical_range (Concrete.env []) world (reconciler allow true) outdated [oldBucket] =
      Done ((Some err, setGenerated (appstatus_Generated (app_Status fresh)) (setProvisioned storage' outdated)), w') /\
    mget storage' "old" = None /\ mget storage' "lost" = Some (mkDatasetDetails "lost-bucket" "secret").
Proof.
  destruct (@deleteExternalResources_exact canonical_range (Concrete.env []) world (reconciler allow true) outdated [oldBucket])
    as (answers & w1 & storage' & generated' & err & w' & Hdel & E & Hget & Hcases).
  - intros ref w. exact (sv_delete _ (reconciler_services allow true) ref w).
  - intros ref w. by eexists.
  - assert (@range canonical_range _ (gm (appstatus_ProvisionedStorage (app_Status outdated))) =
      [("old", mkDatasetDetails "old-bucket" "secret"); ("lost", mkDatasetDetails "lost-bucket" "secret")]) as Hr
      by (vm_compute; reflexivity).
    rewrite Hr in Hdel |- *. pose proof Hdel as Hrun.
    inversion Hrun as [|? ? ? ? ? ? ? ? E1 Hrun1]; subst. vm_compute in E1. injection E1 as <- <-.
    inversion Hrun1 as [|? ? ? ? ? ? ? ? E2 Hrun2]; subst. vm_compute in E2. injection E2 as <- <-.
    inversion Hrun2; subst. destruct Hcases as (-> & -> & ->). eexists _, storage', _, _.
    split; [exact Hdel|]. split; [exact E|]. rewrite !Hget. split; vm_compute; reflexivity.
Defined.

Lemma reconcile_safe_witness :
  exists res err a' w', @reconcile canonical_range Concrete.k8s (Concrete.env []) Concrete.accept_all verbatim
      world (reconciler allow true) "uid" application [] = Done ((res, err, a'), w') /\
    same_object application a' /\ app_wf a'.
Proof.
  apply (@reconcile_safe canonical_range Concrete.k8s (Concrete.env []) Concrete.accept_all verbatim
    world Concrete.k8s_nested (reconciler allow true) "uid" application []).
  - apply reconciler_services.
  - apply Forall_singleton. discriminate.
Defined.

Definition served : FybrikApplication := setGenerated (Some plotterRef) application.

Lemma refused_application_keeps_plotter_witness :
  exists a2 w1, @reconcile canonical_range Concrete.k8s (Concrete.env []) Concrete.accept_all verbatim
      world (reconciler deny true) "uid" served [] = Done ((noResult, None, a2), w1) /\
    appstatus_Generated (app_Status a2) = Some plotterRef.
Proof.
  assert (exists a1 wc w1 a2, initStatus served = Done a1 /\
    @GetWorkloadCluster Concrete.k8s (Concrete.env []) world (reconciler deny true) (ensureStorageMap a1) [] =
      Done (inl wc, w1) /\
    collect (reconciler deny true) wc [context] (ensureStorageMap a1) = Done ([], a2))
    as (a1 & wc & w1 & a2 & E0 & E1 & E2).
  { eexists _, _, _, _. split; [vm_compute; reflexivity|]. split; vm_compute; reflexivity. }
  exists a2, w1.
  apply (@refused_application_keeps_plotter canonical_range Concrete.k8s (Concrete.env [])
    Concrete.accept_all verbatim world (reconciler deny true) "uid" served [] wc w1 a1 a2); [discriminate|exact E0|exact E1|exact E2].
Defined.

Lemma checkReadiness_correct_witness :
  exists a', @checkReadiness (Concrete.env []) world (reconciler allow true) fresh (mkObservedState true "") [] =
      Done (a', []) /\ isReady a' = Done true.
Proof.
  destruct (@checkReadiness_correct (Concrete.env []) world (reconciler allow true) fresh (mkObservedState true "") []
    fresh_wf) as (a' & E & _ & Hready & _).
  - apply Forall_singleton. reflexivity.
  - exists a'. split; [exact E|]. by apply Hready.
Defined.

(** *** A store of applications *)
Definition appKey (a : FybrikApplication) : NamespacedName := ObjectKey a.
Definition appClient : Client (gmap NamespacedName FybrikApplication) := {|
  Applications := ConcreteStore.client appKey; Plotters := ConcreteStore.absent;
  Blueprints := ConcreteStore.absent; ModulesClient := ConcreteStore.absent;
  ListStorageAccounts _ w := Done (inl [], w);
  GetSecret _ w := Done (inr ConcreteStore.notFound, w);
  GetConfigMap _ w := Done (inr ConcreteStore.notFound, w) |}.
Definition storeReconciler : Reconciler (gmap NamespacedName FybrikApplication) :=
  mkReconciler appClient "FybrikApplication" allow (fun _ _ => inl asset)
    {| ResourceExists _ w := Done (false, w); CreateOrUpdateResource _ _ _ _ _ w := Done (None, w);
       DeleteResource _ w := Done (None, w); GetResourceStatus _ w := Done (inl (mkObservedState true ""), w);
       CreateResourceReference _ := plotterRef |}
    (fun w => Done (inl [cluster], w))
    (mkProvision (fun _ _ _ w => Done (None, w)) (fun _ w => Done (None, w))
       (fun _ w => Done (inr ConcreteStore.notFound, w)) (fun _ _ w => Done (None, w)))
    (evaluator true).

Lemma reconcileFinalizers_protects_witness :
  exists a' w', @reconcileFinalizers canonical_range Concrete.k8s (Concrete.env []) _ storeReconciler application
      {[ appKey application := application ]} = Done ((None, a'), w') /\
    w' !! appKey application = Some a' /\
    "FybrikApplication.finalizer" ∈ meta_Finalizers (app_Meta a').
Proof.
  destruct (@reconcileFinalizers_protects canonical_range Concrete.k8s Concrete.k8s_finalizers (Concrete.env [])
    _ storeReconciler (fun w k => w !! k) (ConcreteStore.laws appKey) application
    {[ appKey application := application ]}) as (a' & w' & E & Hobj & Hc & _).
  - apply lookup_singleton_eq.
  - reflexivity.
  - discriminate.
  - exists a', w'. split; [exact E|]. split; [exact Hobj|]. exact (bool_decide_unpack _ (proj2 (Is_true_true _) Hc)).
Defined.
End AppExamples.
