(* ===== verification/AppLiveness.v ===== *)
(** * An application becomes ready

    The application controller generates a plotter, records it in the status, and looks at
    it whenever it is called again.  Here the calls are put together: when the plotter is
    generated and becomes ready after a while, the stored application is marked ready, and
    the controller stops asking to be called. *)
From stdpp Require Import base gmap strings list numbers.
From S2P Require Import Prelude GoStrings Types External Utils Policy AdminConfig World MultiCluster Storage SelectModules PlotterGen Conditions ResourceGen AppController AppFacts AppExamples.

Definition markReady (b : bool) (a : FybrikApplication) : FybrikApplication :=
  setStatus (fun s => s <| appstatus_Ready := b |>) a.

Lemma allReady_states a a' ids : assetStates a' = assetStates a -> allReady a' ids = allReady a ids.
Proof.
  intros E. induction ids as [|id ids IH]; [done|]. cbn [allReady]. unfold assetState. by rewrite E, IH.
Qed.

Lemma markReady_same b a : same_object a (markReady b a) /\ same_validity a (markReady b a) /\
  (app_wf a -> app_wf (markReady b a)) /\ appstatus_Ready (app_Status (markReady b a)) = b /\
  isReady (markReady b a) = isReady a.
Proof.
  assert (assetStates (markReady b a) = assetStates a) as E by (by destruct a as [? ? []]).
  unfold isReady. rewrite E, (allReady_states _ _ _ E). by destruct a as [? ? []].
Qed.

Definition observe (n : Z) (a : FybrikApplication) : FybrikApplication :=
  setStatus (fun s => s <| appstatus_ObservedGeneration := n |>) a.

Lemma observe_same n a : same_object a (observe n a) /\
  appstatus_ValidApplication (app_Status (observe n a)) = appstatus_ValidApplication (app_Status a) /\
  appstatus_ValidatedGeneration (app_Status (observe n a)) = appstatus_ValidatedGeneration (app_Status a) /\
  (app_wf a -> app_wf (observe n a)) /\ appstatus_ObservedGeneration (app_Status (observe n a)) = n /\
  appstatus_Generated (app_Status (observe n a)) = appstatus_Generated (app_Status a).
Proof. by destruct a as [? ? []]. Qed.

Section Liveness.
Context `{MapRange, K8sMeta, Runtime, Schema, TemplateEngine, Encoder} {W : Type}.
Context (r : Reconciler W) (key : NamespacedName).

(** The stored applications, the plotters that exist, for how many rounds the plotter will
    not be ready, and the time between two rounds. *)
Context (objects : W -> NamespacedName -> option FybrikApplication)
  (generated : W -> ResourceReference -> Prop) (pending : W -> nat) (elapse : W -> W).

(** [c], when some time has passed. *)
Definition later {A} (c : M W A) : M W A := fun w => c (elapse w).

(** The workqueue calls the controller again until it neither reports an error nor asks for
    another call. *)
Fixpoint poll (n : nat) : M W bool :=
  match n with
  | 0 => mret false
  | S n =>
      res ← Reconcile r key;
      match res.2 with
      | None => if Z.eqb (RequeueAfter res.1) 0 then mret true else later (poll n)
      | Some _ => later (poll n)
      end
  end.

(** An API server that answers, with no other writer of the application, and a plotter that
    reports no error and is ready when nothing is pending any more. *)
Record responsive : Prop := {
  rs_Get w a : objects w key = Some a ->
    reaches (Get (Applications (r_Client r)) key) w (fun o w' => o = inl a /\ w' = w);
  rs_Status w a0 a : objects w key = Some a0 -> same_object a0 a ->
    reaches (StatusUpdate (Applications (r_Client r)) a) w (fun o w' => o = inl a /\
      objects w' key = Some a /\ pending w' = pending w /\ forall ref, generated w ref -> generated w' ref);
  rs_none w : reaches (ResourceExists (r_ResourceInterface r) None) w (fun o w' => o = false /\ w' = w);
  rs_Exists w ref : generated w ref ->
    reaches (ResourceExists (r_ResourceInterface r) (Some ref)) w (fun o w' => o = true /\ w' = w);
  rs_Observed w ref : generated w ref ->
    reaches (GetResourceStatus (r_ResourceInterface r) (Some ref)) w (fun o w' => w' = w /\
      exists s, o = inl s /\ os_Error s = "" /\ (pending w = 0 -> os_Ready s = true));
  rs_time w : objects (elapse w) key = objects w key /\ pending (elapse w) = pred (pending w) /\
    forall ref, generated w ref -> generated (elapse w) ref
}.
Context (Hrs : responsive).

(** The controller is in charge of the application, which has been validated. *)
Record controlled (a : FybrikApplication) : Prop := {
  ct_key : ObjectKey a = key;
  ct_finalizer : ContainsFinalizer (meta_Finalizers (app_Meta a)) (finalizerName r) = true;
  ct_alive : isDeleted (app_Meta a) = false;
  ct_data : appspec_Data (app_Spec a) <> [];
  ct_plain : Forall not_cataloged (appspec_Data (app_Spec a));
  ct_checked : Getenv "ENABLE_WEBHOOKS" = "true" \/
    (appstatus_ValidApplication (app_Status a) <> "" /\
     appstatus_ValidatedGeneration (app_Status a) = meta_Generation (app_Meta a));
  ct_valid : appstatus_ValidApplication (app_Status a) <> ConditionFalse
}.

(** The plotter for the current generation of the application is recorded. *)
Definition planned (ref : ResourceReference) (a : FybrikApplication) : Prop :=
  appstatus_Generated (app_Status a) = Some ref /\ ref_AppVersion ref = meta_Generation (app_Meta a).

(** What holds between two rounds. *)
Definition processed (ref : ResourceReference) (w : W) : Prop :=
  exists a, objects w key = Some a /\ controlled a /\ app_wf a /\ planned ref a /\
    appstatus_ObservedGeneration (app_Status a) = meta_Generation (app_Meta a) /\ generated w ref.

(** The application is marked ready, and each of its assets is ready or denied. *)
Definition is_served (w : W) : Prop :=
  exists a, objects w key = Some a /\ appstatus_Ready (app_Status a) = true /\
    forall id, id ∈ assetIDs a -> statusOf a id DenyConditionIndex <> ConditionFalse \/
                                  statusOf a id ReadyConditionIndex <> ConditionFalse.

(** ** The parts of a round *)

Lemma controlled_keep a a' : same_object a a' ->
  appstatus_ValidApplication (app_Status a') = appstatus_ValidApplication (app_Status a) ->
  appstatus_ValidatedGeneration (app_Status a') = appstatus_ValidatedGeneration (app_Status a) ->
  controlled a -> controlled a'.
Proof.
  intros [Hm Hs] Hv Hg []. split; unfold ObjectKey in *; simpl in *; by rewrite ?Hm, ?Hs, ?Hv, ?Hg.
Qed.

Lemma controlled_same a a' : same_object a a' -> same_validity a a' -> controlled a -> controlled a'.
Proof. intros Ho (Hv & Hg & _). by apply controlled_keep. Qed.

Lemma finalizers_idle a w : controlled a -> reconcileFinalizers r a w = Done ((None, a), w).
Proof.
  intros []. unfold reconcileFinalizers. rewrite ct_alive0, ct_finalizer0. destruct (appspec_Data (app_Spec a)); done.
Qed.

Lemma validation_idle a w : controlled a -> validateApplication r a w = Done ((None, a), w).
Proof.
  intros []. unfold validateApplication.
  destruct ct_checked0 as [->|[Hv ->]]; [done|]. rewrite Z.eqb_refl, (proj2 (String.eqb_neq _ _) Hv).
  by destruct (Getenv _ <>? _).
Qed.

Lemma getErrorMessages_returns a : app_wf a -> returns (getErrorMessages a).
Proof.
  intros Hwf. destruct (decide (appstatus_ErrorMessage (app_Status a) = "")) as [He|He].
  - destruct (getErrorMessages_spec a Hwf He) as (msg & E & _). by exists msg.
  - unfold getErrorMessages. rewrite (proj2 (String.eqb_neq _ _) He). by eexists.
Qed.

Lemma finishReconcile_reaches a0 a w :
  objects w key = Some a0 -> same_object a0 a -> isDeleted (app_Meta a) = false -> app_wf a ->
  reaches (finishReconcile r a) w (fun res w' => exists b, isReady a = Done b /\
    objects w' key = Some (markReady b a) /\ pending w' = pending w /\
    (forall ref, generated w ref -> generated w' ref) /\
    res = (if b then noResult else mkResult 10, None)).
Proof.
  intros Ho Hs Hd Hwf. destruct (isReady_correct a Hwf) as (b & Eb & _).
  destruct (markReady_same b a) as (Hm1 & _ & Hm3 & _ & Hm5).
  unfold finishReconcile. rewrite Eb. fold (markReady b a).
  apply reaches_bind. exists b, w. split; [done|]. fold (markReady b a).
  replace (isDeleted (app_Meta (markReady b a))) with false by (by destruct Hm1 as [-> _]). cbn [negb].
  destruct (rs_Status Hrs w a0 (markReady b a) Ho) as (o & w1 & Es & -> & Ho1 & Hp1 & Hg1); [by etrans|].
  apply reaches_bind. exists (markReady b a, None), w1.
  split; [unfold UpdateStatus; by rewrite (M_bind_run _ _ _ _ _ Es)|]. cbn [fst snd].
  destruct (getErrorMessages_returns (markReady b a) (Hm3 Hwf)) as (msg & Em).
  apply reaches_bind. exists msg, w1. split; [by rewrite Em|].
  apply reaches_bind. exists b, w1. split; [by rewrite Hm5, Eb|].
  destruct b; apply reaches_ret; eexists; done.
Qed.

(** ** A round on an application whose plotter was generated *)

Lemma processed_round ref w : processed ref w ->
  reaches (Reconcile r key) w (fun res w' => processed ref w' /\ pending w' = pending w /\ res.2 = None /\
    (RequeueAfter res.1 = 0%Z -> is_served w') /\ (pending w = 0 -> RequeueAfter res.1 = 0%Z)).
Proof.
  intros (a & Ho & Hc & Hwf & [Hgen Hver] & Hobs & Hex). unfold Reconcile.
  destruct (rs_Get Hrs w a Ho) as (o & w1 & Eg & -> & ->). apply reaches_bind. exists (inl a), w. split; [done|].
  apply reaches_bind. exists (None, a), w. split; [by apply finalizers_idle|]. cbn [fst snd].
  rewrite (ct_alive _ Hc). apply reaches_bind. exists (None, a), w. split; [by apply validation_idle|]. cbn [fst snd].
  rewrite (proj2 (String.eqb_neq _ _) (ct_valid _ Hc)).
  destruct (rs_Exists Hrs w ref Hex) as (e & w2 & Ee & -> & ->).
  apply reaches_bind. exists true, w. split.
  { unfold generationComplete. rewrite Hgen, (M_bind_run _ _ _ _ _ Ee). by rewrite Hver, Z.eqb_refl. }
  rewrite Hobs, Z.eqb_refl. cbn [negb orb]. rewrite Hgen.
  destruct (rs_Observed Hrs w ref Hex) as (o & w2 & Es & -> & s & -> & Herr & Hready).
  apply reaches_bind. exists (inl s), w. split; [done|].
  destruct (checkReadiness_correct r a s w Hwf (ct_plain _ Hc)) as (a' & Ec & Hp & Hisr & _).
  apply reaches_bind. exists a', w. split; [done|].
  assert (Hc' : controlled a') by (by apply (controlled_same a); [apply Hp|apply Hp|]).
  eapply reaches_mono.
  { apply (finishReconcile_reaches a); [done|apply Hp|apply (ct_alive _ Hc')|apply Hp]. }
  intros res w' (b & Eb & Ho' & Hp' & Hg' & ->). destruct (markReady_same b a') as (Hm1 & Hm2 & Hm3 & Hm4 & Hm5).
  pose proof (Hm3 (pr_wf _ _ Hp)) as Hwf'. split; [|split; [done|split; [done|]]].
  - exists (markReady b a'). split; [done|]. split; [by apply (controlled_same a')|]. split; [done|].
    destruct (pr_object _ _ Hp) as [Hmeta _], (pr_status _ _ Hp) as (Hg & _), (pr_validity _ _ Hp) as (_ & _ & Hv).
    split; [|split; [|by apply Hg']].
    + split; destruct a' as [? ? []]; simpl in *; congruence.
    + destruct a' as [? ? []]; simpl in *; congruence.
  - split.
    + destruct b; [intros _|done]. exists (markReady true a'). split; [done|]. split; [done|].
      destruct (isReady_correct _ Hwf') as (b & Eb' & Hb). apply Hb. rewrite Hm5, Eb in Eb'. congruence.
    + intros Hz. rewrite (Hisr Herr (Hready Hz)) in Eb. by simplify_eq.
Qed.

Lemma processed_elapse ref w : processed ref w -> processed ref (elapse w).
Proof.
  intros (a & Ho & Hc & Hwf & Hpl & Hobs & Hex). destruct (rs_time Hrs w) as (Et & _ & Hg).
  exists a. rewrite Et. split_and!; auto.
Qed.

Lemma poll_processed n ref w : processed ref w -> pending w <= n ->
  reaches (poll (S n)) w (fun done w' => done = true /\ is_served w').
Proof.
  revert w. induction n as [|n IH]; intros w Hw Hn; cbn [poll];
    (eapply reaches_then; [by apply (processed_round ref)|]);
    intros [res err] w1 (Hw1 & Hp1 & Herr & Hserved & Hzero); simpl in *; subst err.
  - rewrite Hzero in * by lia. apply reaches_ret. auto.
  - destruct (Z.eqb_spec (RequeueAfter res) 0) as [Hz|Hz]; [apply reaches_ret; auto|].
    apply (IH (elapse w1)); [by apply processed_elapse|]. destruct (rs_time Hrs w1) as (_ & -> & _). lia.
Qed.

(** ** The first round, which generates the plotter *)

Lemma first_round `{!NestedStringLaws} ref a w :
  services r -> Forall (fun id => id <> "") (assetIDs a) ->
  objects w key = Some a -> controlled a -> appstatus_Generated (app_Status a) = None ->
  reaches (reconcile r (GetFybrikApplicationUUID a) a) w (fun res w' =>
    res.1.2 = None /\ planned ref res.2 /\ generated w' ref /\ objects w' key = Some a) ->
  reaches (Reconcile r key) w (fun res w' => processed ref w' /\ res.2 = None /\ (RequeueAfter res.1 = 0%Z -> is_served w')).
Proof.
  intros Hsv Hids Ho Hc Hgen (res & w2 & Er & Herr & [Hg Hver] & Hex & Ho2). unfold Reconcile.
  destruct (reconcile_runs r (GetFybrikApplicationUUID a) a w Hsv Hids) as (res0 & err & a1 & w2' & Er' & Hs1 & Hwf1 & Hv1).
  rewrite Er in Er'. simplify_eq/=.
  destruct (rs_Get Hrs w a Ho) as (o & w1 & Eg & -> & ->). apply reaches_bind. exists (inl a), w. split; [done|].
  apply reaches_bind. exists (None, a), w. split; [by apply finalizers_idle|]. cbn [fst snd].
  rewrite (ct_alive _ Hc). apply reaches_bind. exists (None, a), w. split; [by apply validation_idle|]. cbn [fst snd].
  rewrite (proj2 (String.eqb_neq _ _) (ct_valid _ Hc)).
  destruct (rs_none Hrs w) as (e & w3 & Ee & -> & ->).
  apply reaches_bind. exists false, w. split.
  { unfold generationComplete. by rewrite Hgen, (M_bind_run _ _ _ _ _ Ee). }
  cbn [negb orb]. apply reaches_bind. eexists _, w2'. split; [exact Er|]. cbn [fst snd].
  set (n := meta_Generation (app_Meta a)). fold (observe n a1).
  destruct (observe_same n a1) as (Hb1 & Hb2 & Hb3 & Hb4 & Hb5 & Hb6). specialize (Hb4 Hwf1).
  assert (Hc1 : controlled (observe n a1)).
  { apply (controlled_keep a1); [done..|]. by apply (controlled_same a). }
  eapply reaches_mono.
  { apply (finishReconcile_reaches a); [done|by etrans|apply (ct_alive _ Hc1)|done]. }
  intros res w' (b & Eb & Ho' & Hp' & Hg' & ->).
  destruct (markReady_same b (observe n a1)) as (Hm1 & Hm2 & Hm3 & Hm4 & Hm5). specialize (Hm3 Hb4).
  split; [|split; [done|]].
  - exists (markReady b (observe n a1)). split; [done|]. split; [by apply (controlled_same (observe n a1))|].
    split; [done|]. destruct Hs1 as [Hmeta _]. unfold planned. rewrite Hmeta in Hver.
    split; [|split; [|by apply Hg']]; destruct a1 as [? ? []]; simpl in *; subst n; split_and?; congruence.
  - destruct b; [intros _|done]. exists (markReady true (observe n a1)). split; [done|]. split; [done|].
    destruct (isReady_correct _ Hm3) as (b & Eb' & Hb). apply Hb. rewrite Hm5 in Eb'.
    assert (Done b = Done true) as [= ->]; [|done]. rewrite <- Eb'. exact Eb.
Qed.

End Liveness.

(** ** A plotter that needs three rounds *)
Module AppLivenessExample.
Import SelectExamples PlotterExamples AppExamples.

(** The stored applications, and the number of rounds until the plotter runs, once it exists. *)
Definition lworld : Type := gmap NamespacedName FybrikApplication * option nat.

Definition onFst {A} (c : M (gmap NamespacedName FybrikApplication) A) : M lworld A := fun w =>
  match c w.1 with Done (x, m) => Done (x, (m, w.2)) | Panic why => Panic why end.
Definition store : ObjectClient lworld FybrikApplication :=
  let c := ConcreteStore.client appKey in {|
    Get k := onFst (Get c k); List_ ns := onFst (List_ c ns); Create o := onFst (Create c o);
    Update o := onFst (Update c o); StatusUpdate o := onFst (StatusUpdate c o); Delete o := onFst (Delete c o);
    CreateOrUpdate o f := onFst (CreateOrUpdate c o f); RetryOnConflict f o := f o |}.

Definition modules : ObjectClient lworld FybrikModule :=
  let c := ConcreteStore.absent in {|
    Get := Get c; List_ _ w := Done (inl [theModule], w); Create := Create c; Update := Update c;
    StatusUpdate := StatusUpdate c; Delete := Delete c; CreateOrUpdate := CreateOrUpdate c; RetryOnConflict f o := f o |}.

Definition lclient : Client lworld := {|
  Applications := store; Plotters := ConcreteStore.absent; Blueprints := ConcreteStore.absent; ModulesClient := modules;
  ListStorageAccounts _ w := Done (inl [account], w);
  GetSecret _ w := Done (inr ConcreteStore.notFound, w);
  GetConfigMap _ w := Done (inl {[ "ClusterName" := "thegreendragon"; "Region" := "theshire" ]}, w) |}.

Definition plotters : ContextInterface lworld := {|
  ResourceExists ref w := Done (match ref, w.2 with Some _, Some _ => true | _, _ => false end, w);
  CreateOrUpdateResource _ _ _ _ _ w := Done (None, (w.1, Some 3));
  DeleteResource _ w := Done (None, (w.1, None));
  GetResourceStatus _ w := Done (inl (mkObservedState (match w.2 with Some 0 => true | _ => false end) ""), w);
  CreateResourceReference o := plotterRef <| ref_AppVersion := ref_AppVersion o |> |}.

Definition controller : Reconciler lworld :=
  mkReconciler lclient "FybrikApplication" allow (fun _ _ => inl asset) plotters
    (fun w => Done (inl [cluster], w))
    (mkProvision (fun _ _ _ w => Done (None, w)) (fun _ w => Done (None, w))
       (fun _ w => Done (inl (mkProvisionedStorageStatus true ""), w)) (fun _ _ w => Done (None, w)))
    (evaluator true).

Definition notebook : FybrikApplication :=
  application <| app_Meta := (app_Meta application) <| meta_Finalizers := [finalizerName controller] |> |>
              <| app_Status := (app_Status application) <| appstatus_ValidApplication := ConditionTrue |>
                   <| appstatus_ValidatedGeneration := meta_Generation (app_Meta application) |> |>.
Definition nkey : NamespacedName := ObjectKey notebook.
Definition start : lworld := ({[ nkey := notebook ]}, None).
Definition lelapse (w : lworld) : lworld := (w.1, pred <$> w.2).
Definition lpending (w : lworld) : nat := default 0 w.2.

Definition exists_in (w : lworld) (ref : ResourceReference) : Prop := is_Some w.2.

Lemma controller_services : services controller.
Proof.
  split; intros; simpl; try by eexists.
  eexists _, _. split; [reflexivity|]. intros l [= <-]. apply Forall_singleton, theModule_wf.
Qed.

(** Applications are stored under their keys. *)
Definition stored_at (w : lworld) (k : NamespacedName) : option FybrikApplication :=
  match w.1 !! k with
  | Some a => if decide (appKey a = k) then Some a else None
  | None => None
  end.

Lemma stored_at_inv w k a : stored_at w k = Some a -> w.1 !! k = Some a /\ appKey a = k.
Proof. unfold stored_at. destruct (w.1 !! k); [|done]. case_decide; naive_solver. Qed.

Lemma controller_responsive : responsive controller nkey stored_at exists_in lpending lelapse.
Proof.
  split.
  - intros w a [Ha _]%stored_at_inv. eexists _, _. split; [cbn; unfold onFst; cbn; by rewrite Ha|by destruct w].
  - intros w a0 a [Ha Hk]%stored_at_inv [Hmeta _].
    assert (appKey a = nkey) as Hk' by (rewrite <- Hk; unfold appKey, ObjectKey; simpl; by rewrite Hmeta).
    eexists _, _. split; [cbn; unfold onFst; cbn; by rewrite Hk', Ha|]. split; [done|]. split; [|done].
    unfold stored_at. cbn. by rewrite Hk', lookup_insert_eq, decide_True.
  - intros w. by eexists _, _.
  - intros w ref [n Hn]. eexists _, _. split; [cbn; by rewrite Hn|done].
  - intros w ref [n Hn]. eexists _, _. split; [done|]. split; [done|]. eexists. split; [done|]. split; [done|].
    unfold lpending. rewrite Hn. simpl. by intros ->.
  - intros [m [n|]]; (split; [done|]); (split; [done|]); intros ref [k Hk]; [by eexists|done].
Qed.

Lemma notebook_controlled : @controlled Concrete.k8s (Concrete.env []) _ controller nkey notebook.
Proof.
  split; [done|vm_compute; reflexivity|done|done| |right|done].
  - apply Forall_singleton. reflexivity.
  - done.
Qed.

Definition nref : ResourceReference := plotterRef <| ref_AppVersion := meta_Generation (app_Meta notebook) |>.

Lemma notebook_planned :
  reaches (@reconcile canonical_range Concrete.k8s (Concrete.env []) Concrete.accept_all verbatim _ controller
      (GetFybrikApplicationUUID notebook) notebook) start (fun res w' =>
    res.1.2 = None /\ planned nref res.2 /\ exists_in w' nref /\ stored_at w' nkey = Some notebook).
Proof. apply reaches_run. vm_compute. split; [done|]. split; [done|]. by split; [eexists|]. Qed.


(** The plotter is generated in the first round and ready in the fourth. *)
Example served_in_four_rounds :
  match @poll canonical_range Concrete.k8s (Concrete.env []) Concrete.accept_all verbatim noEncoding _ controller nkey lelapse 4 start with
  | Done (finished, w) => finished = true /\ (appstatus_Ready ∘ app_Status <$> stored_at w nkey) = Some true
  | Panic _ => False
  end.
Proof. vm_compute. done. Qed.
End AppLivenessExample.
