(* ===== verification/PlotterController.v ===== *)
(** * The plotter controller

    [manager/controllers/app/plotter_controller.go] and [blueprint_mgr.go]: a plotter
    is turned into one blueprint per cluster, and the blueprints are created,
    updated and deleted through the cluster manager. *)
From stdpp Require Import base gmap strings list numbers.
From S2P Require Import Prelude GoStrings Types External Utils World MultiCluster.

(** ** blueprint_mgr.go *)

Record ModuleInstanceSpec := mkModuleInstanceSpec {
  instance_Chart : ChartSpec;
  instance_AssetIDs : list string;
  instance_Args : ModuleArguments;
  instance_ClusterName : string;
  instance_ModuleName : string;
  instance_Scope : string
}.

#[export] Instance ModuleInstanceSpec_eq_dec : EqDecision ModuleInstanceSpec.
Proof. solve_decision. Defined.

Section Blueprints.
Context `{MapRange}.

(** A further instance of the same module: its arguments are accumulated. *)
Definition uniteInstances (instance moduleInstance : ModuleInstanceSpec) : ModuleInstanceSpec :=
  let args := instance_Args instance in
  instance
    <| instance_Args := args
         <| args_Read := args_Read args ++ args_Read (instance_Args moduleInstance) |>
         <| args_Write := args_Write args ++ args_Write (instance_Args moduleInstance) |> |>
    <| instance_AssetIDs := instance_AssetIDs instance ++ instance_AssetIDs moduleInstance |>.

Definition instanceKey (i : ModuleInstanceSpec) : string :=
  instance_ModuleName i +:+ "," +:+ instance_ClusterName i.

(** The loop over the instances: those of "asset" scope are kept as they are. *)
Fixpoint refineLoop (instances newInstances : list ModuleInstanceSpec)
    (instanceMap : gmap string ModuleInstanceSpec)
    : list ModuleInstanceSpec * gmap string ModuleInstanceSpec :=
  match instances with
  | [] => (newInstances, instanceMap)
  | moduleInstance :: rest =>
      if instance_Scope moduleInstance =? Asset then
        refineLoop rest (newInstances ++ [moduleInstance]) instanceMap
      else
        let key := instanceKey moduleInstance in
        let united := match instanceMap !! key with
                      | None => moduleInstance
                      | Some instance => uniteInstances instance moduleInstance
                      end in
        refineLoop rest newInstances (<[key := united]> instanceMap)
  end.

Definition RefineInstances (instances : list ModuleInstanceSpec) : list ModuleInstanceSpec :=
  let '(newInstances, instanceMap) := refineLoop instances [] ∅ in
  newInstances ++ (range instanceMap).*2.

(** The name of an instance in the blueprint. *)
Definition instanceName (i : ModuleInstanceSpec) : outcome string :=
  if instance_Scope i =? Asset then
    match instance_AssetIDs i with
    | [] => Panic "index out of range [0]"
    | id :: _ => Done (CreateStepName (instance_ModuleName i) id)
    end
  else Done (instance_ModuleName i).

Definition blueprintModule (i : ModuleInstanceSpec) : BlueprintModule :=
  mkBlueprintModule (instance_ModuleName i) (instance_Chart i) (instance_Args i) (instance_AssetIDs i).

Fixpoint blueprintModules (instances : list ModuleInstanceSpec) (modules : gmap string BlueprintModule)
    : outcome (gmap string BlueprintModule) :=
  match instances with
  | [] => mret modules
  | i :: rest =>
      name ← instanceName i;
      blueprintModules rest (<[name := blueprintModule i]> modules)
  end.

Definition GenerateBlueprint (instances : list ModuleInstanceSpec) (clusterName : string)
    (plotter : Plotter) : outcome BlueprintSpec :=
  modules ← blueprintModules instances ∅;
  mret (mkBlueprintSpec clusterName (plotter_ModulesNamespace (pl_Spec plotter)) modules).

(** The instances by cluster, in order. *)
Definition instancesByCluster (instances : list ModuleInstanceSpec)
    : gmap string (list ModuleInstanceSpec) :=
  foldl (fun m i => <[instance_ClusterName i :=
                       default [] (m !! instance_ClusterName i) ++ [i]]> m) ∅ instances.

Fixpoint generateEach (plotter : Plotter) (groups : list (string * list ModuleInstanceSpec))
    (blueprintMap : gmap string BlueprintSpec) : outcome (gmap string BlueprintSpec) :=
  match groups with
  | [] => mret blueprintMap
  | (key, instanceList) :: rest =>
      spec ← GenerateBlueprint (RefineInstances instanceList) key plotter;
      generateEach plotter rest (<[key := spec]> blueprintMap)
  end.

Definition GenerateBlueprints (instances : list ModuleInstanceSpec) (plotter : Plotter)
    : outcome (gmap string BlueprintSpec) :=
  generateEach plotter (range (instancesByCluster instances)) ∅.
End Blueprints.

(** ** From steps to module instances *)

Record PlotterModulesSpec := mkPlotterModulesSpec {
  pm_ClusterName : string;
  pm_VaultAuthPath : string;
  pm_AssetID : string;
  pm_ModuleName : string;
  pm_ModuleArguments : option StepParameters;
  pm_FlowType : string;
  pm_Chart : ChartSpec;
  pm_Scope : string
}.

(** [addCredentials]: only the credentials of the flow are kept. *)
Definition addCredentials (dataStore : DataStore) (vaultAuthPath flowType : string) : DataStore :=
  let v := default zeroVault (ds_Vault dataStore !! flowType) in
  dataStore <| ds_Vault := {[ flowType :=
    mkVault (vault_Role v) (vault_SecretPath v) (vault_Address v) vaultAuthPath ]} |>.

Definition zeroDataStore : DataStore := mkDataStore ∅ zeroConnection "".
Definition zeroAssetDetails : AssetDetails := mkAssetDetails "" zeroDataStore.

Definition assetStore (plotter : Plotter) (assetID : string) : DataStore :=
  assetDetails_DataStore (default zeroAssetDetails (plotter_Assets (pl_Spec plotter) !! assetID)).

(** The data store a step reads from: an asset of the plotter, or another module. *)
Definition sourceStore (plotter : Plotter) (args : StepParameters) (vaultAuthPath : string)
    : outcome DataStore :=
  match params_Source args with
  | None => Panic "invalid memory address or nil pointer dereference"
  | Some source =>
      if source_AssetID source <>? "" then
        mret (addCredentials (assetStore plotter (source_AssetID source)) vaultAuthPath ReadFlow)
      else match source_API source with
           | None => Panic "invalid memory address or nil pointer dereference"
           | Some api => mret (mkDataStore ∅ (details_Connection api) (details_DataFormat api))
           end
  end.

Definition sinkStore (plotter : Plotter) (args : StepParameters) (vaultAuthPath : string)
    : outcome DataStore :=
  match params_Sink args with
  | None => Panic "invalid memory address or nil pointer dereference"
  | Some sink => mret (addCredentials (assetStore plotter (sink_AssetID sink)) vaultAuthPath WriteFlow)
  end.

Definition convertPlotterModuleToBlueprintModule (plotter : Plotter) (pm : PlotterModulesSpec)
    : outcome ModuleInstanceSpec :=
  let noArgs := mkModuleArguments (meta_Labels (pl_Meta plotter))
                  (selector_WorkloadSelector (plotter_Selector (pl_Spec plotter))) None [] [] in
  let instance := mkModuleInstanceSpec (pm_Chart pm) [pm_AssetID pm] noArgs (pm_ClusterName pm)
                    (pm_ModuleName pm) (pm_Scope pm) in
  match pm_ModuleArguments pm with
  | None => mret instance
  | Some args =>
      if pm_FlowType pm =? ReadFlow then
        source ← sourceStore plotter args (pm_VaultAuthPath pm);
        mret (instance <| instance_Args := noArgs <| args_Read :=
          [mkReadModuleArgs source (pm_AssetID pm) (params_Actions args)] |> |>)
      else if pm_FlowType pm =? WriteFlow then
        destination ← sinkStore plotter args (pm_VaultAuthPath pm);
        mret (instance <| instance_Args := noArgs <| args_Write :=
          [mkWriteModuleArgs destination (pm_AssetID pm) (params_Actions args)] |> |>)
      else if pm_FlowType pm =? CopyFlow then
        source ← sourceStore plotter args (pm_VaultAuthPath pm);
        destination ← sinkStore plotter args (pm_VaultAuthPath pm);
        mret (instance <| instance_Args := noArgs <| args_Copy :=
          Some (mkCopyModuleArgs source destination (pm_AssetID pm) (params_Actions args)) |> |>)
      else mret instance
  end.

(** The Vault authentication path of a cluster, empty when it is not registered. *)
Fixpoint clusterAuthPath (clusters : list Cluster) (clusterName : string) : string :=
  match clusters with
  | [] => ""
  | c :: rest =>
      if clusterName =? cluster_Name c then GetAuthPath (cluster_VaultAuthPath (cluster_Metadata c))
      else clusterAuthPath rest clusterName
  end.

Definition stepModule (clusters : list Cluster) (flow : Flow) (subFlow : SubFlow) (step : DataFlowStep)
    (module : ModuleInfo) : PlotterModulesSpec :=
  let moduleArgs := if info_Type module =? "plugin" then None else step_Parameters step in
  mkPlotterModulesSpec (step_Cluster step) (clusterAuthPath clusters (step_Cluster step))
    (flow_AssetID flow) (info_Name module) moduleArgs (subflow_FlowType subFlow) (info_Chart module)
    (info_Scope module).

(** The modules of the steps of all flows, in the order of the nested loops. *)
Definition plotterModules (clusters : list Cluster) (plotter : Plotter) : list PlotterModulesSpec :=
  plotter_Flows (pl_Spec plotter) ≫= (fun flow =>
  flow_SubFlows flow ≫= (fun subFlow =>
  subflow_Steps subFlow ≫= (fun sequence =>
  sequence ≫= (fun step =>
  stepModule clusters flow subFlow step <$>
    template_Modules (default (mkTemplate "" []) (plotter_Templates (pl_Spec plotter) !! step_Template step)))))).

Section Map.
Context `{MapRange} {W : Type}.

Definition getBlueprintsMap (cm : ClusterManager W) (plotter : Plotter)
    : M W (gmap string BlueprintSpec) :=
  cs ← GetClusters cm;
  let clusters := match cs with inl clusters => clusters | inr _ => [] end in
  lift (instances ← mapM (convertPlotterModuleToBlueprintModule plotter) (plotterModules clusters plotter);
        GenerateBlueprints instances plotter).
End Map.

(** ** Status of the assets *)
Section Assets.
Context `{MapRange}.
Notation AssetStatus := (gmap string ObservedState).

Definition newlineP : string := String (Ascii.ascii_of_nat 10) EmptyString.

(** The state of a module is merged into the state of each of its assets. *)
Definition mergeAssetState (moduleState : ObservedState) (states : AssetStatus) (assetID : string)
    : AssetStatus :=
  match states !! assetID with
  | None => <[assetID := moduleState]> states
  | Some state =>
      if negb (os_Ready moduleState)
      then <[assetID := mkObservedState false (os_Error state +:+ newlineP +:+ os_Error moduleState)]> states
      else states
  end.

Definition updatePlotterAssetsState (states : AssetStatus) (blueprint : Blueprint) : AssetStatus :=
  foldl (fun states (kv : string * ObservedState) =>
    let ids := from_option bpmodule_AssetIDs [] (bpspec_Modules (bp_Spec blueprint) !! kv.1) in
    foldl (mergeAssetState kv.2) states ids)
    states (range (gm (bpstatus_ModulesState (bp_Status blueprint)))).

Definition setPlotterAssetsReadyStateToFalse (states : AssetStatus) (spec : BlueprintSpec) (errMsg : string)
    : AssetStatus :=
  foldl (fun states (kv : string * BlueprintModule) =>
    foldl (fun states assetID => <[assetID := mkObservedState false errMsg]> states) states
      (bpmodule_AssetIDs kv.2))
    states (range (bpspec_Modules spec)).
End Assets.

(** ** reconcile *)

(** [PlotterReconciler] *)
Record PlotterReconciler (W : Type) := mkPlotterReconciler {
  plr_Client : ObjectClient W Plotter;
  plr_Name : string;
  plr_ClusterManager : ClusterManager W;
  (** [time.Now] *)
  plr_Now : M W Z;
  (** [int(math.Min(math.Exp2(elapsed.Minutes()), 60))] of the time since an instant *)
  plr_Backoff : Z -> M W Z
}.
Arguments mkPlotterReconciler {W}.
Arguments plr_Client {W}.
Arguments plr_Name {W}.
Arguments plr_ClusterManager {W}.
Arguments plr_Now {W}.
Arguments plr_Backoff {W}.

(** The local variables of [reconcile]. *)
Record PlotterState := mkPlotterState {
  ps_Blueprints : gmap string MetaBlueprint;
  ps_Error : string;
  ps_Assets : gmap string ObservedState;
  ps_Ready : bool;
  ps_Errors : list error
}.

Section Reconcile.
Context `{MapRange, K8sMeta} {W : Type}.
Implicit Types (r : PlotterReconciler W).

Definition notReady (msg : string) (spec : BlueprintSpec) (st : PlotterState) : PlotterState :=
  st <| ps_Ready := false |>
     <| ps_Assets := setPlotterAssetsReadyStateToFalse (ps_Assets st) spec msg |>.

Definition newBlueprint (plotter : Plotter) (cluster : string) (spec : BlueprintSpec) : Blueprint :=
  let label k := default "" (mget (meta_Labels (pl_Meta plotter)) k) in
  mkBlueprint
    (mkObjectMeta (meta_Name (pl_Meta plotter)) (meta_Namespace (pl_Meta plotter)) "" 0 None []
       (Some {[ "razee/watch-resource" := "debug";
                ApplicationNameLabel := label ApplicationNameLabel;
                ApplicationNamespaceLabel := label ApplicationNamespaceLabel ]})
       (Some {[ FybrikAppUUID := GetFybrikApplicationUUIDfromAnnotations (meta_Annotations (pl_Meta plotter)) ]})
       cluster)
    spec (mkBlueprintStatus (mkObservedState false "") 0 None None).

(** The body of the loop over the blueprints; [inl] is the early return. *)
Definition handleBlueprint (r : PlotterReconciler W) (plotter : Plotter) (cluster : string)
    (blueprintSpec : BlueprintSpec) (st : PlotterState) : M W ((Result * list error * PlotterState) + PlotterState) :=
  let cm := plr_ClusterManager r in
  match ps_Blueprints st !! cluster with
  | Some blueprint =>
      res ← GetBlueprint cm cluster (metabp_Namespace blueprint) (metabp_Name blueprint);
      match res with
      | inr err =>
          now ← plr_Now r;
          backoffFactor ← plr_Backoff r now;
          mret (inl (mkResult (4 + backoffFactor), ps_Errors st ++ [err], st))
      | inl None =>
          mret (inr (notReady "Could not yet find remote blueprint" blueprintSpec st))
      | inl (Some remote) =>
          if negb (bool_decide (blueprintSpec = bp_Spec remote)) then
            if negb (Z.eqb (meta_Generation (pl_Meta plotter)) (plstatus_ObservedGeneration (pl_Status plotter)))
            then
              let remote := remote <| bp_Spec := blueprintSpec |>
                                   <| bp_Meta := (bp_Meta remote) <| meta_Annotations := None |> |> in
              err ← UpdateBlueprint cm cluster remote;
              match err with
              | Some err =>
                  mret (inr (notReady (Error err) blueprintSpec
                    (st <| ps_Errors := ps_Errors st ++ [err] |>)))
              | None =>
                  mret (inr (notReady "Blueprint changes just applied" blueprintSpec
                    (st <| ps_Blueprints := <[cluster := CreateMetaBlueprintWithoutState remote]> (ps_Blueprints st) |>)))
              end
            else
              mret (inr (st <| ps_Ready := false |>
                            <| ps_Assets := updatePlotterAssetsState (ps_Assets st) remote |>))
          else
            let observed := bpstatus_ObservedState (bp_Status remote) in
            let st := st <| ps_Blueprints := <[cluster := CreateMetaBlueprint remote]> (ps_Blueprints st) |> in
            let st := if negb (os_Ready observed) then st <| ps_Ready := false |> else st in
            let st := if os_Error observed <>? "" then st <| ps_Error := os_Error observed |> else st in
            mret (inr (st <| ps_Assets := updatePlotterAssetsState (ps_Assets st) remote |>))
      end
  | None =>
      let blueprint := newBlueprint plotter cluster blueprintSpec in
      err ← CreateBlueprint cm cluster blueprint;
      match err with
      | Some err =>
          mret (inr (st <| ps_Errors := ps_Errors st ++ [err] |>
                        <| ps_Assets := setPlotterAssetsReadyStateToFalse (ps_Assets st) blueprintSpec (Error err) |>))
      | None =>
          mret (inr (notReady "Blueprint just created" blueprintSpec
            (st <| ps_Blueprints := <[cluster := CreateMetaBlueprintWithoutState blueprint]> (ps_Blueprints st) |>)))
      end
  end.

Fixpoint handleBlueprints (r : PlotterReconciler W) (plotter : Plotter)
    (blueprints : list (string * BlueprintSpec)) (st : PlotterState)
    : M W ((Result * list error * PlotterState) + PlotterState) :=
  match blueprints with
  | [] => mret (inr st)
  | (cluster, spec) :: rest =>
      res ← handleBlueprint r plotter cluster spec st;
      match res with
      | inl early => mret (inl early)
      | inr st' => handleBlueprints r plotter rest st'
      end
  end.

Definition missingChannel : string :=
  "Query channelByName error. Could not find the channel with name".

(** Blueprints that are not in the specification any more are deleted. *)
Fixpoint tidyUp (r : PlotterReconciler W) (blueprintsMap : gmap string BlueprintSpec)
    (deployed : list (string * MetaBlueprint)) (st : PlotterState) : M W PlotterState :=
  match deployed with
  | [] => mret st
  | (cluster, remote) :: rest =>
      match blueprintsMap !! cluster with
      | Some _ => tidyUp r blueprintsMap rest st
      | None =>
          err ← DeleteBlueprint (plr_ClusterManager r) cluster (metabp_Namespace remote) (metabp_Name remote);
          match err with
          | Some err =>
              if negb (HasPrefix (Error err) missingChannel)
              then tidyUp r blueprintsMap rest (st <| ps_Errors := ps_Errors st ++ [err] |>)
              else tidyUp r blueprintsMap rest (st <| ps_Blueprints := delete cluster (ps_Blueprints st) |>)
          | None => tidyUp r blueprintsMap rest (st <| ps_Blueprints := delete cluster (ps_Blueprints st) |>)
          end
      end
  end.

(** The local variables written into the status. *)
Definition recordState (plotter : Plotter) (st : PlotterState) : Plotter :=
  let s := pl_Status plotter in
  plotter <| pl_Status := s
    <| plstatus_Blueprints := Some (ps_Blueprints st) |>
    <| plstatus_ObservedState := (plstatus_ObservedState s) <| os_Error := ps_Error st |> |> |>.

Definition completeState (plotter : Plotter) (st : PlotterState) : Plotter :=
  let plotter := recordState plotter st in
  let s := pl_Status plotter in
  plotter <| pl_Status := s
    <| plstatus_ObservedGeneration := meta_Generation (pl_Meta plotter) |>
    <| plstatus_ObservedState := (plstatus_ObservedState s) <| os_Ready := ps_Ready st |> |>
    <| plstatus_Assets := ps_Assets st |> |>.

Definition setReadyTimestamp (t : option Z) (plotter : Plotter) : Plotter :=
  plotter <| pl_Status := (pl_Status plotter) <| plstatus_ReadyTimestamp := t |> |>.

Definition aggregateErrors (errs : list error) : string :=
  foldl (fun acc e => acc +:+ Error e +:+ newlineP) "" errs.

Definition finishPlotter (r : PlotterReconciler W) (plotter : Plotter) (st : PlotterState)
    : M W (Result * list error * Plotter) :=
  let plotter := completeState plotter st in
  if (ps_Ready st : bool) then
    readyTime ← (match plstatus_ReadyTimestamp (pl_Status plotter) with
                 | Some t => mret t
                 | None => plr_Now r
                 end);
    let plotter := setReadyTimestamp (Some readyTime) plotter in
    match ps_Errors st with
    | [] => mret (noResult, [], plotter)
    | errs =>
        backoffFactor ← plr_Backoff r readyTime;
        mret (mkResult (4 + backoffFactor), errs, plotter)
    end
  else
    let plotter := setReadyTimestamp None plotter in
    let s := pl_Status plotter in
    let plotter :=
      if (os_Error (plstatus_ObservedState s) =? "") && negb (Nat.eqb (length (ps_Errors st)) 0)
      then plotter <| pl_Status := s <| plstatus_ObservedState :=
             (plstatus_ObservedState s) <| os_Error := aggregateErrors (ps_Errors st) |> |> |>
      else plotter in
    mret (mkResult 5, ps_Errors st, plotter).

Definition reconcile (r : PlotterReconciler W) (plotter : Plotter)
    : M W (Result * list error * Plotter) :=
  blueprintsMap ← getBlueprintsMap (plr_ClusterManager r) plotter;
  let st := mkPlotterState (gm (plstatus_Blueprints (pl_Status plotter))) "" ∅ true [] in
  res ← handleBlueprints r plotter (range blueprintsMap) st;
  match res with
  | inl (result, errs, st) => mret (result, errs, recordState plotter st)
  | inr st =>
      st ← tidyUp r blueprintsMap (range (ps_Blueprints st)) st;
      finishPlotter r plotter st
  end.

(** ** Reconcile *)

Definition plotterFinalizer (r : PlotterReconciler W) : string := plr_Name r +:+ ".finalizer".
Definition plotterDeleted (p : Plotter) : bool :=
  match meta_DeletionTimestamp (pl_Meta p) with Some _ => true | None => false end.
Definition setPlotterFinalizers (fs : list string) (p : Plotter) : Plotter :=
  p <| pl_Meta := (pl_Meta p) <| meta_Finalizers := fs |> |>.

Fixpoint deleteBlueprints (r : PlotterReconciler W) (blueprints : list (string * MetaBlueprint))
    : M W (option error) :=
  match blueprints with
  | [] => mret None
  | (cluster, blueprint) :: rest =>
      err ← DeleteBlueprint (plr_ClusterManager r) cluster (metabp_Namespace blueprint) (metabp_Name blueprint);
      match err with
      | Some err => mret (Some err)
      | None => deleteBlueprints r rest
      end
  end.

Definition reconcileFinalizers (r : PlotterReconciler W) (plotter : Plotter) : M W (option error * Plotter) :=
  let hasFinalizer := ContainsFinalizer (meta_Finalizers (pl_Meta plotter)) (plotterFinalizer r) in
  if plotterDeleted plotter then
    if (hasFinalizer : bool) then
      err ← deleteBlueprints r (range (gm (plstatus_Blueprints (pl_Status plotter))));
      match err with
      | Some err => mret (Some err, plotter)
      | None =>
          u ← UpdateFinalizers (plr_Client r)
                (setPlotterFinalizers (RemoveFinalizer (meta_Finalizers (pl_Meta plotter)) (plotterFinalizer r)) plotter);
          mret (u.2, u.1)
      end
    else mret (None, plotter)
  else if negb hasFinalizer then
    u ← UpdateFinalizers (plr_Client r)
          (setPlotterFinalizers (AddFinalizer (meta_Finalizers (pl_Meta plotter)) (plotterFinalizer r)) plotter);
    mret (u.2, u.1)
  else mret (None, plotter).

Definition Reconcile (r : PlotterReconciler W) (req : NamespacedName) : M W (Result * option error) :=
  got ← Get (plr_Client r) req;
  match got with
  | inr err => mret (noResult, IgnoreNotFound err)
  | inl plotter =>
      fin ← reconcileFinalizers r plotter;
      match fin.1 with
      | Some err => mret (noResult, Some err)
      | None =>
          let plotter := fin.2 in
          if plotterDeleted plotter then mret (noResult, None)
          else
            res ← reconcile r plotter;
            let '(result, reconcileErrors, plotter) := res in
            u ← UpdateStatus (plr_Client r) plotter;
            match u.2 with
            | Some err => mret (noResult, Some (wrapError "failed to update plotter status" err))
            | None =>
                match reconcileErrors with
                | [] => mret (result, None)
                | err :: _ => mret (noResult, Some (wrapError "failed to reconcile plotter" err))
                end
            end
      end
  end.
End Reconcile.
