(* ===== verification/PlotterFacts.v ===== *)
(** * Correctness of the plotter controller *)
From stdpp Require Import base gmap strings list numbers.
From S2P Require Import Prelude GoStrings Types External Utils World MultiCluster Storage SelectModules PlotterGen PlotterController.

(** ** No panic on generated plotters *)

Lemma sourceStore_returns plotter args sourceID path :
  params_Source args = Some (mkStepSource sourceID None) -> sourceID <> "" ->
  sourceStore plotter args path = Done (addCredentials (assetStore plotter sourceID) path ReadFlow).
Proof.
  intros Hs Hne. unfold sourceStore. rewrite Hs. simpl. apply String.eqb_neq in Hne. by rewrite Hne.
Qed.

(** The instance made from a module of a step: its name, cluster, asset and, for a
    read, its argument. *)
Lemma convert_reads assets plotter clusters flow sf step ps info :
  subflow_reads assets sf step ps ->
  exists i, convertPlotterModuleToBlueprintModule plotter (stepModule clusters flow sf step info) = Done i /\
    instance_AssetIDs i = [flow_AssetID flow] /\ instance_ModuleName i = info_Name info /\
    instance_ClusterName i = step_Cluster step /\ instance_Scope i = info_Scope info /\
    (info_Type info <> "plugin" -> subflow_FlowType sf = ReadFlow ->
     exists store, args_Read (instance_Args i) = [mkReadModuleArgs store (flow_AssetID flow) (params_Actions ps)]) /\
    (info_Type info <> "plugin" -> subflow_FlowType sf = CopyFlow ->
     exists src dst, args_Copy (instance_Args i) =
       Some (mkCopyModuleArgs src dst (flow_AssetID flow) (params_Actions ps))).
Proof.
  intros ((Hsteps & Hps) & id & Hsrc & Hne & Ha & Ht). unfold convertPlotterModuleToBlueprintModule, stepModule.
  cbn [pm_ModuleArguments pm_FlowType pm_VaultAuthPath].
  destruct (String.eqb_spec (info_Type info) "plugin") as [Ep|Ep]; [eexists; split; [reflexivity|]; by repeat split|].
  rewrite Hps. destruct Ht as [Ht|(Ht & sid & Hsink & _)]; rewrite Ht.
  - change (ReadFlow =? ReadFlow) with true. cbn match.
    rewrite (sourceStore_returns plotter ps id _ Hsrc Hne). eexists; split; [reflexivity|]. simpl.
    repeat split; try done. eauto.
  - change (CopyFlow =? ReadFlow) with false. change (CopyFlow =? WriteFlow) with false.
    change (CopyFlow =? CopyFlow) with true. cbn match.
    rewrite (sourceStore_returns plotter ps id _ Hsrc Hne). unfold sinkStore. rewrite Hsink.
    eexists; split; [reflexivity|]. simpl. repeat split; try done. eauto.
Qed.

Lemma plotterModules_elem clusters plotter pm :
  pm ∈ plotterModules clusters plotter ->
  exists flow sf sequence step info, flow ∈ plotter_Flows (pl_Spec plotter) /\ sf ∈ flow_SubFlows flow /\
    sequence ∈ subflow_Steps sf /\ step ∈ sequence /\ pm = stepModule clusters flow sf step info.
Proof.
  unfold plotterModules. intros Hpm.
  apply list_elem_of_bind in Hpm as (flow & Hpm & Hf). apply list_elem_of_bind in Hpm as (sf & Hpm & Hs).
  apply list_elem_of_bind in Hpm as (sequence & Hpm & Hq). apply list_elem_of_bind in Hpm as (step & Hpm & Hst).
  apply list_elem_of_fmap in Hpm as (info & -> & _). by eexists _, _, _, _, _.
Qed.

Lemma plotterModules_convert clusters plotter pm :
  plotter_wf (pl_Spec plotter) -> pm ∈ plotterModules clusters plotter ->
  exists i, convertPlotterModuleToBlueprintModule plotter pm = Done i /\ instance_AssetIDs i <> [].
Proof.
  intros Hwf (flow & sf & sequence & step & info & Hf & Hs & Hq & Hst & ->)%plotterModules_elem.
  unfold plotter_wf in Hwf. rewrite list.Forall_forall in Hwf. destruct (Hwf flow Hf) as [_ Hsfs].
  rewrite list.Forall_forall in Hsfs. destruct (Hsfs sf Hs) as (step' & ps & Hr & _).
  assert (step = step') as ->.
  { destruct Hr as [[Hsteps _] _]. rewrite Hsteps in Hq. apply list_elem_of_singleton in Hq as ->.
    by apply list_elem_of_singleton in Hst. }
  destruct (convert_reads _ plotter clusters flow sf step' ps info Hr) as (i & E & Hids & _).
  exists i. split; [exact E|]. by rewrite Hids.
Qed.

(** ** Uniting instances loses nothing *)
Section Refine.
Context `{MapRange} {A : Type} (f : ModuleInstanceSpec -> list A)
  (f_unite : forall i j, f (uniteInstances i j) = f i ++ f j).

Definition collect (l : list ModuleInstanceSpec) : list A := l ≫= f.

Lemma collect_app l1 l2 : collect (l1 ++ l2) = collect l1 ++ collect l2.
Proof. apply bind_app. Qed.

Lemma collect_perm l1 l2 : l1 ≡ₚ l2 -> collect l1 ≡ₚ collect l2.
Proof. intros Hp. unfold collect. by rewrite Hp. Qed.

Definition values (m : gmap string ModuleInstanceSpec) : list ModuleInstanceSpec := (map_to_list m).*2.

Lemma values_insert_new m k i : m !! k = None -> values (<[k := i]> m) ≡ₚ i :: values m.
Proof. intros Hk. unfold values. by rewrite map_to_list_insert. Qed.

Lemma values_split m k i : m !! k = Some i -> values m ≡ₚ i :: values (delete k m).
Proof. intros Hk. unfold values. by rewrite <- (map_to_list_delete m k i). Qed.

Lemma values_insert_old m k i j : m !! k = Some i -> values (<[k := j]> m) ≡ₚ j :: values (delete k m).
Proof.
  intros Hk. rewrite <- insert_delete_eq. apply values_insert_new. apply lookup_delete_eq.
Qed.

Lemma refineLoop_collect instances new m new' m' :
  refineLoop instances new m = (new', m') ->
  collect (new' ++ values m') ≡ₚ collect (new ++ values m) ++ collect instances.
Proof using f_unite.
  revert new m. induction instances as [|x instances IH]; intros new m E; cbn [refineLoop] in E.
  { injection E as <- <-. by rewrite app_nil_r. }
  destruct (instance_Scope x =? Asset).
  - apply IH in E. rewrite E, !collect_app. unfold collect. simpl. rewrite app_nil_r.
    solve_Permutation.
  - apply IH in E. rewrite E. rewrite !collect_app. change (collect (x :: instances)) with (f x ++ collect instances).
    destruct (m !! instanceKey x) as [i|] eqn:Ek.
    + rewrite (collect_perm _ _ (values_insert_old m _ i _ Ek)), (collect_perm _ _ (values_split m _ i Ek)).
      unfold collect at 2 4. simpl. rewrite f_unite. solve_Permutation.
    + rewrite (collect_perm _ _ (values_insert_new m _ x Ek)). unfold collect at 2. simpl. solve_Permutation.
Qed.

Lemma RefineInstances_collect instances : collect (RefineInstances instances) ≡ₚ collect instances.
Proof using f_unite.
  unfold RefineInstances. destruct (refineLoop instances [] ∅) as [new m] eqn:E.
  assert ((range m).*2 ≡ₚ values m) as Hr by (unfold values; by rewrite range_perm).
  rewrite (collect_perm (new ++ (range m).*2) (new ++ values m)) by (by rewrite Hr).
  rewrite (refineLoop_collect _ _ _ _ _ E). done.
Qed.
End Refine.

Definition readArgs (i : ModuleInstanceSpec) : list ReadModuleArgs := args_Read (instance_Args i).
Definition writeArgs (i : ModuleInstanceSpec) : list WriteModuleArgs := args_Write (instance_Args i).

Section Blueprints.
Context `{MapRange}.

(** Uniting the instances of a module neither loses nor duplicates work: the
    read arguments, the write arguments and the assets of the resulting instances
    are those of the given instances, up to order. *)
Theorem RefineInstances_lossless instances :
  collect readArgs (RefineInstances instances) ≡ₚ collect readArgs instances /\
  collect writeArgs (RefineInstances instances) ≡ₚ collect writeArgs instances /\
  collect instance_AssetIDs (RefineInstances instances) ≡ₚ collect instance_AssetIDs instances.
Proof.
  split; [|split]; apply RefineInstances_collect; by intros [? ? []] [? ? []].
Qed.

(** Instances keep having assets. *)
Lemma refineLoop_assets instances new m new' m' :
  Forall (fun i => instance_AssetIDs i <> []) instances -> Forall (fun i => instance_AssetIDs i <> []) new ->
  map_Forall (fun _ i => instance_AssetIDs i <> []) m -> refineLoop instances new m = (new', m') ->
  Forall (fun i => instance_AssetIDs i <> []) new' /\ map_Forall (fun _ i => instance_AssetIDs i <> []) m'.
Proof.
  intros Hi. revert new m. induction Hi as [|x instances Hx _ IH]; intros new m Hn Hm E; cbn [refineLoop] in E.
  { by injection E as <- <-. }
  destruct (instance_Scope x =? Asset).
  - eapply IH; [| |exact E]; [|done]. apply Forall_app. split; [done|]. by apply Forall_singleton.
  - eapply IH; [| |exact E]; [done|]. apply map_Forall_insert_2; [|done].
    destruct (m !! instanceKey x) as [i|] eqn:Ek; [|done].
    destruct i as [? [|] ?]; [by destruct (Hm _ _ Ek)|done].
Qed.

Lemma RefineInstances_assets instances :
  Forall (fun i => instance_AssetIDs i <> []) instances ->
  Forall (fun i => instance_AssetIDs i <> []) (RefineInstances instances).
Proof.
  intros Hi. unfold RefineInstances. destruct (refineLoop instances [] ∅) as [new m] eqn:E.
  destruct (refineLoop_assets _ _ _ _ _ Hi (Forall_nil_2 _) (map_Forall_empty _) E) as [Hn Hm].
  apply Forall_app. split; [done|]. apply list.Forall_forall. intros i Hin.
  apply list_elem_of_fmap in Hin as ([k x] & -> & Hk%range_elem). by eapply Hm.
Qed.

Lemma instanceName_returns i : instance_AssetIDs i <> [] -> returns (instanceName i).
Proof.
  intros Hi. unfold instanceName. destruct (_ =? Asset); [|by eexists].
  destruct (instance_AssetIDs i); [done|by eexists].
Qed.

Lemma blueprintModules_returns instances modules :
  Forall (fun i => instance_AssetIDs i <> []) instances -> returns (blueprintModules instances modules).
Proof.
  intros Hi. revert modules. induction Hi as [|i instances Hx _ IH]; intros modules; cbn [blueprintModules];
    [by eexists|].
  destruct (instanceName_returns i Hx) as (name & ->). apply IH.
Qed.

(** With distinct names every instance has its module in the blueprint. *)
Lemma blueprintModules_spec instances names modules modules' :
  Forall2 (fun i name => instanceName i = Done name) instances names -> NoDup names ->
  blueprintModules instances modules = Done modules' ->
  (forall k, k ∉ names -> modules' !! k = modules !! k) /\
  Forall2 (fun i name => modules' !! name = Some (blueprintModule i)) instances names.
Proof.
  intros Hn. revert modules. induction Hn as [|i name instances names Hi _ IH]; intros modules Hnd E.
  { injection E as <-. by split. }
  apply list.NoDup_cons in Hnd as [Hnin Hnd]. cbn [blueprintModules] in E. rewrite Hi in E.
  destruct (IH _ Hnd E) as [Hother Hall]. split.
  - intros k Hk. rewrite Hother by set_solver. rewrite lookup_insert_ne; set_solver.
  - constructor; [|done]. rewrite Hother by done. apply lookup_insert_eq.
Qed.

Lemma instancesByCluster_spec instances c :
  instancesByCluster instances !! c =
    match filter (fun i => instance_ClusterName i = c) instances with [] => None | l => Some l end.
Proof.
  unfold instancesByCluster. induction instances as [|x instances IH] using rev_ind; [done|].
  rewrite foldl_app, list.filter_app. simpl.
  destruct (decide (instance_ClusterName x = c)) as [<-|Hne].
  - rewrite lookup_insert_eq, IH, filter_cons_True by done.
    destruct (filter _ instances); by rewrite ?filter_nil.
  - rewrite lookup_insert_ne, IH, filter_cons_False, filter_nil, app_nil_r by done. done.
Qed.

Lemma generateEach_spec plotter groups bps bps' :
  generateEach plotter groups bps = Done bps' -> NoDup groups.*1 ->
  (forall k, k ∉ groups.*1 -> bps' !! k = bps !! k) /\
  forall k l, (k, l) ∈ groups -> exists spec,
    GenerateBlueprint (RefineInstances l) k plotter = Done spec /\ bps' !! k = Some spec.
Proof.
  revert bps. induction groups as [|[k l] groups IH]; intros bps E Hnd.
  { injection E as <-. split; [done|]. set_solver. }
  rewrite fmap_cons in Hnd. apply list.NoDup_cons in Hnd as [Hk Hnd]. cbn [generateEach] in E.
  destruct (GenerateBlueprint (RefineInstances l) k plotter) as [spec|] eqn:Es; [|done].
  destruct (IH _ E Hnd) as [Hother Hall]. split.
  - intros k' Hk'. rewrite fmap_cons in Hk'. rewrite Hother by set_solver. rewrite lookup_insert_ne; set_solver.
  - intros k' l' [[= -> ->]|Hin]%elem_of_cons; [|by apply Hall].
    exists spec. split; [done|]. rewrite Hother by done. apply lookup_insert_eq.
Qed.

Lemma generateEach_returns plotter groups bps :
  Forall (fun g : string * list ModuleInstanceSpec => Forall (fun i => instance_AssetIDs i <> []) g.2) groups ->
  returns (generateEach plotter groups bps).
Proof.
  intros Hg. revert bps. induction Hg as [|[k l] groups Hl _ IH]; intros bps; cbn [generateEach]; [by eexists|].
  unfold GenerateBlueprint.
  destruct (blueprintModules_returns (RefineInstances l) ∅ (RefineInstances_assets l Hl)) as (m & ->). apply IH.
Qed.

Lemma GenerateBlueprints_returns instances plotter :
  Forall (fun i => instance_AssetIDs i <> []) instances -> returns (GenerateBlueprints instances plotter).
Proof.
  intros Hi. apply generateEach_returns. apply list.Forall_forall. intros [k l] Hk%range_elem. simpl.
  rewrite instancesByCluster_spec in Hk.
  assert (l = filter (fun i => instance_ClusterName i = k) instances) as -> by (destruct (filter _ instances); naive_solver).
  apply list.Forall_forall. intros i [_ Hin]%list_elem_of_filter. rewrite list.Forall_forall in Hi. by apply Hi.
Qed.

(** Instances of "asset" scope are kept as they are. *)
Lemma refineLoop_keeps instances new m new' m' i :
  refineLoop instances new m = (new', m') ->
  i ∈ new \/ (i ∈ instances /\ instance_Scope i = Asset) -> i ∈ new'.
Proof.
  revert new m. induction instances as [|x instances IH]; intros new m E Hi; cbn [refineLoop] in E.
  { injection E as <- <-. destruct Hi as [Hi|[Hi _]]; [done|by apply not_elem_of_nil in Hi]. }
  destruct (String.eqb_spec (instance_Scope x) Asset) as [Hx|Hx]; apply (IH _ _ E); set_solver.
Qed.

Lemma RefineInstances_asset instances i :
  i ∈ instances -> instance_Scope i = Asset -> i ∈ RefineInstances instances.
Proof.
  intros Hi Hs. unfold RefineInstances. destruct (refineLoop instances [] ∅) as [new m] eqn:E.
  apply elem_of_app. left. eapply refineLoop_keeps; [exact E|by right].
Qed.

(** The instances deployed on a cluster have different names. *)
Definition distinct_names (instances : list ModuleInstanceSpec) (cluster : string) : Prop :=
  exists names, NoDup names /\ Forall2 (fun i name => instanceName i = Done name)
    (RefineInstances (filter (fun i => instance_ClusterName i = cluster) instances)) names.

(** The blueprint of a cluster deploys each of the united instances of the cluster. *)
Lemma GenerateBlueprints_deploys instances plotter bps cluster j :
  GenerateBlueprints instances plotter = Done bps -> distinct_names instances cluster ->
  (exists i, i ∈ instances /\ instance_ClusterName i = cluster) ->
  j ∈ RefineInstances (filter (fun i => instance_ClusterName i = cluster) instances) ->
  exists spec name, bps !! cluster = Some spec /\ bpspec_Modules spec !! name = Some (blueprintModule j).
Proof.
  intros E (names & Hnd & Hnames) (i & Hin & Hi) (n & Hn)%list_elem_of_lookup.
  set (group := filter (fun j => instance_ClusterName j = cluster) instances) in *.
  assert (i ∈ group) as Hgroup by (by apply list_elem_of_filter).
  assert (instancesByCluster instances !! cluster = Some group) as Hby.
  { rewrite instancesByCluster_spec. fold group. destruct group; [by apply not_elem_of_nil in Hgroup|done]. }
  destruct (generateEach_spec plotter _ _ _ E (range_NoDup _)) as [_ Hall].
  destruct (Hall _ _ (proj2 (range_elem _ _ _) Hby)) as (spec & Hspec & Hbps).
  unfold GenerateBlueprint in Hspec.
  destruct (blueprintModules (RefineInstances group) ∅) as [modules|] eqn:Em; [|done].
  injection Hspec as <-. destruct (blueprintModules_spec _ _ _ _ Hnames Hnd Em) as [_ Hmods].
  destruct (Forall2_lookup_l _ _ _ _ _ Hmods Hn) as (name & _ & Hname).
  by eexists _, name.
Qed.

Lemma RefineInstances_reads instances i arg :
  i ∈ instances -> arg ∈ readArgs i -> exists j, j ∈ RefineInstances instances /\ arg ∈ readArgs j.
Proof.
  intros Hi Ha. assert (arg ∈ collect readArgs (RefineInstances instances)) as Hc.
  { rewrite (RefineInstances_collect readArgs (ltac:(by intros [? ? []] [? ? []])) instances).
    apply list_elem_of_bind. by exists i. }
  apply list_elem_of_bind in Hc as (j & Hj & Hin). by exists j.
Qed.
End Blueprints.

(** ** The blueprints of a plotter *)
Section BlueprintsMap.
Context `{MapRange} {W : Type}.
Implicit Types (cm : ClusterManager W).

(** The instances of a plotter, given the registered clusters. *)
Definition plotterInstances (clusters : list Cluster) (plotter : Plotter) : outcome (list ModuleInstanceSpec) :=
  mapM (convertPlotterModuleToBlueprintModule plotter) (plotterModules clusters plotter).

Lemma getBlueprintsMap_inv cm plotter w bps w' :
  getBlueprintsMap cm plotter w = Done (bps, w') ->
  exists cs instances, GetClusters cm w = Done (cs, w') /\
    plotterInstances (match cs with inl clusters => clusters | inr _ => [] end) plotter = Done instances /\
    GenerateBlueprints instances plotter = Done bps.
Proof.
  unfold getBlueprintsMap. intros E. m_step E. rename a into cs. apply lift_inv in E as (E & ->).
  fold (plotterInstances (match cs with inl clusters => clusters | inr _ => [] end) plotter) in E.
  destruct (plotterInstances _ plotter) as [instances|] eqn:Ei; [|done]. eauto.
Qed.

Lemma mapM_elem {A B} (f : A -> outcome B) l l' x :
  mapM f l = Done l' -> x ∈ l -> exists y, f x = Done y /\ y ∈ l'.
Proof.
  intros E%outcome_mapM_inv (n & Hn)%list_elem_of_lookup.
  destruct (Forall2_lookup_l _ _ _ _ _ E Hn) as (y & Hy & Ey). exists y. split; [done|].
  by eapply list_elem_of_lookup_2.
Qed.

Lemma getBlueprintsMap_runs cm plotter w cs w' :
  plotter_wf (pl_Spec plotter) -> GetClusters cm w = Done (cs, w') ->
  exists bps, getBlueprintsMap cm plotter w = Done (bps, w').
Proof.
  intros Hwf Hcs. unfold getBlueprintsMap. rewrite (M_bind_run _ _ _ _ _ Hcs).
  set (clusters := match cs with inl _ => _ | inr _ => _ end).
  destruct (outcome_mapM_Forall2 (convertPlotterModuleToBlueprintModule plotter)
    (fun _ i => instance_AssetIDs i <> []) (plotterModules clusters plotter)) as (instances & Ei & Hi).
  { intros pm Hpm. by apply (plotterModules_convert clusters). }
  apply Forall2_Forall_r with (Q := fun i => instance_AssetIDs i <> []) in Hi;
    [|by apply Forall_true].
  destruct (GenerateBlueprints_returns instances plotter Hi) as (bps & Eb). exists bps.
  unfold lift. rewrite Ei. simpl. by rewrite Eb.
Qed.

(** A well-formed plotter is turned into blueprints: each step has the source and the sink
    its flow type needs, so that no nil pointer is dereferenced and no empty list of assets
    is indexed. *)
Theorem getBlueprintsMap_returns cm plotter w cs w' :
  plotter_wf (pl_Spec plotter) -> GetClusters cm w = Done (cs, w') ->
  exists bps, getBlueprintsMap cm plotter w = Done (bps, w').
Proof. apply getBlueprintsMap_runs. Qed.

Lemma plotterModules_intro clusters plotter flow sf sequence step t info :
  flow ∈ plotter_Flows (pl_Spec plotter) -> sf ∈ flow_SubFlows flow -> sequence ∈ subflow_Steps sf ->
  step ∈ sequence -> plotter_Templates (pl_Spec plotter) !! step_Template step = Some t ->
  info ∈ template_Modules t -> stepModule clusters flow sf step info ∈ plotterModules clusters plotter.
Proof.
  intros Hf Hs Hq Hst Ht Hi. unfold plotterModules.
  apply list_elem_of_bind. exists flow. split; [|done]. apply list_elem_of_bind. exists sf. split; [|done].
  apply list_elem_of_bind. exists sequence. split; [|done]. apply list_elem_of_bind. exists step. split; [|done].
  rewrite Ht. by apply list_elem_of_fmap_2.
Qed.

(** The module of a blueprint does what a step of the plotter asks for. *)
Definition carries (m : BlueprintModule) (flowType assetID : string) (actions : list Action) : Prop :=
  (flowType = ReadFlow /\ exists store,
     mkReadModuleArgs store assetID actions ∈ args_Read (bpmodule_Arguments m)) \/
  (flowType = CopyFlow /\ exists src dst,
     args_Copy (bpmodule_Arguments m) = Some (mkCopyModuleArgs src dst assetID actions)).

(** A well-formed subflow is a read or a copy and has one step. *)
Lemma plotter_wf_step spec flow sf step ps :
  plotter_wf spec -> flow ∈ plotter_Flows spec -> sf ∈ flow_SubFlows flow -> step_of sf step ps ->
  subflow_reads (plotter_Assets spec) sf step ps /\ (subflow_FlowType sf = ReadFlow \/ subflow_FlowType sf = CopyFlow).
Proof.
  unfold plotter_wf. rewrite list.Forall_forall. intros Hwf Hf Hs [H3 H4]. destruct (Hwf flow Hf) as [_ Hsfs].
  rewrite list.Forall_forall in Hsfs. destruct (Hsfs sf Hs) as (step' & ps' & Hr & _).
  assert (step = step' /\ ps = ps') as [<- <-].
  { destruct Hr as [[H1 H2] _]. rewrite H1 in H3. injection H3 as ->. rewrite H2 in H4. by injection H4. }
  split; [done|]. destruct Hr as [_ (? & _ & _ & _ & [?|[? _]])]; auto.
Qed.

(** Each step of a well-formed plotter is carried out by a module of a blueprint. *)
Lemma getBlueprintsMap_carries cm plotter w bps w' cs instances flow sf step ps t info :
  getBlueprintsMap cm plotter w = Done (bps, w') -> plotter_wf (pl_Spec plotter) ->
  GetClusters cm w = Done (inl cs, w') -> plotterInstances cs plotter = Done instances ->
  distinct_names instances (step_Cluster step) ->
  flow ∈ plotter_Flows (pl_Spec plotter) -> sf ∈ flow_SubFlows flow -> step_of sf step ps ->
  plotter_Templates (pl_Spec plotter) !! step_Template step = Some t -> info ∈ template_Modules t ->
  info_Type info <> "plugin" -> (subflow_FlowType sf = CopyFlow -> info_Scope info = Asset) ->
  exists spec name m, bps !! step_Cluster step = Some spec /\ bpspec_Modules spec !! name = Some m /\
    carries m (subflow_FlowType sf) (flow_AssetID flow) (params_Actions ps).
Proof.
  intros E Hwf Hcs Hinst Hnames Hf Hs Hst Ht Hinfo Hplugin Hscope.
  apply getBlueprintsMap_inv in E as (cs' & instances' & Hcs' & Hinst' & Hgen).
  rewrite Hcs in Hcs'. injection Hcs' as <-. rewrite Hinst in Hinst'. injection Hinst' as <-.
  destruct (plotter_wf_step _ _ _ _ _ Hwf Hf Hs Hst) as [Hr Htype].
  destruct (convert_reads _ plotter cs flow sf step ps info Hr) as (i & Ei & _ & _ & Hc & Hsc & Hread & Hcopy).
  destruct (mapM_elem _ _ _ (stepModule cs flow sf step info) Hinst) as (i' & Ei' & Hin).
  { destruct Hst as [H1 _]. eapply plotterModules_intro; try done; [rewrite H1|]; by left. }
  rewrite Ei in Ei'. injection Ei' as <-.
  set (group := filter (fun i => instance_ClusterName i = step_Cluster step) instances).
  assert (i ∈ group) as Hgroup by (by apply list_elem_of_filter).
  assert (exists j, j ∈ RefineInstances group /\
    carries (blueprintModule j) (subflow_FlowType sf) (flow_AssetID flow) (params_Actions ps)) as (j & Hj & Hcar).
  { destruct Htype as [Htype|Htype].
    - destruct (Hread Hplugin Htype) as (store & Hstore).
      destruct (RefineInstances_reads group i (mkReadModuleArgs store (flow_AssetID flow) (params_Actions ps)) Hgroup)
        as (j & Hj & Hjr); [unfold readArgs; rewrite Hstore; by left|].
      exists j. split; [done|]. left. split; [done|]. by exists store.
    - exists i. split; [apply RefineInstances_asset; [done|]; rewrite Hsc; auto|]. right. split; [done|].
      destruct (Hcopy Hplugin Htype) as (src & dst & Hargs). by exists src, dst. }
  destruct (GenerateBlueprints_deploys _ _ _ _ j Hgen Hnames) as (spec & name & ? & ?); [by exists i|done|].
  by exists spec, name, (blueprintModule j).
Qed.

(** C5: governance actions survive the way to the clusters: when the blueprints of a
    well-formed plotter have been generated with the clusters listed successfully, then for
    each step and each module of its template that is not a plugin, the blueprint of the
    step's cluster has a module whose arguments name the asset of the flow and carry exactly
    the actions of the step.  It holds for reads and for copies by modules of "asset" scope,
    provided that the instances on that cluster get distinct names.  (A plugin gets no
    arguments, and a copy by a module of another scope can be dropped.) *)
Theorem getBlueprintsMap_enforces cm plotter w bps w' cs instances flow sf step ps t info :
  getBlueprintsMap cm plotter w = Done (bps, w') -> plotter_wf (pl_Spec plotter) ->
  GetClusters cm w = Done (inl cs, w') -> plotterInstances cs plotter = Done instances ->
  distinct_names instances (step_Cluster step) ->
  flow ∈ plotter_Flows (pl_Spec plotter) -> sf ∈ flow_SubFlows flow -> step_of sf step ps ->
  plotter_Templates (pl_Spec plotter) !! step_Template step = Some t -> info ∈ template_Modules t ->
  info_Type info <> "plugin" -> (subflow_FlowType sf = CopyFlow -> info_Scope info = Asset) ->
  exists spec name m, bps !! step_Cluster step = Some spec /\ bpspec_Modules spec !! name = Some m /\
    carries m (subflow_FlowType sf) (flow_AssetID flow) (params_Actions ps).
Proof. apply getBlueprintsMap_carries. Qed.

(** Two instances of a module that are not of "asset" scope are united, and the
    copy of the second one is dropped; in particular this is what happens to a
    module whose scope is not indicated. *)
Theorem unset_scope_loses_copies i j :
  instance_Scope i <> Asset -> instance_Scope j <> Asset ->
  instance_ModuleName i = instance_ModuleName j -> instance_ClusterName i = instance_ClusterName j ->
  exists u, RefineInstances [i; j] = [u] /\ instance_AssetIDs u = instance_AssetIDs i ++ instance_AssetIDs j /\
    args_Copy (instance_Args u) = args_Copy (instance_Args i).
Proof.
  intros Hi Hj Hm Hc. exists (uniteInstances i j). unfold RefineInstances. cbn [refineLoop].
  apply String.eqb_neq in Hi, Hj. rewrite Hi, Hj.
  assert (instanceKey i = instanceKey j) as Hk by (unfold instanceKey; by rewrite Hm, Hc).
  rewrite lookup_empty, Hk, lookup_insert_eq, insert_insert_eq, insert_empty, range_singleton.
  split; [done|]. by destruct i as [? ? [] ? ? ?].
Qed.
End BlueprintsMap.

(** ** The states of the assets *)
Section AssetFacts.
Context `{MapRange}.
Notation AssetStatus := (gmap string ObservedState).
Implicit Types (states : AssetStatus) (id : string).

Definition reported_unready id states : Prop := exists o, states !! id = Some o /\ os_Ready o = false.

(** The modules of a specification that handle an asset. *)
Definition handles (spec : BlueprintSpec) (instance id : string) : Prop :=
  exists m, bpspec_Modules spec !! instance = Some m /\ id ∈ bpmodule_AssetIDs m.

(** A loop whose steps keep [P], one of which establishes it. *)
Lemma foldl_keeps {A B} (f : A -> B -> A) (P : A -> Prop) l s :
  (forall s x, P s -> P (f s x)) -> P s -> P (foldl f s l).
Proof. intros Hf. revert s. induction l; simpl; auto. Qed.

Lemma foldl_reaches {A B} (f : A -> B -> A) (P : A -> Prop) l s x :
  (forall s x, P s -> P (f s x)) -> (forall s, P (f s x)) -> x ∈ l -> P (foldl f s l).
Proof.
  intros Hf Hx. revert s. induction l as [|y l IH]; intros s Hin; [by apply not_elem_of_nil in Hin|]. simpl.
  apply elem_of_cons in Hin as [<-|Hin]; [|by apply IH]. apply foldl_keeps; [done|apply Hx].
Qed.

Lemma merge_keeps o id states id' : reported_unready id states -> reported_unready id (mergeAssetState o states id').
Proof.
  intros (o' & Ho & Hr). unfold mergeAssetState. destruct (decide (id = id')) as [<-|Hne].
  - rewrite Ho. destruct (negb _); [|by exists o']. eexists. split; [apply lookup_insert_eq|done].
  - destruct (states !! id'); [destruct (negb _); [|by exists o']|]; exists o'; by rewrite lookup_insert_ne.
Qed.

Lemma merge_unready o id states : os_Ready o = false -> reported_unready id (mergeAssetState o states id).
Proof.
  intros Hr. unfold mergeAssetState. rewrite Hr. simpl.
  destruct (states !! id); eexists; (split; [apply lookup_insert_eq|done]).
Qed.

Lemma update_keeps id b states : reported_unready id states -> reported_unready id (updatePlotterAssetsState states b).
Proof. apply foldl_keeps. intros s kv Hs. apply foldl_keeps; [intros; by apply merge_keeps|done]. Qed.

Lemma update_unready id b states instance o :
  mget (bpstatus_ModulesState (bp_Status b)) instance = Some o -> handles (bp_Spec b) instance id ->
  os_Ready o = false -> reported_unready id (updatePlotterAssetsState states b).
Proof.
  intros Ho (m & Hm & Hid) Hr. unfold updatePlotterAssetsState.
  apply foldl_reaches with (x := (instance, o)); [| |by apply range_elem].
  - intros s kv Hs. apply foldl_keeps; [intros; by apply merge_keeps|done].
  - intros s. simpl. rewrite Hm. simpl. apply foldl_reaches with (x := id); [| |done].
    + intros; by apply merge_keeps.
    + intros. by apply merge_unready.
Qed.

Lemma mark_keeps id msg states id' :
  reported_unready id states -> reported_unready id (<[id' := mkObservedState false msg]> states).
Proof.
  intros (o & Ho & Hr). destruct (decide (id = id')) as [<-|Hne].
  - eexists. split; [apply lookup_insert_eq|done].
  - exists o. by rewrite lookup_insert_ne.
Qed.

Lemma setFalse_keeps id spec msg states :
  reported_unready id states -> reported_unready id (setPlotterAssetsReadyStateToFalse states spec msg).
Proof. apply foldl_keeps. intros s kv Hs. apply foldl_keeps; [intros; by apply mark_keeps|done]. Qed.

Lemma setFalse_unready id spec msg states instance :
  handles spec instance id -> reported_unready id (setPlotterAssetsReadyStateToFalse states spec msg).
Proof.
  intros (m & Hm & Hid). unfold setPlotterAssetsReadyStateToFalse.
  apply foldl_reaches with (x := (instance, m)); [| |by apply range_elem].
  - intros s kv Hs. apply foldl_keeps; [intros; by apply mark_keeps|done].
  - intros s. simpl. apply foldl_reaches with (x := id); [intros; by apply mark_keeps| |done].
    intros s0. eexists. split; [apply lookup_insert_eq|done].
Qed.

(** Every module of the blueprint that handles the asset is ready. *)
Definition serves_asset (b : Blueprint) id : Prop :=
  forall instance o, mget (bpstatus_ModulesState (bp_Status b)) instance = Some o ->
    handles (bp_Spec b) instance id -> os_Ready o = true.

Lemma update_sound id b states :
  ~ reported_unready id (updatePlotterAssetsState states b) -> serves_asset b id.
Proof.
  intros Hn instance o Ho Hh. destruct (os_Ready o) eqn:Hr; [done|]. destruct Hn. by eapply update_unready.
Qed.
End AssetFacts.

(** ** Reconciliation *)
Section ReconcileFacts.
Context `{MapRange, K8sMeta} {W : Type}.
Implicit Types (r : PlotterReconciler W) (st : PlotterState).

(** The remote blueprint of a cluster was fetched and has the wanted specification. *)
Definition fetched r (cluster : string) (remote : Blueprint) : Prop :=
  exists ns name w w', GetBlueprint (plr_ClusterManager r) cluster ns name w = Done (inl (Some remote), w').

Definition confirmed r (cluster : string) (spec : BlueprintSpec) st : Prop :=
  exists remote, fetched r cluster remote /\ bp_Spec remote = spec /\
    os_Ready (bpstatus_ObservedState (bp_Status remote)) = true /\
    ps_Blueprints st !! cluster = Some (CreateMetaBlueprint remote).

(** One iteration: the other blueprints are kept, errors are only added, without
    an error the blueprint is recorded, and readiness is kept only if the remote
    blueprint is as specified and ready. *)
Lemma handleBlueprint_step r plotter c spec st w st' w' :
  handleBlueprint r plotter c spec st w = Done (inr st', w') ->
  (forall k, k <> c -> ps_Blueprints st' !! k = ps_Blueprints st !! k) /\
  exists errs, ps_Errors st' = ps_Errors st ++ errs /\
    (errs = [] -> is_Some (ps_Blueprints st' !! c)) /\
    (errs = [] -> ps_Ready st' = true -> ps_Ready st = true /\ confirmed r c spec st').
Proof.
  unfold handleBlueprint. intros E. destruct st as [bs msg assets ready errs].
  assert (forall x, x :: [] = @nil error -> False) as Hnn by done.
  simpl in E |- *. destruct (bs !! c) as [mb|] eqn:Hc.
  - m_step E. destruct a as [[remote|]|err].
    + destruct (bool_decide_reflect (spec = bp_Spec remote)) as [->|Hd]; simpl in E.
      * m_step E. split; [|exists []; rewrite app_nil_r].
        { intros k Hk. destruct (os_Ready _), (_ <>? _); simpl; by rewrite lookup_insert_ne. }
        split; [by destruct (os_Ready _), (_ <>? _)|]. split.
        { intros _. destruct (os_Ready _), (_ <>? _); simpl; by rewrite lookup_insert_eq. }
        intros _ Hr. destruct (os_Ready _) eqn:Hready; [|by destruct (_ <>? _)]. simpl in Hr |- *.
        split; [by destruct (_ <>? _)|]. exists remote. split; [by eexists _, _, _, _|]. split; [done|].
        split; [done|]. destruct (_ <>? _); apply lookup_insert_eq.
      * destruct (Z.eqb _ _); simpl in E.
        { m_step E. split; [done|]. exists []. by rewrite app_nil_r. }
        m_step E. destruct a as [err|]; m_step E.
        { split; [done|]. exists [err]. split; [done|]. split; by intros ?%Hnn. }
        split; [intros k Hk; by rewrite lookup_insert_ne|]. exists []. rewrite app_nil_r, lookup_insert_eq.
        split; [done|]. split; [by eexists|done].
    + m_step E. split; [done|]. exists []. rewrite app_nil_r. split; [done|].
      split; [intros _; simpl in *; by eexists|done].
    + m_step E. m_step E. m_step E.
  - m_step E. destruct a as [err|]; m_step E.
    + split; [done|]. exists [err]. split; [done|]. split; by intros ?%Hnn.
    + split; [intros k Hk; by rewrite lookup_insert_ne|]. exists []. rewrite app_nil_r, lookup_insert_eq.
      split; [done|]. split; [by eexists|done].
Qed.

Lemma handleBlueprints_steps r plotter l st w st' w' :
  handleBlueprints r plotter l st w = Done (inr st', w') -> NoDup l.*1 ->
  (forall k, k ∉ l.*1 -> ps_Blueprints st' !! k = ps_Blueprints st !! k) /\
  exists errs, ps_Errors st' = ps_Errors st ++ errs /\
    (errs = [] -> forall c spec, (c, spec) ∈ l -> is_Some (ps_Blueprints st' !! c)) /\
    (errs = [] -> ps_Ready st' = true ->
       ps_Ready st = true /\ forall c spec, (c, spec) ∈ l -> confirmed r c spec st').
Proof.
  revert st w. induction l as [|[c spec] l IH]; intros st w E Hnd; cbn [handleBlueprints] in E.
  { m_step E. split; [done|]. exists []. rewrite app_nil_r. split; [done|]. set_solver. }
  m_step E. destruct a as [early|st1]; [m_step E|].
  rewrite fmap_cons in Hnd |- *. apply list.NoDup_cons in Hnd as [Hc Hnd]. simpl in Hc.
  destruct (handleBlueprint_step _ _ _ _ _ _ _ _ E0) as (Hk1 & errs1 & He1 & Hs1 & Hr1).
  destruct (IH _ _ E Hnd) as (Hk & errs & He & Hs & Hr).
  split. { intros k Hkn. simpl in Hkn. rewrite Hk by set_solver. apply Hk1. set_solver. }
  exists (errs1 ++ errs). rewrite He, He1, app_assoc. split; [done|]. split.
  - intros [-> ->]%app_eq_nil c' spec' [[= -> ->]|Hin]%elem_of_cons; [|by eapply Hs].
    rewrite Hk by done. by apply Hs1.
  - intros [-> ->]%app_eq_nil Hready. destruct (Hr eq_refl Hready) as [Hready1 Hall].
    destruct (Hr1 eq_refl Hready1) as [Hready0 (remote & Hf & Hspec & Hrd & Hb)]. split; [done|].
    intros c' spec' [[= -> ->]|Hin]%elem_of_cons; [|by apply Hall].
    exists remote. by rewrite Hk by done.
Qed.

(** Tidying up: what is specified stays; without errors nothing else remains. *)
Lemma tidyUp_steps r bps deployed st w st' w' :
  tidyUp r bps deployed st w = Done (st', w') ->
  ps_Ready st' = ps_Ready st /\ ps_Error st' = ps_Error st /\ ps_Assets st' = ps_Assets st /\
  (forall k, is_Some (bps !! k) -> ps_Blueprints st' !! k = ps_Blueprints st !! k) /\
  (forall k, ps_Blueprints st !! k = None -> ps_Blueprints st' !! k = None) /\
  exists errs, ps_Errors st' = ps_Errors st ++ errs /\
    (errs = [] -> forall k mb, (k, mb) ∈ deployed -> bps !! k = None -> ps_Blueprints st' !! k = None).
Proof.
  revert st w. induction deployed as [|[c mb] deployed IH]; intros st w E; cbn [tidyUp] in E.
  { m_step E. repeat split; try done. exists []. rewrite app_nil_r. split; [done|]. set_solver. }
  destruct st as [bs msg assets ready errs0].
  assert (Hdel : forall w, tidyUp r bps deployed (mkPlotterState (delete c bs) msg assets ready errs0) w = Done (st', w') ->
    bps !! c = None -> ps_Ready st' = ready /\ ps_Error st' = msg /\ ps_Assets st' = assets /\
    (forall k, is_Some (bps !! k) -> ps_Blueprints st' !! k = bs !! k) /\
    (forall k, bs !! k = None -> ps_Blueprints st' !! k = None) /\
    exists errs, ps_Errors st' = errs0 ++ errs /\
      (errs = [] -> forall k m, (k, m) ∈ (c, mb) :: deployed -> bps !! k = None -> ps_Blueprints st' !! k = None)).
  { intros w0 E0 Hc. destruct (IH _ _ E0) as (? & ? & ? & Hk & Hnone & errs & He & Hall). simpl in *.
    repeat split; try done.
    - intros k Hsome. rewrite Hk by done. rewrite lookup_delete_ne; [done|]. intros ->. rewrite Hc in Hsome. by destruct Hsome.
    - intros k Hbk. apply Hnone. destruct (decide (k = c)) as [->|]; [apply lookup_delete_eq|by rewrite lookup_delete_ne].
    - exists errs. split; [done|]. intros -> k m [[= -> ->]|Hin]%elem_of_cons Hb; [|by eapply Hall].
      apply Hnone, lookup_delete_eq. }
  destruct (bps !! c) as [spec|] eqn:Hc.
  - destruct (IH _ _ E) as (? & ? & ? & ? & ? & errs & He & Hall). repeat split; try done.
    exists errs. split; [done|]. intros -> k m [[= -> ->]|Hin]%elem_of_cons Hb; [congruence|by eapply Hall].
  - m_step E. destruct a as [err|]; [|by eapply Hdel]. destruct (negb _); [|by eapply Hdel].
    destruct (IH _ _ E) as (? & ? & ? & ? & ? & errs & He & Hall). simpl in *. repeat split; try done.
    exists (err :: errs). split; [|done]. by rewrite He, <- app_assoc.
Qed.

Lemma finishPlotter_spec r plotter st w res errs pl' w' :
  finishPlotter r plotter st w = Done ((res, errs, pl'), w') ->
  errs = ps_Errors st /\ os_Ready (plstatus_ObservedState (pl_Status pl')) = ps_Ready st /\
  plstatus_Blueprints (pl_Status pl') = Some (ps_Blueprints st) /\
  plstatus_Assets (pl_Status pl') = ps_Assets st /\
  plstatus_ObservedGeneration (pl_Status pl') = meta_Generation (pl_Meta plotter) /\
  pl_Spec pl' = pl_Spec plotter /\ pl_Meta pl' = pl_Meta plotter /\
  (is_Some (plstatus_ReadyTimestamp (pl_Status pl')) <-> ps_Ready st = true).
Proof.
  unfold finishPlotter. destruct plotter as [meta spec [obs gen bl rt assets]], st as [bs msg as_ ready errs0].
  cbn [ps_Ready ps_Errors]. destruct ready; intros E.
  - m_step E. destruct errs0.
    + m_step E. repeat split; by eexists.
    + m_step E. m_step E. repeat split; by eexists.
  - m_step E. simpl. destruct (_ && _); simpl; repeat split; try done; by intros [? [=]].
Qed.

Lemma handleBlueprint_early r plotter c spec st w res errs st' w' :
  handleBlueprint r plotter c spec st w = Done (inl (res, errs, st'), w') -> errs <> [].
Proof.
  unfold handleBlueprint. intros E. destruct (ps_Blueprints st !! c) as [mb|].
  - m_step E. destruct a as [[remote|]|err].
    + destruct (negb (bool_decide _)); [|m_step E]. destruct (negb _); [|m_step E]. m_step E. destruct a; m_step E.
    + m_step E.
    + m_step E. m_step E. m_step E. by intros [_ [=]]%app_eq_nil.
  - m_step E. destruct a; m_step E.
Qed.

Lemma handleBlueprints_early r plotter l st w res errs st' w' :
  handleBlueprints r plotter l st w = Done (inl (res, errs, st'), w') -> errs <> [].
Proof.
  revert st w. induction l as [|[c spec] l IH]; intros st w E; cbn [handleBlueprints] in E; m_step E.
  destruct a as [[[res0 errs0] st0]|st1]; [|by eapply IH]. m_step E. by eapply handleBlueprint_early.
Qed.

Definition initialState (plotter : Plotter) : PlotterState :=
  mkPlotterState (gm (plstatus_Blueprints (pl_Status plotter))) "" ∅ true [].

(** The phases of a reconciliation without errors. *)
Lemma reconcile_inv r plotter w res pl' w' :
  reconcile r plotter w = Done ((res, [], pl'), w') ->
  exists bps wb st wl st' wt,
    getBlueprintsMap (plr_ClusterManager r) plotter w = Done (bps, wb) /\
    handleBlueprints r plotter (range bps) (initialState plotter) wb = Done (inr st, wl) /\
    tidyUp r bps (range (ps_Blueprints st)) st wl = Done (st', wt) /\
    finishPlotter r plotter st' wt = Done ((res, [], pl'), w').
Proof.
  unfold reconcile. intros E. m_step E. m_step E. destruct a0 as [[[res0 errs0] st0]|st].
  { m_step E. by apply handleBlueprints_early in E1. }
  m_step E. by eexists _, _, _, _, _, _.
Qed.

(** C29: a reconciliation that reports no error records exactly the blueprints of the
    plotter: the clusters of the status are the clusters the flows need, so no
    blueprint is forgotten and none is left behind. *)
Theorem reconcile_tracks_blueprints r plotter w res pl' w' :
  reconcile r plotter w = Done ((res, [], pl'), w') ->
  exists bps wb, getBlueprintsMap (plr_ClusterManager r) plotter w = Done (bps, wb) /\
    dom (gm (plstatus_Blueprints (pl_Status pl'))) = dom bps.
Proof.
  intros (bps & wb & st & wl & st' & wt & Hb & Hh & Ht & Hf)%reconcile_inv. exists bps, wb. split; [done|].
  destruct (finishPlotter_spec _ _ _ _ _ _ _ _ Hf) as (He & _ & -> & _).
  destruct (tidyUp_steps _ _ _ _ _ _ _ Ht) as (_ & _ & _ & Hk & Hnone & errs & Het & Hall).
  destruct (handleBlueprints_steps _ _ _ _ _ _ _ Hh (range_NoDup _)) as (Hother & errs1 & Heh & Hin & _).
  rewrite Het, Heh in He. symmetry in He. apply app_eq_nil in He as [[_ ->]%app_eq_nil ->].
  apply set_eq. intros c. rewrite !elem_of_dom. split.
  - intros [mb Hmb]. destruct (bps !! c) eqn:Hc; [by eexists|]. exfalso. simpl in Hmb.
    destruct (ps_Blueprints st !! c) as [mb0|] eqn:Hst.
    + assert (ps_Blueprints st' !! c = None) as Hn by (eapply Hall; [done|by apply range_elem|done]). congruence.
    + rewrite Hnone in Hmb; [done|done].
  - intros Hc. simpl. rewrite Hk by done. destruct Hc as [spec Hspec]. eapply Hin; [done|]. by apply range_elem.
Qed.

(** C11: a plotter is reported ready without errors only when, on every cluster, the
    remote blueprint was fetched, has exactly the generated specification and is
    ready itself; its state is what the plotter's status records. *)
Theorem reconcile_ready_sound r plotter w res pl' w' :
  reconcile r plotter w = Done ((res, [], pl'), w') ->
  os_Ready (plstatus_ObservedState (pl_Status pl')) = true ->
  exists bps wb, getBlueprintsMap (plr_ClusterManager r) plotter w = Done (bps, wb) /\
    map_Forall (fun c spec => exists remote, fetched r c remote /\ bp_Spec remote = spec /\
      os_Ready (bpstatus_ObservedState (bp_Status remote)) = true /\
      mget (plstatus_Blueprints (pl_Status pl')) c = Some (CreateMetaBlueprint remote)) bps.
Proof.
  intros (bps & wb & st & wl & st' & wt & Hb & Hh & Ht & Hf)%reconcile_inv Hready. exists bps, wb. split; [done|].
  destruct (finishPlotter_spec _ _ _ _ _ _ _ _ Hf) as (He & Hr & -> & _). rewrite Hr in Hready.
  destruct (tidyUp_steps _ _ _ _ _ _ _ Ht) as (Hrt & _ & _ & Hk & _ & errs & Het & _).
  destruct (handleBlueprints_steps _ _ _ _ _ _ _ Hh (range_NoDup _)) as (_ & errs1 & Heh & _ & Hconf).
  rewrite Het, Heh in He. symmetry in He. apply app_eq_nil in He as [[_ ->]%app_eq_nil ->]. rewrite Hrt in Hready.
  intros c spec Hc. destruct (Hconf eq_refl Hready) as [_ Hall].
  destruct (Hall c spec) as (remote & ? & ? & ? & ?); [by apply range_elem|].
  exists remote. repeat split; try done. unfold mget. simpl. by rewrite Hk by (by eexists).
Qed.

(** The blueprint that is recorded for the cluster was fetched in this state. *)
Definition fetches r (c : string) st w (remote : Blueprint) : Prop :=
  exists mb w', ps_Blueprints st !! c = Some mb /\
    GetBlueprint (plr_ClusterManager r) c (metabp_Namespace mb) (metabp_Name mb) w = Done (inl (Some remote), w').

Lemma handleBlueprint_assets r plotter c spec st w st' w' id :
  handleBlueprint r plotter c spec st w = Done (inr st', w') ->
  (reported_unready id (ps_Assets st) -> reported_unready id (ps_Assets st')) /\
  (~ reported_unready id (ps_Assets st') -> forall instance, handles spec instance id ->
     exists remote, fetches r c st w remote /\ serves_asset remote id).
Proof.
  unfold handleBlueprint. intros E. destruct st as [bs msg assets ready errs]. simpl in E |- *.
  assert (Hset : forall msg', (reported_unready id assets -> reported_unready id (setPlotterAssetsReadyStateToFalse assets spec msg')) /\
    (~ reported_unready id (setPlotterAssetsReadyStateToFalse assets spec msg') -> forall instance, handles spec instance id ->
     exists remote, fetches r c (mkPlotterState bs msg assets ready errs) w remote /\ serves_asset remote id)).
  { intros msg'. split; [apply setFalse_keeps|]. intros Hn instance Hh. destruct Hn. by eapply setFalse_unready. }
  destruct (bs !! c) as [mb|] eqn:Hc.
  - m_step E. rename E0 into Hget. destruct a as [[remote|]|err]; [|m_step E; apply Hset|by repeat m_step E].
    assert (fetches r c (mkPlotterState bs msg assets ready errs) w remote) as Hf by (by eexists mb, _).
    assert (Hupd : (reported_unready id assets -> reported_unready id (updatePlotterAssetsState assets remote)) /\
      (~ reported_unready id (updatePlotterAssetsState assets remote) -> forall instance, handles spec instance id ->
       exists remote, fetches r c (mkPlotterState bs msg assets ready errs) w remote /\ serves_asset remote id)).
    { split; [apply update_keeps|]. intros Hn%update_sound _ _. by exists remote. }
    destruct (bool_decide _); simpl in E.
    { m_step E. by destruct (os_Ready _), (_ <>? _). }
    destruct (Z.eqb _ _); simpl in E; [m_step E; apply Hupd|]. m_step E. destruct a; m_step E; apply Hset.
  - m_step E. destruct a; m_step E; apply Hset.
Qed.

(** The loop over the blueprints comes to each of them in some state. *)
Lemma handleBlueprints_assets r plotter l st w st' w' id :
  handleBlueprints r plotter l st w = Done (inr st', w') ->
  (reported_unready id (ps_Assets st) -> reported_unready id (ps_Assets st')) /\
  (~ reported_unready id (ps_Assets st') -> forall c spec instance, (c, spec) ∈ l -> handles spec instance id ->
     exists l1 l2 st1 w1 remote, l = l1 ++ (c, spec) :: l2 /\ handleBlueprints r plotter l1 st w = Done (inr st1, w1) /\
       fetches r c st1 w1 remote /\ serves_asset remote id).
Proof.
  revert st w. induction l as [|[c spec] l IH]; intros st w E; cbn [handleBlueprints] in E.
  { m_step E. split; [done|]. set_solver. }
  m_step E. destruct a as [early|st1]; [m_step E|].
  destruct (handleBlueprint_assets _ _ _ _ _ _ _ _ id E0) as [Hk1 Hs1]. destruct (IH _ _ E) as [Hk Hs].
  split; [auto|]. intros Hn c' spec' instance [[= -> ->]|Hin]%elem_of_cons Hh.
  - destruct (Hs1 ltac:(auto) instance Hh) as (remote & Hf & Hsv). by exists [], l, st, w, remote.
  - destruct (Hs Hn c' spec' instance Hin Hh) as (l1 & l2 & st2 & w2 & remote & -> & E2 & Hf & Hsv).
    exists ((c, spec) :: l1), l2, st2, w2, remote. split; [done|]. split; [|done].
    cbn [handleBlueprints]. by rewrite (M_bind_run _ _ _ _ _ E0).
Qed.

(** C28: when a reconciliation ends without errors, an asset is reported ready only if, on
    every cluster whose generated blueprint handles it, the plotter had recorded a blueprint
    before, this pass has fetched it under the recorded name and namespace when its loop came
    to that cluster, and every module of the fetched blueprint that handles the asset and has
    a recorded state is ready: one module that is not ready is never hidden by another. *)
Theorem asset_ready_sound r plotter w res pl' w' id o :
  reconcile r plotter w = Done ((res, [], pl'), w') ->
  plstatus_Assets (pl_Status pl') !! id = Some o -> os_Ready o = true ->
  exists bps wb, getBlueprintsMap (plr_ClusterManager r) plotter w = Done (bps, wb) /\
    forall c spec instance, bps !! c = Some spec -> handles spec instance id ->
      exists before after st v mb remote v',
        range bps = before ++ (c, spec) :: after /\
        handleBlueprints r plotter before (initialState plotter) wb = Done (inr st, v) /\
        mget (plstatus_Blueprints (pl_Status plotter)) c = Some mb /\
        GetBlueprint (plr_ClusterManager r) c (metabp_Namespace mb) (metabp_Name mb) v = Done (inl (Some remote), v') /\
        serves_asset remote id.
Proof.
  intros (bps & wb & st & wl & st' & wt & Hb & Hh & Ht & Hf)%reconcile_inv Ho Hready. exists bps, wb. split; [done|].
  destruct (finishPlotter_spec _ _ _ _ _ _ _ _ Hf) as (_ & _ & _ & Ha & _). rewrite Ha in Ho.
  destruct (tidyUp_steps _ _ _ _ _ _ _ Ht) as (_ & _ & Hat & _). rewrite Hat in Ho.
  destruct (handleBlueprints_assets _ _ _ _ _ _ _ id Hh) as [_ Hs].
  intros c spec instance Hc Hhan. destruct (Hs ltac:(intros (o' & Ho' & Hr'); congruence) c spec instance)
    as (l1 & l2 & st1 & v & remote & El & E1 & (mb & v' & Hmb & Hg) & Hsv); [by apply range_elem|done|].
  exists l1, l2, st1, v, mb, remote, v'. split; [done|]. split; [done|]. split; [|done].
  pose proof (range_NoDup bps) as Hnd. rewrite El, fmap_app, fmap_cons in Hnd.
  apply list.NoDup_app in Hnd as (Hnd1 & Hdis & _).
  destruct (handleBlueprints_steps _ _ _ _ _ _ _ E1 Hnd1) as [Hkeep _].
  rewrite Hkeep in Hmb; [exact Hmb|]. intros Hin. apply (Hdis c Hin). by left.
Qed.

(** C35: a failed creation does not make the plotter unready: when the only blueprint
    of the plotter cannot be created on its cluster, the plotter is nevertheless
    reported ready, with a ready timestamp, and no blueprint is recorded. *)
Theorem failed_creation_reports_ready r plotter w c spec wb err wc res errs pl' w' :
  getBlueprintsMap (plr_ClusterManager r) plotter w = Done ({[ c := spec ]}, wb) ->
  gm (plstatus_Blueprints (pl_Status plotter)) = ∅ ->
  CreateBlueprint (plr_ClusterManager r) c (newBlueprint plotter c spec) wb = Done (Some err, wc) ->
  reconcile r plotter w = Done ((res, errs, pl'), w') ->
  errs = [err] /\ os_Ready (plstatus_ObservedState (pl_Status pl')) = true /\
  is_Some (plstatus_ReadyTimestamp (pl_Status pl')) /\ gm (plstatus_Blueprints (pl_Status pl')) = ∅.
Proof.
  intros Hb Hst Hcr. unfold reconcile. rewrite (M_bind_run _ _ _ _ _ Hb), range_singleton, Hst.
  cbn [handleBlueprints handleBlueprint ps_Blueprints]. unfold handleBlueprint at 1. cbn [ps_Blueprints].
  rewrite lookup_empty. intros E. m_step E. m_step E0. m_step E1. rewrite Hcr in E2. injection E2 as <- <-.
  m_step E1. m_step E0. m_step E. rewrite range_empty in E0. cbn [tidyUp] in E0. m_step E0.
  apply finishPlotter_spec in E as (-> & Hr & Hbl & _ & _ & _ & _ & Ht). simpl in *.
  split; [done|]. split; [done|]. split; [by apply Ht|]. by rewrite Hbl.
Qed.

Lemma reconcile_result r plotter w res pl' w' :
  reconcile r plotter w = Done ((res, [], pl'), w') -> res = noResult \/ res = mkResult 5.
Proof.
  intros (bps & wb & st & wl & st' & wt & _ & _ & _ & E)%reconcile_inv. unfold finishPlotter in E.
  destruct (ps_Ready st'); [|m_step E; by right]. m_step E. destruct (ps_Errors st'); [m_step E; by left|].
  m_step E. m_step E.
Qed.

(** The exponential backoff of [reconcile] is never used: the delay requested from
    the work queue is either none or five seconds, and an error never comes with
    a delay. *)
Theorem backoff_has_no_effect r req w result err w' :
  Reconcile r req w = Done ((result, err), w') ->
  result = noResult \/ (result = mkResult 5 /\ err = None).
Proof.
  unfold Reconcile. intros E. m_step E. destruct a as [plotter|e]; [|m_step E; by left].
  m_step E. destruct a as [[e|] pl1]; simpl in E; [m_step E; by left|].
  destruct (plotterDeleted pl1); [m_step E; by left|]. m_step E. destruct a as [[res errs] pl2].
  m_step E. destruct (a.2); [m_step E; by left|]. destruct errs; m_step E; [|by left].
  destruct (reconcile_result _ _ _ _ _ _ E2) as [->| ->]; [by left|by right].
Qed.

Lemma deleteBlueprints_spec r l w err w' :
  deleteBlueprints r l w = Done (err, w') ->
  match err with
  | Some e => exists c mb wa wb, (c, mb) ∈ l /\
      DeleteBlueprint (plr_ClusterManager r) c (metabp_Namespace mb) (metabp_Name mb) wa = Done (Some e, wb)
  | None => forall c mb, (c, mb) ∈ l -> exists wa wb,
      DeleteBlueprint (plr_ClusterManager r) c (metabp_Namespace mb) (metabp_Name mb) wa = Done (None, wb)
  end.
Proof.
  revert w. induction l as [|[c mb] l IH]; intros w E; cbn [deleteBlueprints] in E.
  { m_step E. set_solver. }
  m_step E. destruct a as [e|].
  - m_step E. exists c, mb. eexists _, _. split; [by left|done].
  - apply IH in E. destruct err as [e|].
    + destruct E as (c' & mb' & wa & wb & Hin & Hd). exists c', mb', wa, wb. split; [by right|done].
    + intros c' mb' [[= -> ->]|Hin]%elem_of_cons; eauto.
Qed.

(** A deleted plotter keeps its finalizer until its blueprints are gone: either
    the deletion of one of the recorded blueprints failed, which is the error
    returned with the plotter unchanged, or every recorded blueprint was deleted
    before the finalizer was removed. *)
Theorem plotter_finalizer_protects r plotter w err pl' w' :
  plotterDeleted plotter = true ->
  ContainsFinalizer (meta_Finalizers (pl_Meta plotter)) (plotterFinalizer r) = true ->
  reconcileFinalizers r plotter w = Done ((err, pl'), w') ->
  (exists e c mb wa wb, mget (plstatus_Blueprints (pl_Status plotter)) c = Some mb /\
     DeleteBlueprint (plr_ClusterManager r) c (metabp_Namespace mb) (metabp_Name mb) wa = Done (Some e, wb) /\
     err = Some e /\ pl' = plotter) \/
  (forall c mb, mget (plstatus_Blueprints (pl_Status plotter)) c = Some mb -> exists wa wb,
     DeleteBlueprint (plr_ClusterManager r) c (metabp_Namespace mb) (metabp_Name mb) wa = Done (None, wb)).
Proof.
  unfold reconcileFinalizers. intros Hd Hf. rewrite Hd, Hf. intros E. m_step E.
  apply deleteBlueprints_spec in E0. destruct a as [e|].
  - m_step E. left. destruct E0 as (c & mb & wa & wb & Hin%range_elem & Hdel). by exists e, c, mb, wa, wb.
  - right. intros c mb Hc. by apply E0, range_elem.
Qed.
End ReconcileFacts.
