(* ===== verification/PlotterCtlExamples.v ===== *)
(** * The plotter controller on a small deployment

    Instances on which the hypotheses of the theorems about the plotter controller
    hold: a plotter produced by the generator, and cluster managers that keep the
    blueprints of each cluster in a map. *)
From stdpp Require Import base gmap strings list numbers.
From S2P Require Import Prelude GoStrings Types External Utils World MultiCluster Storage SelectModules PlotterGen PlotterController PlotterFacts.
Import SelectExamples PlotterExamples.

Module PlotterCtlExamples.

(** The plotter of the application that reads an asset with a redaction. *)
Definition run := resultOf ∅ emptySpec []
  (addFlowInfo (plotterGen generator) (item ∅) application ∅ emptySpec []).
Definition pending : PlotterStatus := mkPlotterStatus (mkObservedState false "") 0 ∅ None [] None.
Definition plotter : Plotter := mkPlotter (meta "notebook-default") run.1.2 pending.

Lemma plotter_is_wf : plotter_wf (pl_Spec plotter).
Proof.
  assert (addFlowInfo (plotterGen generator) (item ∅) application ∅ emptySpec [] =
    Done ((None, run.1.1, run.1.2), run.2)) as E by (vm_compute; reflexivity).
  apply (@AddFlowInfoForAsset_keeps_wf canonical_range Concrete.k8s (Concrete.env []) Concrete.accept_all
    verbatim (list ProvisionedBucket) (plotterGen generator) (item ∅) application
    ∅ emptySpec [] _ _ _ E); [discriminate|constructor].
Qed.

(** The blueprints by cluster. *)
Definition world : Type := gmap string Blueprint.
Definition refused : error := newError "refused".
Definition clusters : ClusterManager world := {|
  GetClusters w := Done (inl [cluster], w);
  GetBlueprint c _ _ w := Done (inl (w !! c), w);
  CreateBlueprint c b w := Done (None, <[c := b]> w);
  UpdateBlueprint c b w := Done (None, <[c := b]> w);
  DeleteBlueprint c _ _ w := Done (None, delete c w) |}.
Definition unwilling : ClusterManager world := {|
  GetClusters w := Done (inl [cluster], w);
  GetBlueprint c _ _ w := Done (inl (w !! c), w);
  CreateBlueprint _ _ w := Done (Some refused, w);
  UpdateBlueprint _ _ w := Done (Some refused, w);
  DeleteBlueprint _ _ _ w := Done (Some refused, w) |}.
Definition reconciler (client : ObjectClient world Plotter) (cm : ClusterManager world) : PlotterReconciler world :=
  mkPlotterReconciler client "Plotter" cm (fun w => Done (7%Z, w)) (fun _ w => Done (1%Z, w)).

Notation mapOf := (@getBlueprintsMap canonical_range world).
Notation reconcileOf := (@reconcile canonical_range world).

Lemma getBlueprintsMap_returns_witness : exists bps, mapOf clusters plotter ∅ = Done (bps, ∅).
Proof. apply (@getBlueprintsMap_returns canonical_range world clusters plotter ∅ (inl [cluster])
  ∅ plotter_is_wf eq_refl). Defined.

(** What evaluation gives for the plotter. *)
Definition blueprintsOf (p : Plotter) : gmap string BlueprintSpec :=
  match mapOf clusters p ∅ with Done (m, _) => m | Panic _ => ∅ end.
Definition instancesOf (p : Plotter) : list ModuleInstanceSpec :=
  match plotterInstances [cluster] p with Done l => l | Panic _ => [] end.
Definition redaction : StepParameters :=
  mkStepParameters (Some (mkStepSource "assets/1" None)) (Some (mkStepSink "assets/1-copy")) None [redact].
Definition copyStep : DataFlowStep := mkDataFlowStep "" "thegreendragon" "copy" (Some redaction).
Definition copyFlow : SubFlow := mkSubFlow "" CopyFlow ["init"] [[copyStep]].
Definition copier : ModuleInfo := mkModuleInfo "arrow-flight" "service" (mkChartSpec "chart" "" ∅) "asset".
Definition theFlow : Flow := default (mkFlow "" "" "" []) (list.head (plotter_Flows (pl_Spec plotter))).

Definition namesOf (p : Plotter) : list string :=
  match mapM instanceName (@RefineInstances canonical_range
    (filter (fun i => instance_ClusterName i = "thegreendragon") (instancesOf p))) with
  | Done l => l | Panic _ => [] end.

Lemma names_are_distinct : @distinct_names canonical_range (instancesOf plotter) "thegreendragon".
Proof.
  exists (namesOf plotter). split; [apply (bool_decide_unpack _); by vm_compute|].
  apply outcome_mapM_inv. vm_compute. reflexivity.
Qed.

Lemma getBlueprintsMap_enforces_witness :
  exists spec name m, blueprintsOf plotter !! "thegreendragon" = Some spec /\
    bpspec_Modules spec !! name = Some m /\ carries m CopyFlow "assets/1" [redact].
Proof.
  apply (@getBlueprintsMap_enforces canonical_range world clusters plotter ∅ (blueprintsOf plotter) ∅ [cluster]
    (instancesOf plotter) theFlow copyFlow copyStep redaction (mkTemplate "copy" [copier]) copier).
  - vm_compute. reflexivity.
  - apply plotter_is_wf.
  - reflexivity.
  - vm_compute. reflexivity.
  - apply names_are_distinct.
  - apply list_elem_of_lookup. exists 0. vm_compute. reflexivity.
  - apply list_elem_of_lookup. exists 0. vm_compute. reflexivity.
  - split; reflexivity.
  - vm_compute. reflexivity.
  - by left.
  - discriminate.
  - reflexivity.
Defined.

(** Two copies by a module that does not indicate its scope. *)
Definition copyOf (id : string) : ModuleInstanceSpec :=
  mkModuleInstanceSpec (mkChartSpec "chart" "" ∅) [id]
    (mkModuleArguments None (mkLabelSelector ∅ []) (Some (mkCopyModuleArgs zeroDataStore zeroDataStore id [])) [] [])
    "thegreendragon" "copier" "".

Lemma unset_scope_loses_copies_witness :
  exists u, @RefineInstances canonical_range [copyOf "one"; copyOf "two"] = [u] /\
    instance_AssetIDs u = ["one"; "two"] /\
    args_Copy (instance_Args u) = Some (mkCopyModuleArgs zeroDataStore zeroDataStore "one" []).
Proof.
  apply (@unset_scope_loses_copies canonical_range (copyOf "one") (copyOf "two"));
    [discriminate|discriminate|reflexivity|reflexivity].
Defined.

(** A remote blueprint that runs as specified. *)
Definition theSpec : BlueprintSpec := default (mkBlueprintSpec "" "" ∅) (blueprintsOf plotter !! "thegreendragon").
Definition running : Blueprint :=
  mkBlueprint (meta "notebook-default") theSpec
    (mkBlueprintStatus (mkObservedState true "") 1 (Some {[ "arrow-flight" := mkObservedState true "" ]}) None).
Definition deployed : Plotter := plotter <| pl_Status := pending
  <| plstatus_Blueprints := Some {[ "thegreendragon" := CreateMetaBlueprintWithoutState running ]} |> |>.
Definition ready : PlotterReconciler world := reconciler ConcreteStore.absent clusters.
Definition deployment : world := {[ "thegreendragon" := running ]}.
Definition outcomeOf (r : PlotterReconciler world) (p : Plotter) (w : world) : Result * list error * Plotter * world :=
  match reconcileOf r p w with Done x => x | Panic _ => (noResult, [], p, w) end.
Definition reconciled := outcomeOf ready deployed deployment.

Lemma reconciled_run : reconcileOf ready deployed deployment =
  Done ((reconciled.1.1.1, [], reconciled.1.2), reconciled.2).
Proof. vm_compute. reflexivity. Qed.

Lemma reconcile_tracks_blueprints_witness :
  exists bps wb, mapOf clusters deployed deployment = Done (bps, wb) /\
    dom (gm (plstatus_Blueprints (pl_Status reconciled.1.2))) = dom bps.
Proof. exact (reconcile_tracks_blueprints ready deployed deployment _ _ _ reconciled_run). Defined.

Lemma reconcile_ready_sound_witness :
  exists bps wb, mapOf clusters deployed deployment = Done (bps, wb) /\
    map_Forall (fun c spec => exists remote, fetched ready c remote /\ bp_Spec remote = spec /\
      os_Ready (bpstatus_ObservedState (bp_Status remote)) = true /\
      mget (plstatus_Blueprints (pl_Status reconciled.1.2)) c = Some (CreateMetaBlueprint remote)) bps.
Proof.
  refine (reconcile_ready_sound ready deployed deployment _ _ _ reconciled_run _). vm_compute. reflexivity.
Defined.

Lemma asset_ready_sound_witness :
  exists bps wb, mapOf clusters deployed deployment = Done (bps, wb) /\
    forall c spec instance, bps !! c = Some spec -> handles spec instance "assets/1" ->
      exists before after st v mb remote v',
        @range canonical_range _ bps = before ++ (c, spec) :: after /\
        @handleBlueprints canonical_range world ready deployed before (initialState deployed) wb = Done (inr st, v) /\
        mget (plstatus_Blueprints (pl_Status deployed)) c = Some mb /\
        GetBlueprint (plr_ClusterManager ready) c (metabp_Namespace mb) (metabp_Name mb) v = Done (inl (Some remote), v') /\
        serves_asset remote "assets/1".
Proof.
  refine (@asset_ready_sound canonical_range world ready deployed deployment _ _ _ "assets/1" (mkObservedState true "") reconciled_run _ _);
    vm_compute; reflexivity.
Defined.

(** A cluster that refuses the blueprint. *)
Definition refusing : PlotterReconciler world := reconciler ConcreteStore.absent unwilling.
Definition failed := outcomeOf refusing plotter ∅.

Lemma failed_creation_reports_ready_witness :
  failed.1.1.2 = [refused] /\ os_Ready (plstatus_ObservedState (pl_Status failed.1.2)) = true /\
  is_Some (plstatus_ReadyTimestamp (pl_Status failed.1.2)) /\
  gm (plstatus_Blueprints (pl_Status failed.1.2)) = ∅.
Proof.
  apply (@failed_creation_reports_ready canonical_range world refusing plotter ∅ "thegreendragon" theSpec ∅ refused ∅
    failed.1.1.1 failed.1.1.2 failed.1.2 failed.2).
  - vm_compute. reflexivity.
  - reflexivity.
  - reflexivity.
  - vm_compute. reflexivity.
Defined.

Lemma backoff_has_no_effect_witness :
  noResult = noResult \/ (noResult = mkResult 5 /\ @None error = None).
Proof.
  refine (@backoff_has_no_effect canonical_range Concrete.k8s world refusing
    (mkNamespacedName "gone" "default") ∅ noResult None ∅ _). vm_compute. reflexivity.
Defined.

(** A plotter under deletion on such a cluster. *)
Definition dying : Plotter := deployed <| pl_Meta :=
  (meta "notebook-default") <| meta_DeletionTimestamp := Some 1%Z |> <| meta_Finalizers := ["Plotter.finalizer"] |> |>.

Lemma plotter_finalizer_protects_witness :
  (exists e c mb wa wb, mget (plstatus_Blueprints (pl_Status dying)) c = Some mb /\
     DeleteBlueprint unwilling c (metabp_Namespace mb) (metabp_Name mb) wa = Done (Some e, wb) /\
     Some refused = Some e /\ dying = dying) \/
  (forall c mb, mget (plstatus_Blueprints (pl_Status dying)) c = Some mb -> exists wa wb,
     DeleteBlueprint unwilling c (metabp_Namespace mb) (metabp_Name mb) wa = Done (None, wb)).
Proof.
  refine (@plotter_finalizer_protects canonical_range Concrete.k8s world refusing dying deployment
    (Some refused) dying deployment _ _ _); vm_compute; reflexivity.
Defined.
End PlotterCtlExamples.
