(* ===== verification/PlotterLiveness.v ===== *)
(** * A plotter becomes ready

    The plotter controller does not wait either: a reconciliation creates or updates the
    blueprints that have to be, looks at the others and asks to be called again.  Here the
    calls are put together: on clusters that do what they are told and whose blueprints
    become ready after some time, the controller goes on until the plotter is ready, and then
    stops. *)
From stdpp Require Import base gmap strings list numbers.
From S2P Require Import Prelude GoStrings Types External Utils World MultiCluster Storage SelectModules PlotterGen PlotterController PlotterFacts PlotterCtlExamples.

Section Liveness.
Context `{MapRange, K8sMeta} {W : Type}.
Context (r : PlotterReconciler W).

(** The blueprint of the plotter on each cluster, for how many rounds some will not be
    ready, and the time between two rounds. *)
Context (remote : W -> gmap string Blueprint) (pending : W -> nat) (elapse : W -> W).
Notation cm := (plr_ClusterManager r).

(** [c], when some time has passed. *)
Definition later {A} (c : M W A) : M W A := fun w => c (elapse w).

(** The workqueue calls the controller again, with the plotter as it was left, until it
    neither reports an error nor asks for another call. *)
Fixpoint poll (n : nat) (p : Plotter) : M W (option Plotter) :=
  match n with
  | 0 => mret None
  | S n =>
      res ← reconcile r p;
      match res.1.2 with
      | [] => if Z.eqb (RequeueAfter res.1.1) 0 then mret (Some res.2) else later (poll n res.2)
      | _ => later (poll n res.2)
      end
  end.

Definition named (b : Blueprint) (mb : MetaBlueprint) : Prop :=
  metabp_Namespace mb = meta_Namespace (bp_Meta b) /\ metabp_Name mb = meta_Name (bp_Meta b).
Definition isReadyBlueprint (b : Blueprint) : Prop := os_Ready (bpstatus_ObservedState (bp_Status b)) = true.

(** Clusters that do what they are told.  Creating, updating or deleting a blueprint may
    start a new wait. *)
Record obedient (cs : list Cluster) : Prop := {
  ob_Clusters w : reaches (GetClusters cm) w (fun o w' =>
    o = inl cs /\ remote w' = remote w /\ pending w' = pending w);
  ob_Get c b w : remote w !! c = Some b ->
    reaches (GetBlueprint cm c (meta_Namespace (bp_Meta b)) (meta_Name (bp_Meta b))) w (fun o w' =>
      o = inl (Some b) /\ remote w' = remote w /\ pending w' = pending w);
  ob_Create c b w : reaches (CreateBlueprint cm c b) w (fun o w' =>
    o = None /\ remote w' = <[c := b]> (remote w));
  ob_Update c b w : is_Some (remote w !! c) -> reaches (UpdateBlueprint cm c b) w (fun o w' =>
    o = None /\ remote w' = <[c := b]> (remote w));
  ob_Delete c ns name w : reaches (DeleteBlueprint cm c ns name) w (fun o w' =>
    o = None /\ remote w' = delete c (remote w));
  ob_Now w : reaches (plr_Now r) w (fun _ w' => remote w' = remote w /\ pending w' = pending w);
  (** Time does not change what the blueprints ask for, and they become ready. *)
  ob_time w c b : remote w !! c = Some b ->
    exists b', remote (elapse w) !! c = Some b' /\ bp_Spec b' = bp_Spec b /\ bp_Meta b' = bp_Meta b;
  ob_elapse w : pending (elapse w) = pred (pending w);
  ob_ready w : pending w = 0 -> map_Forall (fun _ => isReadyBlueprint) (remote w)
}.

Context (cs : list Cluster) (Hob : obedient cs).

(** A blueprint that is recorded is there under its name; it has its specification, unless
    the plotter is new and it will be updated. *)
Definition tracked (p : Plotter) (bps : gmap string BlueprintSpec) (recorded : gmap string MetaBlueprint) (w : W) : Prop :=
  forall c spec mb, bps !! c = Some spec -> recorded !! c = Some mb ->
    exists b, remote w !! c = Some b /\ named b mb /\
      (bp_Spec b = spec \/ meta_Generation (pl_Meta p) <> plstatus_ObservedGeneration (pl_Status p)).

(** What one iteration leaves. *)
Definition settled (c : string) (spec : BlueprintSpec) (st : PlotterState) (w : W) : Prop :=
  exists b mb, remote w !! c = Some b /\ bp_Spec b = spec /\ ps_Blueprints st !! c = Some mb /\ named b mb.

(** Everything is deployed already: the iteration only looks. *)
Definition converged (bps : gmap string BlueprintSpec) (recorded : gmap string MetaBlueprint) (w : W) : Prop :=
  forall c spec, bps !! c = Some spec ->
    exists b mb, remote w !! c = Some b /\ bp_Spec b = spec /\ recorded !! c = Some mb /\ named b mb.

Lemma handleBlueprint_reaches p c spec st w :
  ps_Errors st = [] ->
  (forall mb, ps_Blueprints st !! c = Some mb -> exists b, remote w !! c = Some b /\ named b mb /\
     (bp_Spec b = spec \/ meta_Generation (pl_Meta p) <> plstatus_ObservedGeneration (pl_Status p))) ->
  reaches (handleBlueprint r p c spec st) w (fun res w' => exists st', res = inr st' /\
    ps_Errors st' = [] /\ settled c spec st' w' /\
    (forall k, k <> c -> ps_Blueprints st' !! k = ps_Blueprints st !! k /\ remote w' !! k = remote w !! k) /\
    (settled c spec st w -> remote w' = remote w /\ pending w' = pending w /\
       (map_Forall (fun _ => isReadyBlueprint) (remote w) -> ps_Ready st' = ps_Ready st))).
Proof.
  intros He Hrec. unfold handleBlueprint. destruct st as [bs msg assets ready errs]. simpl in *.
  destruct (bs !! c) as [mb|] eqn:Hc.
  - destruct (Hrec mb eq_refl) as (b & Hb & [Hns Hname] & Hspec). rewrite Hns, Hname.
    eapply reaches_then; [by apply (ob_Get _ Hob)|]. simpl. intros o w1 (-> & Hr1 & Hp1).
    destruct (bool_decide_reflect (spec = bp_Spec b)) as [->|Hd]; simpl.
    + apply reaches_ret. eexists. split; [reflexivity|].
      split; [by destruct (os_Ready _), (_ <>? _)|]. split; [|split].
      * exists b, (CreateMetaBlueprint b). rewrite Hr1. split; [done|]. split; [done|].
        split; [|by split]. destruct (os_Ready _), (_ <>? _); apply lookup_insert_eq.
      * intros k Hk. rewrite Hr1. split; [|done].
        destruct (os_Ready _), (_ <>? _); simpl; by rewrite lookup_insert_ne.
      * intros _. split; [done|]. split; [done|]. intros Hall. specialize (Hall c b Hb). unfold isReadyBlueprint in Hall.
        rewrite Hall. by destruct (_ <>? _).
    + destruct Hspec as [Hspec|Hgen]; [congruence|].
      apply Z.eqb_neq in Hgen. rewrite Hgen. simpl.
      eapply reaches_then; [apply (ob_Update _ Hob); rewrite Hr1; eauto|]. simpl. intros o w2 (-> & Hr2).
      apply reaches_ret. eexists. split; [reflexivity|]. split; [done|]. rewrite Hr1 in Hr2. split; [|split].
      * eexists _, _. rewrite Hr2, lookup_insert_eq. split; [done|]. split; [by destruct b|]. simpl.
        rewrite lookup_insert_eq. split; [done|]. by destruct b as [[] ? ?].
      * intros k Hk. rewrite Hr2. simpl. by rewrite !lookup_insert_ne.
      * intros (b' & mb' & Hb' & Hs' & _). congruence.
  - eapply reaches_then; [apply (ob_Create _ Hob)|]. simpl. intros o w1 (-> & Hr1).
    apply reaches_ret. eexists. split; [reflexivity|]. split; [done|]. split; [|split].
    + eexists _, _. rewrite Hr1, lookup_insert_eq. split; [done|]. split; [done|]. simpl.
      rewrite lookup_insert_eq. split; [done|]. by split.
    + intros k Hk. rewrite Hr1. simpl. by rewrite !lookup_insert_ne.
    + intros (b' & mb' & _ & _ & Hmb & _). simpl in Hmb. congruence.
Qed.

Lemma handleBlueprints_reaches p l st w :
  NoDup l.*1 -> ps_Errors st = [] ->
  (forall c spec mb, (c, spec) ∈ l -> ps_Blueprints st !! c = Some mb -> exists b, remote w !! c = Some b /\ named b mb /\
     (bp_Spec b = spec \/ meta_Generation (pl_Meta p) <> plstatus_ObservedGeneration (pl_Status p))) ->
  reaches (handleBlueprints r p l st) w (fun res w' => exists st', res = inr st' /\
    ps_Errors st' = [] /\ (forall c spec, (c, spec) ∈ l -> settled c spec st' w') /\
    (forall k, k ∉ l.*1 -> ps_Blueprints st' !! k = ps_Blueprints st !! k /\ remote w' !! k = remote w !! k) /\
    ((forall c spec, (c, spec) ∈ l -> settled c spec st w) -> remote w' = remote w /\ pending w' = pending w /\
       (map_Forall (fun _ => isReadyBlueprint) (remote w) -> ps_Ready st' = ps_Ready st))).
Proof.
  revert st w. induction l as [|[c spec] l IH]; intros st w Hnd He Hrec; cbn [handleBlueprints].
  { apply reaches_ret. exists st. set_solver. }
  rewrite fmap_cons in Hnd. apply list.NoDup_cons in Hnd as [Hc Hnd]. simpl in Hc.
  eapply reaches_then; [apply handleBlueprint_reaches; [done|]; intros mb; apply Hrec, list_elem_of_here|].
  intros res w1 (st1 & -> & He1 & Hs1 & Hk1 & Hq1).
  assert (Hout : forall k sp, (k, sp) ∈ l -> k <> c).
  { intros k sp Hin ->. apply Hc, list_elem_of_fmap. by exists (c, sp). }
  eapply reaches_mono; [apply IH; [done|done|]|].
  { intros k sp mb Hin Hmb. destruct (Hk1 k (Hout k sp Hin)) as [Hb Hr]. rewrite Hr. rewrite Hb in Hmb.
    eapply Hrec; [by right|done]. }
  intros res w2 (st2 & -> & He2 & Hs2 & Hk2 & Hq2). exists st2. split_and!; [done|done|..].
  - intros k sp [[= -> ->]|Hin]%elem_of_cons; [|auto]. destruct (Hk2 c Hc) as [Hb Hr].
    destruct Hs1 as (b & mb & ? & ? & ? & ?). exists b, mb. by rewrite Hr, Hb.
  - intros k [Hkc Hkl]%not_elem_of_cons. destruct (Hk2 k Hkl) as [-> ->]. by apply Hk1.
  - intros Hall. destruct Hq1 as (Hr1 & Hp1 & Hy1); [apply Hall; by left|].
    destruct Hq2 as (Hr2 & Hp2 & Hy2).
    { intros k sp Hin. destruct (Hk1 k (Hout k sp Hin)) as [Hb Hr].
      destruct (Hall k sp) as (b & mb & ? & ? & ? & ?); [by right|]. exists b, mb. by rewrite Hr, Hb. }
    split_and!; [congruence|congruence|]. intros Hready. rewrite Hy2, Hy1; [done|done|by rewrite Hr1].
Qed.

Lemma tidyUp_reaches bps deployed st w :
  reaches (tidyUp r bps deployed st) w (fun st' w' => ps_Errors st' = ps_Errors st /\ ps_Ready st' = ps_Ready st /\
    (forall k, is_Some (bps !! k) -> ps_Blueprints st' !! k = ps_Blueprints st !! k /\ remote w' !! k = remote w !! k) /\
    (forall k, bps !! k = None -> ps_Blueprints st !! k = None \/ k ∈ deployed.*1 -> ps_Blueprints st' !! k = None) /\
    ((forall k, k ∈ deployed.*1 -> is_Some (bps !! k)) -> w' = w)).
Proof.
  revert st w. induction deployed as [|[c mb] deployed IH]; intros st w; cbn [tidyUp].
  { apply reaches_ret. set_solver. }
  destruct (bps !! c) as [spec|] eqn:Hc.
  - eapply reaches_mono; [apply IH|]. intros st' w' (? & ? & ? & Hnone & Hq). split_and!; try done.
    + intros k Hk Hin. apply Hnone; [done|]. destruct Hin as [?|Hin]; [auto|]. csimpl in Hin.
      apply elem_of_cons in Hin as [->|?]; [congruence|auto].
    + intros Hall. apply Hq. intros k Hk. apply Hall. csimpl. by right.
  - eapply reaches_then; [apply (ob_Delete _ Hob)|]. simpl. intros o w1 (-> & Hr1).
    destruct st as [bs msg assets ready errs]. simpl.
    eapply reaches_mono; [apply IH|]. intros st' w' (He & Hy & Hk & Hnone & Hq). simpl in *. split_and!; try done.
    + intros k Hsome. destruct (Hk k Hsome) as [-> ->]. rewrite Hr1.
      assert (c <> k) by (intros ->; rewrite Hc in Hsome; by destruct Hsome). by rewrite !lookup_delete_ne.
    + intros k Hkn Hin. apply Hnone; [done|]. destruct (decide (c = k)) as [<-|]; [left; apply lookup_delete_eq|].
      rewrite lookup_delete_ne by done. destruct Hin as [?|Hin]; [auto|].
      apply elem_of_cons in Hin as [->|?]; [done|auto].
    + intros Hall. destruct (Hall c) as [? ?]; [by left|]. congruence.
Qed.

Lemma finishPlotter_reaches p st w : ps_Errors st = [] ->
  reaches (finishPlotter r p st) w (fun res w' => exists p', res = (if ps_Ready st then noResult else mkResult 5, [], p') /\
    pl_Meta p' = pl_Meta p /\ pl_Spec p' = pl_Spec p /\ plstatus_Blueprints (pl_Status p') = Some (ps_Blueprints st) /\
    os_Ready (plstatus_ObservedState (pl_Status p')) = ps_Ready st /\ remote w' = remote w /\ pending w' = pending w).
Proof.
  intros He. unfold finishPlotter. destruct p as [meta spec [obs gen assets bl conds rt]], st as [bs msg as_ ready errs].
  simpl in *. subst errs. destruct ready; simpl.
  - eapply reaches_then with (P := fun _ w' => remote w' = remote w /\ pending w' = pending w).
    { destruct rt; [by apply reaches_ret|apply (ob_Now _ Hob)]. }
    intros t w1 [Hr Hp]. apply reaches_ret. eexists. split; [reflexivity|]. done.
  - apply reaches_ret. eexists. rewrite andb_false_r. split; [reflexivity|]. done.
Qed.

(** ** Rounds *)

Context (meta : ObjectMeta) (spec : PlotterSpec) (bps : gmap string BlueprintSpec).
Context (instances : list ModuleInstanceSpec).
Context (Hinst : forall status, plotterInstances cs (mkPlotter meta spec status) = Done instances).
Context (Hgen : forall status, GenerateBlueprints instances (mkPlotter meta spec status) = Done bps).

Notation recordedIn p := (gm (plstatus_Blueprints (pl_Status p))).

Definition quiet (p : Plotter) (w : W) : Prop :=
  converged bps (recordedIn p) w /\ forall c, bps !! c = None -> recordedIn p !! c = None.

Lemma getBlueprintsMap_reaches p w : pl_Meta p = meta -> pl_Spec p = spec ->
  reaches (getBlueprintsMap cm p) w (fun m w' => m = bps /\ remote w' = remote w /\ pending w' = pending w).
Proof.
  intros Hm Hs. unfold getBlueprintsMap. eapply reaches_then; [apply (ob_Clusters _ Hob)|]. simpl.
  intros o w1 (-> & Hr & Hp). exists bps, w1. destruct p as [m s st]. simpl in Hm, Hs. subst m s.
  fold (plotterInstances cs (mkPlotter meta spec st)). rewrite Hinst. unfold lift. simpl. by rewrite Hgen.
Qed.

Lemma plotter_reconcile_reaches p w : pl_Meta p = meta -> pl_Spec p = spec -> tracked p bps (recordedIn p) w ->
  reaches (reconcile r p) w (fun res w' => exists res' p', res = (res', [], p') /\
    pl_Meta p' = meta /\ pl_Spec p' = spec /\ quiet p' w' /\
    (RequeueAfter res' = 0%Z -> os_Ready (plstatus_ObservedState (pl_Status p')) = true) /\
    (quiet p w -> pending w' = pending w /\ (pending w = 0 -> RequeueAfter res' = 0%Z))).
Proof.
  intros Hm Hs Htr. unfold reconcile.
  eapply reaches_then; [by apply getBlueprintsMap_reaches|]. intros m w1 (-> & Hr1 & Hp1).
  eapply reaches_then.
  { apply handleBlueprints_reaches; [apply range_NoDup|done|]. intros c sp mb Hin%range_elem Hmb.
    rewrite Hr1. by eapply Htr. }
  intros res w2 (st & -> & He & Hset & Hother & Hq). simpl in Hother, Hq.
  eapply reaches_then; [apply tidyUp_reaches|]. intros st' w3 (He' & Hy & Hk & Hnone & Hidle).
  eapply reaches_mono; [apply finishPlotter_reaches; congruence|].
  intros res w4 (p' & -> & Hm' & Hs' & Hb' & Hy' & Hr4 & Hp4). eexists _, p'. split; [reflexivity|].
  unfold quiet. rewrite Hm', Hs', Hb'. split_and!; [done|done| | | |]; simpl.
  - intros c sp Hc. destruct (Hset c sp) as (b & mb & Hb & Hsp & Hmb & Hn); [by apply range_elem|].
    exists b, mb. destruct (Hk c) as [Hk1 Hk2]; [eauto|]. by rewrite Hr4, Hk2, Hk1.
  - intros c Hc. apply Hnone; [done|]. destruct (ps_Blueprints st !! c) as [mb|] eqn:E; [right|by left].
    apply list_elem_of_fmap. exists (c, mb). by rewrite range_elem.
  - rewrite Hy'. destruct (ps_Ready st'); [done|]. simpl. done.
  - intros [Hconv Hno].
    assert (Hquiet : forall c sp, (c, sp) ∈ range bps -> settled c sp (mkPlotterState (recordedIn p) "" ∅ true []) w1).
    { intros c sp Hc%range_elem. destruct (Hconv c sp Hc) as (b & mb & ? & ? & ? & ?). exists b, mb. by rewrite Hr1. }
    destruct (Hq Hquiet) as (Hr2 & Hp2 & Hy2).
    assert (Hw3 : w3 = w2).
    { apply Hidle. intros c ([k mb] & -> & Hin%range_elem)%list_elem_of_fmap. simpl.
      destruct (bps !! k) eqn:E; [eauto|]. exfalso. destruct (Hother k) as [Hb _].
      { intros ([k' sp] & -> & Hin'%range_elem)%list_elem_of_fmap. simpl in E. congruence. }
      rewrite Hb, Hno in Hin; done. }
    subst w3. split; [congruence|]. intros Hzero. rewrite Hy, Hy2; [done|].
    rewrite Hr1. by apply (ob_ready _ Hob).
Qed.

Lemma quiet_tracked p w : quiet p w -> tracked p bps (recordedIn p) w.
Proof.
  intros [Hc _] c sp mb Hsp Hmb. destruct (Hc c sp Hsp) as (b & mb' & ? & ? & ? & ?). exists b.
  rewrite Hmb in *. simplify_eq. auto.
Qed.

Lemma quiet_elapse p w : quiet p w -> quiet p (elapse w).
Proof.
  intros [Hc Hno]. split; [|done]. intros c sp Hsp. destruct (Hc c sp Hsp) as (b & mb & Hb & ? & ? & Hn).
  destruct (ob_time _ Hob w c b Hb) as (b' & Hb' & Hs' & Hm'). exists b', mb. split_and!; [done|congruence|done|].
  unfold named in *. by rewrite Hm'.
Qed.

Lemma poll_quiet n p w : pl_Meta p = meta -> pl_Spec p = spec -> quiet p w -> pending w <= n ->
  reaches (poll (S n) p) w (fun o w' => exists p', o = Some p' /\ quiet p' w' /\
    os_Ready (plstatus_ObservedState (pl_Status p')) = true).
Proof.
  revert p w. induction n as [|n IH]; intros p w Hm Hs Hq Hn; cbn [poll];
    (eapply reaches_then; [apply plotter_reconcile_reaches; [done|done|by apply quiet_tracked]|]);
    intros res w1 (res' & p' & -> & Hm' & Hs' & Hq' & Hready & Hwait); simpl;
    destruct (Hwait Hq) as [Hp Hzero].
  - rewrite Hzero by lia. apply reaches_ret. exists p'. split_and!; [done|done|]. apply Hready, Hzero. lia.
  - destruct (Z.eqb_spec (RequeueAfter res') 0) as [Hz|Hz]; [apply reaches_ret; exists p'; auto|].
    apply (IH p' (elapse w1)); [done|done|by apply quiet_elapse|]. rewrite (ob_elapse _ Hob). lia.
Qed.

Lemma poll_ready p w : pl_Meta p = meta -> pl_Spec p = spec -> tracked p bps (recordedIn p) w ->
  exists n, reaches (poll n p) w (fun o w' => exists p', o = Some p' /\ quiet p' w' /\
    os_Ready (plstatus_ObservedState (pl_Status p')) = true).
Proof.
  intros Hm Hs Htr. destruct (plotter_reconcile_reaches p w Hm Hs Htr) as
    (res & w1 & E & res' & p' & -> & Hm' & Hs' & Hq' & Hready & _).
  exists (S (S (pending (elapse w1)))). cbn [poll]. apply reaches_bind. exists (res', [], p'), w1. split; [done|]. simpl.
  destruct (Z.eqb_spec (RequeueAfter res') 0) as [Hz|Hz]; [apply reaches_ret; exists p'; auto|].
  apply (poll_quiet (pending (elapse w1)) p' (elapse w1)); [done|done|by apply quiet_elapse|done].
Qed.
End Liveness.

Section Ready.
Context `{MapRange, K8sMeta} {W : Type}.

(** The blueprints of a plotter do not depend on its status. *)
Lemma plotterInstances_status cs meta spec st st' :
  plotterInstances cs (mkPlotter meta spec st) = plotterInstances cs (mkPlotter meta spec st').
Proof. reflexivity. Qed.

Lemma GenerateBlueprints_status instances meta spec st st' :
  GenerateBlueprints instances (mkPlotter meta spec st) = GenerateBlueprints instances (mkPlotter meta spec st').
Proof.
  unfold GenerateBlueprints. generalize (∅ : gmap string BlueprintSpec).
  induction (range _) as [|[c group] l IH]; intros acc; [reflexivity|]. cbn [generateEach].
  change (GenerateBlueprint group c (mkPlotter meta spec st)) with (GenerateBlueprint group c (mkPlotter meta spec st')).
  destruct (GenerateBlueprint _ _ _); [apply IH|reflexivity].
Qed.

(** C9: a plotter becomes ready: on clusters that do what they are told and whose blueprints become
    ready after a while, polling from any well-formed plotter whose recorded blueprints exist
    (and have their specification, unless the plotter has changed) ends after finitely many
    rounds.  The plotter is then reported ready, exactly the blueprints of the plotter are
    recorded, and each of them is on its cluster with its specification. *)
Theorem plotter_becomes_ready (r : PlotterReconciler W) remote pending elapse cs p w :
  obedient r remote pending elapse cs -> plotter_wf (pl_Spec p) ->
  (forall bps w', getBlueprintsMap (plr_ClusterManager r) p w = Done (bps, w') ->
     tracked remote p bps (gm (plstatus_Blueprints (pl_Status p))) w) ->
  exists n bps w1, getBlueprintsMap (plr_ClusterManager r) p w = Done (bps, w1) /\
    reaches (poll r elapse n p) w (fun o w' => exists p', o = Some p' /\ quiet remote bps p' w' /\
      os_Ready (plstatus_ObservedState (pl_Status p')) = true).
Proof.
  intros Hob Hwf Htr. destruct (ob_Clusters _ _ _ _ _ Hob w) as (o & w1 & Ecs & -> & _).
  destruct (getBlueprintsMap_runs _ _ _ _ _ Hwf Ecs) as (bps & Eb). specialize (Htr _ _ Eb).
  pose proof (getBlueprintsMap_inv _ _ _ _ _ Eb) as (cs' & instances & Ecs' & Hinst & Hgen).
  rewrite Ecs in Ecs'. simplify_eq.
  assert (Hi : forall st, plotterInstances cs (mkPlotter (pl_Meta p) (pl_Spec p) st) = Done instances).
  { intros st. rewrite <- Hinst. destruct p. apply plotterInstances_status. }
  assert (Hg : forall st, GenerateBlueprints instances (mkPlotter (pl_Meta p) (pl_Spec p) st) = Done bps).
  { intros st. rewrite <- Hgen. destruct p. apply GenerateBlueprints_status. }
  destruct (poll_ready r remote pending elapse cs Hob _ _ bps instances Hi Hg p w eq_refl eq_refl Htr) as (n & Hn).
  by exists n, bps, w1.
Qed.
End Ready.

(** ** Clusters that need two rounds *)
Module PlotterLivenessExample.
Import SelectExamples PlotterExamples.

(** The blueprints as they were last written, and the number of rounds until they run. *)
Definition world : Type := gmap string Blueprint * nat.

Definition started (b : Blueprint) : Blueprint :=
  b <| bp_Status := (bp_Status b) <| bpstatus_ObservedState := mkObservedState true "" |> |>.
Definition view (w : world) : gmap string Blueprint := if Nat.eqb w.2 0 then started <$> w.1 else w.1.
Definition isNamed (ns name : string) (b : Blueprint) : bool :=
  (meta_Namespace (bp_Meta b) =? ns) && (meta_Name (bp_Meta b) =? name).

Definition clusters : ClusterManager world := {|
  GetClusters w := Done (inl [cluster], w);
  GetBlueprint c ns name w :=
    Done (inl (b ← view w !! c; if isNamed ns name b then Some b else None), w);
  CreateBlueprint c b w := Done (None, (<[c := b]> (view w), 2));
  UpdateBlueprint c b w := Done (None, (<[c := b]> (view w), 2));
  DeleteBlueprint c _ _ w := Done (None, (delete c (view w), 2)) |}.
Definition reconciler : PlotterReconciler world :=
  mkPlotterReconciler ConcreteStore.absent "Plotter" clusters (fun w => Done (7%Z, w)) (fun _ w => Done (1%Z, w)).
Definition wait (w : world) : world := (w.1, pred w.2).

Lemma started_same b : bp_Spec (started b) = bp_Spec b /\ bp_Meta (started b) = bp_Meta b.
Proof. by destruct b. Qed.

Lemma clusters_obey : obedient reconciler view snd wait [cluster].
Proof.
  split.
  1, 3-6: (intros; by eexists _, _).
  - intros c b w Hb. eexists _, _. split; [reflexivity|]. rewrite Hb. simpl. unfold isNamed. by rewrite !String.eqb_refl.
  - intros [m [|[|n]]] c b; unfold view, wait; cbn; intros Hb; [by exists b| |by exists b].
    rewrite lookup_fmap, Hb. exists (started b). split; [done|]. apply started_same.
  - done.
  - intros [m n] Hn c b. unfold view. simpl in Hn. subst n. simpl. rewrite lookup_fmap.
    intros (b' & _ & ->)%fmap_Some. by destruct b' as [? ? []].
Qed.

Lemma plotter_becomes_ready_witness :
  exists n bps w1, @getBlueprintsMap canonical_range world clusters PlotterCtlExamples.plotter (∅, 0) = Done (bps, w1) /\
    reaches (@poll canonical_range world reconciler wait n PlotterCtlExamples.plotter) (∅, 0) (fun o w' =>
      exists p', o = Some p' /\ quiet view bps p' w' /\ os_Ready (plstatus_ObservedState (pl_Status p')) = true).
Proof.
  apply (@plotter_becomes_ready canonical_range world reconciler view snd wait [cluster]).
  - apply clusters_obey.
  - apply PlotterCtlExamples.plotter_is_wf.
  - intros bps w' _ c spec mb _ Hmb. vm_compute in Hmb. discriminate Hmb.
Defined.

(** The plotter is created, waited for once and ready in the third round. *)
Example three_rounds :
  (exists p', option_map (fun p => os_Ready (plstatus_ObservedState (pl_Status p)))
     (match @poll canonical_range world reconciler wait 3 PlotterCtlExamples.plotter (∅, 0) with
      | Done (o, _) => o | Panic _ => None end) = Some p' /\ p' = true) /\
  match @poll canonical_range world reconciler wait 2 PlotterCtlExamples.plotter (∅, 0) with
  | Done (o, _) => o = None | Panic _ => False end.
Proof. vm_compute. split; [by exists true|done]. Qed.
End PlotterLivenessExample.
