(* ===== verification/ControlPlane.v ===== *)
(** * The control plane as a whole

    The application controller writes plotters, the plotter controller turns plotters into
    blueprints on the clusters, and users create, change and delete applications, all
    through the API server, in any order.  Here the two controllers and everything else
    that happens are the steps of one transition system over the stored objects, and the
    guarantees of the components become an invariant of all reachable states. *)
From stdpp Require Import base gmap strings list numbers relations.
From S2P Require Import Prelude GoStrings Types External Utils Policy AdminConfig World MultiCluster Storage SelectModules PlotterGen Conditions ResourceGen AppController AppFacts AppLiveness PlotterController PlotterFacts.

(** ** Calls that return and relate the worlds before and after *)
Section Calls.
Context {W : Type} (R : W -> W -> Prop) `{!PreOrder R}.

Definition calls {A} (c : M W A) : Prop := forall w, exists a w', c w = Done (a, w') /\ R w w'.
Definition keeps {A} (c : M W A) : Prop := forall w a w', c w = Done (a, w') -> R w w'.

Lemma calls_keeps {A} (c : M W A) : calls c -> keeps c.
Proof. intros Hc w a w' E. destruct (Hc w) as (b & w1 & E1 & HR). rewrite E1 in E. by injection E as <- <-. Qed.

Lemma keeps_ret {A} (a : A) : keeps (mret a).
Proof using PreOrder0. intros w b w' [-> ->]%M_ret_inv. done. Qed.
Lemma keeps_lift {A} (c : outcome A) : keeps (lift c).
Proof using PreOrder0. intros w b w' [_ ->]%lift_inv. done. Qed.
Lemma keeps_panic {A} why : keeps (panic (A := A) why).
Proof. intros w b w' E. discriminate E. Qed.
Lemma keeps_bind {A B} (c : M W A) (k : A -> M W B) : keeps c -> (forall a, keeps (k a)) -> keeps (c ≫= k).
Proof using PreOrder0.
  intros Hc Hk w b w' (a & w1 & E1 & E2)%M_bind_inv. etrans; [by eapply Hc|by eapply Hk].
Qed.

Lemma calls_ret {A} (a : A) : calls (mret a).
Proof using PreOrder0. intros w. by exists a, w. Qed.
Lemma calls_bind {A B} (c : M W A) (k : A -> M W B) : calls c -> (forall a, calls (k a)) -> calls (c ≫= k).
Proof using PreOrder0.
  intros Hc Hk w. destruct (Hc w) as (a & w1 & E & H1). destruct (Hk a w1) as (b & w2 & E2 & H2).
  exists b, w2. rewrite (M_bind_run _ _ _ _ _ E). split; [done|by etrans].
Qed.
End Calls.

Lemma keeps_mono {W A} (R S : W -> W -> Prop) (c : M W A) : (forall w w', R w w' -> S w w') -> keeps R c -> keeps S c.
Proof. intros HRS Hc w a w' E. by eapply HRS, Hc. Qed.
Lemma calls_mono {W A} (R S : W -> W -> Prop) (c : M W A) : (forall w w', R w w' -> S w w') -> calls R c -> calls S c.
Proof. intros HRS Hc w. destruct (Hc w) as (a & w' & E & H). eauto. Qed.
Lemma calls_returns {W A} (R : W -> W -> Prop) (c : M W A) w : calls R c -> returns (c w).
Proof. intros Hc. destruct (Hc w) as (a & w' & E & _). by eexists. Qed.

Create HintDb go_keeps.
#[export] Hint Resolve keeps_ret keeps_lift keeps_panic calls_keeps : go_keeps.

(** The worlds of straight-line code, by its structure. *)
Ltac go_keeps := repeat first
  [ solve [eauto 3 with go_keeps typeclass_instances]
  | apply keeps_bind; [typeclasses eauto| |intros ?]
  | match goal with |- keeps _ (match ?x with _ => _ end) => destruct x end
  | match goal with |- keeps _ (let _ := _ in _) => cbv zeta end ].

(** ** What is stored *)
Section ControlPlane.
Context `{MapRange, K8sMeta, Runtime, Schema, TemplateEngine, Encoder, Semantic} {W : Type}.
Context `{!NestedStringLaws}.
Context (app_reconciler : Reconciler W) (plotter_reconciler : PlotterReconciler W).

(** The stored applications and plotters, and the specifications of the blueprints that are
    deployed on each cluster. *)
Context (apps : W -> NamespacedName -> option FybrikApplication) (plots : W -> NamespacedName -> option Plotter)
  (deployed : W -> string -> NamespacedName -> option BlueprintSpec).

(** Nothing of it changes. *)
Record quiet (w w' : W) : Prop := {
  quiet_apps : forall k, apps w' k = apps w k;
  quiet_plots : forall k, plots w' k = plots w k;
  quiet_deployed : forall c k, deployed w' c k = deployed w c k
}.

#[export] Instance quiet_preorder : PreOrder quiet.
Proof. split; [by split|]. intros x y z [] []. split; congruence. Qed.

(** What the plotter says, and the labels that name its application. *)
Definition plan : Type := PlotterSpec * gomap string.
Definition plan_of (q : Plotter) : plan := (pl_Spec q, meta_Labels (pl_Meta q)).

(** Applications stay; every plotter has a plan that was stored under its name before or
    satisfies [P]; every blueprint was deployed before or satisfies [D]. *)
Record writes (P : plan -> Prop) (D : string -> BlueprintSpec -> Prop) (w w' : W) : Prop := {
  writes_apps : forall k, apps w' k = apps w k;
  writes_plots : forall k q, plots w' k = Some q ->
    (exists q', plots w k = Some q' /\ plan_of q' = plan_of q) \/ P (plan_of q);
  writes_deployed : forall c k s, deployed w' c k = Some s -> deployed w c k = Some s \/ D c s
}.

#[export] Instance writes_preorder P D : PreOrder (writes P D).
Proof.
  split; [split; eauto|]. intros x y z [A1 P1 D1] [A2 P2 D2]. split; [congruence| |].
  - intros k q [(q' & Hq & E)|?]%P2; [|by right]. destruct (P1 k q' Hq) as [(q2 & Hq2 & E2)|?].
    + left. exists q2. split; [done|congruence].
    + right. congruence.
  - intros c k s [Hs|?]%D2; [|by right]. by apply D1.
Qed.

Lemma quiet_writes P D w w' : quiet w w' -> writes P D w w'.
Proof. intros [A B C]. split; [done| |]; [intros k q Hq; rewrite B in Hq; eauto|intros c k s; rewrite C; auto]. Qed.
Lemma writes_mono (P P' : plan -> Prop) (D D' : string -> BlueprintSpec -> Prop) w w' :
  (forall s, P s -> P' s) -> (forall c s, D c s -> D' c s) -> writes P D w w' -> writes P' D' w w'.
Proof. intros HP HD [A B C]. split; [done| |]; [intros k q [?|?]%B; auto|intros c k s [?|?]%C; auto]. Qed.

(** Writing a plotter keeps its plan. *)
Definition stores_plotter (write : Plotter -> M W (Plotter + error)) : Prop := forall p w, exists res w',
  write p w = Done (res, w') /\ writes (fun s => s = plan_of p) (fun _ _ => False) w w' /\
  match res with inr err => IsConflict err = false | inl p' => plan_of p' = plan_of p end.

(** ** The documented behaviour of the services

    Calls to the services return, possibly with errors.  No call but the writes of the two
    controllers changes an application, a plotter or a blueprint; no write of a pass meets a
    conflicting writer.  A failed write may have been carried out all the same. *)
Record laws : Prop := {
  law_modules ns w : exists ms w', List_ (ModulesClient (r_Client app_reconciler)) ns w = Done (ms, w') /\ quiet w w' /\
    forall l, ms = inl l -> Forall module_wf l;
  law_accounts ns : calls quiet (ListStorageAccounts (r_Client app_reconciler) ns);
  law_configmap k : calls quiet (GetConfigMap (r_Client app_reconciler) k);
  law_clusters : calls quiet (r_GetClusters app_reconciler);
  law_create ref b owner : calls quiet (CreateDataset (r_Provision app_reconciler) ref b owner);
  law_delete ref : calls quiet (DeleteDataset (r_Provision app_reconciler) ref);
  law_status ref : calls quiet (GetDatasetStatus (r_Provision app_reconciler) ref);
  law_persistent ref b : calls quiet (SetPersistent (r_Provision app_reconciler) ref b);
  (** applications *)
  law_app_Get k w : exists res w', Get (Applications (r_Client app_reconciler)) k w = Done (res, w') /\ quiet w w' /\
    forall a, res = inl a -> apps w k = Some a /\ ObjectKey a = k;
  (** a write of an application gives it the metadata and the specification that are
      written; its status is the one that is written or the one that is stored; it is gone
      when it is being deleted and no finalizer is left *)
  law_app_Update a a0 w : apps w (ObjectKey a) = Some a0 ->
    exists res w' a', Update (Applications (r_Client app_reconciler)) a w = Done (res, w') /\
      app_Meta a' = app_Meta a /\ app_Spec a' = app_Spec a /\
      (app_Status a' = app_Status a \/ app_Status a' = app_Status a0) /\
      (forall k x, apps w' k = Some x -> apps w k = Some x \/ k = ObjectKey a /\ x = a') /\
      (forall k, plots w' k = plots w k) /\ (forall c k, deployed w' c k = deployed w c k) /\
      match res with
      | inr err => IsConflict err = false
      | inl b => b = a' /\ (apps w' (ObjectKey a) = Some a' \/ isDeleted (app_Meta a) = true)
      end;
  law_app_StatusUpdate a a0 w : apps w (ObjectKey a) = Some a0 -> same_object a0 a ->
    exists res w', StatusUpdate (Applications (r_Client app_reconciler)) a w = Done (res, w') /\
      match res with
      | inr err => IsConflict err = false
      | inl a' => a' = a
      end /\
      (forall k x, apps w' k = Some x -> apps w k = Some x \/ k = ObjectKey a /\ x = a) /\
      (forall k, plots w' k = plots w k) /\ (forall c k, deployed w' c k = deployed w c k);
  (** plotters *)
  law_interface : r_ResourceInterface app_reconciler = PlotterInterface.interface (plr_Client plotter_reconciler);
  law_plot_Get k w : exists res w', Get (plr_Client plotter_reconciler) k w = Done (res, w') /\ quiet w w' /\
    forall p, res = inl p -> plots w k = Some p;
  law_plot_CreateOrUpdate p f P : (forall q, P (plan_of (f q))) ->
    calls (writes P (fun _ _ => False)) (CreateOrUpdate (plr_Client plotter_reconciler) p f);
  law_plot_Delete p : calls (writes (fun _ => False) (fun _ _ => False)) (Delete (plr_Client plotter_reconciler) p);
  law_plot_Update : stores_plotter (Update (plr_Client plotter_reconciler));
  law_plot_StatusUpdate : stores_plotter (StatusUpdate (plr_Client plotter_reconciler));
  (** blueprints and the clock *)
  law_cm_clusters : calls quiet (GetClusters (plr_ClusterManager plotter_reconciler));
  law_cm_Get c ns name : calls quiet (GetBlueprint (plr_ClusterManager plotter_reconciler) c ns name);
  law_cm_Create c b : calls (writes (fun _ => False) (fun c' s => c' = c /\ s = bp_Spec b)) (CreateBlueprint (plr_ClusterManager plotter_reconciler) c b);
  law_cm_Update c b : calls (writes (fun _ => False) (fun c' s => c' = c /\ s = bp_Spec b)) (UpdateBlueprint (plr_ClusterManager plotter_reconciler) c b);
  law_cm_Delete c ns name : calls (writes (fun _ => False) (fun _ _ => False)) (DeleteBlueprint (plr_ClusterManager plotter_reconciler) c ns name);
  law_Now : calls quiet (plr_Now plotter_reconciler);
  law_Backoff t : calls quiet (plr_Backoff plotter_reconciler t)
}.
Context (Hl : laws).

Lemma laws_services : services app_reconciler.
Proof.
  destruct Hl. split; try (intros; by eapply calls_returns).
  - intros ns w. destruct (law_modules0 ns w) as (ms & w' & E & _ & Hms). eauto.
  - intros o ref spec l uuid w. rewrite law_interface0. cbn [CreateOrUpdateResource PlotterInterface.interface].
    unfold PlotterInterface.CreateOrUpdateResource.
    destruct (law_plot_Get0 (PlotterInterface.refKey ref) w) as (res & w1 & E & _). rewrite (M_bind_run _ _ _ _ _ E).
    destruct (match res with inl _ => _ | inr _ => _ end); [by eexists|].
    eapply calls_returns, (law_plot_CreateOrUpdate0 _ _ (fun _ => True)). done.
Qed.

(** ** Parts of a pass that only read *)
Lemma GetWorkloadCluster_quiet a : keeps quiet (GetWorkloadCluster app_reconciler a).
Proof.
  unfold GetWorkloadCluster, Local.GetClusters.
  pose proof (law_configmap Hl). pose proof (law_clusters Hl). go_keeps.
Qed.

Lemma GetCopyDestination_quiet p item i geo prov :
  pg_Client p = r_Client app_reconciler -> pg_Provision p = r_Provision app_reconciler ->
  keeps quiet (GetCopyDestination p item i geo prov).
Proof.
  intros Hc Hp. unfold GetCopyDestination, AllocateBucket. rewrite Hc, Hp.
  pose proof (law_accounts Hl). pose proof (law_create Hl). go_keeps.
Qed.

Lemma addElements_quiet p item a path st :
  pg_Client p = r_Client app_reconciler -> pg_Provision p = r_Provision app_reconciler ->
  keeps quiet (addElements p item a path st).
Proof.
  intros Hc Hp. pose proof (fun i geo prov => GetCopyDestination_quiet p item i geo prov Hc Hp).
  revert st. induction path as [|e path IH]; intros st; cbn [addElements]; [go_keeps|].
  unfold addElement. go_keeps.
Qed.

Lemma addFlows_quiet p reqs a prov spec :
  pg_Client p = r_Client app_reconciler -> pg_Provision p = r_Provision app_reconciler ->
  keeps quiet (addFlows p reqs a prov spec).
Proof.
  intros Hc Hp. pose proof (fun item a path st => addElements_quiet p item a path st Hc Hp).
  revert a prov spec. induction reqs as [|item reqs IH]; intros a prov spec; cbn [addFlows]; [go_keeps|].
  unfold AddFlowInfoForAsset. go_keeps.
Qed.

Lemma List_quiet ns : keeps quiet (List_ (ModulesClient (r_Client app_reconciler)) ns).
Proof.
  intros w a w' E. destruct (law_modules Hl ns w) as (ms & w1 & E1 & Hq & _). rewrite E1 in E. by injection E as <- <-.
Qed.

Lemma buildSolution_quiet a reqs : keeps quiet (buildSolution app_reconciler a reqs).
Proof.
  unfold buildSolution, GetAllModules, getStorageAccountRegions. pose proof (law_accounts Hl). pose proof (law_clusters Hl).
  pose proof List_quiet.
  pose proof (fun ms cs rs => addFlows_quiet (plotterGenerator app_reconciler a ms cs rs) reqs a ∅ (initialPlotterSpec a) eq_refl eq_refl).
  go_keeps.
Qed.

Lemma updateProvisionedStorageStatus_quiet a prov : keeps quiet (updateProvisionedStorageStatus app_reconciler a prov).
Proof.
  pose proof (law_delete Hl). pose proof (law_status Hl). unfold updateProvisionedStorageStatus.
  assert (forall entries storage, keeps quiet (cleanStorage app_reconciler prov entries storage)).
  { intros entries. induction entries as [|[id d] entries IH]; intros storage; cbn [cleanStorage]; go_keeps. }
  assert (forall entries, keeps quiet (storageReady app_reconciler entries)).
  { intros entries. induction entries as [|[id d] entries IH]; cbn [storageReady]; go_keeps. }
  go_keeps.
Qed.
(** ** What a plotter promises *)

(** The applications that have been stored at some time. *)
Context (seen : FybrikApplication -> Prop).

(** The labels name the application. *)
Definition owned_by (a : FybrikApplication) (labels : gomap string) : Prop :=
  mget labels ApplicationNameLabel = Some (app_Name a) /\ mget labels ApplicationNamespaceLabel = Some (app_Namespace a).

(** The plotter serves the application that runs on a cluster [wc], with what is registered:
    each flow is for one of its datasets and enforces what the catalog, the policy manager
    and the administrator's policies decide for this application on [wc] about the dataset. *)
Record serves_owner (a : FybrikApplication) (wc : Cluster) (p : PlotterGenerator W) (spec : PlotterSpec) : Prop := {
  owner_wf : plotter_wf spec;
  owner_selector : plotter_Selector spec = appspec_Selector (app_Spec a);
  owner_flows : forall flow, flow ∈ plotter_Flows spec -> exists item,
    Context item ∈ appspec_Data (app_Spec a) /\
    constructDataInfo app_reconciler (Context item) a wc = inl item /\ enforces p item flow;
  owner_runs : forall i sf, last_use (subflows spec) i sf -> runs p (plotter_Templates spec) sf
}.

Definition plan_ok (q : plan) : Prop :=
  exists a wc modules regions clusters v v' u, seen a /\ owned_by a q.2 /\
    GetWorkloadCluster app_reconciler a v = Done (inl wc, v') /\
    surveys app_reconciler u modules regions clusters /\
    serves_owner a wc (plotterGenerator app_reconciler a modules clusters regions) q.1.

Lemma plan_ok_wf q : plan_ok q -> plotter_wf q.1.
Proof. intros (a & wc & ms & rs & cs & v & v' & u & _ & _ & _ & _ & []). done. Qed.

(** The blueprint of a cluster comes from such a plotter. *)
Definition blueprint_ok (cluster : string) (spec : BlueprintSpec) : Prop :=
  exists plotter w w' bps, plan_ok (plan_of plotter) /\
    getBlueprintsMap (plr_ClusterManager plotter_reconciler) plotter w = Done (bps, w') /\ bps !! cluster = Some spec.

(** Two versions of an application that ask for the same: metadata differ in the finalizers
    only, and nothing is said about the status. *)
Record same_request (a a' : FybrikApplication) : Prop := {
  req_spec : app_Spec a' = app_Spec a;
  req_meta : app_Meta a' = (app_Meta a) <| meta_Finalizers := meta_Finalizers (app_Meta a') |>
}.

#[export] Instance same_request_preorder : PreOrder same_request.
Proof.
  split; [intros a; split; [done|]; by destruct a as [[] ? ?]|].
  intros [[] ? ?] [[] ? ?] [[] ? ?] [E1 M1] [E2 M2]. simpl in *. split; simpl; congruence.
Qed.

Lemma same_object_request a a' : same_object a a' -> same_request a a'.
Proof. intros [Em Es]. split; [done|]. rewrite Em. by destruct a as [[] ? ?]. Qed.

Lemma same_request_key a a' : same_request a a' ->
  app_Name a' = app_Name a /\ app_Namespace a' = app_Namespace a /\ ObjectKey a' = ObjectKey a.
Proof.
  intros [_ Em]. assert (app_Name a' = app_Name a /\ app_Namespace a' = app_Namespace a) as [E1 E2].
  { unfold app_Name, app_Namespace. rewrite Em. by destruct a as [[] ? ?]. }
  split_and!; [done..|]. unfold ObjectKey. simpl. unfold app_Name, app_Namespace in *. by rewrite E1, E2.
Qed.

(** What is decided does not depend on the finalizers. *)
Lemma constructDataInfo_request context a a' wc :
  same_request a a' -> constructDataInfo app_reconciler context a' wc = constructDataInfo app_reconciler context a wc.
Proof.
  intros Hr. transitivity (constructDataInfo app_reconciler context
    (mkFybrikApplication (app_Meta a') (app_Spec a') (app_Status a)) wc).
  - apply constructDataInfo_same. by split.
  - destruct Hr as [Es Em]. rewrite Es, Em. by destruct a as [[] ? ?].
Qed.

Lemma GetWorkloadCluster_request a a' : same_request a a' ->
  GetWorkloadCluster app_reconciler a' = GetWorkloadCluster app_reconciler a.
Proof. intros [Es _]. unfold GetWorkloadCluster. by rewrite Es. Qed.

Lemma plotterGenerator_request a a' modules clusters regions : same_request a a' ->
  plotterGenerator app_reconciler a' modules clusters regions = plotterGenerator app_reconciler a modules clusters regions.
Proof. intros (_ & _ & E)%same_request_key. unfold plotterGenerator. by rewrite E. Qed.

(** ** The pass of the application controller over the plotter *)
Definition nothing : string -> BlueprintSpec -> Prop := fun _ _ => False.

(** The plan that is written for an owner. *)
Definition plan_for (a : FybrikApplication) (spec : PlotterSpec) (q : plan) : Prop := q.1 = spec /\ owned_by a q.2.

Lemma owner_labels_win (id : NamespacedName) (labels : gmap string string) :
  (ownerLabels id ∪ labels) !! ApplicationNameLabel = Some (nn_Name id) /\
  (ownerLabels id ∪ labels) !! ApplicationNamespaceLabel = Some (nn_Namespace id).
Proof. split; apply lookup_union_Some_l; unfold ownerLabels; by simplify_map_eq. Qed.

Lemma mutatePlotter_plan a spec labels uuid q :
  plan_for a spec (plan_of (PlotterInterface.mutatePlotter (ownerRef a) spec labels uuid q)).
Proof.
  destruct (owner_labels_win (mkNamespacedName (app_Name a) (app_Namespace a)) (gm labels)) as [Hn1 Hn2].
  unfold PlotterInterface.mutatePlotter. destruct q as [[? ? ? ? ? ? ? [anns|] ?] ? ?]; by repeat split.
Qed.

Lemma CreateOrUpdate_writes a ref spec labels uuid :
  keeps (writes (plan_for a spec) nothing)
    (CreateOrUpdateResource (r_ResourceInterface app_reconciler) (ownerRef a) ref spec labels uuid).
Proof.
  rewrite (law_interface Hl). cbn [CreateOrUpdateResource PlotterInterface.interface].
  unfold PlotterInterface.CreateOrUpdateResource.
  assert (forall k, keeps (writes (plan_for a spec) nothing) (Get (plr_Client plotter_reconciler) k)).
  { intros k w x w' E. destruct (law_plot_Get Hl k w) as (res & w1 & E1 & Hq & _). rewrite E1 in E. injection E as <- <-.
    by apply quiet_writes. }
  assert (forall p, keeps (writes (plan_for a spec) nothing)
    (CreateOrUpdate (plr_Client plotter_reconciler) p (PlotterInterface.mutatePlotter (ownerRef a) spec labels uuid))).
  { intros p. apply calls_keeps, (law_plot_CreateOrUpdate Hl). intros q. apply mutatePlotter_plan. }
  go_keeps.
Qed.

Lemma populateEndpoints_meta endpoints ids a a' : populateEndpoints endpoints ids a = Done a' -> app_Meta a' = app_Meta a.
Proof.
  revert a. induction ids as [|id ids IH]; intros a E; cbn [populateEndpoints] in E; [by injection E as ->|].
  destruct (mset _ _ _) as [states|]; [|discriminate E]. apply IH in E as ->. by destruct a as [? ? []].
Qed.

Lemma generateResource_writes uuid a spec :
  keeps (writes (plan_for a spec) nothing) (generateResource app_reconciler uuid a spec).
Proof.
  intros w x w' E. unfold generateResource in E. apply M_bind_inv in E as (a1 & w1 & [Ea ->]%lift_inv & E).
  assert (app_Meta a1 = app_Meta a) as Em.
  { unfold setReadModulesEndpoints in Ea. destruct (readEndpoints _ _); [|discriminate Ea]. by eapply populateEndpoints_meta. }
  assert (plan_for a1 spec = plan_for a spec) as <- by (unfold plan_for, owned_by, app_Name, app_Namespace; by rewrite Em).
  cbv zeta in E. apply M_bind_inv in E as (err & w2 & E1 & E). apply CreateOrUpdate_writes in E1.
  assert (w2 = w') as <-; [|done]. destruct err as [err|]; [destruct (_ =? _)|]; by m_step E.
Qed.

Lemma updateProvisionedStorageStatus_meta a prov w ready err a' w' :
  updateProvisionedStorageStatus app_reconciler a prov w = Done ((ready, err, a'), w') -> app_Meta a' = app_Meta a.
Proof. unfold updateProvisionedStorageStatus. intros E. m_step E. m_step E. m_step E. m_step E. by destruct a as [? ? []]. Qed.

(** A plotter built from the requirements of the application. *)
Lemma serves_owner_of asked a1 a2 a3 wc p reqs spec :
  same_request asked a1 -> same_object a1 a2 -> same_object a2 a3 ->
  (forall item, item ∈ reqs <-> Context item ∈ appspec_Data (app_Spec a1) /\
    constructDataInfo app_reconciler (Context item) a1 wc = inl item) ->
  serves p reqs a3 spec -> serves_owner asked wc p spec.
Proof.
  intros Hreq [_ E2] [_ E3] Hreqs [Hwf _ Honly Hsel Hruns]. split; [done| | |done].
  - by rewrite Hsel, E3, E2, (req_spec _ _ Hreq).
  - intros flow (item & Hitem & Henf)%Honly. apply Hreqs in Hitem as [Hin Hdec]. exists item.
    rewrite <- (req_spec _ _ Hreq), <- (constructDataInfo_request _ asked a1) by done. done.
Qed.

(** Every step of [reconcile] before the plotter is generated only reads; the plotter that
    is generated enforces the decisions. *)
Lemma reconcile_writes uuid asked a w x w' :
  seen asked -> same_request asked a ->
  Forall (fun id => id <> "") (assetIDs a) -> AppController.reconcile app_reconciler uuid a w = Done (x, w') ->
  writes plan_ok nothing w w'.
Proof.
  intros Hseen Hreq Hne E. unfold AppController.reconcile in E.
  destruct (reconcile_start a) as (a0 & E0 & Ho & Hwf & _).
  rewrite (M_bind_run _ _ _ a0 w) in E by (by rewrite E0). cbv zeta in E. set (a1 := ensureStorageMap a0) in *.
  destruct (Nat.eqb _ 0); [by m_step E|].
  assert (same_request asked a1) as Hreq1 by (etrans; [exact Hreq|by apply same_object_request]).
  apply M_bind_inv in E as (wc & w1 & E1 & E). pose proof E1 as Hq1. apply GetWorkloadCluster_quiet in Hq1.
  destruct wc as [wc|err]; [|m_step E; by apply quiet_writes].
  destruct (collectRequirements_spec app_reconciler wc (appspec_Data (app_Spec a1)) a1 Hwf)
    as (reqs & a2 & E2 & Hp2 & Hreqs & _).
  { apply list.Forall_forall. intros d Hd. by apply list_elem_of_fmap_2. }
  rewrite (M_bind_run _ _ _ (reqs, a2) w1) in E by (by rewrite E2).
  destruct (Nat.eqb (length reqs) 0); [m_step E; by apply quiet_writes|].
  destruct (buildSolution_spec app_reconciler a2 reqs w1 laws_services (pr_wf _ _ Hp2))
    as (sol & a3 & w2 & E3 & Hp3 & Hserves).
  { apply list.Forall_forall. intros item [Hin _]%Hreqs.
    assert (same_object a a2) as Ho2 by (etrans; [exact Ho|apply Hp2]).
    rewrite (same_object_ids a a2) by done. rewrite list.Forall_forall in Hne.
    assert (DataSetID (Context item) ∈ assetIDs a) as Hid.
    { rewrite <- (same_object_ids a a1) by done. by apply list_elem_of_fmap_2. }
    split; [done|by apply Hne]. }
  rewrite (M_bind_run _ _ _ _ _ E3) in E. cbn [fst snd] in E. apply buildSolution_quiet in E3.
  assert (quiet w w2) as Hq by (by etrans).
  destruct sol as [[prov spec]|err]; [|m_step E; by apply quiet_writes].
  apply M_bind_inv in E as (msgs & w3 & [_ ->]%lift_inv & E).
  destruct (msgs <>? ""); [m_step E; by apply quiet_writes|].
  apply M_bind_inv in E as ([[ready aerr] a4] & w4 & E4 & E).
  pose proof (updateProvisionedStorageStatus_meta _ _ _ _ _ _ _ E4) as Hm4. apply updateProvisionedStorageStatus_quiet in E4.
  assert (quiet w w4) as Hq4 by (by etrans).
  destruct ready; cbn [negb] in E; [|m_step E; by apply quiet_writes].
  apply generateResource_writes in E. etrans; [by apply quiet_writes|].
  eapply writes_mono; [|done|exact E]. intros q [Hq1' Hown].
  destruct (Hserves _ _ eq_refl) as (ms & rs & cs & Hsurvey & Hs).
  assert (same_request asked a2) as Hreq2 by (etrans; [exact Hreq1|apply same_object_request, Hp2]).
  exists asked, wc, ms, rs, cs, w, w1, w1. split; [done|]. split.
  { unfold owned_by in *. destruct (same_request_key _ _ Hreq2) as (<- & <- & _). destruct (pr_object _ _ Hp3) as [Em3 _].
    unfold app_Name, app_Namespace in *. rewrite <- Em3, <- Hm4. exact Hown. }
  split; [by rewrite <- (GetWorkloadCluster_request asked a1)|]. split; [done|].
  rewrite (plotterGenerator_request asked a2) in Hs by done. rewrite Hq1'.
  eapply (serves_owner_of asked a1 a2 a3); [done|apply Hp2|apply Hp3|done|done].
Qed.
(** ** The invariant *)

Definition generation (a : FybrikApplication) : Z := meta_Generation (app_Meta a).
Definition observed (a : FybrikApplication) : Z := appstatus_ObservedGeneration (app_Status a).

(** A stored application: its assets have identifiers, and when the controller has seen the
    present specification its status has the conditions of every asset, or none. *)
Record app_ok (a : FybrikApplication) : Prop := {
  ok_ids : Forall (fun id => id <> "") (assetIDs a);
  ok_observed : (observed a <= generation a)%Z;
  ok_states : observed a = generation a -> assetStates a = None \/ app_wf a
}.

(** What [app_ok] depends on. *)
Record same_core (a a' : FybrikApplication) : Prop := {
  core_spec : app_Spec a' = app_Spec a;
  core_generation : generation a' = generation a;
  core_observed : observed a' = observed a;
  core_states : assetStates a' = assetStates a
}.

Lemma app_ok_core a a' : same_core a a' -> app_ok a -> app_ok a'.
Proof.
  intros [Es Eg Eo Ea] [Hi Hle Hst]. assert (assetIDs a' = assetIDs a) as Hids by (unfold assetIDs; by rewrite Es).
  split; [by rewrite Hids|by rewrite Eo, Eg|]. rewrite Eo, Eg, Ea. intros Heq.
  destruct (Hst Heq) as [?|(m & Hm)]; [by left|right]. exists m. rewrite Ea, Hids. done.
Qed.

Lemma app_ok_wf a a' : app_ok a -> same_object a a' -> app_wf a' -> (observed a' <= generation a)%Z -> app_ok a'.
Proof.
  intros [Hi _ _] Ho Hwf Hle. split; [by rewrite (same_object_ids a a')| |auto].
  destruct Ho as [Em _]. unfold generation in *. by rewrite Em.
Qed.

Record invariant (w : W) : Prop := {
  inv_apps : forall k a, apps w k = Some a -> app_ok a;
  inv_plots : forall k q, plots w k = Some q -> plan_ok (plan_of q);
  inv_deployed : forall c k s, deployed w c k = Some s -> blueprint_ok c s
}.

(** What a pass of a controller may do. *)
Record advances (w w' : W) : Prop := {
  advances_apps : forall k a, apps w' k = Some a -> apps w k = Some a \/ app_ok a;
  advances_plots : forall k q, plots w' k = Some q ->
    (exists q', plots w k = Some q' /\ plan_of q' = plan_of q) \/ plan_ok (plan_of q);
  advances_deployed : forall c k s, deployed w' c k = Some s -> deployed w c k = Some s \/ blueprint_ok c s
}.

#[export] Instance advances_preorder : PreOrder advances.
Proof.
  split; [split; eauto|]. intros x y z [A1 P1 D1] [A2 P2 D2]. split.
  - intros k a [Ha|?]%A2; [|by right]. by apply A1.
  - intros k q [(q' & Hq & E)|?]%P2; [|by right]. destruct (P1 k q' Hq) as [(q2 & Hq2 & E2)|?].
    + left. exists q2. split; [done|congruence].
    + right. congruence.
  - intros c k s [Hs|?]%D2; [|by right]. by apply D1.
Qed.

Lemma invariant_advances w w' : invariant w -> advances w w' -> invariant w'.
Proof.
  intros [A B C] [A' B' C']. split.
  - intros k a [Ha|?]%A'; [by eapply A|done].
  - intros k q [(q' & Hq & <-)|?]%B'; [by eapply B|done].
  - intros c k s [Hs|?]%C'; [by eapply C|done].
Qed.

Lemma writes_advances w w' : writes plan_ok blueprint_ok w w' -> advances w w'.
Proof. intros [A B C]. split; [intros k a; rewrite A; auto|done|done]. Qed.
Lemma quiet_advances w w' : quiet w w' -> advances w w'.
Proof. intros Hq. by apply writes_advances, quiet_writes. Qed.

(** ** Writing the status of an application *)
Lemma UpdateStatus_advances a a0 w :
  apps w (ObjectKey a) = Some a0 -> same_object a0 a -> app_ok a ->
  reaches (UpdateStatus (Applications (r_Client app_reconciler)) a) w (fun u w' => advances w w' /\ u.1 = a).
Proof.
  intros Ha Ho Hok. destruct (law_app_StatusUpdate Hl a a0 w Ha Ho) as (res & w' & E & Hres & Hk & Hp & Hd).
  assert (advances w w') as Hadv.
  { split; [|intros k q; rewrite Hp; eauto|intros c k s; rewrite Hd; auto].
    intros k x [?|[_ ->]]%Hk; [by left|by right]. }
  unfold UpdateStatus. apply reaches_bind. exists res, w'. split; [exact E|].
  destruct res as [a'|err]; [subst; by apply reaches_ret|]. rewrite Hres. by apply reaches_ret.
Qed.

Lemma ObjectKey_same a a' : same_object a a' -> ObjectKey a' = ObjectKey a.
Proof. intros [E _]. unfold ObjectKey. simpl. by rewrite E. Qed.

Lemma finishReconcile_advances a a0 w :
  apps w (ObjectKey a) = Some a0 -> same_object a0 a -> app_ok a -> app_wf a ->
  reaches (finishReconcile app_reconciler a) w (fun _ w' => advances w w').
Proof.
  intros Ha Ho Hok Hwf. destruct (isReady_correct a Hwf) as (b & Eb & _).
  destruct (markReady_same b a) as (Hm1 & Hm2 & Hm3 & _ & Hm5). fold (markReady b a) in *.
  assert (app_ok (markReady b a)) as Hok'.
  { eapply app_ok_wf; [exact Hok|done|auto|]. destruct Hm2 as (_ & _ & Eo). unfold observed. rewrite Eo. apply Hok. }
  unfold finishReconcile. apply reaches_bind. exists b, w. split; [by rewrite Eb|]. fold (markReady b a).
  apply reaches_then with (P := fun u w' => advances w w' /\ u.1 = markReady b a).
  - destruct (negb (isDeleted _)); [|by apply reaches_ret].
    eapply UpdateStatus_advances; [by rewrite (ObjectKey_same a)|by etrans|done].
  - intros [a' [err|]] w1 [Hadv Heq]; cbn [fst snd] in *; [by apply reaches_ret|]. subst a'.
    destruct (getErrorMessages_returns (markReady b a) (Hm3 Hwf)) as (msg & Em).
    apply reaches_bind. exists msg, w1. split; [by rewrite Em|].
    apply reaches_bind. exists b, w1. split; [by rewrite Hm5, Eb|]. destruct (negb b); by apply reaches_ret.
Qed.
(** ** Finalizers *)

(** The application is being deleted, or it is the stored one, satisfies the invariant and
    asks for the same as the one the pass began with. *)
Definition current (asked a : FybrikApplication) (w : W) : Prop :=
  isDeleted (app_Meta a) = true \/ apps w (ObjectKey a) = Some a /\ app_ok a /\ same_request asked a.

Lemma UpdateFinalizers_advances a a0 w :
  apps w (ObjectKey a) = Some a0 -> same_core a0 a -> same_request a0 a -> app_ok a0 ->
  reaches (UpdateFinalizers (Applications (r_Client app_reconciler)) a) w
    (fun u w' => advances w w' /\ (u.2 = None -> current a0 u.1 w')).
Proof.
  intros Ha Hcore Hreq Hok.
  destruct (law_app_Update Hl a a0 w Ha) as (res & w' & a' & E & Em & Es & Est & Hk & Hp & Hd & Hres).
  assert (app_ok a') as Hok'.
  { destruct Hcore as [Cs Cg Co Ca]. apply (app_ok_core a0); [|done]. unfold generation, observed, assetStates in *.
    split; [by rewrite Es|unfold generation; by rewrite Em|unfold observed|unfold assetStates];
      by destruct Est as [-> | ->]. }
  assert (advances w w') as Hadv.
  { split; [|intros k q; rewrite Hp; eauto|intros c k s; rewrite Hd; auto].
    intros k x [?|[_ ->]]%Hk; [by left|by right]. }
  unfold UpdateFinalizers. apply reaches_bind. exists res, w'. split; [exact E|].
  destruct res as [b|err]; [|rewrite Hres; by apply reaches_ret].
  destruct Hres as [-> Hst]. apply reaches_ret. split; [done|]. intros _. simpl. unfold current.
  assert (ObjectKey a' = ObjectKey a) as -> by (unfold ObjectKey; simpl; by rewrite Em).
  rewrite Em. assert (same_request a0 a'); [|destruct Hst; auto].
  etrans; [exact Hreq|]. by apply same_object_request.
Qed.

Lemma deleteDatasets_quiet entries : calls quiet (deleteDatasets app_reconciler entries).
Proof.
  induction entries as [|[id d] entries IH]; cbn [deleteDatasets]; [apply calls_ret; typeclasses eauto|].
  apply calls_bind; [typeclasses eauto|apply (law_delete Hl)|]. intros err.
  apply calls_bind; [typeclasses eauto|exact IH|]. intros rs. apply calls_ret. typeclasses eauto.
Qed.

Lemma deleteExternalResources_core a w :
  reaches (deleteExternalResources app_reconciler a) w (fun ea w' =>
    writes (fun _ => False) nothing w w' /\ app_Meta ea.2 = app_Meta a /\ same_core a ea.2).
Proof.
  unfold deleteExternalResources. destruct (deleteDatasets_quiet (range (gm (appstatus_ProvisionedStorage (app_Status a)))) w)
    as (rs & w1 & E1 & Hq). apply reaches_bind. exists rs, w1. split; [exact E1|]. cbv zeta.
  set (a1 := setProvisioned _ a).
  assert (app_Meta a1 = app_Meta a /\ same_core a a1) as [Hm Hc] by (destruct a as [? ? []]; done).
  assert (writes (fun _ => False) nothing w w1) as Hw by (by apply quiet_writes).
  destruct (negb _); [by apply reaches_ret|].
  destruct (appstatus_Generated (app_Status a1)) as [ref|]; [|by apply reaches_ret].
  rewrite (law_interface Hl). cbn [DeleteResource PlotterInterface.interface]. unfold PlotterInterface.DeleteResource.
  destruct (law_plot_Delete Hl (PlotterInterface.GetResourceSignature ref) w1) as (err & w2 & E2 & Hw2).
  apply reaches_bind. exists err, w2. split; [exact E2|].
  assert (writes (fun _ => False) nothing w w2) as Hw' by (by etrans).
  destruct err; apply reaches_ret; (split; [done|]); [done|]. split; [by destruct a1 as [? ? []]|].
  destruct Hc. destruct a1 as [? ? []]. done.
Qed.

Lemma setFinalizers_core fs a : same_core a (setFinalizers fs a) /\ same_request a (setFinalizers fs a) /\
  ObjectKey (setFinalizers fs a) = ObjectKey a.
Proof. by destruct a as [[] ? []]. Qed.

Lemma same_core_trans a b c : same_core a b -> same_core b c -> same_core a c.
Proof. intros [] []. split; congruence. Qed.

Lemma app_finalizers_advance a w :
  apps w (ObjectKey a) = Some a -> app_ok a ->
  reaches (AppController.reconcileFinalizers app_reconciler a) w
    (fun ea w' => advances w w' /\ (ea.1 = None -> current a ea.2 w')).
Proof.
  intros Ha Hok. unfold AppController.reconcileFinalizers.
  assert (current a a w) as Hcur by (by right). destruct (_ || _).
  - destruct (ContainsFinalizer _ _); [|by apply reaches_ret].
    eapply reaches_then; [apply deleteExternalResources_core|]. intros [[err|] a1] w1 (Hw & Hm & Hc); cbn [fst snd] in *.
    { apply reaches_ret. split; [|done]. apply writes_advances. by eapply writes_mono; [..|exact Hw]. }
    assert (advances w w1) as Hadv. { apply writes_advances. by eapply writes_mono; [..|exact Hw]. }
    destruct (setFinalizers_core (RemoveFinalizer (meta_Finalizers (app_Meta a1)) (finalizerName app_reconciler)) a1) as (Hc2 & Hr2 & Hk2).
    eapply reaches_then; [apply (UpdateFinalizers_advances _ a)|].
    + rewrite Hk2. replace (ObjectKey a1) with (ObjectKey a) by (unfold ObjectKey; simpl; by rewrite Hm).
      by rewrite (writes_apps _ _ _ _ Hw).
    + by eapply same_core_trans.
    + etrans; [|exact Hr2]. apply same_object_request. split; [done|apply Hc].
    + done.
    + intros [a2 err] w2 [Hadv2 Hc2']. apply reaches_ret. split; [by etrans|done].
  - destruct (ContainsFinalizer _ _); cbn [negb]; [by apply reaches_ret|].
    destruct (setFinalizers_core (AddFinalizer (meta_Finalizers (app_Meta a)) (finalizerName app_reconciler)) a) as (Hc & Hr & Hk).
    eapply reaches_then; [apply (UpdateFinalizers_advances _ a); [by rewrite Hk|done..]|].
    intros [a2 err] w2 [Hadv2 Hcur2]. by apply reaches_ret.
Qed.

(** ** Validation *)
Lemma validateApplication_advances a w :
  apps w (ObjectKey a) = Some a -> app_ok a ->
  reaches (validateApplication app_reconciler a) w (fun v w' => advances w w' /\
    (v.1 = None -> w' = w /\ same_object a v.2 /\ same_core a v.2)).
Proof.
  intros Ha Hok. unfold validateApplication. destruct (_ && _); [|by apply reaches_ret]. cbv zeta.
  destruct (ValidateFybrikApplication _ _) as [err|]; [|apply reaches_ret; split; [done|]; by destruct a as [? ? []]].
  eapply reaches_then; [apply (UpdateStatus_advances _ a)|].
  - by destruct a as [? ? []].
  - by destruct a as [? ? []].
  - apply (app_ok_core a); [|done]. by destruct a as [? ? []].
  - intros u w' [Hadv _]. by apply reaches_ret.
Qed.
(** ** Readiness *)
Lemma setError_progress a id msg : app_wf a -> id ∈ assetIDs a ->
  exists a', setErrorCondition a id msg = Done a' /\ progress a a'.
Proof.
  intros Hwf Hin. edestruct (setCondition_progress a id ErrorConditionIndex) as (a' & E & Hp & _);
    [done|done|unfold ErrorConditionIndex; lia| |by exists a']. done.
Qed.

Lemma reaches_lift {A} (c : outcome A) w (a : A) (P : A -> W -> Prop) : c = Done a -> P a w -> reaches (lift c) w P.
Proof. intros -> HP. by exists a, w. Qed.

Lemma checkAsset_progress status d a w :
  app_wf a -> DataSetID d ∈ assetIDs a ->
  reaches (checkAsset app_reconciler status d a) w (fun a' w' => quiet w w' /\ progress a a').
Proof.
  intros Hwf Hin. unfold checkAsset. destruct (deny_condition a _ Hwf Hin) as (c & Ec & _).
  assert (quiet w w /\ progress a a) as Hsame by (split; [done|by apply progress_refl]).
  assert (Herr : forall msg w', quiet w w' -> reaches (lift (setErrorCondition a (DataSetID d) msg)) w'
    (fun a' w' => quiet w w' /\ progress a a')).
  { intros msg w' Hq. destruct (setError_progress a (DataSetID d) msg Hwf Hin) as (a' & E & Hp). by eapply reaches_lift. }
  apply reaches_bind. exists c, w. split; [by rewrite Ec|].
  destruct (cond_Status c =? ConditionTrue); [by apply reaches_ret|].
  destruct (os_Error status <>? ""); [by apply Herr|]. destruct (negb (os_Ready status)); [by apply reaches_ret|].
  destruct (_ <>? ""); cycle 1.
  { destruct (setCondition_progress a (DataSetID d) ReadyConditionIndex
      (fun c => c <| cond_Status := ConditionTrue |>) Hwf Hin) as (a' & Ea & Hp & _); [unfold ReadyConditionIndex; lia|done|].
    eapply reaches_lift; [exact Ea|done]. }
  destruct (_ <>? ""); [by apply reaches_ret|].
  destruct (mget _ _) as [bucket|]; [|by apply Herr].
  destruct (law_persistent Hl (getBucketResourceRef (dataset_DatasetRef bucket)) true w) as (err & w1 & E & Hq).
  apply reaches_bind. exists err, w1. split; [exact E|]. destruct err as [err|]; by apply Herr.
Qed.

Lemma checkAssets_progress status data a w :
  app_wf a -> Forall (fun d => DataSetID d ∈ assetIDs a) data ->
  reaches (checkAssets app_reconciler status data a) w (fun a' w' => quiet w w' /\ progress a a').
Proof.
  intros Hwf Hd. revert a w Hwf Hd. induction data as [|d data IH]; intros a w Hwf Hd; cbn [checkAssets].
  { apply reaches_ret. split; [done|by apply progress_refl]. }
  apply Forall_cons_1 in Hd as [Hin Hd].
  eapply reaches_then; [by apply checkAsset_progress|]. intros a1 w1 [Hq Hp].
  eapply reaches_mono; [apply IH; [apply Hp|by rewrite (same_object_ids a a1) by apply Hp]|].
  intros a2 w2 [Hq2 Hp2]. split; [by etrans|by eapply progress_trans].
Qed.

Lemma initStatus_validity a a1 : initStatus a = Done a1 -> same_validity a a1.
Proof.
  unfold initStatus. destruct (resetAssetStates _ _); simpl; [|done]. intros [= <-]. by destruct a as [? ? []].
Qed.

Lemma checkReadiness_runs status a w :
  assetStates a = None \/ app_wf a ->
  reaches (checkReadiness app_reconciler a status) w
    (fun a' w' => quiet w w' /\ same_object a a' /\ same_validity a a' /\ app_wf a').
Proof.
  intros Hst. unfold checkReadiness.
  assert (exists a1, match assetStates a with None => initStatus a | Some _ => mret a end = Done a1 /\
    same_object a a1 /\ same_validity a a1 /\ app_wf a1) as (a1 & E1 & Ho & Hv & Hwf).
  { destruct (initStatus_spec a) as (a1 & E & Hwf & _ & Em & Es & _).
    destruct Hst as [->|Hwf']; [exists a1; split; [done|]; split; [done|]; split; [by apply initStatus_validity|done]|].
    pose proof Hwf' as (m & -> & _). by exists a. }
  apply reaches_bind. exists a1, w. split; [by rewrite E1|].
  eapply reaches_mono; [apply checkAssets_progress; [done|]|].
  - apply list.Forall_forall. intros d Hd. by apply list_elem_of_fmap_2.
  - intros a2 w2 [Hq [Ho2 _ Hv2 Hwf2 _ _ _]]. split; [done|]. split; [by etrans|]. split; [by etrans|done].
Qed.

(** ** The pass of the application controller *)
Lemma generationComplete_quiet a : calls quiet (generationComplete app_reconciler a).
Proof.
  intros w. unfold generationComplete. rewrite (law_interface Hl). cbn [ResourceExists PlotterInterface.interface].
  destruct (appstatus_Generated (app_Status a)) as [ref|]; cbn [PlotterInterface.ResourceExists]; [|by eexists _, w].
  destruct (ref_Namespace ref =? ""); [by eexists _, w|].
  destruct (law_plot_Get Hl (PlotterInterface.refKey ref) w) as (res & w1 & E & Hq & _).
  rewrite (M_bind_run _ _ _ _ _ (M_bind_run _ _ _ _ _ E)). by eexists _, w1.
Qed.

Lemma GetResourceStatus_quiet ref : calls quiet (GetResourceStatus (r_ResourceInterface app_reconciler) ref).
Proof.
  intros w. rewrite (law_interface Hl). cbn [GetResourceStatus PlotterInterface.interface].
  destruct ref as [ref|]; cbn [PlotterInterface.GetResourceStatus]; [|by eexists _, w].
  destruct (ref_Namespace ref =? ""); [by eexists _, w|].
  destruct (law_plot_Get Hl (PlotterInterface.refKey ref) w) as (res & w1 & E & Hq & _).
  rewrite (M_bind_run _ _ _ _ _ E). by eexists _, w1.
Qed.

(** The part of the pass on an application that is not being deleted and is valid. *)
Lemma app_process_advances uuid asked a w :
  seen asked -> same_request asked a -> apps w (ObjectKey a) = Some a -> app_ok a -> forall a1, same_object a a1 -> same_core a a1 ->
  reaches (complete ← generationComplete app_reconciler a;
    if negb complete || negb (Z.eqb (observed a) (generation a)) then
      res ← AppController.reconcile app_reconciler uuid a1;
      let '(result, err, a) := res in
      match err with
      | Some err => _ ← UpdateStatus (Applications (r_Client app_reconciler)) a; mret (result, Some err)
      | None => finishReconcile app_reconciler (observe (generation a1) a)
      end
    else
      st ← GetResourceStatus (r_ResourceInterface app_reconciler) (appstatus_Generated (app_Status a1));
      match st with
      | inr err => mret (noResult, Some err)
      | inl resourceStatus => a ← checkReadiness app_reconciler a1 resourceStatus; finishReconcile app_reconciler a
      end) w (fun _ w' => advances w w').
Proof.
  intros Hseen Hreq Ha Hok a1 Ho Hc. pose proof (app_ok_core _ _ Hc Hok) as Hok1.
  destruct (generationComplete_quiet a w) as (complete & w1 & E1 & Hq1).
  apply reaches_bind. exists complete, w1. split; [exact E1|].
  destruct (negb complete || negb (Z.eqb (observed a) (generation a))) eqn:Eb.
  - destruct (reconcile_runs app_reconciler uuid a1 w1 laws_services (ok_ids _ Hok1))
      as (result & err & a2 & w2 & E2 & Ho2 & Hwf2 & _ & _ & Hobs).
    assert (same_request asked a1) as Hreq1 by (etrans; [exact Hreq|by apply same_object_request]).
    pose proof (reconcile_writes uuid asked a1 w1 _ w2 Hseen Hreq1 (ok_ids _ Hok1) E2) as Hw.
    assert (advances w w2) as Hadv.
    { etrans; [by apply quiet_advances|]. apply writes_advances. by eapply writes_mono; [..|exact Hw]. }
    assert (same_object a a2) as Ho' by (by etrans).
    assert (apps w2 (ObjectKey a2) = Some a) as Ha2.
    { by rewrite (writes_apps _ _ _ _ Hw), (quiet_apps _ _ Hq1), (ObjectKey_same a). }
    apply reaches_bind. exists (result, err, a2), w2. split; [exact E2|]. destruct err as [err|].
    + eapply reaches_then; [apply (UpdateStatus_advances a2 a); [done|done|]|].
      * eapply app_ok_wf; [exact Hok1|done|done|]. unfold observed. rewrite Hobs. apply Hok1.
      * intros u w3 [Hadv3 _]. apply reaches_ret. by etrans.
    + destruct (observe_same (generation a1) a2) as (Ho3 & _ & _ & Hwf3 & Hn & _).
      eapply reaches_mono; [apply (finishReconcile_advances _ a)|].
      * by rewrite (ObjectKey_same a2).
      * by etrans.
      * eapply app_ok_wf; [exact Hok1|by etrans|auto|]. unfold observed. by rewrite Hn.
      * auto.
      * intros u w3 Hadv3. by etrans.
  - apply orb_false_elim in Eb as [_ Eg]. apply negb_false_iff, Z.eqb_eq in Eg.
    destruct (GetResourceStatus_quiet (appstatus_Generated (app_Status a1)) w1) as (st & w2 & E2 & Hq2).
    assert (quiet w w2) as Hq by (by etrans). apply reaches_bind. exists st, w2. split; [exact E2|].
    destruct st as [st|err]; [|apply reaches_ret; by apply quiet_advances].
    eapply reaches_then; [apply checkReadiness_runs|].
    { apply (ok_states _ Hok1). destruct Hc as [_ -> -> _]. done. }
    intros a2 w3 (Hq3 & Ho2 & (_ & _ & Hobs) & Hwf2). assert (quiet w w3) as Hq' by (by etrans).
    assert (same_object a a2) as Ho' by (by etrans).
    eapply reaches_mono; [apply (finishReconcile_advances _ a)|].
    + by rewrite (ObjectKey_same a), (quiet_apps _ _ Hq').
    + done.
    + eapply app_ok_wf; [exact Hok1|done|done|]. unfold observed. rewrite Hobs. apply Hok1.
    + done.
    + intros u w4 Hadv. etrans; [by apply quiet_advances|done].
Qed.

Lemma application_pass_advances key w :
  (forall k a, apps w k = Some a -> seen a) -> invariant w -> reaches (AppController.Reconcile app_reconciler key) w (fun _ w' => advances w w').
Proof.
  intros Hseen Hinv. unfold AppController.Reconcile.
  destruct (law_app_Get Hl key w) as (res & w1 & E1 & Hq1 & Hget). apply reaches_bind. exists res, w1. split; [exact E1|].
  destruct res as [a|err]; [|apply reaches_ret; by apply quiet_advances].
  destruct (Hget a eq_refl) as [Ha Hkey]. pose proof (inv_apps _ Hinv _ _ Ha) as Hok.
  assert (apps w1 (ObjectKey a) = Some a) as Ha1 by (by rewrite Hkey, (quiet_apps _ _ Hq1)).
  eapply reaches_then; [by apply app_finalizers_advance|]. intros [err a1] w2 [Hadv2 Hcur]. cbn [fst snd] in *.
  assert (advances w w2) as Hadv by (etrans; [by apply quiet_advances|done]).
  destruct err as [err|]; [by apply reaches_ret|]. destruct (isDeleted (app_Meta a1)) eqn:Edel; [by apply reaches_ret|].
  destruct (Hcur eq_refl) as [?|(Ha2 & Hok2 & Hreq)]; [congruence|].
  eapply reaches_then; [by apply validateApplication_advances|]. intros [done_ a2] w3 [Hadv3 Hval]. cbn [fst snd] in *.
  assert (advances w w3) as Hadv' by (by etrans).
  destruct done_ as [done_|]; [by apply reaches_ret|]. destruct (Hval eq_refl) as (-> & Ho & Hc).
  destruct (appstatus_ValidApplication (app_Status a2) =? ConditionFalse); [by apply reaches_ret|].
  eapply reaches_mono; [|intros u w4 Hadv4; etrans; [exact Hadv|exact Hadv4]].
  pose proof (app_process_advances (GetFybrikApplicationUUID a) a a1 w2 (Hseen _ _ Ha) Hreq Ha2 Hok2 a2 Ho Hc) as Hproc.
  destruct Hc as [_ Eg _ _]. rewrite Eg in Hproc. exact Hproc.
Qed.
(** ** The pass of the plotter controller *)
Definition unplanned : plan -> Prop := fun _ => False.

Lemma quiet_calls {A} P D (c : M W A) : calls quiet c -> calls (writes P D) c.
Proof. apply calls_mono. intros w w'. apply quiet_writes. Qed.

Lemma handleBlueprint_writes p cluster spec st :
  calls (writes unplanned (fun c s => c = cluster /\ s = spec)) (handleBlueprint plotter_reconciler p cluster spec st).
Proof.
  set (R := writes _ _). assert (PreOrder R) as HR by apply writes_preorder.
  unfold handleBlueprint. destruct (ps_Blueprints st !! cluster) as [mb|].
  - apply calls_bind; [done|apply quiet_calls, (law_cm_Get Hl)|]. intros [[remote|]|err]; [|by apply calls_ret|].
    + destruct (negb (bool_decide _)); [|by apply calls_ret]. destruct (negb (Z.eqb _ _)); [|by apply calls_ret].
      apply calls_bind; [done| |intros []; by apply calls_ret].
      eapply calls_mono; [|apply (law_cm_Update Hl)]. intros w w'. apply writes_mono; [done|]. by destruct remote.
    + apply calls_bind; [done|apply quiet_calls, (law_Now Hl)|]. intros now.
      apply calls_bind; [done|apply quiet_calls, (law_Backoff Hl)|]. intros b. by apply calls_ret.
  - apply calls_bind; [done| |intros []; by apply calls_ret].
    eapply calls_mono; [|apply (law_cm_Create Hl)]. intros w w'. by apply writes_mono.
Qed.

Lemma handleBlueprints_writes p l st :
  calls (writes unplanned (fun c s => (c, s) ∈ l)) (handleBlueprints plotter_reconciler p l st).
Proof.
  assert (Hgen : forall all, l ⊆ all -> forall st,
    calls (writes unplanned (fun c s => (c, s) ∈ all)) (handleBlueprints plotter_reconciler p l st)); [|by apply Hgen].
  intros all. induction l as [|[c s] l IH]; intros Hsub st'; cbn [handleBlueprints]; [apply calls_ret, writes_preorder|].
  apply calls_bind; [apply writes_preorder| |].
  - eapply calls_mono; [|apply handleBlueprint_writes]. intros w w'. apply writes_mono; [done|].
    intros c' s' [-> ->]. apply Hsub. by left.
  - intros [early|st2]; [apply calls_ret, writes_preorder|]. apply IH. intros x Hx. apply Hsub. by right.
Qed.

Lemma tidyUp_writes bps l st : calls (writes unplanned nothing) (tidyUp plotter_reconciler bps l st).
Proof.
  revert st. induction l as [|[c mb] l IH]; intros st; cbn [tidyUp]; [apply calls_ret, writes_preorder|].
  destruct (bps !! c); [apply IH|]. apply calls_bind; [apply writes_preorder|apply (law_cm_Delete Hl)|].
  intros [err|]; [destruct (negb _)|]; apply IH.
Qed.

Lemma finishPlotter_quiet p st w :
  reaches (finishPlotter plotter_reconciler p st) w (fun res w' => quiet w w' /\ plan_of res.2 = plan_of p).
Proof.
  assert (forall t, plan_of (setReadyTimestamp t (completeState p st)) = plan_of p) as Hspec.
  { intros t. by destruct p as [? ? []]. }
  unfold finishPlotter. destruct (ps_Ready st : bool).
  - assert (calls quiet (match plstatus_ReadyTimestamp (pl_Status (completeState p st)) with
                 | Some t => mret t | None => plr_Now plotter_reconciler end)) as Hc.
    { destruct (plstatus_ReadyTimestamp _); [apply calls_ret, quiet_preorder|apply (law_Now Hl)]. }
    destruct (Hc w) as (t & w1 & E1 & Hq1). apply reaches_bind. exists t, w1. split; [exact E1|].
    destruct (ps_Errors st) as [|e errs]; [by apply reaches_ret|].
    destruct (law_Backoff Hl t w1) as (b & w2 & E2 & Hq2). apply reaches_bind. exists b, w2. split; [exact E2|].
    apply reaches_ret. split; [by etrans|done].
  - apply reaches_ret. split; [done|]. cbn [snd]. destruct (_ && _); [|done].
    rewrite <- (Hspec None). by destruct (setReadyTimestamp None (completeState p st)).
Qed.

Lemma plotter_reconcile_writes p w :
  plan_ok (plan_of p) ->
  reaches (PlotterController.reconcile plotter_reconciler p) w
    (fun res w' => writes unplanned blueprint_ok w w' /\ plan_of res.2 = plan_of p).
Proof.
  intros Hok. destruct (law_cm_clusters Hl w) as (cs & w1 & E1 & Hq1).
  destruct (getBlueprintsMap_runs _ p w cs w1 (plan_ok_wf _ Hok) E1) as (bps & Ebps).
  unfold PlotterController.reconcile. apply reaches_bind. exists bps, w1. split; [exact Ebps|].
  destruct (handleBlueprints_writes p (range bps)
    (mkPlotterState (gm (plstatus_Blueprints (pl_Status p))) "" ∅ true []) w1) as (res & w2 & E2 & Hw2).
  assert (writes unplanned blueprint_ok w w2) as Hw.
  { etrans; [by apply quiet_writes|]. eapply writes_mono; [done| |exact Hw2].
    intros c s Hin%range_elem. by exists p, w, w1, bps. }
  apply reaches_bind. exists res, w2. split; [exact E2|]. destruct res as [[[result errs] st]|st].
  - apply reaches_ret. split; [done|]. by destruct p as [? ? []].
  - destruct (tidyUp_writes bps (range (ps_Blueprints st)) st w2) as (st' & w3 & E3 & Hw3).
    apply reaches_bind. exists st', w3. split; [exact E3|].
    eapply reaches_mono; [apply finishPlotter_quiet|]. intros res' w4 [Hq4 Hspec]. split; [|done].
    etrans; [exact Hw|]. etrans; [|by apply quiet_writes]. by eapply writes_mono; [..|exact Hw3].
Qed.

Lemma deleteBlueprints_writes l : calls (writes unplanned nothing) (deleteBlueprints plotter_reconciler l).
Proof.
  induction l as [|[c mb] l IH]; cbn [deleteBlueprints]; [apply calls_ret, writes_preorder|].
  apply calls_bind; [apply writes_preorder|apply (law_cm_Delete Hl)|]. intros []; [apply calls_ret, writes_preorder|apply IH].
Qed.

(** Writing a plotter whose plan satisfies the invariant. *)
Lemma plotter_UpdateFinalizers p w :
  plan_ok (plan_of p) ->
  reaches (UpdateFinalizers (plr_Client plotter_reconciler) p) w
    (fun u w' => advances w w' /\ plan_of u.1 = plan_of p).
Proof.
  intros Hok. destruct (law_plot_Update Hl p w) as (res & w' & E & Hw & Hres).
  assert (advances w w') as Hadv.
  { apply writes_advances. eapply writes_mono; [..|exact Hw]; [by intros s ->|done]. }
  unfold UpdateFinalizers. apply reaches_bind. exists res, w'. split; [exact E|].
  destruct res as [p'|err]; [by apply reaches_ret|]. rewrite Hres. by apply reaches_ret.
Qed.

Lemma plotter_UpdateStatus p w :
  plan_ok (plan_of p) ->
  reaches (UpdateStatus (plr_Client plotter_reconciler) p) w (fun _ w' => advances w w').
Proof.
  intros Hok. destruct (law_plot_StatusUpdate Hl p w) as (res & w' & E & Hw & Hres).
  assert (advances w w') as Hadv.
  { apply writes_advances. eapply writes_mono; [..|exact Hw]; [by intros s ->|done]. }
  unfold UpdateStatus. apply reaches_bind. exists res, w'. split; [exact E|].
  destruct res as [p'|err]; [by apply reaches_ret|]. rewrite Hres. by apply reaches_ret.
Qed.

Lemma plotter_finalizers_advance p w :
  plan_ok (plan_of p) ->
  reaches (PlotterController.reconcileFinalizers plotter_reconciler p) w
    (fun ep w' => advances w w' /\ plan_of ep.2 = plan_of p).
Proof.
  intros Hok. assert (forall fs, plan_of (setPlotterFinalizers fs p) = plan_of p) as Hfs by (by destruct p as [[] ? ?]).
  unfold PlotterController.reconcileFinalizers. destruct (plotterDeleted p).
  - destruct (ContainsFinalizer _ _); [|by apply reaches_ret].
    destruct (deleteBlueprints_writes (range (gm (plstatus_Blueprints (pl_Status p)))) w) as (err & w1 & E1 & Hw1).
    assert (advances w w1) as Hadv by (apply writes_advances; by eapply writes_mono; [..|exact Hw1]).
    apply reaches_bind. exists err, w1. split; [exact E1|]. destruct err as [err|]; [by apply reaches_ret|].
    eapply reaches_then; [apply plotter_UpdateFinalizers; by rewrite Hfs|].
    intros u w2 [Hadv2 Hs]. apply reaches_ret. split; [by etrans|]. simpl. by rewrite Hs.
  - destruct (negb _); [|by apply reaches_ret].
    eapply reaches_then; [apply plotter_UpdateFinalizers; by rewrite Hfs|].
    intros u w2 [Hadv2 Hs]. apply reaches_ret. split; [done|]. simpl. by rewrite Hs.
Qed.

Lemma plotter_pass_advances key w :
  invariant w -> reaches (PlotterController.Reconcile plotter_reconciler key) w (fun _ w' => advances w w').
Proof.
  intros Hinv. unfold PlotterController.Reconcile.
  destruct (law_plot_Get Hl key w) as (res & w1 & E1 & Hq1 & Hget). apply reaches_bind. exists res, w1. split; [exact E1|].
  destruct res as [p|err]; [|apply reaches_ret; by apply quiet_advances].
  pose proof (inv_plots _ Hinv _ _ (Hget p eq_refl)) as Hok.
  eapply reaches_then; [by apply plotter_finalizers_advance|]. intros [err p1] w2 [Hadv2 Hs]. cbn [fst snd] in *.
  assert (advances w w2) as Hadv by (etrans; [by apply quiet_advances|done]).
  destruct err as [err|]; [by apply reaches_ret|]. destruct (plotterDeleted p1); [by apply reaches_ret|].
  eapply reaches_then; [apply plotter_reconcile_writes; by rewrite Hs|]. intros [[result errs] p2] w3 [Hw Hs2]. cbn [snd] in Hs2.
  assert (advances w w3) as Hadv3. { etrans; [exact Hadv|]. apply writes_advances. by eapply writes_mono; [..|exact Hw]. }
  eapply reaches_then; [apply plotter_UpdateStatus; by rewrite Hs2, Hs|]. intros u w4 Hadv4.
  assert (advances w w4) by (by etrans). destruct u.2; [by apply reaches_ret|]. destruct errs; by apply reaches_ret.
Qed.
(** ** All that happens *)

(** A user creates an application, which has no status yet. *)
Definition created (a : FybrikApplication) : Prop :=
  Forall (fun id => id <> "") (assetIDs a) /\ assetStates a = None /\ (observed a <= generation a)%Z.

(** A user, or the server, changes an application: its status stays, and a change of its
    specification gives it a new generation. *)
Definition edited (a0 a : FybrikApplication) : Prop :=
  app_Status a = app_Status a0 /\
  (app_Spec a = app_Spec a0 /\ generation a = generation a0 \/
   (generation a0 < generation a)%Z /\ Forall (fun id => id <> "") (assetIDs a)).

(** Others create, change and delete applications; they may change plotters but for their
    specifications and labels, and remove plotters and blueprints. *)
Record others (w w' : W) : Prop := {
  others_apps : forall k a, apps w' k = Some a ->
    apps w k = Some a \/ created a \/ exists a0, apps w k = Some a0 /\ edited a0 a;
  others_plots : forall k q, plots w' k = Some q -> exists q', plots w k = Some q' /\ plan_of q' = plan_of q;
  others_deployed : forall c k s, deployed w' c k = Some s -> deployed w c k = Some s
}.

Inductive step (w w' : W) : Prop :=
| application_step key res : AppController.Reconcile app_reconciler key w = Done (res, w') -> step w w'
| plotter_step key res : PlotterController.Reconcile plotter_reconciler key w = Done (res, w') -> step w w'
| other_step : others w w' -> step w w'.

Lemma reaches_Done {A} (c : M W A) w (P : A -> W -> Prop) a w' : reaches c w P -> c w = Done (a, w') -> P a w'.
Proof. intros (b & v & E & HP) E'. rewrite E in E'. by injection E' as <- <-. Qed.

Lemma edited_ok a0 a : app_ok a0 -> edited a0 a -> app_ok a.
Proof.
  intros Hok [Es [[Esp Eg]|[Hlt Hids]]].
  - apply (app_ok_core a0); [|done]. split; [done|done|unfold observed; by rewrite Es|unfold assetStates; by rewrite Es].
  - destruct Hok as [_ Hle _]. assert (observed a = observed a0) as Eo by (unfold observed; by rewrite Es).
    split; [done|lia|lia].
Qed.

Lemma step_invariant w w' :
  (forall k a, apps w k = Some a -> seen a) -> invariant w -> step w w' -> invariant w'.
Proof.
  intros Hseen Hinv [key res E|key res E|[Ha Hp Hd]].
  - eapply invariant_advances; [exact Hinv|]. by eapply (reaches_Done _ _ (fun _ => advances w)), E; apply application_pass_advances.
  - eapply invariant_advances; [exact Hinv|]. by eapply (reaches_Done _ _ (fun _ => advances w)), E; apply plotter_pass_advances.
  - destruct Hinv as [HA HP HD]. split.
    + intros k a [Hk|[(Hids & Hst & Hle)|(a0 & Hk & Hed)]]%Ha; [by eapply HA|by split; auto|].
      eapply edited_ok; [by eapply HA|done].
    + intros k q (q' & Hk & <-)%Hp. by eapply HP.
    + intros c k s Hk%Hd. by eapply HD.
Qed.

(** Nothing is stored. *)
Record empty_cluster (w : W) : Prop := {
  empty_apps : forall k, apps w k = None;
  empty_plots : forall k, plots w k = None;
  empty_deployed : forall c k, deployed w c k = None
}.

End ControlPlane.

Section Reachable.
Context `{MapRange, K8sMeta, Runtime, Schema, TemplateEngine, Encoder, Semantic} {W : Type} `{!NestedStringLaws}.
Context (r : Reconciler W) (pr : PlotterReconciler W) (apps : W -> NamespacedName -> option FybrikApplication)
  (plots : W -> NamespacedName -> option Plotter) (deployed : W -> string -> NamespacedName -> option BlueprintSpec).

(** The application was stored in some state of the run. *)
Definition stored_since (w0 : W) (a : FybrikApplication) : Prop :=
  exists v k, rtc (step r pr apps plots deployed) w0 v /\ apps v k = Some a.

Lemma reachable_invariant w0 w :
  laws r pr apps plots deployed -> empty_cluster apps plots deployed w0 -> rtc (step r pr apps plots deployed) w0 w ->
  invariant r pr apps plots deployed (stored_since w0) w.
Proof.
  intros Hl [Ha Hp Hd]. revert w. apply rtc_ind_r.
  - split; [intros k a; by rewrite Ha|intros k q; by rewrite Hp|intros c k s; by rewrite Hd].
  - intros w1 w2 Hs1 Hstep IH. eapply step_invariant; [exact Hl| |exact IH|exact Hstep]. intros k a Hk. by exists w1, k.
Qed.

(** C1: the control plane is safe in every state it can reach from an empty cluster, by any
    sequence of passes of the two controllers over any objects and of changes by users: both
    controllers return on every key, without a panic; every stored plotter carries the labels
    of an application that has been stored in some state of the run and serves it: it is
    well formed, has the workload selector of the application, and each of its flows is for a
    dataset of the application and enforces all that the catalog, the policy manager and the
    administrator decided about this dataset for this very application on its workload
    cluster, in steps planned for registered modules on registered and permitted clusters, and
    the last step with a template runs a registered module that supports its actions; and
    every blueprint that is deployed on a cluster is the one such a plotter has for it.
    Conditions: calls to the services return, possibly with errors, and only the writes of the
    controllers change applications, plotters and blueprints; the listed modules have
    well-formed APIs; a pass of a controller is one step, in which no write meets a conflicting
    writer; users give each dataset a non-empty identifier, create applications without a
    status, raise the generation when they change a specification, and do not create plotters
    or change their specifications and labels.  Modules, regions and clusters are those listed
    at some time, and the decisions those of the fixed catalog, policy manager and policies. *)
Theorem control_plane_safe w0 w :
  laws r pr apps plots deployed -> empty_cluster apps plots deployed w0 -> rtc (step r pr apps plots deployed) w0 w ->
  (forall key, returns (AppController.Reconcile r key w) /\ returns (PlotterController.Reconcile pr key w)) /\
  (forall k q, plots w k = Some q -> exists a wc modules regions clusters v v' u,
     stored_since w0 a /\ owned_by a (meta_Labels (pl_Meta q)) /\ GetWorkloadCluster r a v = Done (inl wc, v') /\
     surveys r u modules regions clusters /\
     serves_owner r a wc (plotterGenerator r a modules clusters regions) (pl_Spec q)) /\
  (forall c k s, deployed w c k = Some s -> blueprint_ok r pr (stored_since w0) c s).
Proof.
  intros Hl He Hs. pose proof (reachable_invariant w0 w Hl He Hs) as Hinv.
  split; [|by split; [apply Hinv|apply Hinv]]. intros key. split.
  - destruct (application_pass_advances r pr apps plots deployed Hl (stored_since w0) key w) as (x & w1 & -> & _);
      [|done|by eexists]. intros k a Hk. by exists w, k.
  - destruct (plotter_pass_advances r pr apps plots deployed Hl (stored_since w0) key w Hinv) as (y & w2 & -> & _). by eexists.
Qed.
End Reachable.
