(* ===== verification/ControlPlaneExamples.v ===== *)
(** * A run of the control plane

    A cluster without failures that satisfies the laws of [ControlPlane]: an application is
    created, the application controller writes its plotter, and the plotter controller
    deploys its blueprint. *)
From stdpp Require Import base gmap strings list numbers relations.
From S2P Require Import Prelude GoStrings Types External Utils Policy AdminConfig World MultiCluster Storage SelectModules PlotterGen Conditions ResourceGen AppController AppFacts AppExamples AppLiveness PlotterController PlotterFacts ControlPlane.

Module ControlPlaneExample.
Import SelectExamples PlotterExamples AppExamples.

Record world := mkWorld {
  w_apps : gmap NamespacedName FybrikApplication;
  w_plots : gmap NamespacedName Plotter;
  (** the blueprint on each cluster *)
  w_blueprints : gmap string Blueprint
}.

(** The objects that are stored under their own keys. *)
Definition stored {T} (key : T -> NamespacedName) (m : gmap NamespacedName T) (k : NamespacedName) : option T :=
  match m !! k with Some o => if decide (key o = k) then Some o else None | None => None end.

Definition found {T} (o : option T) : T + error := match o with Some o => inl o | None => inr ConcreteStore.notFound end.

Definition objects {T} (key : T -> NamespacedName) (get : world -> gmap NamespacedName T)
    (put : gmap NamespacedName T -> world -> world) : ObjectClient world T := {|
  Get k w := Done (found (stored key (get w) k), w);
  List_ ns w := Done (inl [], w);
  Create o w := Done (inl o, put (<[key o := o]> (get w)) w);
  Update o w := match stored key (get w) (key o) with
                | Some _ => Done (inl o, put (<[key o := o]> (get w)) w)
                | None => Done (inr ConcreteStore.notFound, w)
                end;
  StatusUpdate o w := match stored key (get w) (key o) with
                      | Some _ => Done (inl o, put (<[key o := o]> (get w)) w)
                      | None => Done (inr ConcreteStore.notFound, w)
                      end;
  Delete o w := Done (None, put (delete (key o) (get w)) w);
  CreateOrUpdate o f w := Done (None, put (<[key o := f (default o (stored key (get w) (key o)))]> (get w)) w);
  RetryOnConflict f o := f o |}.

Definition appClient : ObjectClient world FybrikApplication :=
  objects ObjectKey w_apps (fun m w => mkWorld m (w_plots w) (w_blueprints w)).
Definition plotClient : ObjectClient world Plotter :=
  objects ObjectKey w_plots (fun m w => mkWorld (w_apps w) m (w_blueprints w)).
Definition moduleClient : ObjectClient world FybrikModule :=
  let c := ConcreteStore.absent in {|
    Get := Get c; List_ _ w := Done (inl [theModule], w); Create := Create c; Update := Update c;
    StatusUpdate := StatusUpdate c; Delete := Delete c; CreateOrUpdate := CreateOrUpdate c; RetryOnConflict f o := f o |}.

Definition client : Client world := {|
  Applications := appClient; Plotters := plotClient; Blueprints := ConcreteStore.absent; ModulesClient := moduleClient;
  ListStorageAccounts _ w := Done (inl [account], w);
  GetSecret _ w := Done (inr ConcreteStore.notFound, w);
  GetConfigMap _ w := Done (inl {[ "ClusterName" := "thegreendragon"; "Region" := "theshire" ]}, w) |}.

Definition controller : Reconciler world :=
  mkReconciler client "FybrikApplication" allow (fun _ _ => inl asset)
    (@PlotterInterface.interface (Concrete.env []) Concrete.semantic _ plotClient) (fun w => Done (inl [cluster], w))
    (mkProvision (fun _ _ _ w => Done (None, w)) (fun _ w => Done (None, w))
       (fun _ w => Done (inl (mkProvisionedStorageStatus true ""), w)) (fun _ _ w => Done (None, w)))
    (evaluator true).

Definition blueprintKey (b : Blueprint) : NamespacedName := ObjectKey b.
Definition putBlueprint (c : string) (b : Blueprint) (w : world) : world :=
  mkWorld (w_apps w) (w_plots w) (<[c := b]> (w_blueprints w)).
Definition clusters : ClusterManager world := {|
  GetClusters w := Done (inl [cluster], w);
  GetBlueprint c ns name w := Done (inl (w_blueprints w !! c), w);
  CreateBlueprint c b w := Done (None, putBlueprint c b w);
  UpdateBlueprint c b w := Done (None, putBlueprint c b w);
  DeleteBlueprint c _ _ w := Done (None, mkWorld (w_apps w) (w_plots w) (delete c (w_blueprints w))) |}.
Definition deployer : PlotterReconciler world :=
  mkPlotterReconciler plotClient "Plotter" clusters (fun w => Done (7%Z, w)) (fun _ w => Done (1%Z, w)).

Definition apps (w : world) : NamespacedName -> option FybrikApplication := stored ObjectKey (w_apps w).
Definition plots (w : world) : NamespacedName -> option Plotter := stored ObjectKey (w_plots w).
Definition deployed (w : world) (c : string) (k : NamespacedName) : option BlueprintSpec :=
  match w_blueprints w !! c with
  | Some b => if decide (blueprintKey b = k) then Some (bp_Spec b) else None
  | None => None
  end.

Lemma stored_key {T} (key : T -> NamespacedName) m k o : stored key m k = Some o -> m !! k = Some o /\ key o = k.
Proof. unfold stored. destruct (m !! k); [|done]. case_decide; naive_solver. Qed.

Lemma stored_insert {T} (key : T -> NamespacedName) m k o o' :
  stored key (<[key o := o']> m) k = Some o' \/ stored key (<[key o := o']> m) k = None \/
  stored key (<[key o := o']> m) k = stored key m k.
Proof.
  unfold stored. destruct (decide (k = key o)) as [->|Hne].
  - rewrite lookup_insert_eq. case_decide; auto.
  - rewrite lookup_insert_ne by done. auto.
Qed.

Lemma stored_put {T} (key : T -> NamespacedName) m o : stored key (<[key o := o]> m) (key o) = Some o.
Proof. unfold stored. by rewrite lookup_insert_eq, decide_True. Qed.

Lemma stored_delete {T} (key : T -> NamespacedName) m k k' o : stored key (delete k' m) k = Some o -> stored key m k = Some o.
Proof.
  unfold stored. destruct (decide (k = k')) as [->|Hne]; [by rewrite lookup_delete_eq|]. by rewrite lookup_delete_ne.
Qed.

Lemma same_quiet {A} (f : world -> A) : calls (quiet apps plots deployed) (fun w => Done (f w, w)).
Proof. intros w. by exists (f w), w. Qed.

(** A plotter that is written. *)
Lemma put_plotter P k p w : P (plan_of p) ->
  writes apps plots deployed P (fun _ _ => False) w (mkWorld (w_apps w) (<[k := p]> (w_plots w)) (w_blueprints w)).
Proof.
  intros HP. split; [done| |auto]. intros k' q. unfold plots, stored. simpl.
  destruct (decide (k' = k)) as [->|Hne].
  - rewrite lookup_insert_eq. case_decide; [|done]. intros [= <-]. by right.
  - rewrite lookup_insert_ne by done. intros Hq. left. by exists q.
Qed.

Lemma write_plotter :
  stores_plotter (H0 := Concrete.k8s) apps plots deployed (Update plotClient) /\
  stores_plotter (H0 := Concrete.k8s) apps plots deployed (StatusUpdate plotClient).
Proof.
  split; intros p w; simpl; destruct (stored _ _ _); eexists _, _; (split; [reflexivity|]);
    (split; [first [exact (put_plotter (fun s => s = plan_of p) _ p w eq_refl)|apply writes_preorder]|reflexivity]).
Qed.

Lemma put_blueprint c b w :
  writes apps plots deployed (fun _ => False) (fun c' s => c' = c /\ s = bp_Spec b) w (putBlueprint c b w).
Proof.
  split; [done|eauto|]. intros c' k s. unfold deployed. simpl. destruct (decide (c' = c)) as [->|Hne].
  - rewrite lookup_insert_eq. case_decide; [|done]. intros [= <-]. by right.
  - rewrite lookup_insert_ne by done. by left.
Qed.

Lemma example_laws :
  @laws Concrete.k8s (Concrete.env []) Concrete.semantic world controller deployer apps plots deployed.
Proof.
  split; try (intros; apply same_quiet).
  - intros ns w. eexists _, w. split; [reflexivity|]. split; [reflexivity|]. intros l [= <-]. apply Forall_singleton, theModule_wf.
  - intros k w. eexists _, w. split; [reflexivity|]. split; [reflexivity|]. intros a E.
    unfold apps. destruct (stored ObjectKey (w_apps w) k) as [a'|] eqn:Es; [|discriminate E].
    injection E as <-. split; [done|]. by destruct (stored_key _ _ _ _ Es).
  - intros a a0 w Ha. simpl. fold (apps w (ObjectKey a)). rewrite Ha. eexists _, _, a. split; [reflexivity|].
    split; [done|]. split; [done|]. split; [by left|]. split; [|split; [done|]; split; [done|]; split; [done|]; left; apply stored_put].
    intros k x Hx. unfold apps in *. simpl in Hx.
    destruct (decide (k = ObjectKey a)) as [->|Hne]; [rewrite stored_put in Hx; naive_solver|].
    unfold stored in *. rewrite lookup_insert_ne in Hx by done. by left.
  - intros a a0 w Ha _. simpl. fold (apps w (ObjectKey a)). rewrite Ha. eexists _, _. split; [reflexivity|].
    split; [done|]. split; [|done]. intros k x Hx. unfold apps in *. simpl in Hx.
    destruct (decide (k = ObjectKey a)) as [->|Hne]; [rewrite stored_put in Hx; naive_solver|].
    unfold stored in *. rewrite lookup_insert_ne in Hx by done. by left.
  - reflexivity.
  - intros k w. eexists _, w. split; [reflexivity|]. split; [reflexivity|]. intros p E.
    unfold plots. destruct (stored ObjectKey (w_plots w) k) as [p'|]; [|discriminate E]. by injection E as <-.
  - intros p f P HP w. eexists _, _. split; [reflexivity|]. apply (put_plotter P), HP.
  - intros p w. eexists _, _. split; [reflexivity|]. split; [done| |by left].
    intros k q Hq%stored_delete. left. by exists q.
  - apply write_plotter.
  - apply write_plotter.
  - intros c b w. eexists _, _. split; [reflexivity|]. apply put_blueprint.
  - intros c b w. eexists _, _. split; [reflexivity|]. apply put_blueprint.
  - intros c ns name w. eexists _, _. split; [reflexivity|]. split; [done|eauto|]. intros c' k s. unfold deployed. simpl.
    destruct (decide (c' = c)) as [->|Hne]; [by rewrite lookup_delete_eq|]. rewrite lookup_delete_ne by done. by left.
Qed.

(** ** The run *)
Definition notebook : FybrikApplication := AppLivenessExample.notebook.
Definition empty : world := mkWorld ∅ ∅ ∅.
Definition submitted : world := mkWorld {[ ObjectKey notebook := notebook ]} ∅ ∅.
Definition Reconcile_app := @AppController.Reconcile canonical_range Concrete.k8s (Concrete.env []) Concrete.accept_all
  verbatim noEncoding world controller.
Definition Reconcile_plotter := @PlotterController.Reconcile canonical_range Concrete.k8s world deployer.

(** The world a pass leaves. *)
Definition left_by {A} (c : M world A) (w : world) : world := match c w with Done (_, w') => w' | Panic _ => w end.
Lemma left_run {A} (c : M world A) w :
  match c w with Done _ => True | Panic _ => False end -> exists a, c w = Done (a, left_by c w).
Proof. unfold left_by. destruct (c w) as [[a w']|]; [eauto|done]. Qed.

Definition planned : world := left_by (Reconcile_app (ObjectKey notebook)) submitted.
Definition plotterName : NamespacedName := mkNamespacedName "notebook-fybrik-system" "fybrik-system".
Definition running : world := left_by (Reconcile_plotter plotterName) planned.

Lemma run : rtc (@step canonical_range Concrete.k8s (Concrete.env []) Concrete.accept_all verbatim noEncoding world
  controller deployer apps plots deployed) empty running.
Proof.
  apply rtc_l with submitted.
  { apply other_step. split; [|done..]. intros k a Hk%stored_key. destruct Hk as [Hk _]. simpl in Hk.
    apply lookup_singleton_Some in Hk as [_ <-]. right. left. split; [apply Forall_singleton; discriminate|]. by split. }
  apply rtc_l with planned.
  { destruct (left_run (Reconcile_app (ObjectKey notebook)) submitted) as (res & E); [by vm_compute|].
    by eapply application_step. }
  apply rtc_once. destruct (left_run (Reconcile_plotter plotterName) planned) as (res & E); [by vm_compute|].
  by eapply plotter_step.
Qed.

(** The run ends with a plotter with a flow and a blueprint with two modules. *)
Lemma running_state :
  (exists q, plots running plotterName = Some q /\ length (plotter_Flows (pl_Spec q)) = 1) /\
  exists c k s, deployed running c k = Some s /\ size (bpspec_Modules s) = 2.
Proof.
  split.
  - assert (match plots running plotterName with Some q => length (plotter_Flows (pl_Spec q)) = 1 | None => False end) as Hq
      by (vm_compute; reflexivity).
    destruct (plots running plotterName) as [q|]; [exists q; split; [reflexivity|exact Hq]|destruct Hq].
  - exists "thegreendragon", plotterName.
    assert (match deployed running "thegreendragon" plotterName with Some s => size (bpspec_Modules s) = 2 | None => False end) as Hs
      by (vm_compute; reflexivity).
    destruct (deployed running "thegreendragon" plotterName) as [s|]; [exists s; split; [reflexivity|exact Hs]|destruct Hs].
Qed.

Definition since_empty : FybrikApplication -> Prop :=
  @stored_since canonical_range Concrete.k8s (Concrete.env []) Concrete.accept_all verbatim noEncoding world
    controller deployer apps plots deployed empty.

Lemma control_plane_safe_witness :
  (forall key, returns (Reconcile_app key running) /\ returns (Reconcile_plotter key running)) /\
  (exists q a wc modules regions clusters, plots running plotterName = Some q /\ since_empty a /\
     owned_by a (meta_Labels (pl_Meta q)) /\ length (plotter_Flows (pl_Spec q)) = 1 /\
     @serves_owner Concrete.k8s (Concrete.env []) Concrete.accept_all _ controller a wc
       (plotterGenerator controller a modules clusters regions) (pl_Spec q)) /\
  (exists c k s, deployed running c k = Some s /\ size (bpspec_Modules s) = 2 /\
     @blueprint_ok canonical_range Concrete.k8s (Concrete.env []) Concrete.accept_all _ controller deployer since_empty c s).
Proof.
  destruct (@control_plane_safe canonical_range Concrete.k8s (Concrete.env []) Concrete.accept_all verbatim noEncoding
    Concrete.semantic world Concrete.k8s_nested controller deployer apps plots deployed empty running
    example_laws ltac:(by split) run) as (Hret & Hplots & Hdep).
  split; [exact Hret|]. destruct running_state as [(q & Hq & Hne) (c & k & s & Hs & Hm)]. split.
  - destruct (Hplots _ _ Hq) as (a & wc & ms & rs & cs & v & v' & u & Hseen & Hown & _ & _ & Hserves).
    exists q, a, wc, ms, rs, cs. split; [exact Hq|]. split; [exact Hseen|]. split; [exact Hown|]. split; [exact Hne|exact Hserves].
  - exists c, k, s. split; [exact Hs|]. split; [exact Hm|]. exact (Hdep _ _ _ Hs).
Defined.
End ControlPlaneExample.
