(* ===== verification/ModuleController.v ===== *)
(** * The module controller

    [manager/controllers/app/fybrikmodule_controller.go] and the validating webhook
    [manager/apis/app/v1alpha1/fybrikmodule_webhook.go]: a module is validated against
    the taxonomy once for each of its generations. *)
From stdpp Require Import base gmap strings list numbers.
From S2P Require Import Prelude GoStrings Types External Utils Policy World Storage SelectModules PlotterGen Conditions AppController.

(** The JSON form of a module. *)
Class ModuleEncoder := { encodeModule : FybrikModule -> value }.

Record ModuleReconciler (W : Type) := mkModuleReconciler {
  mr_Client : ObjectClient W FybrikModule;
  mr_Name : string
}.
Arguments mkModuleReconciler {W}.
Arguments mr_Client {W}.
Arguments mr_Name {W}.

Section Controller.
Context `{K8sMeta, Runtime, Schema, ModuleEncoder} {W : Type}.
Implicit Types (r : ModuleReconciler W) (m : FybrikModule).

Definition ModuleTaxonomy : string := "/tmp/taxonomy/fybrik_module.json".

(** [ValidateFybrikModule], also as the method the webhook calls. *)
Definition ValidateFybrikModule m (taxonomyFile : string) : option error :=
  taxonomyError "FybrikModule" (module_Name m) (TaxonomyCheck (encodeModule m) taxonomyFile).

Definition ValidateCreate m : option error := ValidateFybrikModule m "/tmp/taxonomy/fybrik_module.json".
Definition ValidateUpdate m : option error := ValidateCreate m.
Definition ValidateDelete m : option error := None.

Definition moduleConditions m : list Condition := modstatus_Conditions (module_Status m).
Definition setModuleConditions (cs : list Condition) m : FybrikModule :=
  m <| module_Status := mkFybrikModuleStatus cs |>.

(** The condition a module starts from. *)
Definition validationCondition m : Condition :=
  match moduleConditions m with
  | [] => mkCondition ValidCondition ConditionUnknown "" 0
  | c :: _ => c
  end.

(** The validation, skipped when the webhook has done it. *)
Definition validationError m : option error :=
  if Getenv "ENABLE_WEBHOOKS" <>? "true" then ValidateFybrikModule m ModuleTaxonomy else None.

(** The conditions the reconciliation starts from. *)
Definition initConditions m : FybrikModule :=
  setModuleConditions (validationCondition m :: tail (moduleConditions m)) m.

(** Whether the condition is unknown or belongs to another generation. *)
Definition outdated m : bool :=
  negb (Z.eqb (cond_ObservedGeneration (validationCondition m)) (meta_Generation (module_Meta m))) ||
  (cond_Status (validationCondition m) =? ConditionUnknown).

Definition newCondition m : Condition :=
  let version := meta_Generation (module_Meta m) in
  match validationError m with
  | Some err => mkCondition (cond_Type (validationCondition m)) ConditionFalse (Error err) version
  | None => mkCondition (cond_Type (validationCondition m)) ConditionTrue "" version
  end.

(** The status [Reconcile] computes. *)
Definition validateModule m : FybrikModule :=
  let m := initConditions m in
  if outdated m then setModuleConditions (newCondition m :: tail (moduleConditions m)) m else m.

Definition Reconcile r (req : NamespacedName) : M W (Result * option error) :=
  got ← Get (mr_Client r) req;
  match got with
  | inr err => mret (noResult, IgnoreNotFound err)
  | inl m =>
      match meta_DeletionTimestamp (module_Meta m) with
      | Some _ => mret (noResult, None)
      | None =>
          u ← UpdateStatus (mr_Client r) (validateModule m);
          mret (noResult, u.2)
      end
  end.

(** ** The recorded verdict *)

Lemma initConditions_id m : moduleConditions m <> [] -> initConditions m = m.
Proof. by destruct m as [? ? [[|c rest]]]. Qed.

Lemma initConditions_kept m : validationCondition (initConditions m) = validationCondition m /\
  module_Meta (initConditions m) = module_Meta m /\
  moduleConditions (initConditions m) = validationCondition m :: tail (moduleConditions m).
Proof. by destruct m as [? ? []]. Qed.

Lemma initConditions_outdated m : outdated (initConditions m) = outdated m.
Proof. unfold outdated. by destruct (initConditions_kept m) as (-> & -> & _). Qed.

Lemma validateModule_stable m : outdated m = false -> moduleConditions m <> [] -> validateModule m = m.
Proof. intros Ho Hne. unfold validateModule. by rewrite (initConditions_id m Hne), Ho. Qed.

Lemma newCondition_verdict m : cond_ObservedGeneration (newCondition m) = meta_Generation (module_Meta m) /\
  cond_Status (newCondition m) <> ConditionUnknown /\
  (cond_Status (newCondition m) = ConditionTrue <-> validationError m = None).
Proof. unfold newCondition. by destruct (validationError m). Qed.

Lemma outdated_false m c rest : moduleConditions m = c :: rest ->
  cond_ObservedGeneration c = meta_Generation (module_Meta m) -> cond_Status c <> ConditionUnknown -> outdated m = false.
Proof.
  intros Hc Hg Hs. unfold outdated, validationCondition. rewrite Hc, Hg, Z.eqb_refl. simpl. by apply String.eqb_neq.
Qed.

(** After a reconciliation the first condition of a module gives the verdict on its
    current generation, never "Unknown"; it is renewed exactly when the previous one
    was unknown or of another generation, and then it holds if and only if the
    validation finds nothing; reconciling again changes nothing. *)
Theorem validateModule_current m :
  exists c rest, moduleConditions (validateModule m) = c :: rest /\
    cond_ObservedGeneration c = meta_Generation (module_Meta m) /\ cond_Status c <> ConditionUnknown /\
    (if outdated m then cond_Status c = ConditionTrue <-> validationError (initConditions m) = None
     else c = validationCondition m) /\
    validateModule (validateModule m) = validateModule m.
Proof.
  destruct (initConditions_kept m) as (_ & Hm & Hcs).
  assert (exists c rest, moduleConditions (validateModule m) = c :: rest /\
    module_Meta (validateModule m) = module_Meta m /\
    cond_ObservedGeneration c = meta_Generation (module_Meta m) /\ cond_Status c <> ConditionUnknown /\
    (if outdated m then cond_Status c = ConditionTrue <-> validationError (initConditions m) = None
     else c = validationCondition m)) as (c & rest & Hc & Hmeta & Hg & Hs & Hv).
  { unfold validateModule. rewrite initConditions_outdated. destruct (outdated m) eqn:Ho.
    - destruct (newCondition_verdict (initConditions m)) as (Hg & Hs & Hv). rewrite Hm in Hg.
      eexists _, _. split; [reflexivity|]. split; [by rewrite <- Hm|done].
    - eexists _, _. split; [exact Hcs|]. unfold outdated in Ho. apply orb_false_iff in Ho as [Hgen Hst].
      apply negb_false_iff, Z.eqb_eq in Hgen. apply String.eqb_neq in Hst. done. }
  exists c, rest. do 4 (split; [done|]).
  apply validateModule_stable; [|by rewrite Hc]. apply (outdated_false _ c rest); [done|by rewrite Hmeta|done].
Qed.
End Controller.
