(* ===== verification/BlueprintController.v ===== *)
(** * The blueprint controller

    [manager/controllers/app/blueprint_controller.go]: the charts of the modules of a
    blueprint are installed through Helm and the status of their releases is followed;
    [pkg/helm/helm.go]: the interface to Helm and its in-memory implementation;
    [manager/controllers/utils/unstructured.go]: fields of a resource as labels. *)
From stdpp Require Import base gmap strings list numbers.
From Stdlib Require Import Ascii.
From S2P Require Import Prelude GoStrings GoJSON Types External Utils Policy World.

(** ** Third-party code *)

(** [unstructured.Unstructured]: a resource of a release. *)
Record Unstructured := mkUnstructured {
  res_Kind : string;
  res_Content : gmap string value
}.

(** kstatus, the labels package and the nested fields of apimachinery. *)
Class ResourceStatus := {
  Requirement : Type;
  (** [labels.Parse(condition)] and the requirements of the selector *)
  ParseSelector : string -> list Requirement + error;
  (** [req.Matches(labels)] for an implementation of [Has] and [Get] *)
  Matches : Requirement -> (string -> bool) -> (string -> string) -> bool;
  NestedFieldNoCopy : gmap string value -> list string -> option value * bool * option error;
  (** [kstatus.Compute]: the status and its message *)
  kstatus_Compute : Unstructured -> (string * string) + error
}.

Definition FailedStatus : string := "Failed".
Definition CurrentStatus : string := "Current".

(** The registry credentials: [reference.ParseNormalizedNamed] with [Domain], and the
    Docker keyring made from pull secrets. *)
Class Registry := {
  ParseNormalizedDomain : string -> string + error;
  Keyring : Type;
  MakeDockerKeyring : list Secret -> Keyring;
  LookupCredentials : Keyring -> string -> list (string * string) * bool
}.

(** ** pkg/helm *)

(** [release.Release]: its [Info] pointer carries the status. *)
Record Release := mkRelease { rel_Name : string; rel_Info : option string }.
Definition StatusDeployed : string := "deployed".
Definition StatusFailed : string := "failed".

(** [helm.Interface], without [Package], which the controllers do not call. *)
Record Helm (W Chart : Type) := mkHelm {
  Uninstall : string -> string -> M W (option error);
  Install : Chart -> string -> string -> gmap string value -> M W (option Release + error);
  Upgrade : Chart -> string -> string -> gmap string value -> M W (option Release + error);
  Status : string -> string -> M W (option Release + error);
  RegistryLogin : string -> string -> string -> bool -> M W (option error);
  RegistryLogout : string -> M W (option error);
  Pull : string -> string -> M W (option error);
  LoadChart : string -> string -> M W (Chart + error);
  GetResources : string -> string -> M W (list Unstructured + error)
}.
Arguments mkHelm {W Chart}.
Arguments Uninstall {W Chart}.
Arguments Install {W Chart}.
Arguments Upgrade {W Chart}.
Arguments Status {W Chart}.
Arguments RegistryLogin {W Chart}.
Arguments RegistryLogout {W Chart}.
Arguments Pull {W Chart}.
Arguments LoadChart {W Chart}.
Arguments GetResources {W Chart}.

(** [helm.Fake]: one release and a fixed list of resources. *)
Module Fake.
Record state := mkState { fake_release : option Release; fake_resources : list Unstructured }.

Definition deployed (releaseName : string) : M state (option Release + error) := fun s =>
  let rel := Some (mkRelease releaseName (Some StatusDeployed)) in
  Done (inl rel, mkState rel (fake_resources s)).

Definition helm : Helm state unit := {|
  Uninstall _ _ s := Done (None, mkState None (fake_resources s));
  Install _ _ releaseName _ := deployed releaseName;
  Upgrade _ _ releaseName _ := deployed releaseName;
  Status _ _ s := Done (inl (fake_release s), s);
  RegistryLogin _ _ _ _ s := Done (None, s);
  RegistryLogout _ s := Done (None, s);
  Pull _ _ s := Done (None, s);
  LoadChart _ _ s := Done (inl tt, s);
  GetResources _ _ s := Done (inl (fake_resources s), s) |}.

Definition NewEmptyFake : state := mkState (Some (mkRelease "" (Some ""))) [].
Definition NewFake (release : option Release) (resources : list Unstructured) : state :=
  mkState release resources.
End Fake.

(** ** utils/unstructured.go *)
Section Labels.
Context `{K8sMeta, ResourceStatus}.

(** [UnstructuredAsLabels.Has] *)
Definition Has (res : Unstructured) (label : string) : bool :=
  let '(_, exists_, err) := NestedFieldNoCopy (res_Content res) (Split label ".") in
  match err with Some _ => false | None => exists_ end.

(** [UnstructuredAsLabels.Get] *)
Definition GetLabel (res : Unstructured) (label : string) : string :=
  let fields := Split label "." in
  let '(valStr, _, err) := NestedString (res_Content res) fields in
  match err with
  | None => valStr
  | Some _ =>
      let '(val, _, err) := NestedFieldNoCopy (res_Content res) fields in
      match err with
      | Some _ => ""
      | None => json_Marshal (default VNull val)
      end
  end.
End Labels.

(** ** The arguments of a module as a JSON object *)

Definition strings_JSON (m : gmap string string) : value := VMap (VString <$> m).

Definition omitList {A} (k : string) (f : A -> value) (l : list A) (m : gmap string value) : gmap string value :=
  match l with [] => m | _ => <[k := VList (f <$> l)]> m end.
Definition omitMap (k : string) (v : gmap string string) (m : gmap string value) : gmap string value :=
  if decide (v = ∅) then m else <[k := strings_JSON v]> m.

Definition Vault_JSON (v : Vault) : value :=
  VMap {[ "role" := VString (vault_Role v); "secretPath" := VString (vault_SecretPath v);
          "address" := VString (vault_Address v); "authPath" := VString (vault_AuthPath v) ]}.

(** The credentials are a nil map exactly when there are none. *)
Definition DataStore_JSON (d : DataStore) : value :=
  VMap (omitempty "format" (ds_Format d)
    {[ "vault" := if decide (ds_Vault d = ∅) then VNull else VMap (Vault_JSON <$> ds_Vault d);
       "connection" := Connection_MarshalJSON (ds_Connection d) ]}).

Definition CopyModuleArgs_JSON (a : CopyModuleArgs) : value :=
  VMap (omitList "transformations" Action_MarshalJSON (copyArgs_Transformations a)
    {[ "source" := DataStore_JSON (copyArgs_Source a);
       "destination" := DataStore_JSON (copyArgs_Destination a);
       "assetID" := VString (copyArgs_AssetID a) ]}).

Definition ReadModuleArgs_JSON (a : ReadModuleArgs) : value :=
  VMap (omitList "transformations" Action_MarshalJSON (readArgs_Transformations a)
    {[ "source" := DataStore_JSON (readArgs_Source a); "assetID" := VString (readArgs_AssetID a) ]}).

Definition WriteModuleArgs_JSON (a : WriteModuleArgs) : value :=
  VMap (omitList "transformations" Action_MarshalJSON (writeArgs_Transformations a)
    {[ "destination" := DataStore_JSON (writeArgs_Destination a); "assetID" := VString (writeArgs_AssetID a) ]}).

Definition LabelSelector_JSON (s : LabelSelector) : value :=
  VMap (omitMap "matchLabels" (MatchLabels s)
    (omitList "matchExpressions" (fun e : string * string * list string =>
       VMap (omitList "values" VString e.2 {[ "key" := VString e.1.1; "operator" := VString e.1.2 ]}))
       (MatchExpressions s) ∅)).

(** [utils.StructToMap] of the arguments: encoding and decoding do not fail. *)
Definition StructToMap_ModuleArguments (a : ModuleArguments) : gmap string value :=
  omitMap "labels" (gm (args_Labels a))
    (omitList "read" ReadModuleArgs_JSON (args_Read a)
      (omitList "write" WriteModuleArgs_JSON (args_Write a)
        (match args_Copy a with
         | Some c => <["copy" := CopyModuleArgs_JSON c]>
         | None => id
         end {[ "appSelector" := LabelSelector_JSON (args_AppSelector a) ]}))).

(** ** Values of a chart *)

(** [CopyMap]: objects are copied, other values are shared. *)
Fixpoint CopyValue (v : value) : value :=
  match v with
  | VMap m => VMap (CopyValue <$> m)
  | _ => v
  end.
Definition CopyMap (m : gmap string value) : gmap string value := CopyValue <$> m.

(** [SetMapField(obj, k, v)]: the object after the call and the returned value. *)
Fixpoint setComponents (obj : gmap string value) (components : list string) (v : value)
    : gmap string value * bool :=
  match components with
  | [] => (obj, true)
  | [component] => (<[component := v]> obj, true)
  | component :: rest =>
      match obj !! component with
      | None =>
          let '(m, ok) := setComponents ∅ rest v in
          (<[component := VMap m]> obj, ok)
      | Some (VMap m) =>
          let '(m', ok) := setComponents m rest v in
          (<[component := VMap m']> obj, ok)
      | Some _ => (obj, false)
      end
  end.
Definition SetMapField (obj : gmap string value) (k : string) (v : value) : gmap string value * bool :=
  setComponents obj (Split k ".") v.

(** ** The reconciler *)

(** [BlueprintReconciler]; [TempDir] and [RemoveAll] are those of the operating system. *)
Record BlueprintReconciler (W Chart : Type) := mkBlueprintReconciler {
  blr_Client : Client W;
  blr_Name : string;
  blr_Helmer : Helm W Chart;
  blr_TempDir : M W (string + error);
  blr_RemoveAll : string -> M W (option error)
}.
Arguments mkBlueprintReconciler {W Chart}.
Arguments blr_Client {W Chart}.
Arguments blr_Name {W Chart}.
Arguments blr_Helmer {W Chart}.
Arguments blr_TempDir {W Chart}.
Arguments blr_RemoveAll {W Chart}.

(** [errors.WithMessage]: nil for a nil error. *)
Definition WithMessage (err : option error) (msg : string) : option error := wrapError msg <$> err.

Section Controller.
Context `{MapRange, K8sMeta, Runtime, Semantic, ResourceStatus, Registry} {W Chart : Type}.
Implicit Types (r : BlueprintReconciler W Chart).

Definition blueprintUUID (b : Blueprint) : string :=
  GetFybrikApplicationUUIDfromAnnotations (meta_Annotations (bp_Meta b)).

(** *** Installation of a chart *)

Definition getDomainFromImageName (image : string) : string + error :=
  match ParseNormalizedDomain image with
  | inr err => inr (wrapError ("couldn't parse image name: " +:+ image) err)
  | inl domain => inl domain
  end.

(** The first credentials the registry accepts. *)
Fixpoint tryLogin r (repoToPull : string) (creds : list (string * string)) : M W string :=
  match creds with
  | [] => mret ""
  | cred :: rest =>
      err ← RegistryLogin (blr_Helmer r) repoToPull cred.1 cred.2 false;
      match err with
      | None => mret repoToPull
      | Some _ => tryLogin r repoToPull rest
      end
  end.

(** The login of [applyChartResource]: the registry logged in to, or "". *)
Definition registryLogin r (chartSpec : ChartSpec) : M W (string + error) :=
  if chart_ChartPullSecret chartSpec <>? "" then
    got ← GetSecret (blr_Client r) (mkNamespacedName (chart_ChartPullSecret chartSpec) GetSystemNamespace);
    match got with
    | inr err => mret (inr (wrapError ("could not find ChartPullSecret: " +:+ chart_ChartPullSecret chartSpec) err))
    | inl pullSecret =>
        if secret_Type pullSecret =? "kubernetes.io/dockerconfigjson" then
          match getDomainFromImageName (chart_Name chartSpec) with
          | inr err => mret (inr (wrapError (chart_Name chartSpec +:+ ": failed to parse image name") err))
          | inl repoToPull =>
              let '(creds, withCredentials) := LookupCredentials (MakeDockerKeyring [pullSecret]) (chart_Name chartSpec) in
              if (withCredentials : bool) then
                registry ← tryLogin r repoToPull creds;
                mret (inl registry)
              else mret (inl "")
          end
        else mret (inl "")
    end
  else mret (inl "").

(** [Upgrade] of an existing release, [Install] of a new one; the status of the
    resulting release is logged, which dereferences its pointers. *)
Definition deployChart r (chartSpec : ChartSpec) (chart : Chart) (kubeNamespace releaseName : string)
    (args : gmap string value) : M W (option error) :=
  st ← Status (blr_Helmer r) kubeNamespace releaseName;
  res ← (match st with
         | inl (Some _) =>
             res ← Upgrade (blr_Helmer r) chart kubeNamespace releaseName args;
             mret (match res with
                   | inl rel => inl rel
                   | inr err => inr (wrapError (chart_Name chartSpec +:+ ": failed upgrade") err)
                   end)
         | _ =>
             res ← Install (blr_Helmer r) chart kubeNamespace releaseName args;
             mret (match res with
                   | inl rel => inl rel
                   | inr err => inr (wrapError (chart_Name chartSpec +:+ ": failed install") err)
                   end)
         end);
  match res with
  | inr err => mret (Some err)
  | inl (Some (mkRelease _ (Some _))) => mret None
  | inl _ => panic "invalid memory address or nil pointer dereference"
  end.

(** What is done with the temporary directory, before it is removed. *)
Definition pullAndDeploy r (chartSpec : ChartSpec) (registry tmpDir kubeNamespace releaseName : string)
    (args : gmap string value) : M W (option error) :=
  err ← Pull (blr_Helmer r) (chart_Name chartSpec) tmpDir;
  match err with
  | Some err => mret (Some (wrapError (chart_Name chartSpec +:+ ": failed chart pull") err))
  | None =>
      logoutErr ← (if registry <>? "" then RegistryLogout (blr_Helmer r) registry else mret None);
      match logoutErr with
      | Some _ => mret (WithMessage err ("failed to logout from helm registry: " +:+ registry))
      | None =>
          chart ← LoadChart (blr_Helmer r) (chart_Name chartSpec) tmpDir;
          match chart with
          | inr err => mret (Some (wrapError (chart_Name chartSpec +:+ ": failed chart load") err))
          | inl chart => deployChart r chartSpec chart kubeNamespace releaseName args
          end
      end
  end.

(** The values of the chart specification over the arguments of the module. *)
Definition chartArgs (chartSpec : ChartSpec) (args : gmap string value) : gmap string value :=
  foldl (fun args (kv : string * string) => (SetMapField args kv.1 (VString kv.2)).1)
    (CopyMap args) (range (chart_Values chartSpec)).

Definition applyChartResource r (chartSpec : ChartSpec) (args : gmap string value) (blueprint : Blueprint)
    (releaseName : string) : M W (option error) :=
  let kubeNamespace := bpspec_ModulesNamespace (bp_Spec blueprint) in
  let args := chartArgs chartSpec args in
  login ← registryLogin r chartSpec;
  match login with
  | inr err => mret (Some err)
  | inl registry =>
      tmp ← blr_TempDir r;
      match tmp with
      | inr err =>
          mret (Some (wrapError (chart_Name chartSpec +:+ ": failed to create temporary directory for chart pull") err))
      | inl tmpDir =>
          err ← pullAndDeploy r chartSpec registry tmpDir kubeNamespace releaseName args;
          _ ← blr_RemoveAll r tmpDir;
          mret err
      end
  end.

(** *** The status of a release *)

Fixpoint findIndicator (kind : string) (indicators : list ResourceStatusIndicator) : option ResourceStatusIndicator :=
  match indicators with
  | [] => None
  | i :: rest => if indicator_Kind i =? kind then Some i else findIndicator kind rest
  end.

Definition getExpectedResults r (kind : string) : M W (option ResourceStatusIndicator + error) :=
  got ← List_ (ModulesClient (blr_Client r)) GetSystemNamespace;
  mret (match got with
        | inr err => inr err
        | inl modules =>
            inl (findIndicator kind (modules ≫= (fun m => modspec_StatusIndicators (module_Spec m))))
        end).

Definition getErrorMessage (res : Unstructured) (fieldPath : string) : string :=
  if negb (Has res fieldPath) then "" else GetLabel res fieldPath.

Definition matchesCondition (res : Unstructured) (condition : string) : bool :=
  match ParseSelector condition with
  | inr _ => false
  | inl requirements => forallb (fun req => Matches req (Has res) (GetLabel res)) requirements
  end.

Definition checkResourceStatus r (res : Unstructured) : M W (string * string) :=
  expected ← getExpectedResults r (res_Kind res);
  mret (match expected with
        | inr _ => (ConditionUnknown, "")
        | inl None =>
            match kstatus_Compute res with
            | inr _ => (ConditionUnknown, "")
            | inl (status, message) =>
                if status =? FailedStatus then (ConditionFalse, message)
                else if status =? CurrentStatus then (ConditionTrue, "")
                else (ConditionUnknown, "")
            end
        | inl (Some expected) =>
            if matchesCondition res (indicator_SuccessCondition expected) then (ConditionTrue, "")
            else if matchesCondition res (indicator_FailureCondition expected)
                 then (ConditionFalse, getErrorMessage res (indicator_ErrorMessage expected))
            else (ConditionUnknown, "")
        end).

(** The loop over the resources: [inl] is the early return of a failed resource. *)
Fixpoint countReady r (resources : list Unstructured) (numReady : nat) : M W ((string * string) + nat) :=
  match resources with
  | [] => mret (inr numReady)
  | res :: rest =>
      st ← checkResourceStatus r res;
      if st.1 =? ConditionFalse then mret (inl st)
      else countReady r rest (if st.1 =? ConditionTrue then S numReady else numReady)
  end.

Definition checkReleaseStatus r (releaseName namespace : string) : M W (string * string) :=
  got ← GetResources (blr_Helmer r) namespace releaseName;
  match got with
  | inr _ => mret (ConditionUnknown, "")
  | inl resources =>
      counted ← countReady r resources 0;
      mret (match counted with
            | inl failed => failed
            | inr numReady =>
                if Nat.eqb numReady (length resources) then (ConditionTrue, "") else (ConditionUnknown, "")
            end)
  end.

(** *** reconcile *)

(** The state of the loop over the modules: the status of the blueprint and the
    number of releases that are ready. *)
Record LoopState := mkLoopState {
  ls_Error : string;
  ls_ModulesState : gmap string ObservedState;
  ls_Releases : gmap string Z;
  ls_NumReady : nat
}.

Definition newlineB : string := String (ascii_of_nat 10) EmptyString.

Definition updateModuleState (instanceName : string) (isReady : bool) (err : string) (ls : LoopState) : LoopState :=
  ls <| ls_ModulesState := <[instanceName := mkObservedState isReady err]> (ls_ModulesState ls) |>.

(** The labels of the module with those that identify the blueprint. *)
Definition moduleLabels (blueprint : Blueprint) (args : ModuleArguments) : gmap string string :=
  <[FybrikAppUUID := blueprintUUID blueprint]>
    (<[BlueprintNamespaceLabel := meta_Namespace (bp_Meta blueprint)]>
      (<[BlueprintNameLabel := meta_Name (bp_Meta blueprint)]> (gm (args_Labels args)))).

Definition moduleRelease (blueprint : Blueprint) (instanceName : string) : outcome string :=
  let label k := default "" (mget (meta_Labels (bp_Meta blueprint)) k) in
  GetReleaseName (label ApplicationNameLabel) (label ApplicationNamespaceLabel) instanceName.

(** The status of a release [Helmer.Status] returned without an error. *)
Definition releaseStatus (rel : Release) : outcome string :=
  match rel_Info rel with
  | Some status => Done status
  | None => Panic "invalid memory address or nil pointer dereference"
  end.

(** The chart is applied again: a release that does not exist or has failed, or a
    new version of the blueprint. *)
Definition applyModule r (blueprint : Blueprint) (instanceName releaseName : string) (module : BlueprintModule)
    (ls : LoopState) : M W LoopState :=
  let args := StructToMap_ModuleArguments
    ((bpmodule_Arguments module) <| args_Labels := Some (moduleLabels blueprint (bpmodule_Arguments module)) |>) in
  err ← applyChartResource r (bpmodule_Chart module) args blueprint releaseName;
  mret (match err with
        | Some err =>
            updateModuleState instanceName false (Error err)
              (ls <| ls_Error := ls_Error ls +:+ Error (wrapError "ChartDeploymentFailure: " err) +:+ newlineB |>)
        | None => updateModuleState instanceName false "" ls
        end).

(** The status of a deployed release is taken from its resources. *)
Definition checkModule r (blueprint : Blueprint) (instanceName releaseName : string) (ls : LoopState) : M W LoopState :=
  st ← checkReleaseStatus r releaseName (bpspec_ModulesNamespace (bp_Spec blueprint));
  mret (if st.1 =? ConditionFalse then
          updateModuleState instanceName false st.2
            (ls <| ls_Error := ls_Error ls +:+ "ResourceAllocationFailure: " +:+ st.2 +:+ newlineB |>)
        else if st.1 =? ConditionTrue then
          (updateModuleState instanceName true "" ls) <| ls_NumReady := S (ls_NumReady ls) |>
        else ls).

Definition handleModule r (updateRequired : bool) (blueprint : Blueprint) (instanceName : string)
    (module : BlueprintModule) (ls : LoopState) : M W LoopState :=
  releaseName ← lift (moduleRelease blueprint instanceName);
  got ← Status (blr_Helmer r) (bpspec_ModulesNamespace (bp_Spec blueprint)) releaseName;
  ls ← (if updateRequired then applyModule r blueprint instanceName releaseName module ls
        else match got with
             | inl (Some rel) =>
                 status ← lift (releaseStatus rel);
                 if status =? StatusFailed then applyModule r blueprint instanceName releaseName module ls
                 else if status =? StatusDeployed then checkModule r blueprint instanceName releaseName ls
                 else mret ls
             | _ => applyModule r blueprint instanceName releaseName module ls
             end);
  mret (ls <| ls_Releases := <[releaseName := meta_Generation (bp_Meta blueprint)]> (ls_Releases ls) |>).

Fixpoint handleModules r (updateRequired : bool) (blueprint : Blueprint)
    (modules : list (string * BlueprintModule)) (ls : LoopState) : M W LoopState :=
  match modules with
  | [] => mret ls
  | (instanceName, module) :: rest =>
      ls ← handleModule r updateRequired blueprint instanceName module ls;
      handleModules r updateRequired blueprint rest ls
  end.

(** The releases of earlier versions are uninstalled. *)
Fixpoint cleanReleases r (namespace : string) (generation : Z) (releases : list (string * Z))
    (known : gmap string Z) : M W (gmap string Z) :=
  match releases with
  | [] => mret known
  | (release, version) :: rest =>
      if negb (Z.eqb version generation) then
        err ← Uninstall (blr_Helmer r) namespace release;
        match err with
        | Some _ => cleanReleases r namespace generation rest known
        | None => cleanReleases r namespace generation rest (delete release known)
        end
      else cleanReleases r namespace generation rest known
  end.

Definition setBlueprintStatus (ls : LoopState) (releases : gmap string Z) (ready : bool) (b : Blueprint) : Blueprint :=
  b <| bp_Status := mkBlueprintStatus (mkObservedState ready (ls_Error ls)) (meta_Generation (bp_Meta b))
                      (Some (ls_ModulesState ls)) (Some releases) |>.

Definition reconcile r (blueprint : Blueprint) : M W (Result * Blueprint) :=
  let status := bp_Status blueprint in
  let generation := meta_Generation (bp_Meta blueprint) in
  let updateRequired := negb (Z.eqb (bpstatus_ObservedGeneration status) generation) in
  ls ← handleModules r updateRequired blueprint (range (bpspec_Modules (bp_Spec blueprint)))
         (mkLoopState "" (gm (bpstatus_ModulesState status)) (gm (bpstatus_Releases status)) 0);
  releases ← cleanReleases r (bpspec_ModulesNamespace (bp_Spec blueprint)) generation
               (range (ls_Releases ls)) (ls_Releases ls);
  let ready := Nat.eqb (ls_NumReady ls) (size (bpspec_Modules (bp_Spec blueprint))) in
  mret (if ready then noResult else if ls_Error ls =? "" then mkResult 2 else noResult,
        setBlueprintStatus ls releases ready blueprint).

(** *** Reconcile *)

Definition blueprintFinalizer r : string := blr_Name r +:+ ".finalizer".
Definition blueprintDeleted (b : Blueprint) : bool :=
  match meta_DeletionTimestamp (bp_Meta b) with Some _ => true | None => false end.
Definition setBlueprintFinalizers (fs : list string) (b : Blueprint) : Blueprint :=
  b <| bp_Meta := (bp_Meta b) <| meta_Finalizers := fs |> |>.

Fixpoint uninstallAll r (namespace : string) (releases : list (string * Z)) (errs : list string) : M W (list string) :=
  match releases with
  | [] => mret errs
  | (release, _) :: rest =>
      err ← Uninstall (blr_Helmer r) namespace release;
      uninstallAll r namespace rest (match err with Some err => errs ++ [Error err] | None => errs end)
  end.

Definition deleteExternalResources r (blueprint : Blueprint) : M W (option error) :=
  errs ← uninstallAll r (bpspec_ModulesNamespace (bp_Spec blueprint))
           (range (gm (bpstatus_Releases (bp_Status blueprint)))) [];
  mret (match errs with [] => None | _ => Some (newError (Join errs "; ")) end).

Definition reconcileFinalizers r (blueprint : Blueprint) : M W (option error * Blueprint) :=
  let finalizers := meta_Finalizers (bp_Meta blueprint) in
  let hasFinalizer := ContainsFinalizer finalizers (blueprintFinalizer r) in
  if blueprintDeleted blueprint then
    if (hasFinalizer : bool) then
      _ ← deleteExternalResources r blueprint;
      u ← UpdateFinalizers (Blueprints (blr_Client r))
            (setBlueprintFinalizers (RemoveFinalizer finalizers (blueprintFinalizer r)) blueprint);
      mret (u.2, u.1)
    else mret (None, blueprint)
  else if negb hasFinalizer then
    u ← UpdateFinalizers (Blueprints (blr_Client r))
          (setBlueprintFinalizers (AddFinalizer finalizers (blueprintFinalizer r)) blueprint);
    mret (u.2, u.1)
  else mret (None, blueprint).

Definition Reconcile r (req : NamespacedName) : M W (Result * option error) :=
  got ← Get (Blueprints (blr_Client r)) req;
  match got with
  | inr err => mret (noResult, IgnoreNotFound err)
  | inl blueprint =>
      fin ← reconcileFinalizers r blueprint;
      match fin.1 with
      | Some err => mret (noResult, Some err)
      | None =>
          let blueprint := fin.2 in
          if blueprintDeleted blueprint then mret (noResult, None)
          else
            res ← reconcile r blueprint;
            let '(result, blueprint') := res in
            if negb (equal_BlueprintStatus (bp_Status blueprint') (bp_Status blueprint)) then
              u ← UpdateStatus (Blueprints (blr_Client r)) blueprint';
              match u.2 with
              | Some err => mret (noResult, Some (wrapError "failed to update blueprint status" err))
              | None => mret (result, None)
              end
            else mret (result, None)
      end
  end.

(** The event filter of [SetupWithManager]. *)
Definition fromControlPlane (b : Blueprint) : bool := meta_Namespace (bp_Meta b) =? GetSystemNamespace.
End Controller.
