(* ===== verification/BlueprintFacts.v ===== *)
(** * Correctness of the blueprint controller *)
From stdpp Require Import base gmap strings list numbers.
From Stdlib Require Import Ascii.
From S2P Require Import Prelude GoStrings Types External Utils Policy World BlueprintController.

(** ** Values of a chart *)

Lemma CopyValue_id v : CopyValue v = v.
Proof.
  induction v as [| | | | |m IH] using value_ind'; try done. simpl. f_equal.
  rewrite <- (map_fmap_id m) at 2. apply map_fmap_ext. intros k x Hx. by apply (IH k).
Qed.

Lemma CopyMap_id m : CopyMap m = m.
Proof. unfold CopyMap. rewrite <- (map_fmap_id m) at 2. apply map_fmap_ext. intros. apply CopyValue_id. Qed.

(** Neither path goes through the other. *)
Definition diverge (p q : list string) : Prop := ~ p `prefix_of` q /\ ~ q `prefix_of` p.

Lemma diverge_cons c p q : diverge (c :: p) (c :: q) -> diverge p q.
Proof. intros [H1 H2]. split; intros Hp; [apply H1|apply H2]; by apply prefix_cons. Qed.

Lemma diverge_nil p : ~ diverge p [].
Proof. intros [_ H2]. apply H2, prefix_nil. Qed.

Lemma nested_empty q : q <> [] -> nested ∅ q = None.
Proof. destruct q; [done|]. intros _. simpl. by rewrite lookup_empty. Qed.

Lemma nested_insert_same obj c m q : q <> [] -> nested (<[c := VMap m]> obj) (c :: q) = nested m q.
Proof. intros Hq. simpl. rewrite lookup_insert_eq. by destruct q. Qed.

Lemma nested_insert_other obj c c' v q : c <> c' -> nested (<[c := v]> obj) (c' :: q) = nested obj (c' :: q).
Proof. intros Hne. simpl. by rewrite lookup_insert_ne. Qed.

Lemma nested_single obj c : nested obj [c] = obj !! c.
Proof. simpl. by destruct (obj !! c) as [[]|]. Qed.

Lemma setComponents_cons obj c p v : p <> [] ->
  setComponents obj (c :: p) v =
    match obj !! c with
    | None => let '(m, ok) := setComponents ∅ p v in (<[c := VMap m]> obj, ok)
    | Some (VMap m) => let '(m', ok) := setComponents m p v in (<[c := VMap m']> obj, ok)
    | Some _ => (obj, false)
    end.
Proof. by destruct p. Qed.

Lemma setComponents_fresh p v : (setComponents ∅ p v).2 = true.
Proof.
  induction p as [|c [|c' p] IH]; [done|done|]. rewrite setComponents_cons, lookup_empty by done.
  by destruct (setComponents ∅ (c' :: p) v).
Qed.

(** Writing a field: what a written path and the other paths lead to afterwards. *)
Lemma setComponents_spec p v : p <> [] -> forall obj,
  let '(obj', ok) := setComponents obj p v in
  if ok then nested obj' p = Some v /\ forall q, diverge p q -> nested obj' q = nested obj q
  else obj' = obj.
Proof.
  intros Hp. induction p as [|c p IH]; [done|]. intros obj. destruct p as [|c' p].
  { cbn [setComponents]. rewrite nested_single, lookup_insert_eq. split; [done|]. intros [|d q] Hq; [by apply diverge_nil in Hq|].
    apply nested_insert_other. intros ->. destruct Hq as [Hq _]. apply Hq. by exists q. }
  assert (forall m, let '(m', ok) := setComponents m (c' :: p) v in
    if ok then nested m' (c' :: p) = Some v /\ forall q, diverge (c' :: p) q -> nested m' q = nested m q
    else m' = m) as IH' by (by apply IH). clear IH.
  assert (forall m m' : gmap string value,
    nested m' (c' :: p) = Some v -> (forall q, diverge (c' :: p) q -> nested m' q = nested m q) ->
    (forall q, q <> [] -> nested obj (c :: q) = nested m q) ->
    nested (<[c := VMap m']> obj) (c :: c' :: p) = Some v /\
    forall q, diverge (c :: c' :: p) q -> nested (<[c := VMap m']> obj) q = nested obj q) as Hset.
  { intros m m' Hv Hframe Hobj. split; [by rewrite nested_insert_same|].
    intros [|d q] Hq; [by apply diverge_nil in Hq|]. destruct (decide (c = d)) as [<-|Hne].
    - apply diverge_cons in Hq. destruct q as [|e q]; [by apply diverge_nil in Hq|].
      rewrite nested_insert_same by done. rewrite Hframe by done. by rewrite Hobj.
    - by apply nested_insert_other. }
  rewrite setComponents_cons by done.
  destruct (obj !! c) as [[| | | | |m]|] eqn:Hc; try done.
  - specialize (IH' m). destruct (setComponents m (c' :: p) v) as [m' []].
    + destruct IH' as [? ?]. eapply Hset; [done|done|]. intros [|d q] Hq; [done|]. simpl. by rewrite Hc.
    + subst m'. by apply insert_id.
  - specialize (IH' ∅). destruct (setComponents ∅ (c' :: p) v) as [m' []] eqn:E.
    + destruct IH' as [? ?]. eapply Hset; [done|done|]. intros q Hq. rewrite nested_empty by done.
      simpl. rewrite Hc. by destruct q.
    + pose proof (setComponents_fresh (c' :: p) v) as Hok. by rewrite E in Hok.
Qed.

(** Setting a field of the chart values by a dotted key either makes the path of
    the key lead to the new value and leaves every other path as it was, or changes
    nothing (when the path runs into a value that is not an object). *)
Theorem SetMapField_exact obj k v :
  let '(obj', ok) := SetMapField obj k v in
  if ok then nested obj' (Split k ".") = Some v /\ forall q, diverge (Split k ".") q -> nested obj' q = nested obj q
  else obj' = obj.
Proof. apply setComponents_spec, Split_nonempty. Qed.

(** A field at the top level is only changed by a key that starts with its name. *)
Lemma SetMapField_other obj k v c :
  list.head (Split k ".") <> Some c -> (SetMapField obj k v).1 !! c = obj !! c.
Proof.
  intros Hc. unfold SetMapField. destruct (Split k ".") as [|d p] eqn:E; [done|]. simpl in Hc.
  assert (d <> c) as Hne by congruence. destruct p as [|d' p].
  - by apply lookup_insert_ne.
  - rewrite setComponents_cons by done. destruct (obj !! d) as [[| | | | |m]|]; try done;
      destruct (setComponents _ _ _); by apply lookup_insert_ne.
Qed.

Section Values.
Context `{MapRange}.

Lemma chartArgs_keeps chartSpec args c :
  map_Forall (fun k _ => list.head (Split k ".") <> Some c) (chart_Values chartSpec) ->
  chartArgs chartSpec args !! c = args !! c.
Proof.
  intros Hk%range_Forall. unfold chartArgs. rewrite CopyMap_id. revert args.
  induction Hk as [|[k v] l Hkv _ IH]; intros args; [done|]. simpl. rewrite IH. by apply SetMapField_other.
Qed.

Lemma omitList_other {A} k k' (f : A -> value) l m : k <> k' -> omitList k f l m !! k' = m !! k'.
Proof. intros Hne. unfold omitList. destruct l; [done|]. by rewrite lookup_insert_ne. Qed.

Lemma omitList_same {A} k (f : A -> value) l m : l <> [] -> omitList k f l m !! k = Some (VList (f <$> l)).
Proof. intros Hl. unfold omitList. destruct l; [done|]. apply lookup_insert_eq. Qed.

Lemma omitMap_other k k' v m : k <> k' -> omitMap k v m !! k' = m !! k'.
Proof. intros Hne. unfold omitMap. destruct (decide _); [done|]. by rewrite lookup_insert_ne. Qed.

Lemma StructToMap_read a : args_Read a <> [] ->
  StructToMap_ModuleArguments a !! "read" = Some (VList (ReadModuleArgs_JSON <$> args_Read a)).
Proof. intros Ha. unfold StructToMap_ModuleArguments. rewrite omitMap_other by done. by rewrite omitList_same. Qed.

(** The governance actions reach the charts: the values a chart is installed or
    upgraded with hold, for each read argument of the module, an entry with the
    asset and exactly the actions the argument asks for, unless the chart
    specification itself sets a value under "read". *)
Theorem chart_values_carry_actions chartSpec a arg :
  map_Forall (fun k _ => list.head (Split k ".") <> Some "read") (chart_Values chartSpec) ->
  arg ∈ args_Read a -> readArgs_Transformations arg <> [] ->
  exists entries m, chartArgs chartSpec (StructToMap_ModuleArguments a) !! "read" = Some (VList entries) /\
    VMap m ∈ entries /\ m !! "assetID" = Some (VString (readArgs_AssetID arg)) /\
    m !! "transformations" = Some (VList (Action_MarshalJSON <$> readArgs_Transformations arg)).
Proof.
  intros Hk Harg Hactions. rewrite chartArgs_keeps by done.
  assert (args_Read a <> []) as Hne by (intros E; rewrite E in Harg; by apply not_elem_of_nil in Harg).
  rewrite StructToMap_read by done. eexists _, _. split; [done|]. split.
  - apply list_elem_of_fmap. exists arg. split; [reflexivity|done].
  - split; [|by rewrite omitList_same]. rewrite omitList_other by done. by rewrite lookup_insert_ne, lookup_singleton_eq.
Qed.
End Values.

(** ** The status of a release *)
Section StatusFacts.
Context `{MapRange, K8sMeta, Runtime, ResourceStatus} {W Chart : Type}.
Implicit Types (r : BlueprintReconciler W Chart).

(** The status the controller computed for a resource at some moment. *)
Definition computed r (res : Unstructured) (status : string) : Prop :=
  exists w msg w', checkResourceStatus r res w = Done ((status, msg), w').

Lemma countReady_spec r resources n w out w' :
  countReady r resources n w = Done (out, w') ->
  match out with
  | inl (status, msg) => status = ConditionFalse /\ exists res w1 w2, res ∈ resources /\
      checkResourceStatus r res w1 = Done ((status, msg), w2)
  | inr n' => n <= n' <= n + length resources /\
      (n' = n + length resources -> Forall (fun res => computed r res ConditionTrue) resources)
  end.
Proof.
  revert n w. induction resources as [|res resources IH]; intros n w E; cbn [countReady] in E.
  { m_step E. split; [simpl; lia|]. intros _. constructor. }
  m_step E. destruct a as [status msg]. cbn [fst snd] in E.
  destruct (String.eqb_spec status ConditionFalse) as [->|Hf].
  { m_step E. split; [done|]. exists res, w, w'. split; [by left|done]. }
  apply IH in E. destruct out as [[st m]|n'].
  - destruct E as (-> & res' & w1 & w2 & Hin & Hc). split; [done|]. exists res', w1, w2. split; [by right|done].
  - cbn [length]. destruct (String.eqb_spec status ConditionTrue) as [->|Ht]; destruct E as [Hn Hall].
    + split; [lia|]. intros ->. constructor; [by eexists _, _, _|]. apply Hall. lia.
    + split; [lia|]. intros ->. lia.
Qed.

(** The status of a release summarises its resources: it is reported as ready only
    when the resources were listed and every one of them was found ready, and as
    failed only when one of them was found failed, with its message. *)
Lemma checkReleaseStatus_spec r releaseName namespace w status msg w' :
  checkReleaseStatus r releaseName namespace w = Done ((status, msg), w') ->
  (status = ConditionTrue -> exists w1 resources w2,
     GetResources (blr_Helmer r) namespace releaseName w1 = Done (inl resources, w2) /\
     Forall (fun res => computed r res ConditionTrue) resources) /\
  (status = ConditionFalse -> exists w1 resources w2 res w3 w4,
     GetResources (blr_Helmer r) namespace releaseName w1 = Done (inl resources, w2) /\
     res ∈ resources /\ checkResourceStatus r res w3 = Done ((ConditionFalse, msg), w4)).
Proof.
  unfold checkReleaseStatus. intros E. m_step E. destruct a as [resources|err]; [|m_step E; by split].
  m_step E. apply countReady_spec in E1. destruct a as [[st m]|n].
  - m_step E. destruct E1 as (-> & res & w1 & w2 & Hin & Hc). split; [done|]. intros _.
    by exists w, resources, w0, res, w1, w2.
  - destruct E1 as [Hn Hall]. destruct (Nat.eqb_spec n (length resources)) as [->|]; m_step E; [|by split].
    split; [|done]. intros _. exists w, resources, w0. split; [done|]. by apply Hall.
Qed.

End StatusFacts.

(** ** Reconciliation *)
Section ReconcileFacts.
Context `{MapRange, K8sMeta, Runtime, ResourceStatus, Registry} {W Chart : Type}.
Implicit Types (r : BlueprintReconciler W Chart) (ls : LoopState).

Definition namespaceOf (b : Blueprint) : string := bpspec_ModulesNamespace (bp_Spec b).

(** The release of a module is deployed and all its resources are ready. *)
Definition runs r (b : Blueprint) (instance : string) : Prop :=
  exists releaseName, moduleRelease b instance = Done releaseName /\
    (exists w rel w', Status (blr_Helmer r) (namespaceOf b) releaseName w = Done (inl (Some rel), w') /\
       rel_Info rel = Some StatusDeployed) /\
    exists w1 resources w2, GetResources (blr_Helmer r) (namespaceOf b) releaseName w1 = Done (inl resources, w2) /\
      Forall (fun res => computed r res ConditionTrue) resources.

(** What handling one module may change. *)
Definition module_step r (updateRequired : bool) (b : Blueprint) (instance : string) ls ls' : Prop :=
  (forall k, k <> instance -> ls_ModulesState ls' !! k = ls_ModulesState ls !! k) /\
  ((ls_NumReady ls' = S (ls_NumReady ls) /\ updateRequired = false /\ runs r b instance /\
    ls_Error ls' = ls_Error ls /\ ls_ModulesState ls' !! instance = Some (mkObservedState true "")) \/
   ls_NumReady ls' = ls_NumReady ls).

Lemma applyModule_step r upd b instance releaseName m ls w ls' w' :
  applyModule r b instance releaseName m ls w = Done (ls', w') ->
  module_step r upd b instance ls ls' /\ ls_Releases ls' = ls_Releases ls.
Proof.
  unfold applyModule. intros E. m_step E. destruct ls as [err states releases n].
  destruct a as [e|]; m_step E; (split; [|done]); split; simpl;
    [intros k Hk; by rewrite lookup_insert_ne|by right|intros k Hk; by rewrite lookup_insert_ne|by right].
Qed.

Lemma checkModule_step r b instance releaseName ls w ls' w' w0 rel w1 :
  checkModule r b instance releaseName ls w = Done (ls', w') ->
  moduleRelease b instance = Done releaseName ->
  Status (blr_Helmer r) (namespaceOf b) releaseName w0 = Done (inl (Some rel), w1) ->
  rel_Info rel = Some StatusDeployed ->
  module_step r false b instance ls ls' /\ ls_Releases ls' = ls_Releases ls.
Proof.
  unfold checkModule. intros E Hr Hst Hinfo. m_step E. destruct a as [status msg]. destruct ls as [err states releases n].
  pose proof (checkReleaseStatus_spec _ _ _ _ _ _ _ E0) as [Htrue _]. cbn [fst snd] in E.
  destruct (String.eqb_spec status ConditionFalse) as [->|]; [|destruct (String.eqb_spec status ConditionTrue) as [->|]];
    m_step E; (split; [|done]); split; simpl; try (intros k Hk; by rewrite lookup_insert_ne); try (by right); [|done].
  left. split; [done|]. split; [done|]. split; [|by rewrite lookup_insert_eq].
  exists releaseName. split; [done|]. split; [by exists w0, rel, w1|by apply Htrue].
Qed.

Lemma handleModule_step r upd b instance m ls w ls' w' :
  handleModule r upd b instance m ls w = Done (ls', w') ->
  module_step r upd b instance ls ls' /\
  exists releaseName, moduleRelease b instance = Done releaseName /\
    ls_Releases ls' = <[releaseName := meta_Generation (bp_Meta b)]> (ls_Releases ls).
Proof.
  unfold handleModule. intros E. m_step E. rename a into releaseName. apply lift_inv in E0 as [Hr ->].
  m_step E. rename E0 into Hst. m_step E. rename a0 into ls1, E0 into Hls. m_step E.
  assert (module_step r upd b instance ls ls1 /\ ls_Releases ls1 = ls_Releases ls) as [[Hother Hready] Hrel].
  { destruct upd; [by eapply applyModule_step|]. destruct a as [[rel|]|err]; try (by eapply applyModule_step).
    m_step Hls. unfold releaseStatus in E. destruct (rel_Info rel) as [status|] eqn:Hi; [|done].
    apply lift_inv in E as [[= <-] ->]. destruct (status =? StatusFailed); [by eapply applyModule_step|].
    destruct (String.eqb_spec status StatusDeployed) as [->|]; [by eapply checkModule_step|].
    m_step Hls. split; [|done]. split; [done|by right]. }
  destruct ls1 as [err states releases n]. simpl in *. split; [split; done|].
  exists releaseName. split; [done|]. by rewrite Hrel.
Qed.

Lemma handleModules_spec r upd b modules ls w ls' w' :
  handleModules r upd b modules ls w = Done (ls', w') -> NoDup modules.*1 ->
  ls_NumReady ls' <= ls_NumReady ls + length modules /\
  (forall k, k ∉ modules.*1 -> ls_ModulesState ls' !! k = ls_ModulesState ls !! k) /\
  (ls_NumReady ls' = ls_NumReady ls + length modules ->
     ls_Error ls' = ls_Error ls /\ Forall (fun im => upd = false /\ runs r b im.1 /\
       ls_ModulesState ls' !! im.1 = Some (mkObservedState true "")) modules).
Proof.
  revert ls w. induction modules as [|[i m] modules IH]; intros ls w E Hnd; cbn [handleModules] in E.
  { m_step E. split; [simpl; lia|]. split; [done|]. intros _. split; [done|constructor]. }
  rewrite fmap_cons in Hnd |- *. apply list.NoDup_cons in Hnd as [Hi Hnd]. simpl in Hi |- *.
  m_step E. destruct (handleModule_step _ _ _ _ _ _ _ _ _ E0) as [[Hother Hstep] _].
  destruct (IH _ _ E Hnd) as (Hle & Hkeep & Hall). split; [destruct Hstep as [(Hs & _)|Hs]; lia|]. split.
  { intros k Hk. rewrite Hkeep by set_solver. apply Hother. set_solver. }
  intros Hn. destruct Hstep as [(Hs & Hupd & Hrun & He & Hst)|Hs]; [|lia].
  destruct Hall as [Herr Hall]; [lia|]. split; [congruence|]. constructor; [|done].
  split; [done|]. split; [done|]. simpl. by rewrite Hkeep by done.
Qed.

(** C12: a blueprint is reported ready only when each of its modules has a deployed
    release all of whose resources were found ready, the charts did not have to be
    applied again in this round, no error is reported and the state of each module
    is ready. *)
Theorem blueprint_ready_sound r b w res b' w' :
  reconcile r b w = Done ((res, b'), w') ->
  os_Ready (bpstatus_ObservedState (bp_Status b')) = true ->
  os_Error (bpstatus_ObservedState (bp_Status b')) = "" /\
  map_Forall (fun instance _ =>
    bpstatus_ObservedGeneration (bp_Status b) = meta_Generation (bp_Meta b) /\ runs r b instance /\
    mget (bpstatus_ModulesState (bp_Status b')) instance = Some (mkObservedState true ""))
    (bpspec_Modules (bp_Spec b)).
Proof.
  unfold reconcile. intros E. m_step E. rename a into ls. m_step E. m_step E. simpl. intros Hready.
  apply Nat.eqb_eq in Hready.
  destruct (handleModules_spec _ _ _ _ _ _ _ _ E0 (range_NoDup _)) as (_ & _ & Hall).
  destruct Hall as [Herr Hall].
  { simpl. rewrite Hready. by rewrite range_perm, length_map_to_list. }
  split; [done|]. apply range_Forall. eapply Forall_impl; [|exact Hall].
  intros [i m] (Hupd & Hrun & Hst). split; [|by split]. by apply negb_false_iff, Z.eqb_eq in Hupd.
Qed.

Lemma handleModules_releases r upd b modules ls w ls' w' :
  handleModules r upd b modules ls w = Done (ls', w') ->
  let g := meta_Generation (bp_Meta b) in
  (forall k, ls_Releases ls !! k = Some g -> ls_Releases ls' !! k = Some g) /\
  Forall (fun im => exists rel, moduleRelease b im.1 = Done rel /\ ls_Releases ls' !! rel = Some g) modules /\
  (forall k v, ls_Releases ls' !! k = Some v -> v = g \/ ls_Releases ls !! k = Some v).
Proof.
  intros E g. revert ls w E. induction modules as [|[i m] modules IH]; intros ls w E; cbn [handleModules] in E.
  { m_step E. split; [done|]. split; [constructor|]. by right. }
  m_step E. destruct (handleModule_step _ _ _ _ _ _ _ _ _ E0) as (_ & rel & Hrel & Hins).
  destruct (IH _ _ E) as (Hkeep & Hall & Honly). rewrite Hins in Hkeep, Honly. split; [|split].
  - intros k Hk. apply Hkeep. destruct (decide (k = rel)) as [->|]; [apply lookup_insert_eq|by rewrite lookup_insert_ne].
  - constructor; [|done]. exists rel. split; [done|]. apply Hkeep, lookup_insert_eq.
  - intros k v Hk. destruct (Honly k v Hk) as [->|Hk']; [by left|]. destruct (decide (k = rel)) as [->|].
    + rewrite lookup_insert_eq in Hk'. injection Hk' as <-. by left.
    + rewrite lookup_insert_ne in Hk' by done. by right.
Qed.

Lemma cleanReleases_spec r ns g l known w known' w' :
  cleanReleases r ns g l known w = Done (known', w') ->
  (forall k v, known' !! k = Some v -> known !! k = Some v) /\
  (forall k, (forall v, (k, v) ∈ l -> v = g) -> known' !! k = known !! k) /\
  (forall k v, (k, v) ∈ l -> v <> g -> known' !! k = None \/
     exists wa e wb, Uninstall (blr_Helmer r) ns k wa = Done (Some e, wb)).
Proof.
  revert known w. induction l as [|[rel v] l IH]; intros known w E; cbn [cleanReleases] in E.
  { m_step E. split; [done|]. split; [done|]. intros k v Hin. by apply not_elem_of_nil in Hin. }
  destruct (Z.eqb_spec v g) as [->|Hv]; simpl in E.
  - destruct (IH _ _ E) as (H1' & H2' & H3'). split; [done|]. split; [set_solver|].
    intros k v [[= -> ->]|Hin]%elem_of_cons Hne; [done|by eapply H3'].
  - m_step E. destruct a as [e|]; destruct (IH _ _ E) as (H1' & H2' & H3').
    + split; [done|]. split; [set_solver|]. intros k v' [[= -> ->]|Hin]%elem_of_cons Hne; [|by eapply H3'].
      right. by eexists _, _, _.
    + split. { intros k v' Hk. apply H1' in Hk. by apply lookup_delete_Some in Hk as [_ ?]. } split.
      * intros k Hk. rewrite H2' by set_solver. rewrite lookup_delete_ne; [done|]. intros ->. apply Hv, Hk. by left.
      * intros k v' [[= -> ->]|Hin]%elem_of_cons Hne; [|by eapply H3']. left.
        destruct (known' !! rel) eqn:Ek; [|done]. apply H1' in Ek. by rewrite lookup_delete_eq in Ek.
Qed.

(** C32: the releases a blueprint records are those of its modules: after a
    reconciliation every module has its release recorded with the current
    generation, and a release that is recorded with another generation is one whose
    removal failed. *)
Theorem blueprint_releases_exact r b w res b' w' :
  reconcile r b w = Done ((res, b'), w') ->
  let g := meta_Generation (bp_Meta b) in
  map_Forall (fun instance _ => exists rel, moduleRelease b instance = Done rel /\
    mget (bpstatus_Releases (bp_Status b')) rel = Some g) (bpspec_Modules (bp_Spec b)) /\
  forall rel v, mget (bpstatus_Releases (bp_Status b')) rel = Some v -> v = g \/
    exists wa e wb, Uninstall (blr_Helmer r) (namespaceOf b) rel wa = Done (Some e, wb).
Proof.
  intros E g. unfold reconcile in E. m_step E. rename a into ls. m_step E. rename a into releases. m_step E.
  unfold mget. simpl. destruct (handleModules_releases _ _ _ _ _ _ _ _ E0) as (_ & Hall & _).
  destruct (cleanReleases_spec _ _ _ _ _ _ _ _ E1) as (Hsub & Hkeep & Hgone). split.
  - apply range_Forall. eapply Forall_impl; [|exact Hall]. intros [i m] (rel & Hrel & Hg). exists rel. split; [done|].
    rewrite Hkeep; [done|]. intros v Hv%range_elem. congruence.
  - intros rel v Hv. destruct (decide (v = g)) as [->|Hne]; [by left|right].
    destruct (Hgone rel v) as [Hn|Hu]; [by apply range_elem, Hsub|done|congruence|done].
Qed.

(** *** Every reconciliation completes *)

(** The services the controller uses answer every call, and a release that is
    returned carries its information. *)
Record services r : Prop := {
  serves_Status ns rel : returning (fun o => forall x, o = inl (Some x) -> is_Some (rel_Info x))
    (Status (blr_Helmer r) ns rel);
  serves_Install c ns rel args : returning (fun o => forall x, o = inl x -> exists y, x = Some y /\ is_Some (rel_Info y))
    (Install (blr_Helmer r) c ns rel args);
  serves_Upgrade c ns rel args : returning (fun o => forall x, o = inl x -> exists y, x = Some y /\ is_Some (rel_Info y))
    (Upgrade (blr_Helmer r) c ns rel args);
  serves_Uninstall ns rel : total (Uninstall (blr_Helmer r) ns rel);
  serves_Login h u p i : total (RegistryLogin (blr_Helmer r) h u p i);
  serves_Logout h : total (RegistryLogout (blr_Helmer r) h);
  serves_Pull n d : total (Pull (blr_Helmer r) n d);
  serves_Load n d : total (LoadChart (blr_Helmer r) n d);
  serves_Resources ns rel : total (GetResources (blr_Helmer r) ns rel);
  serves_TempDir : total (blr_TempDir r);
  serves_RemoveAll d : total (blr_RemoveAll r d);
  serves_Secret k : total (GetSecret (blr_Client r) k);
  serves_Modules ns : total (List_ (ModulesClient (blr_Client r)) ns)
}.
#[local] Hint Resolve serves_Uninstall serves_Login serves_Logout serves_Pull serves_Load serves_Resources
  serves_TempDir serves_RemoveAll serves_Secret serves_Modules : go_total.

Lemma tryLogin_total r repo creds : services r -> total (tryLogin r repo creds).
Proof. intros Hs. induction creds; simpl; go_total. Qed.

Lemma registryLogin_total r chartSpec : services r -> total (registryLogin r chartSpec).
Proof. intros Hs. pose proof (fun repo creds => tryLogin_total r repo creds Hs). unfold registryLogin. go_total. Qed.

Lemma deployChart_total r chartSpec chart ns rel args : services r -> total (deployChart r chartSpec chart ns rel args).
Proof.
  intros Hs. unfold deployChart. eapply returning_bind; [apply (serves_Status r Hs)|]. intros st _.
  apply returning_bind with (P := fun o => forall x, o = inl x -> exists y, x = Some y /\ is_Some (rel_Info y)).
  - assert (Hinst : returning (fun o => forall x, o = inl x -> exists y, x = Some y /\ is_Some (rel_Info y))
      (res ← Install (blr_Helmer r) chart ns rel args;
       mret (match res with inl rel => inl rel
             | inr err => inr (wrapError (chart_Name chartSpec +:+ ": failed install") err) end))).
    { eapply returning_bind; [apply (serves_Install r Hs)|]. intros o Ho. apply returning_ret. destruct o; naive_solver. }
    destruct st as [[x|]|err]; [|exact Hinst|exact Hinst].
    eapply returning_bind; [apply (serves_Upgrade r Hs)|]. intros o Ho. apply returning_ret. destruct o; naive_solver.
  - intros [o|err] Ho; [|go_total]. destruct (Ho o eq_refl) as ([n i] & -> & (i' & Hi)). simpl in Hi. subst i. go_total.
Qed.

Lemma applyChartResource_total r chartSpec args b rel : services r -> total (applyChartResource r chartSpec args b rel).
Proof.
  intros Hs. pose proof (registryLogin_total r chartSpec Hs).
  pose proof (fun c ns args => deployChart_total r chartSpec c ns rel args Hs).
  unfold applyChartResource, pullAndDeploy. go_total.
Qed.

Lemma checkReleaseStatus_total r rel ns : services r -> total (checkReleaseStatus r rel ns).
Proof.
  intros Hs. assert (forall res, total (checkResourceStatus r res)) as Hc.
  { intros res. unfold checkResourceStatus, getExpectedResults. go_total. }
  assert (forall l n, total (countReady r l n)) as Hn. { induction l; intros n; simpl; go_total. }
  unfold checkReleaseStatus. go_total.
Qed.

Lemma handleModule_total r upd b i m ls : services r -> total (handleModule r upd b i m ls).
Proof.
  intros Hs. assert (forall rel ls, total (applyModule r b i rel m ls)) as Ha.
  { intros. pose proof (fun args => applyChartResource_total r (bpmodule_Chart m) args b rel Hs). unfold applyModule. go_total. }
  assert (forall rel ls, total (checkModule r b i rel ls)) as Hc.
  { intros. pose proof (checkReleaseStatus_total r rel (bpspec_ModulesNamespace (bp_Spec b)) Hs). unfold checkModule. go_total. }
  unfold handleModule. apply total_bind; [apply total_lift, GetReleaseName_returns|]. intros rel.
  eapply returning_bind; [apply (serves_Status r Hs)|]. intros o Ho. apply total_bind; [|go_total].
  destruct upd; [apply Ha|]. destruct o as [[x|]|err]; [|apply Ha|apply Ha].
  apply total_bind; [|intros status; go_total]. apply total_lift. unfold releaseStatus.
  destruct (Ho x eq_refl) as (status & ->). by exists status.
Qed.

(** Reconciling a blueprint completes whatever the blueprint contains, as long as
    Helm, the API server and the file system answer: no nil pointer is dereferenced
    and no nil map is written. *)
Theorem blueprint_reconcile_returns r b : services r -> total (reconcile r b).
Proof.
  intros Hs. unfold reconcile. apply total_bind.
  - generalize (mkLoopState "" (gm (bpstatus_ModulesState (bp_Status b))) (gm (bpstatus_Releases (bp_Status b))) 0).
    induction (range (bpspec_Modules (bp_Spec b))) as [|[i m] l IH]; intros ls; simpl; [go_total|].
    apply total_bind; [by apply handleModule_total|exact IH].
  - intros ls. apply total_bind; [|go_total]. generalize (ls_Releases ls) at 2.
    induction (range (ls_Releases ls)) as [|[rel v] l IH]; intros known; simpl; go_total.
Qed.

(** *** Failures that are not reported *)

(** A failed logout from the registry is hidden: although the chart was not
    installed (nothing happens after the logout but the removal of the temporary
    directory), applying the chart returns no error. *)
Theorem logout_failure_is_hidden r chartSpec args b releaseName w registry w1 tmp w2 w3 e w4 o w5 :
  registryLogin r chartSpec w = Done (inl registry, w1) -> registry <> "" ->
  blr_TempDir r w1 = Done (inl tmp, w2) -> Pull (blr_Helmer r) (chart_Name chartSpec) tmp w2 = Done (None, w3) ->
  RegistryLogout (blr_Helmer r) registry w3 = Done (Some e, w4) -> blr_RemoveAll r tmp w4 = Done (o, w5) ->
  applyChartResource r chartSpec args b releaseName w = Done (None, w5).
Proof.
  intros Hl Hne Ht Hp Ho Hr. unfold applyChartResource. rewrite (M_bind_run _ _ _ _ _ Hl), (M_bind_run _ _ _ _ _ Ht).
  assert (pullAndDeploy r chartSpec registry tmp (bpspec_ModulesNamespace (bp_Spec b)) releaseName
    (chartArgs chartSpec args) w2 = Done (None, w4)) as Hd.
  { unfold pullAndDeploy. rewrite (M_bind_run _ _ _ _ _ Hp). apply String.eqb_neq in Hne. rewrite Hne. simpl.
    by rewrite (M_bind_run _ _ _ _ _ Ho). }
  by rewrite (M_bind_run _ _ _ _ _ Hd), (M_bind_run _ _ _ _ _ Hr).
Qed.

(** The failure condition of a status indicator is optional, but a resource that has
    not reached its success condition yet is reported as failed when no failure
    condition is given (the empty selector matches everything). *)
Theorem unspecified_failure_condition_fails r res w indicator w' :
  ParseSelector "" = inl [] ->
  getExpectedResults r (res_Kind res) w = Done (inl (Some indicator), w') ->
  matchesCondition res (indicator_SuccessCondition indicator) = false ->
  indicator_FailureCondition indicator = "" ->
  exists msg, checkResourceStatus r res w = Done ((ConditionFalse, msg), w').
Proof.
  intros Hp He Hs Hf. exists (getErrorMessage res (indicator_ErrorMessage indicator)). unfold checkResourceStatus.
  rewrite (M_bind_run _ _ _ _ _ He), Hs, Hf. unfold matchesCondition. by rewrite Hp.
Qed.

(** Deleting a blueprint does not wait for its releases: the finalizer is removed
    even when uninstalling the releases failed. *)
Theorem blueprint_deletion_ignores_failure r b w err w1 b' w2 :
  blueprintDeleted b = true ->
  ContainsFinalizer (meta_Finalizers (bp_Meta b)) (blueprintFinalizer r) = true ->
  deleteExternalResources r b w = Done (Some err, w1) ->
  UpdateFinalizers (Blueprints (blr_Client r))
    (setBlueprintFinalizers (RemoveFinalizer (meta_Finalizers (bp_Meta b)) (blueprintFinalizer r)) b) w1 =
      Done ((b', None), w2) ->
  reconcileFinalizers r b w = Done ((None, b'), w2).
Proof.
  intros Hd Hf He Hu. unfold reconcileFinalizers. rewrite Hd, Hf.
  by rewrite (M_bind_run _ _ _ _ _ He), (M_bind_run _ _ _ _ _ Hu).
Qed.
End ReconcileFacts.
