(* ===== verification/ClusterFacts.v ===== *)
(** * The plotter controller on a single cluster

    The manager of the local cluster on an API server without other writers: what it
    promises to the plotter controller, and what follows for a plotter whose blueprint
    was removed behind the controller's back. *)
From stdpp Require Import base gmap strings list numbers.
From S2P Require Import Prelude GoStrings Types External Utils World MultiCluster PlotterController PlotterFacts.

Section LocalFacts.
Context {W : Type} (cl : Client W) (namespace : string) (objects : W -> NamespacedName -> option Blueprint)
  `{!StoreLaws (Blueprints cl) ObjectKey objects} (data : gmap string string)
  (config : forall w, GetConfigMap cl (mkNamespacedName "cluster-metadata" namespace) w = Done (inl data, w)).

Definition localName : string := cluster_Name (CreateCluster data).

Lemma Local_GetClusters w : Local.GetClusters cl namespace w = Done (inl [CreateCluster data], w).
Proof. unfold Local.GetClusters. by rewrite (M_bind_run _ _ _ _ _ (config w)). Qed.

Lemma Local_registered c w : Local.registered cl namespace c w = Done (localName =? c, w).
Proof.
  unfold Local.registered, Local.GetLocalClusterName, mbind, M_bind. by rewrite Local_GetClusters.
Qed.

Lemma Local_GetBlueprint_missing c ns name w :
  objects w (mkNamespacedName name ns) = None ->
  exists e, Local.GetBlueprint cl namespace c ns name w = Done (inr e, w).
Proof.
  intros Hn. unfold Local.GetBlueprint. rewrite (M_bind_run _ _ _ _ _ (Local_registered c w)).
  destruct (localName =? c); [|by eexists]. simpl.
  destruct (store_Get_missing _ w Hn) as (e & Hg). exists e. by rewrite (M_bind_run _ _ _ _ _ Hg).
Qed.

(** What is deployed can be read back: after an update (or a creation) on the local
    cluster the blueprint is found with the specification, the labels and the
    annotations that were given, and no other blueprint is touched; any other
    cluster is refused and nothing changes. *)
Theorem Local_update_get c b w :
  if localName =? c then
    exists w' b', Local.UpdateBlueprint cl namespace c b w = Done (None, w') /\
      Local.GetBlueprint cl namespace c (meta_Namespace (bp_Meta b)) (meta_Name (bp_Meta b)) w' =
        Done (inl (Some b'), w') /\
      bp_Spec b' = bp_Spec b /\ meta_Labels (bp_Meta b') = meta_Labels (bp_Meta b) /\
      meta_Annotations (bp_Meta b') = meta_Annotations (bp_Meta b) /\
      forall k, k <> ObjectKey b -> objects w' k = objects w k
  else Local.UpdateBlueprint cl namespace c b w = Done (Some (Local.unregistered c), w).
Proof using All.
  unfold Local.UpdateBlueprint, Local.GetBlueprint. rewrite (M_bind_run _ _ _ _ _ (Local_registered c w)).
  destruct (localName =? c) eqn:Hc; [|done]. simpl.
  assert (forall x, ObjectKey (Local.mutate b x) = ObjectKey x) as Hkey by (by intros [[]]).
  destruct (store_CreateOrUpdate (Local.signature b) (Local.mutate b) w Hkey) as (w' & Hu & Hobj).
  exists w', (Local.mutate b (default (Local.signature b) (objects w (ObjectKey b)))). split; [done|]. split.
  - rewrite (M_bind_run _ _ _ _ _ (Local_registered c w')), Hc. simpl.
    assert (objects w' (ObjectKey b) = Some (Local.mutate b (default (Local.signature b) (objects w (ObjectKey b))))) as Hb
      by (rewrite Hobj; by rewrite decide_True).
    by rewrite (M_bind_run _ _ _ _ _ (store_Get_found _ w' _ Hb)).
  - destruct (default _ _) as [[] ? ?]. repeat split. intros k Hk. rewrite Hobj. by rewrite decide_False.
Qed.

(** ** A blueprint that is gone *)
Context `{MapRange, K8sMeta} (r : PlotterReconciler W) (local : plr_ClusterManager r = Local.manager cl namespace).

Definition recorded (mb : MetaBlueprint) : NamespacedName := mkNamespacedName (metabp_Name mb) (metabp_Namespace mb).

(** A blueprint that disappeared from the local cluster is never created again: as
    long as the plotter's status records it, reconciling ends with an error before
    anything is deployed, and the status keeps the record. *)
Theorem lost_blueprint_not_recreated plotter c spec mb w wb res errs pl' w' :
  getBlueprintsMap (plr_ClusterManager r) plotter w = Done ({[ c := spec ]}, wb) ->
  mget (plstatus_Blueprints (pl_Status plotter)) c = Some mb -> objects wb (recorded mb) = None ->
  reconcile r plotter w = Done ((res, errs, pl'), w') ->
  errs <> [] /\ mget (plstatus_Blueprints (pl_Status pl')) c = Some mb.
Proof using All.
  intros Hb Hst Hgone. unfold reconcile. rewrite (M_bind_run _ _ _ _ _ Hb), range_singleton.
  cbn [handleBlueprints]. unfold handleBlueprint. cbn [ps_Blueprints]. rewrite local. simpl.
  unfold mget in Hst. rewrite Hst. destruct (Local_GetBlueprint_missing c _ _ _ Hgone) as (e & Hg).
  intros E. m_step E. m_step E0. m_step E1. simpl in E2. rewrite Hg in E2. injection E2 as <- <-.
  m_step E1. m_step E1. m_step E1. m_step E0. m_step E. split; [done|]. unfold mget. simpl. exact Hst.
Qed.

(** A plotter whose blueprint disappeared cannot be deleted: its finalizer is never
    removed, because deleting the blueprint fails. *)
Theorem lost_blueprint_blocks_deletion plotter c mb w :
  plotterDeleted plotter = true ->
  ContainsFinalizer (meta_Finalizers (pl_Meta plotter)) (plotterFinalizer r) = true ->
  gm (plstatus_Blueprints (pl_Status plotter)) = {[ c := mb ]} -> objects w (recorded mb) = None ->
  exists e, reconcileFinalizers r plotter w = Done ((Some e, plotter), w).
Proof using All.
  intros Hd Hf Hb Hgone. unfold reconcileFinalizers. rewrite Hd, Hf, Hb, range_singleton.
  destruct (Local_GetBlueprint_missing c _ _ _ Hgone) as (e & Hg). exists e.
  assert (deleteBlueprints r [(c, mb)] w = Done (Some e, w)) as Hdel.
  { cbn [deleteBlueprints]. rewrite local. simpl. unfold Local.DeleteBlueprint, mbind, M_bind. by rewrite Hg. }
  by rewrite (M_bind_run _ _ _ _ _ Hdel).
Qed.
End LocalFacts.
