(* ===== verification/EndToEnd.v ===== *)
(** * From a governance decision to the values of a chart

    The application controller, the plotter controller and the blueprint controller put
    together: an action that a policy demands for an asset is in the plotter the first one
    builds, in a blueprint the second one derives from it, and in the values the third one
    installs a chart with. *)
From stdpp Require Import base gmap strings list numbers.
From Stdlib Require Import Ascii.
From S2P Require Import Prelude GoStrings Types External Utils Policy AdminConfig World MultiCluster Storage SelectModules PlotterGen Conditions ResourceGen AppController AppFacts PlotterController PlotterFacts BlueprintController BlueprintFacts.

(** ** Templates of a generated plotter *)
Section Templates.
Context `{MapRange, K8sMeta, Runtime, Schema, TemplateEngine, Encoder} {W : Type}.

(** Each template has a module. *)
Definition templates_filled (spec : PlotterSpec) : Prop :=
  map_Forall (fun _ t => template_Modules t <> []) (plotter_Templates spec).

Lemma flow_of_templates id path sfs ts id' :
  flow_of id path sfs ts id' -> Forall (fun t => template_Modules t <> []) ts.
Proof.
  induction 1 as [|? ? ? ? ? ? ? ? ? (c & ? & ? & ? & _ & _ & -> & _) _ _ IH]; constructor; [done|exact IH].
Qed.

Lemma AddFlowInfoForAsset_templates (p : PlotterGenerator W) item a prov spec w prov' spec' w' :
  AddFlowInfoForAsset p item a prov spec w = Done ((None, prov', spec'), w') ->
  templates_filled spec -> templates_filled spec'.
Proof.
  intros (sel & rest & st & last & _ & HA & _ & ->)%AddFlowInfoForAsset_ok Hs.
  apply addElements_ok in HA as (sfs & ts & Hts%flow_of_templates & _ & Hst).
  revert Hs. unfold templates_filled, addFlow. simpl. rewrite Hst. simpl.
  generalize (plotter_Templates spec). clear -Hts.
  induction Hts as [|t ts Ht _ IH]; intros m Hm; simpl; [done|]. apply IH. by apply map_Forall_insert_2.
Qed.

Lemma addFlows_templates (p : PlotterGenerator W) reqs a prov spec w a' prov' spec' w' :
  addFlows p reqs a prov spec w = Done ((a', prov', spec'), w') -> templates_filled spec -> templates_filled spec'.
Proof.
  revert a prov spec w. induction reqs as [|item reqs IH]; intros a prov spec w E Hs; cbn [addFlows] in E; [by m_step E|].
  m_step E. destruct a0 as [[err prov1] spec1]. m_step E. m_step E1. eapply IH; [done|].
  destruct err as [err|]; [apply AddFlowInfoForAsset_error in E0; by subst|].
  by eapply AddFlowInfoForAsset_templates.
Qed.

Lemma buildSolution_templates (r : Reconciler W) a reqs w prov spec a' w' :
  buildSolution r a reqs w = Done ((inl (prov, spec), a'), w') -> templates_filled spec.
Proof.
  unfold buildSolution. intros E. m_step E. destruct a0 as [ms|]; [|by m_step E]. m_step E.
  destruct a0 as [regions|]; [|by m_step E]. m_step E. destruct a0 as [cs|]; [|by m_step E].
  m_step E. destruct a0 as [[a1 prov1] spec1]. m_step E. eapply addFlows_templates; [done|]. by intros ? ? ?.
Qed.
End Templates.

(** ** Values of charts *)

(** The values tell the chart to perform the action on the asset, in one of its reads or in
    its copy. *)
Definition tells (values : gmap string value) (assetID : string) (action : Action) : Prop :=
  exists entry transformations,
    ((exists entries, values !! "read" = Some (VList entries) /\ VMap entry ∈ entries) \/
     values !! "copy" = Some (VMap entry)) /\
    entry !! "assetID" = Some (VString assetID) /\
    entry !! "transformations" = Some (VList transformations) /\
    Action_MarshalJSON action ∈ transformations.

(** No value of the chart specification replaces the arguments of the module. *)
Definition keeps_arguments (chart : ChartSpec) : Prop :=
  forall field, field = "read" \/ field = "copy" ->
  map_Forall (fun k _ => list.head (Split k ".") <> Some field) (chart_Values chart).

Lemma StructToMap_copy a c : args_Copy a = Some c ->
  StructToMap_ModuleArguments a !! "copy" = Some (CopyModuleArgs_JSON c).
Proof.
  intros Hc. unfold StructToMap_ModuleArguments. rewrite omitMap_other, !omitList_other, Hc by done.
  apply lookup_insert_eq.
Qed.

Lemma carries_tells `{MapRange} m flowType id actions action labels :
  carries m flowType id actions -> action ∈ actions -> keeps_arguments (bpmodule_Chart m) ->
  tells (chartArgs (bpmodule_Chart m)
    (StructToMap_ModuleArguments ((bpmodule_Arguments m) <| args_Labels := labels |>))) id action.
Proof.
  intros Hcar Ha Hk. assert (actions <> []) as Hne by (intros ->; by apply not_elem_of_nil in Ha).
  unfold carries in Hcar. destruct (bpmodule_Arguments m) as [? ? copy reads ?]. simpl in *.
  destruct Hcar as [[_ (store & Hr)]|[_ (src & dst & Hc)]].
  - eexists _, (Action_MarshalJSON <$> actions). split; [left; eexists; split|].
    + rewrite chartArgs_keeps by (apply Hk; auto). apply StructToMap_read. simpl.
      intros ->. by apply not_elem_of_nil in Hr.
    + apply list_elem_of_fmap. eexists. split; [reflexivity|]. exact Hr.
    + split_and!; [|by rewrite omitList_same|by apply list_elem_of_fmap_2].
      rewrite omitList_other by done. by rewrite lookup_insert_ne, lookup_singleton_eq.
  - eexists _, (Action_MarshalJSON <$> actions). split; [right|].
    + rewrite chartArgs_keeps by (apply Hk; auto). by apply StructToMap_copy.
    + split_and!; [|by rewrite omitList_same|by apply list_elem_of_fmap_2].
      rewrite omitList_other by done. by rewrite !lookup_insert_ne, lookup_singleton_eq.
Qed.

(** ** The way of an action *)

(** The modules of the plotter are deployed as they are: none is a plugin, and those that
    copy have the scope of an asset. *)
Definition deployable (spec : PlotterSpec) : Prop :=
  forall flow sf step ps t info,
    flow ∈ plotter_Flows spec -> sf ∈ flow_SubFlows flow -> step_of sf step ps ->
    plotter_Templates spec !! step_Template step = Some t -> info ∈ template_Modules t ->
    info_Type info <> "plugin" /\ (subflow_FlowType sf = CopyFlow -> info_Scope info = Asset).

Section Way.
Context `{MapRange, K8sMeta, Runtime, Schema, TemplateEngine, Encoder} {W V : Type}.
Context `{!NestedStringLaws}.

(** C31: a plotter that the application controller builds is always turned into blueprints:
    when the construction gave a specification, for an application whose status is
    initialised and requirements about its assets with non-empty identifiers, then the
    conversion of a plotter with this specification returns, without a panic, as soon as the
    listing of the clusters returns (with clusters or with an error): the generator writes no
    step without the source or the sink its flow type needs, so that no nil pointer is
    dereferenced and no empty list of assets is indexed. *)
Theorem generated_plotter_converts (r : Reconciler W) (cm : ClusterManager V) a reqs w prov spec a' w'
    plotter v cs v' :
  app_wf a -> known_items a reqs -> buildSolution r a reqs w = Done ((inl (prov, spec), a'), w') ->
  pl_Spec plotter = spec -> GetClusters cm v = Done (cs, v') ->
  exists bps, getBlueprintsMap cm plotter v = Done (bps, v').
Proof.
  intros Hwf Hk E <- Hcs. destruct (buildSolution_ok r a reqs w _ _ _ _ Hwf Hk E) as (_ & ms & rs & cls & _ & Hs).
  by eapply getBlueprintsMap_runs; [apply Hs|].
Qed.

(** C2: a governance action reaches a chart: when a plotter has been built for an application
    whose status is initialised, from requirements about its assets with non-empty
    identifiers, an asset of it was not refused and its policies demand an action, then the
    blueprints derived from the plotter deploy, on some cluster, a module whose chart is
    given values that name the asset and demand the action, in one of its reads or in its
    copy.  This holds when the clusters are listed successfully during the derivation, the
    module instances of each cluster get distinct names, no module of the plotter is a plugin,
    the modules that copy have the scope of an asset, and no value of a chart specification
    replaces the arguments "read" and "copy". *)
Theorem action_reaches_chart (r : Reconciler W) (cm : ClusterManager V) a reqs w prov spec a' w'
    plotter v bps v' cs instances item action :
  app_wf a -> known_items a reqs ->
  buildSolution r a reqs w = Done ((inl (prov, spec), a'), w') ->
  pl_Spec plotter = spec ->
  getBlueprintsMap cm plotter v = Done (bps, v') -> GetClusters cm v = Done (inl cs, v') ->
  plotterInstances cs plotter = Done instances -> (forall cluster, distinct_names instances cluster) ->
  deployable spec ->
  (forall cluster bp name m, bps !! cluster = Some bp -> bpspec_Modules bp !! name = Some m ->
     keeps_arguments (bpmodule_Chart m)) ->
  item ∈ reqs -> ~ refused a' (DataSetID (Context item)) -> action ∈ Actions item ->
  exists cluster bp name m, bps !! cluster = Some bp /\ bpspec_Modules bp !! name = Some m /\
    forall labels, tells (chartArgs (bpmodule_Chart m)
      (StructToMap_ModuleArguments ((bpmodule_Arguments m) <| args_Labels := labels |>)))
      (DataSetID (Context item)) action.
Proof.
  intros Hwf Hk E <- Hbps Hcs Hinst Hnames Hdep Hkeep Hitem Hacc Haction.
  destruct (buildSolution_ok r a reqs w _ _ _ _ Hwf Hk E) as (_ & ? & ? & ? & _ & [Hswf Hall _ _ _]).
  destruct (Hall item Hitem) as [|(flow & Hflow & [Hid Hact _])]; [done|].
  destruct (Hact action Haction) as (sf & step & ps & Hsf & Hstep & Hps).
  assert (exists t, plotter_Templates (pl_Spec plotter) !! step_Template step = Some t) as [t Ht].
  { unfold plotter_wf in Hswf. rewrite list.Forall_forall in Hswf. destruct (Hswf flow Hflow) as [_ Hsfs].
    rewrite list.Forall_forall in Hsfs. destruct (Hsfs sf Hsf) as (step' & ps' & [Hst' _] & Ht).
    destruct Hstep as [Hone _], Hst' as [Hone' _]. rewrite Hone in Hone'. injection Hone' as <-. exact Ht. }
  pose proof (buildSolution_templates _ _ _ _ _ _ _ _ E _ _ Ht) as Hne.
  destruct (template_Modules t) as [|info infos] eqn:Hinfos; [done|].
  assert (info ∈ template_Modules t) as Hinfo by (rewrite Hinfos; by left).
  destruct (Hdep _ _ _ _ _ _ Hflow Hsf Hstep Ht Hinfo) as [Hplugin Hscope].
  destruct (getBlueprintsMap_carries cm plotter v bps v' cs instances flow sf step ps t info)
    as (bp & name & m & Hbp & Hm & Hcar); [done..|].
  exists (step_Cluster step), bp, name, m. split_and!; [done..|]. intros labels. rewrite <- Hid.
  eapply carries_tells; [done|done|]. eauto.
Qed.
End Way.

(** ** Deployable plotters, decided *)
Definition deployableb (spec : PlotterSpec) : bool :=
  forallb (fun flow => forallb (fun sf =>
    match subflow_Steps sf with
    | [[step]] =>
        match plotter_Templates spec !! step_Template step with
        | Some t => forallb (fun info => (info_Type info <>? "plugin") &&
            ((subflow_FlowType sf <>? CopyFlow) || (info_Scope info =? Asset))) (template_Modules t)
        | None => true
        end
    | _ => true
    end) (flow_SubFlows flow)) (plotter_Flows spec).

Lemma deployableb_sound spec : deployableb spec = true -> deployable spec.
Proof.
  unfold deployableb. intros Hd flow sf step ps t info Hf Hs [Hstep _] Ht Hi.
  rewrite forallb_forall in Hd. specialize (Hd flow (proj1 (list_elem_of_In _ _) Hf)).
  rewrite forallb_forall in Hd. specialize (Hd sf (proj1 (list_elem_of_In _ _) Hs)).
  rewrite Hstep, Ht in Hd. rewrite forallb_forall in Hd. specialize (Hd info (proj1 (list_elem_of_In _ _) Hi)).
  apply andb_prop in Hd as [Hp Hc]. split.
  - by apply String.eqb_neq, negb_true_iff.
  - intros Hcopy. rewrite Hcopy in Hc. simpl in Hc. by apply String.eqb_eq.
Qed.
