(* ===== verification/EndToEndExamples.v ===== *)
(** * The way of a redaction

    An application whose asset has to be redacted: the plotter that is built for it, its
    blueprint and the values of the chart. *)
From stdpp Require Import base gmap strings list numbers.
From Stdlib Require Import Ascii.
From S2P Require Import Prelude GoStrings Types External Utils Policy AdminConfig World MultiCluster Storage SelectModules PlotterGen Conditions ResourceGen AppController AppFacts AppExamples PlotterController PlotterFacts PlotterCtlExamples BlueprintController BlueprintFacts EndToEnd.
Import SelectExamples PlotterExamples.

Module EndToEndExamples.

Definition built := @buildSolution canonical_range Concrete.k8s (Concrete.env []) Concrete.accept_all verbatim
  AppExamples.world (AppExamples.reconciler allow true) AppExamples.fresh [item ∅] [].

Definition result : ProvisionedMap * PlotterSpec * FybrikApplication * AppExamples.world :=
  match built with
  | Done ((inl (prov, spec), a'), w') => (prov, spec, a', w')
  | _ => (∅, emptySpec, AppExamples.fresh, [])
  end.
Definition spec : PlotterSpec := result.1.1.2.
Definition plotter : Plotter := mkPlotter (meta "notebook-default") spec PlotterCtlExamples.pending.
Definition blueprints : gmap string BlueprintSpec := PlotterCtlExamples.blueprintsOf plotter.
Definition instances : list ModuleInstanceSpec := PlotterCtlExamples.instancesOf plotter.

Lemma generated_plotter_converts_witness :
  exists bps, @getBlueprintsMap canonical_range PlotterCtlExamples.world PlotterCtlExamples.clusters plotter ∅ = Done (bps, ∅).
Proof.
  apply (@generated_plotter_converts canonical_range Concrete.k8s (Concrete.env []) Concrete.accept_all verbatim
    AppExamples.world PlotterCtlExamples.world Concrete.k8s_nested
    (AppExamples.reconciler allow true) PlotterCtlExamples.clusters AppExamples.fresh [item ∅] []
    result.1.1.1 spec result.1.2 result.2 plotter ∅ (inl [cluster]) ∅).
  - exact AppExamples.fresh_wf.
  - apply Forall_singleton. split; [by left|discriminate].
  - vm_compute. reflexivity.
  - reflexivity.
  - reflexivity.
Defined.

Lemma names_distinct cluster : @distinct_names canonical_range instances cluster.
Proof.
  destruct (decide (cluster = "thegreendragon")) as [->|Hne].
  - exists (PlotterCtlExamples.namesOf plotter). split; [apply (bool_decide_unpack _); by vm_compute|].
    apply outcome_mapM_inv. vm_compute. reflexivity.
  - exists []. split; [constructor|].
    assert (filter (fun i => instance_ClusterName i = cluster) instances = []) as ->; [|constructor].
    assert (Forall (fun i => instance_ClusterName i = "thegreendragon") instances) as Hall.
    { apply (bool_decide_unpack _). vm_compute. exact I. }
    destruct (filter _ instances) as [|i l] eqn:E; [done|].
    assert (i ∈ filter (fun i => instance_ClusterName i = cluster) instances) as Hi by (rewrite E; by left).
    apply list_elem_of_filter in Hi as [Hc Hi]. rewrite list.Forall_forall in Hall. specialize (Hall i Hi). congruence.
Qed.

Definition no_values (m : BlueprintModule) : bool := bool_decide (chart_Values (bpmodule_Chart m) = ∅).

Lemma arguments_kept cluster bp name m : blueprints !! cluster = Some bp -> bpspec_Modules bp !! name = Some m ->
  keeps_arguments (bpmodule_Chart m).
Proof.
  assert (map_Forall (fun _ bp => map_Forall (fun _ m => no_values m = true) (bpspec_Modules bp)) blueprints) as Hall.
  { apply (bool_decide_unpack _). vm_compute. exact I. }
  intros Hbp Hm field _. specialize (Hall _ _ Hbp _ _ Hm). apply bool_decide_eq_true in Hall. rewrite Hall.
  apply map_Forall_empty.
Qed.

Lemma action_reaches_chart_witness :
  exists cluster bp name m, blueprints !! cluster = Some bp /\ bpspec_Modules bp !! name = Some m /\
    tells (@chartArgs canonical_range (bpmodule_Chart m)
      (StructToMap_ModuleArguments ((bpmodule_Arguments m) <| args_Labels := None |>))) "assets/1" redact.
Proof.
  destruct (@action_reaches_chart canonical_range Concrete.k8s (Concrete.env []) Concrete.accept_all verbatim
    AppExamples.world PlotterCtlExamples.world Concrete.k8s_nested
    (AppExamples.reconciler allow true) PlotterCtlExamples.clusters AppExamples.fresh [item ∅] []
    result.1.1.1 spec result.1.2 result.2 plotter ∅ blueprints ∅ [cluster] instances (item ∅) redact)
    as (cluster & bp & name & m & Hbp & Hm & Ht).
  - exact AppExamples.fresh_wf.
  - apply Forall_singleton. split; [by left|discriminate].
  - vm_compute. reflexivity.
  - reflexivity.
  - vm_compute. reflexivity.
  - reflexivity.
  - vm_compute. reflexivity.
  - exact names_distinct.
  - apply deployableb_sound. vm_compute. reflexivity.
  - exact arguments_kept.
  - by left.
  - intros [Hr|Hr]; vm_compute in Hr; discriminate Hr.
  - apply (bool_decide_unpack _). vm_compute. exact I.
  - exists cluster, bp, name, m. split; [exact Hbp|]. split; [exact Hm|]. exact (Ht None).
Defined.
End EndToEndExamples.
