(* ===== verification/BlueprintLiveness.v ===== *)
(** * A blueprint becomes ready

    The blueprint controller does not wait: a reconciliation applies the charts that
    have to be applied, looks at the releases and asks to be called again.  Here the
    calls are put together: on a cluster where Helm succeeds and the resources of a
    release come up after some time, the controller goes on until the blueprint is
    ready, and then stops. *)
From stdpp Require Import base gmap strings list numbers.
From S2P Require Import Prelude GoStrings Types External Utils Policy World BlueprintController BlueprintFacts.

Section Liveness.
Context `{MapRange, K8sMeta, Runtime, ResourceStatus, Registry} {W Chart : Type}.
Context (r : BlueprintReconciler W Chart).

(** What is deployed on the cluster, for how many rounds resources will not be ready,
    and the time between two rounds. *)
Context (installed : W -> gset (string * string)) (pending : W -> nat) (elapse : W -> W).

(** The registered modules. *)
Context (modules : list FybrikModule).

(** The workqueue calls the controller again, with the blueprint as it was left, until
    it does not ask for it. *)
Fixpoint poll (n : nat) (b : Blueprint) : M W (option Blueprint) :=
  match n with
  | 0 => mret None
  | S n =>
      res ← reconcile r b;
      if Z.eqb (RequeueAfter res.1) 0 then mret (Some res.2) else fun w => poll n res.2 (elapse w)
  end.

(** A call that does not change the deployment. *)
Definition observes {A} (c : M W A) (P : W -> A -> Prop) : Prop :=
  forall w, reaches c w (fun a w' => P w a /\ installed w' = installed w /\ pending w' = pending w).
Notation succeeds c := (observes c (fun _ err => err = None)).
Notation yields c := (observes c (fun _ res => exists x, res = inl x)).

(** A call that deploys a release. *)
Definition deploys (c : M W (option Release + error)) (ns rel : string) : Prop :=
  forall w, reaches c w (fun o w' => (exists y, o = inl (Some y) /\ is_Some (rel_Info y)) /\
    installed w' = {[ (ns, rel) ]} ∪ installed w).

(** A selector holds of a resource when all its requirements do. *)
Definition satisfies (res : Unstructured) (condition : string) : Prop :=
  exists requirements, ParseSelector condition = inl requirements /\
    Forall (fun req => Matches req (Has res) (GetLabel res) = true) requirements.

(** The status indicators of the modules, and the first one for a kind. *)
Definition indicators : list ResourceStatusIndicator := modules ≫= (fun m => modspec_StatusIndicators (module_Spec m)).
Definition indicates (kind : string) (ind : ResourceStatusIndicator) : Prop :=
  exists before after, indicators = before ++ ind :: after /\ indicator_Kind ind = kind /\
    Forall (fun i => indicator_Kind i <> kind) before.

(** A resource that does not fail, and is ready when nothing is pending: by kstatus if no
    module has a status indicator for its kind; otherwise the failure condition of the
    indicator holds of it only together with the success condition, which holds when nothing
    is pending. *)
Record comes_up (w : W) (res : Unstructured) : Prop := {
  up_plain : Forall (fun i => indicator_Kind i <> res_Kind res) indicators ->
    (forall msg, kstatus_Compute res <> inl (FailedStatus, msg)) /\
    (pending w = 0 -> exists msg, kstatus_Compute res = inl (CurrentStatus, msg));
  up_indicated : forall ind, indicates (res_Kind res) ind ->
    (satisfies res (indicator_FailureCondition ind) -> satisfies res (indicator_SuccessCondition ind)) /\
    (pending w = 0 -> satisfies res (indicator_SuccessCondition ind))
}.

(** A cluster without failures. *)
Record cooperative : Prop := {
  coop_Secret k : yields (GetSecret (blr_Client r) k);
  coop_Modules ns : observes (List_ (ModulesClient (blr_Client r)) ns) (fun _ o => o = inl modules);
  coop_Login h u p i : observes (RegistryLogin (blr_Helmer r) h u p i) (fun _ _ => True);
  coop_Logout h : succeeds (RegistryLogout (blr_Helmer r) h);
  coop_Pull n d : succeeds (Pull (blr_Helmer r) n d);
  coop_Load n d : yields (LoadChart (blr_Helmer r) n d);
  coop_TempDir : yields (blr_TempDir r);
  coop_RemoveAll d : observes (blr_RemoveAll r d) (fun _ _ => True);
  coop_Install c ns rel args : deploys (Install (blr_Helmer r) c ns rel args) ns rel;
  coop_Upgrade c ns rel args : deploys (Upgrade (blr_Helmer r) c ns rel args) ns rel;
  coop_Status ns rel : observes (Status (blr_Helmer r) ns rel) (fun w o =>
    if decide ((ns, rel) ∈ installed w)
    then exists y, o = inl (Some y) /\ rel_Info y = Some StatusDeployed
    else exists e, o = inr e);
  coop_Resources ns rel : observes (GetResources (blr_Helmer r) ns rel) (fun w o =>
    (ns, rel) ∈ installed w -> exists l, o = inl l /\ Forall (comes_up w) l);
  coop_Uninstall ns rel w : reaches (Uninstall (blr_Helmer r) ns rel) w (fun _ w' =>
    installed w ∖ {[ (ns, rel) ]} ⊆ installed w' /\ pending w' <= pending w);
  coop_time w : installed (elapse w) = installed w /\ pending (elapse w) = pred (pending w)
}.
Context (Hc : cooperative).

(** ** Applying a chart *)

Lemma observes_ret {A} (a : A) (P : W -> A -> Prop) : (forall w, P w a) -> observes (mret a) P.
Proof. intros Hp w. apply reaches_ret. auto. Qed.

Lemma observes_bind {A B} (c : M W A) (k : A -> M W B) (P : W -> A -> Prop) (Q : W -> B -> Prop) :
  observes c P -> (forall a w, P w a -> observes (k a) (fun w' b => installed w' = installed w ->
    pending w' = pending w -> Q w b)) -> observes (c ≫= k) Q.
Proof.
  intros Hobs Hk w. eapply reaches_then; [apply Hobs|]. simpl. intros a w1 (Ha & Hi & Hp).
  eapply reaches_mono; [apply (Hk a w Ha)|]. simpl. intros b w2 (Hb & Hi2 & Hp2). split; [by apply Hb|]. split; congruence.
Qed.

Lemma tryLogin_observes repo creds : observes (tryLogin r repo creds) (fun _ _ => True).
Proof.
  induction creds as [|c creds IH]; simpl; [by apply observes_ret|].
  eapply observes_bind; [apply (coop_Login Hc)|]. intros [e|] w _; [|by apply observes_ret].
  intros w'. eapply reaches_mono; [apply IH|]. naive_solver.
Qed.

Definition parses (m : BlueprintModule) : Prop :=
  exists d, ParseNormalizedDomain (chart_Name (bpmodule_Chart m)) = inl d.

Lemma registryLogin_observes m : parses m -> yields (registryLogin r (bpmodule_Chart m)).
Proof.
  intros (d & Hd). unfold registryLogin. destruct (chart_ChartPullSecret _ <>? ""); [|apply observes_ret; eauto].
  eapply observes_bind; [apply (coop_Secret Hc)|]. intros o w (s & ->). simpl.
  destruct (secret_Type s =? _); [|apply observes_ret; eauto]. unfold getDomainFromImageName. rewrite Hd.
  destruct (LookupCredentials _ _) as [creds []]; [|apply observes_ret; eauto].
  eapply observes_bind; [apply tryLogin_observes|]. intros reg w1 _. apply observes_ret. eauto.
Qed.

Lemma deployChart_reaches chartSpec chart ns rel args w :
  reaches (deployChart r chartSpec chart ns rel args) w (fun err w' =>
    err = None /\ installed w' = {[ (ns, rel) ]} ∪ installed w).
Proof.
  unfold deployChart. eapply reaches_then; [apply (coop_Status Hc)|]. simpl. intros st w1 (_ & Hi & _).
  apply reaches_then with (P := fun o w' => (exists y, o = inl (Some y) /\ is_Some (rel_Info y)) /\
    installed w' = {[ (ns, rel) ]} ∪ installed w).
  - destruct st as [[x|]|err];
      (eapply reaches_then; [first [apply (coop_Install Hc)|apply (coop_Upgrade Hc)]|]; simpl;
       intros o w2 ((y & -> & Hy) & Hi2); apply reaches_ret; split; [eauto|congruence]).
  - intros o w2 (([n i] & -> & (i' & Hi')) & Hi2). simpl in Hi'. subst i. by apply reaches_ret.
Qed.

Lemma applyChartResource_reaches m args b rel w :
  parses m ->
  reaches (applyChartResource r (bpmodule_Chart m) args b rel) w (fun err w' =>
    err = None /\ installed w' = {[ (namespaceOf b, rel) ]} ∪ installed w).
Proof.
  intros Hm. unfold applyChartResource.
  eapply reaches_then; [by apply registryLogin_observes|]. simpl. intros o w1 ((reg & ->) & Hi1 & _).
  eapply reaches_then; [apply (coop_TempDir Hc)|]. simpl. intros o w2 ((tmp & ->) & Hi2 & _).
  eapply reaches_then with (P := fun err w' => err = None /\ installed w' = {[ (namespaceOf b, rel) ]} ∪ installed w).
  - unfold pullAndDeploy.
    eapply reaches_then; [apply (coop_Pull Hc)|]. simpl. intros e w3 (-> & Hi3 & _).
    apply reaches_then with (P := fun (e : option error) w' => e = None /\ installed w' = installed w).
    { destruct (reg <>? ""); [|apply reaches_ret; split; congruence].
      eapply reaches_mono; [apply (coop_Logout Hc)|]. simpl. intros e w4 (-> & Hi4 & _). split; congruence. }
    intros e w4 (-> & Hi4). eapply reaches_then; [apply (coop_Load Hc)|]. simpl. intros o w5 ((ch & ->) & Hi5 & _).
    eapply reaches_mono; [apply deployChart_reaches|]. simpl. intros e w6 (-> & Hi6). split; [done|]. unfold namespaceOf.
    congruence.
  - intros e w3 (-> & Hi3). eapply reaches_then; [apply (coop_RemoveAll Hc)|]. simpl. intros o w4 (_ & Hi4 & _).
    apply reaches_ret. split; congruence.
Qed.

(** ** Looking at a release *)

Lemma matchesCondition_spec res condition : matchesCondition res condition = true <-> satisfies res condition.
Proof using Type.
  unfold matchesCondition, satisfies. destruct (ParseSelector condition) as [reqs|err]; [|naive_solver].
  setoid_rewrite list.Forall_forall. rewrite forallb_forall. setoid_rewrite list_elem_of_In. split; [eauto|]. by intros (l & [= <-] & Hl).
Qed.

Lemma findIndicator_spec kind l :
  match findIndicator kind l with
  | Some ind => exists before after, l = before ++ ind :: after /\ indicator_Kind ind = kind /\
      Forall (fun i => indicator_Kind i <> kind) before
  | None => Forall (fun i => indicator_Kind i <> kind) l
  end.
Proof using Type.
  induction l as [|i l IH]; simpl; [constructor|]. destruct (String.eqb_spec (indicator_Kind i) kind) as [Hk|Hk].
  - by exists [], l.
  - destruct (findIndicator kind l) as [ind|]; [|by constructor].
    destruct IH as (before & after & -> & Hi & Hb). exists (i :: before), after. split; [done|]. split; [done|by constructor].
Qed.

(** The status the controller gives to a resource that comes up. *)
Lemma checkResourceStatus_up w0 res :
  comes_up w0 res -> observes (checkResourceStatus r res) (fun _ st =>
    st.1 <> ConditionFalse /\ (pending w0 = 0 -> st.1 = ConditionTrue)).
Proof.
  intros [Hplain Hind]. unfold checkResourceStatus, getExpectedResults.
  eapply observes_bind with (P := fun _ o => o = inl (findIndicator (res_Kind res) indicators)).
  { eapply observes_bind; [apply (coop_Modules Hc)|]. intros o w ->. by apply observes_ret. }
  intros o w ->. apply observes_ret. intros _ _ _. pose proof (findIndicator_spec (res_Kind res) indicators) as Hf.
  destruct (findIndicator _ _) as [ind|].
  - destruct (Hind ind Hf) as [Hfail Hup]. rewrite <- !matchesCondition_spec in *.
    destruct (matchesCondition res (indicator_SuccessCondition ind)); [done|].
    destruct (matchesCondition res (indicator_FailureCondition ind)); [by specialize (Hfail eq_refl)|].
    split; [done|]. intros Hz. by specialize (Hup Hz).
  - destruct (Hplain Hf) as [Hfail Hup]. destruct (kstatus_Compute res) as [[status msg]|err].
    + destruct (String.eqb_spec status FailedStatus) as [->|_]; [by destruct (Hfail msg)|].
      destruct (String.eqb_spec status CurrentStatus) as [_|Hne]; [done|]. split; [done|].
      intros (msg' & [= ? ?])%Hup. done.
    + split; [done|]. intros (msg' & [=])%Hup.
Qed.

Lemma countReady_reaches w0 resources n w :
  Forall (comes_up w0) resources ->
  reaches (countReady r resources n) w (fun out w' => installed w' = installed w /\ pending w' = pending w /\
    exists n', out = inr n' /\ (pending w0 = 0 -> n' = n + length resources)).
Proof.
  intros Hres. revert n w. induction Hres as [|res resources Hup _ IH]; intros n w; simpl.
  { apply reaches_ret. split; [done|]. split; [done|]. exists n. split; [done|lia]. }
  destruct (checkResourceStatus_up w0 res Hup w) as (st & w1 & E & [Hf Ht] & Hi & Hp).
  apply reaches_bind. exists st, w1. split; [done|]. apply String.eqb_neq in Hf. rewrite Hf.
  eapply reaches_mono; [apply IH|]. simpl. intros out w2 (Hi2 & Hp2 & n' & -> & Hn).
  split; [congruence|]. split; [congruence|]. exists n'. split; [done|]. intros Hz. specialize (Ht Hz). specialize (Hn Hz).
  rewrite Ht in Hn. simpl in Hn. lia.
Qed.

(** A module whose release is deployed is not reported as failed, and is ready when
    nothing is pending. *)
Lemma checkModule_reaches b i rel ls w :
  (namespaceOf b, rel) ∈ installed w ->
  reaches (checkModule r b i rel ls) w (fun ls' w' => installed w' = installed w /\ pending w' = pending w /\
    ls_Error ls' = ls_Error ls /\ ls_Releases ls' = ls_Releases ls /\
    (pending w = 0 -> ls_NumReady ls' = S (ls_NumReady ls))).
Proof.
  intros Hin. unfold checkModule, checkReleaseStatus.
  apply reaches_then with (P := fun st w' => installed w' = installed w /\ pending w' = pending w /\
    st.1 <> ConditionFalse /\ (pending w = 0 -> st.1 = ConditionTrue)).
  - eapply reaches_then; [apply (coop_Resources Hc)|]. simpl. intros o w1 (Ho & Hi & Hp).
    destruct (Ho Hin) as (l & -> & Hl). eapply reaches_then; [by apply countReady_reaches|]. simpl.
    intros out w2 (Hi2 & Hp2 & n & -> & Hn). apply reaches_ret. split; [congruence|]. split; [congruence|].
    destruct (Nat.eqb_spec n (length l)); simpl; [done|]. split; [done|]. intros Hz. specialize (Hn Hz). lia.
  - intros [st msg] w1 (Hi & Hp & Hf & Ht). apply reaches_ret. simpl in *. apply String.eqb_neq in Hf. rewrite Hf.
    split; [done|]. split; [done|]. destruct ls. destruct (String.eqb_spec st ConditionTrue) as [_|Hst]; simpl; [done|].
    split; [done|]. split; [done|]. intros Hz. by destruct Hst, Ht.
Qed.

Lemma applyModule_reaches b i rel m ls w :
  parses m ->
  reaches (applyModule r b i rel m ls) w (fun ls' w' => installed w' = {[ (namespaceOf b, rel) ]} ∪ installed w /\
    ls_Error ls' = ls_Error ls /\ ls_Releases ls' = ls_Releases ls).
Proof.
  intros Hm. unfold applyModule. eapply reaches_then; [by apply applyChartResource_reaches|]. simpl.
  intros e w1 (-> & Hi). apply reaches_ret. by destruct ls.
Qed.

(** ** A round *)

(** The release of a module is deployed. *)
Definition present (b : Blueprint) (w : W) (i : string) : Prop :=
  exists rel, moduleRelease b i = Done rel /\ (namespaceOf b, rel) ∈ installed w.

(** The releases of the loop state are those of the modules handled so far. *)
Definition recorded (b : Blueprint) (ls : LoopState) (i : string) : Prop :=
  exists rel, moduleRelease b i = Done rel /\ ls_Releases ls !! rel = Some (meta_Generation (bp_Meta b)).

Lemma handleModule_reaches upd b i m ls w :
  parses m ->
  reaches (handleModule r upd b i m ls) w (fun ls' w' =>
    installed w ⊆ installed w' /\ present b w' i /\ ls_Error ls' = ls_Error ls /\
    (forall j, recorded b ls j -> recorded b ls' j) /\ recorded b ls' i /\
    (upd = false -> present b w i -> pending w' = pending w /\
      (pending w = 0 -> ls_NumReady ls' = S (ls_NumReady ls)))).
Proof.
  intros Hm. unfold handleModule. destruct (GetReleaseName_returns (default "" (mget (meta_Labels (bp_Meta b)) ApplicationNameLabel))
    (default "" (mget (meta_Labels (bp_Meta b)) ApplicationNamespaceLabel)) i) as (rel & Hrel).
  change (moduleRelease b i = Done rel) in Hrel.
  apply reaches_bind. exists rel, w. rewrite Hrel. split; [done|].
  eapply reaches_then; [apply (coop_Status Hc)|]. simpl. intros o w1 (Ho & Hi1 & Hp1).
  apply reaches_then with (P := fun ls' w' => installed w ⊆ installed w' /\ (namespaceOf b, rel) ∈ installed w' /\
    ls_Error ls' = ls_Error ls /\ ls_Releases ls' = ls_Releases ls /\
    (upd = false -> (namespaceOf b, rel) ∈ installed w -> pending w' = pending w /\
      (pending w = 0 -> ls_NumReady ls' = S (ls_NumReady ls)))).
  - assert (Happly : (upd = false -> (namespaceOf b, rel) ∉ installed w) ->
      reaches (applyModule r b i rel m ls) w1 (fun ls' w' => installed w ⊆ installed w' /\ (namespaceOf b, rel) ∈ installed w' /\
        ls_Error ls' = ls_Error ls /\ ls_Releases ls' = ls_Releases ls /\
        (upd = false -> (namespaceOf b, rel) ∈ installed w -> pending w' = pending w /\
          (pending w = 0 -> ls_NumReady ls' = S (ls_NumReady ls))))).
    { intros Habs. eapply reaches_mono; [by apply applyModule_reaches|]. simpl. intros ls' w2 (Hi2 & He & Hr).
      rewrite Hi2, Hi1. split; [set_solver|]. split; [set_solver|]. split; [done|]. split; [done|].
      intros Hu Hin. by destruct (Habs Hu). }
    destruct upd; [by apply Happly|]. unfold namespaceOf in *. destruct (decide _) as [Hin|Hout]; cycle 1.
    { destruct Ho as (e & ->). by apply Happly. }
    destruct Ho as (y & -> & Hy). apply reaches_bind. exists StatusDeployed, w1. unfold releaseStatus. rewrite Hy.
    split; [done|]. change (StatusDeployed =? StatusFailed) with false. change (StatusDeployed =? StatusDeployed) with true.
    eapply reaches_mono; [apply checkModule_reaches; unfold namespaceOf; by rewrite Hi1|]. simpl.
    intros ls' w2 (Hi2 & Hp2 & He & Hr & Hn). rewrite Hi2, Hi1. split; [done|]. split; [done|]. split; [done|].
    split; [done|]. intros _ _. split; [congruence|]. intros Hz. apply Hn. congruence.
  - intros ls' w2 (Hsub & Hin & He & Hr & Hrest). apply reaches_ret. destruct ls' as [err sts rels n]. simpl in *. subst rels.
    split; [done|]. split; [by exists rel|]. split; [done|]. split; [|split].
    + intros j (rel' & Hj & Hg). exists rel'. split; [done|]. simpl. destruct (decide (rel = rel')) as [->|Hne];
        [by rewrite lookup_insert_eq|by rewrite lookup_insert_ne].
    + exists rel. split; [done|]. simpl. by rewrite lookup_insert_eq.
    + intros Hu (rel' & Hj & Hg). apply Hrest; [done|]. congruence.
Qed.

Lemma present_mono b w w' i : installed w ⊆ installed w' -> present b w i -> present b w' i.
Proof. intros Hsub (rel & Hrel & Hin). exists rel. split; [done|]. by apply Hsub. Qed.

Lemma handleModules_reaches upd b entries ls w :
  Forall (fun im => parses im.2) entries ->
  reaches (handleModules r upd b entries ls) w (fun ls' w' =>
    installed w ⊆ installed w' /\ Forall (fun im => present b w' im.1) entries /\ ls_Error ls' = ls_Error ls /\
    (forall j, recorded b ls j -> recorded b ls' j) /\ Forall (fun im => recorded b ls' im.1) entries /\
    (upd = false -> Forall (fun im => present b w im.1) entries -> pending w' = pending w /\
      (pending w = 0 -> ls_NumReady ls' = ls_NumReady ls + length entries))).
Proof.
  intros Hm. revert ls w. induction Hm as [|[i m] entries Hm _ IH]; intros ls w; simpl.
  { apply reaches_ret. repeat split; auto. }
  eapply reaches_then; [by apply handleModule_reaches|]. simpl.
  intros ls1 w1 (Hsub1 & Hpres1 & He1 & Hkeep1 & Hrec1 & Hgo1).
  eapply reaches_mono; [apply IH|]. simpl. intros ls2 w2 (Hsub2 & Hpres2 & He2 & Hkeep2 & Hrec2 & Hgo2).
  split; [by etrans|]. split; [constructor; [by eapply present_mono|done]|]. split; [congruence|].
  split; [auto|]. split; [constructor; [by apply Hkeep2|done]|].
  intros Hu [Hi Hrest]%Forall_cons_1. destruct (Hgo1 Hu Hi) as [Hp1 Hn1].
  destruct Hgo2 as [Hp2 Hn2]; [done| |].
  { eapply Forall_impl; [|exact Hrest]. intros [j mj]. by apply present_mono. }
  split; [congruence|]. intros Hz. rewrite Hn2 by congruence. rewrite Hn1 by done. lia.
Qed.

(** Old releases are removed, the others stay. *)
Lemma cleanReleases_reaches ns g releases known w :
  reaches (cleanReleases r ns g releases known) w (fun _ w' => pending w' <= pending w /\
    forall rel, (ns, rel) ∈ installed w -> (forall v, (rel, v) ∈ releases -> v = g) -> (ns, rel) ∈ installed w').
Proof.
  revert known w. induction releases as [|[rel v] releases IH]; intros known w; simpl; [by apply reaches_ret|].
  destruct (Z.eqb_spec v g) as [->|Hne]; simpl.
  { eapply reaches_mono; [apply IH|]. simpl. intros _ w1 (Hp & Hk). split; [done|]. intros rel' Hin Hv.
    apply Hk; [done|]. intros v' Hv'. apply Hv. by right. }
  eapply reaches_then; [apply (coop_Uninstall Hc)|]. simpl. intros o w1 (Hsub & Hp).
  assert (reaches (cleanReleases r ns g releases (from_option (fun _ => known) (delete rel known) o)) w1 (fun _ w' =>
    pending w' <= pending w /\ forall rel', (ns, rel') ∈ installed w ->
      (forall v', (rel', v') ∈ (rel, v) :: releases -> v' = g) -> (ns, rel') ∈ installed w')) as Hgo.
  { eapply reaches_mono; [apply IH|]. simpl. intros _ w2 (Hp2 & Hk). split; [lia|]. intros rel' Hin Hv. apply Hk.
    - apply Hsub. apply elem_of_difference. split; [done|]. intros [= ->]%elem_of_singleton. destruct Hne. apply Hv. by left.
    - intros v' Hv'. apply Hv. by right. }
  by destruct o.
Qed.

(** The modules of a blueprint are deployed, and their charts need not be applied again. *)
Definition settled (b : Blueprint) (w : W) : Prop :=
  bpstatus_ObservedGeneration (bp_Status b) = meta_Generation (bp_Meta b) /\
  map_Forall (fun i _ => present b w i) (bpspec_Modules (bp_Spec b)).

Definition well_named (b : Blueprint) : Prop := map_Forall (fun _ m => parses m) (bpspec_Modules (bp_Spec b)).

Definition ready (b : Blueprint) : Prop := bpstatus_ObservedState (bp_Status b) = mkObservedState true "".

(** The same blueprint with another status. *)
Definition same (b b' : Blueprint) : Prop := bp_Spec b' = bp_Spec b /\ bp_Meta b' = bp_Meta b.

Lemma well_named_same b b' : same b b' -> well_named b -> well_named b'.
Proof. unfold well_named. by intros [-> _]. Qed.

(** A round leaves the blueprint settled, without an error; it ends the polling exactly
    when the blueprint is ready, which a settled blueprint is when nothing is pending. *)
Lemma reconcile_reaches b w :
  well_named b ->
  reaches (reconcile r b) w (fun res w' => same b res.2 /\ settled res.2 w' /\
    (if Z.eqb (RequeueAfter res.1) 0 then ready res.2 else True) /\
    (settled b w -> pending w' <= pending w /\ (pending w = 0 -> RequeueAfter res.1 = 0%Z))).
Proof.
  intros Hm. pose proof (proj2 (range_Forall _ _) Hm) as Hms. unfold reconcile.
  eapply reaches_then; [by apply handleModules_reaches|]. simpl.
  intros ls w1 (Hsub & Hpres & He & _ & Hrec & Hgo).
  eapply reaches_then; [apply cleanReleases_reaches|]. simpl. intros known w2 (Hp & Hkeep). apply reaches_ret. simpl.
  split; [done|]. split; [|split].
  - split; [done|]. apply range_Forall, Forall_forall. intros [i m] Hi.
    rewrite Forall_forall in Hpres, Hrec. destruct (Hpres _ Hi) as (rel & Hrel & Hin). exists rel. split; [exact Hrel|].
    apply Hkeep; [done|]. intros v Hv%range_elem. destruct (Hrec _ Hi) as (rel' & Hrel' & Hg). simpl in *. congruence.
  - rewrite He. change ("" =? "") with true. unfold ready. simpl.
    destruct (Nat.eqb (ls_NumReady ls) _); simpl; [by rewrite He|done].
  - intros [Hgen Hs]. destruct Hgo as [Hp1 Hn]; [by rewrite Hgen, Z.eqb_refl|by apply (range_Forall (fun i _ => present b w i))|].
    split; [lia|]. intros Hz. rewrite Hn by done. simpl. by rewrite range_perm, length_map_to_list, Nat.eqb_refl.
Qed.

Lemma same_trans b1 b2 b3 : same b1 b2 -> same b2 b3 -> same b1 b3.
Proof. unfold same. intros [-> ->] [-> ->]. done. Qed.

Lemma settled_elapse b w : settled b w -> settled b (elapse w).
Proof.
  intros [Hg Hs]. split; [done|]. intros i m Hi. eapply present_mono; [|by eapply Hs]. by rewrite (proj1 (coop_time Hc w)).
Qed.

Lemma settled_poll k b w :
  well_named b -> settled b w -> pending w <= k ->
  reaches (poll (S k) b) w (fun o w' => exists b', o = Some b' /\ same b b' /\ ready b' /\ settled b' w').
Proof.
  revert b w. induction k as [|k IH]; intros b w Hm Hs Hk; cbn [poll];
    (eapply reaches_then; [by apply reconcile_reaches|]); simpl; intros [res b1] w1 (Hb1 & Hs1 & Hr & Hgo); simpl in *;
    destruct (Hgo Hs) as [Hp Hz]; destruct (Z.eqb_spec (RequeueAfter res) 0) as [_|Hreq]; try (apply reaches_ret; eauto).
  - destruct Hreq. apply Hz. lia.
  - destruct (IH b1 (elapse w1)) as (o & w2 & E & b2 & -> & Hb2 & Hr2 & Hs2);
      [by eapply well_named_same|by apply settled_elapse| |exists (Some b2), w2; split; [done|]; exists b2; eauto using same_trans].
    rewrite (proj2 (coop_time Hc w1)). destruct (pending w) as [|n]; [by destruct Hreq, Hz|lia].
Qed.

Lemma eventually_ready b w :
  well_named b ->
  exists n, reaches (poll n b) w (fun o w' => exists b', o = Some b' /\ same b b' /\ ready b' /\ settled b' w').
Proof.
  intros Hm. destruct (reconcile_reaches b w Hm) as ([res b1] & w1 & E & Hb1 & Hs1 & Hr & _). simpl in *.
  exists (S (S (pending w1))). cbn [poll]. apply reaches_bind. exists (res, b1), w1. split; [done|]. simpl.
  destruct (Z.eqb _ 0); [apply reaches_ret; eauto|].
  destruct (settled_poll (pending w1) b1 (elapse w1)) as (o & w2 & E2 & b2 & -> & Hb2 & Hr2 & Hs2);
    [by eapply well_named_same|by apply settled_elapse| |exists (Some b2), w2; split; [done|]; exists b2; eauto using same_trans].
  rewrite (proj2 (coop_time Hc w1)). lia.
Qed.
End Liveness.

