(* ===== verification/HelmImpl.v ===== *)
(** * The Helm client on the Helm SDK

    [pkg/helm/helm.go], the implementation that the manager runs with: each call makes a
    configuration for a namespace and runs an action of the SDK.  The SDK, the chart
    loader and the file system are parameters. *)
From stdpp Require Import base gmap strings list numbers.
From Stdlib Require Import Ascii.
From S2P Require Import Prelude GoStrings Types External Utils World BlueprintController BlueprintLiveness.

(** [kube.ResourceList]: refreshing a resource gives its object, which is unstructured
    or not. *)
Record ResourceInfo (W : Type) := mkResourceInfo { info_Get : M W (option error); info_Object : M W (option Unstructured) }.
Arguments mkResourceInfo {W}.
Arguments info_Get {W}.
Arguments info_Object {W}.

(** The actions of the SDK, each with the namespace of its configuration. *)
Record SDK (W Chart : Type) := mkSDK {
  (** [actionConfig.Init(config, namespace, driver, log)] *)
  sdk_Init : string -> string -> M W (option error);
  sdk_Uninstall : string -> string -> M W (option error);
  (** configuration, namespace of the action, release, chart, values *)
  sdk_Install : string -> string -> string -> Chart -> gmap string value -> M W (option Release + error);
  sdk_Upgrade : string -> string -> string -> Chart -> gmap string value -> M W (option Release + error);
  (** the release and its manifest *)
  sdk_Status : string -> string -> M W ((option Release * string) + error);
  sdk_RegistryLogin : string -> string -> string -> string -> bool -> M W (option error);
  sdk_RegistryLogout : string -> string -> M W (option error);
  (** version, destination, chart path *)
  sdk_Package : string -> string -> string -> M W (option error);
  (** version, destination, reference *)
  sdk_Pull : string -> string -> string -> string -> M W (option error);
  (** [config.KubeClient.Build(manifest, false)] *)
  sdk_Build : string -> string -> M W (list (ResourceInfo W) + error);
  loader_Load : string -> M W (Chart + error);
  os_Stat : string -> M W (option error);
  (** [action.ParseReference]: repository and tag *)
  ParseReference : string -> (string * string) + error
}.
Arguments mkSDK {W Chart}.
Arguments sdk_Init {W Chart}.
Arguments sdk_Uninstall {W Chart}.
Arguments sdk_Install {W Chart}.
Arguments sdk_Upgrade {W Chart}.
Arguments sdk_Status {W Chart}.
Arguments sdk_RegistryLogin {W Chart}.
Arguments sdk_RegistryLogout {W Chart}.
Arguments sdk_Package {W Chart}.
Arguments sdk_Pull {W Chart}.
Arguments sdk_Build {W Chart}.
Arguments loader_Load {W Chart}.
Arguments os_Stat {W Chart}.
Arguments ParseReference {W Chart}.

Definition chartsMountPath : string := "/opt/fybrik/charts/".
Definition ChartRef (hostname namespace name tagname : string) : string :=
  hostname +:+ "/" +:+ namespace +:+ "/" +:+ name +:+ ":" +:+ tagname.

Section Impl.
Context `{Runtime} {W Chart : Type} (sdk : SDK W Chart).

(** [getConfig]: the namespace of the configuration, when it can be made. *)
Definition getConfig (kubeNamespace : string) : M W (string + error) :=
  let kubeNamespace := if kubeNamespace =? "" then "default" else kubeNamespace in
  err ← sdk_Init sdk kubeNamespace (Getenv "HELM_DRIVER");
  mret (match err with Some err => inr err | None => inl kubeNamespace end).

(** [cfg, err := getConfig(ns); if err != nil { return err }] *)
Definition withConfig (kubeNamespace : string) (k : string -> M W (option error)) : M W (option error) :=
  cfg ← getConfig kubeNamespace;
  match cfg with inr err => mret (Some err) | inl cfg => k cfg end.
Definition withConfigOr {A} (kubeNamespace : string) (k : string -> M W (A + error)) : M W (A + error) :=
  cfg ← getConfig kubeNamespace;
  match cfg with inr err => mret (inr err) | inl cfg => k cfg end.

(** [filepath.Split] cuts after the last slash. *)
Definition packedChartPath (chartPath repo tag : string) : string :=
  chartPath +:+ "/" +:+ afterLastSlash repo +:+ "-" +:+ tag +:+ ".tgz".

Definition Impl_Load (ref chartPath : string) : M W (Chart + error) :=
  mounted ← loader_Load sdk (chartsMountPath +:+ ref);
  match mounted with
  | inl chart => mret (inl chart)
  | inr _ =>
      match ParseReference sdk ref with
      | inr err => mret (inr err)
      | inl (repo, tag) => loader_Load sdk (packedChartPath chartPath repo tag)
      end
  end.

Definition Impl_Pull (ref destination : string) : M W (option error) :=
  stat ← os_Stat sdk (chartsMountPath +:+ ref);
  match stat with
  | None => mret None
  | Some _ =>
      match ParseReference sdk ref with
      | inr err => mret (Some err)
      | inl (repo, tag) => withConfig "" (fun cfg => sdk_Pull sdk cfg tag destination ("oci://" +:+ repo))
      end
  end.

Definition Impl_Package (chartPath destinationPath version : string) : M W (option error) :=
  sdk_Package sdk version destinationPath chartPath.

(** The loop over the resources of a manifest. *)
Fixpoint collectResources (resourceList : list (ResourceInfo W)) (resources : list Unstructured)
    : M W (list Unstructured + error) :=
  match resourceList with
  | [] => mret (inl resources)
  | res :: rest =>
      err ← info_Get res;
      match err with
      | Some err => mret (inr err)
      | None =>
          obj ← info_Object res;
          match obj with
          | Some unstr => collectResources rest (resources ++ [unstr])
          | None => mret (inr (newError "invalid runtime object"))
          end
      end
  end.

Definition Impl_GetResources (kubeNamespace releaseName : string) : M W (list Unstructured + error) :=
  withConfigOr kubeNamespace (fun cfg =>
    rel ← sdk_Status sdk cfg releaseName;
    match rel with
    | inr err => mret (inr err)
    | inl (None, _) => panic "invalid memory address or nil pointer dereference"
    | inl (Some _, manifest) =>
        resourceList ← sdk_Build sdk cfg manifest;
        match resourceList with
        | inr err => mret (inr err)
        | inl resourceList => collectResources resourceList []
        end
    end).

(** [helm.Impl] as an implementation of the interface of the controller *)
Definition Impl : Helm W Chart := {|
  Uninstall kubeNamespace releaseName := withConfig kubeNamespace (fun cfg => sdk_Uninstall sdk cfg releaseName);
  Install chart kubeNamespace releaseName vals :=
    withConfigOr kubeNamespace (fun cfg => sdk_Install sdk cfg kubeNamespace releaseName chart vals);
  Upgrade chart kubeNamespace releaseName vals :=
    withConfigOr kubeNamespace (fun cfg => sdk_Upgrade sdk cfg kubeNamespace releaseName chart vals);
  Status kubeNamespace releaseName :=
    withConfigOr kubeNamespace (fun cfg =>
      rel ← sdk_Status sdk cfg releaseName;
      mret (match rel with inr err => inr err | inl (rel, _) => inl rel end));
  RegistryLogin hostname username password insecure :=
    withConfig "" (fun cfg => sdk_RegistryLogin sdk cfg hostname username password insecure);
  RegistryLogout hostname := withConfig "" (fun cfg => sdk_RegistryLogout sdk cfg hostname);
  Pull := Impl_Pull;
  LoadChart := Impl_Load;
  GetResources := Impl_GetResources |}.
End Impl.

(** ** A pulled chart is the one that is loaded *)

(** The file system and the registry: the charts that files hold.  "helm pull" saves the
    chart of a reference in the destination, under its name and version. *)
Class RegistryLaws {W Chart} (sdk : SDK W Chart) (file : W -> gmap string Chart)
    (published : string -> string -> option Chart) : Prop := {
  load_file path w : reaches (loader_Load sdk path) w (fun r w' => file w' = file w /\
    match file w !! path with Some c => r = inl c | None => exists e, r = inr e end);
  stat_file path w : reaches (os_Stat sdk path) w (fun r w' => file w' = file w /\ (r = None <-> is_Some (file w !! path)));
  init_file ns driver w : reaches (sdk_Init sdk ns driver) w (fun _ w' => file w' = file w);
  pull_file cfg tag dest repo c w w' :
    sdk_Pull sdk cfg tag dest ("oci://" +:+ repo) w = Done (None, w') -> published repo tag = Some c ->
    file w' = <[packedChartPath dest repo tag := c]> (file w)
}.

Section PullFacts.
Context `{Runtime} {W Chart : Type} (sdk : SDK W Chart) (file : W -> gmap string Chart)
  (published : string -> string -> option Chart) `{!RegistryLaws sdk file published}.

(** A chart that is not mounted ends up in the destination. *)
Lemma pull_saves ref dest repo tag c w w1 :
  ParseReference sdk ref = inl (repo, tag) -> published repo tag = Some c ->
  Impl_Pull sdk ref dest w = Done (None, w1) ->
  file w1 = if decide (is_Some (file w !! (chartsMountPath +:+ ref))) then file w
            else <[packedChartPath dest repo tag := c]> (file w).
Proof.
  intros Hp Hc E. unfold Impl_Pull in E. m_step E.
  destruct (stat_file (chartsMountPath +:+ ref) w) as (st & w2 & E2 & Hf & Hst). rewrite E0 in E2. simplify_eq.
  destruct st as [err|].
  - rewrite decide_False by (rewrite <- Hst; done). rewrite Hp in E. unfold withConfig in E.
    destruct (init_file (sdk := sdk) "default" (Getenv "HELM_DRIVER") w2) as (e & w3 & E3 & Hf3).
    assert (getConfig sdk "" w2 = Done (match e with Some err => inr err | None => inl "default" end, w3)) as Hg.
    { unfold getConfig. simpl. by rewrite (M_bind_run _ _ _ _ _ E3). }
    rewrite (M_bind_run _ _ _ _ _ Hg) in E. destruct e as [e|]; [by m_step E|].
    rewrite (pull_file _ _ _ _ _ _ _ E Hc). congruence.
  - rewrite decide_True by (by apply Hst). by m_step E.
Qed.

(** What is pulled is what is loaded: after a successful pull of a reference the chart
    that is loaded for it is the one mounted in the container, if there is one, and
    otherwise the one published under its repository and tag. *)
Theorem pull_then_load ref dest repo tag c w w1 :
  ParseReference sdk ref = inl (repo, tag) -> published repo tag = Some c ->
  packedChartPath dest repo tag <> chartsMountPath +:+ ref ->
  Impl_Pull sdk ref dest w = Done (None, w1) ->
  reaches (Impl_Load sdk ref dest) w1 (fun r _ =>
    r = inl (default c (file w !! (chartsMountPath +:+ ref)))).
Proof.
  intros Hp Hc Hne E. apply (pull_saves ref dest repo tag c) in E; [|done..]. unfold Impl_Load.
  eapply reaches_then; [apply load_file|]. simpl. intros r w2 (Hf2 & Hr). rewrite E in Hr.
  destruct (decide _) as [[m Hm]|Hnone].
  - rewrite Hm in Hr |- *. subst r. by apply reaches_ret.
  - rewrite lookup_insert_ne in Hr by done. destruct (file w !! _) as [m|]; [destruct Hnone; eauto|].
    destruct Hr as (e & ->). rewrite Hp. eapply reaches_mono; [apply load_file|]. simpl. intros r w3 (_ & Hr).
    rewrite Hf2, E, lookup_insert_eq in Hr. done.
Qed.

(** The resources of a release are all listed, in their order, or an error is returned. *)
Lemma collectResources_spec (l : list (ResourceInfo W)) acc w r w' :
  collectResources l acc w = Done (r, w') ->
  match r with
  | inl out => exists objs, out = acc ++ objs /\
      Forall2 (fun (i : ResourceInfo W) o => exists w1 w2, info_Object i w1 = Done (Some o, w2)) l objs
  | inr _ => True
  end.
Proof.
  revert acc w. induction l as [|i l IH]; intros acc w E; cbn [collectResources] in E.
  { m_step E. exists []. by rewrite app_nil_r. }
  m_step E. destruct a as [err|]; [by m_step E|]. m_step E. destruct a as [o|]; [|by m_step E].
  apply IH in E. destruct r as [out|err]; [|done]. destruct E as (objs & -> & Hobjs).
  exists (o :: objs). rewrite <- app_assoc. split; [done|]. constructor; [|done]. eauto.
Qed.
End PullFacts.

(** ** Instances *)
Module HelmExamples.

(** Charts as texts: the chart of a reference is its repository and tag. *)
Notation disk := (gmap string string).
Definition chart_of (repo tag : string) : option string := Some (repo +:+ ":" +:+ tag).
Definition missing : error := newError "no such file or directory".
Definition sdk : SDK disk string := {|
  sdk_Init _ _ w := Done (None, w); sdk_Uninstall _ _ w := Done (None, w);
  sdk_Install _ _ rel _ _ w := Done (inl (Some (mkRelease rel (Some StatusDeployed))), w);
  sdk_Upgrade _ _ rel _ _ w := Done (inl (Some (mkRelease rel (Some StatusDeployed))), w);
  sdk_Status _ _ w := Done (inr missing, w); sdk_RegistryLogin _ _ _ _ _ w := Done (None, w);
  sdk_RegistryLogout _ _ w := Done (None, w); sdk_Package _ _ _ w := Done (None, w);
  sdk_Pull _ tag dest ref w := let repo := str_drop 6 ref in
    Done (None, <[packedChartPath dest repo tag := repo +:+ ":" +:+ tag]> w);
  sdk_Build _ _ w := Done (inl [], w);
  loader_Load path w := Done (match w !! path with Some c => inl c | None => inr missing end, w);
  os_Stat path w := Done (match w !! path with Some _ => None | None => Some missing end, w);
  ParseReference ref := match Split ref ":" with [repo; tag] => inl (repo, tag) | _ => inr (newError "invalid reference") end |}.

#[export] Instance sdk_laws : RegistryLaws sdk id chart_of.
Proof.
  split.
  - intros path w. eexists _, w. split; [done|]. simpl. unfold id. split; [done|].
    destruct (w !! path); [done|by eexists].
  - intros path w. eexists _, w. split; [done|]. simpl. unfold id. split; [done|].
    destruct (w !! path); split; done || (intros [? ?]; done).
  - intros ns driver w. by eexists _, w.
  - intros cfg tag dest repo c w w' [= <-] [= <-]. done.
Qed.

Lemma pull_then_load_witness :
  reaches (Impl_Load sdk "ghcr.io/fybrik/reader:1.0" "/tmp/charts") {[ "/tmp/charts/reader-1.0.tgz" := "ghcr.io/fybrik/reader:1.0" ]}
    (fun r _ => r = inl "ghcr.io/fybrik/reader:1.0").
Proof.
  exact (@pull_then_load (Concrete.env []) disk string sdk id chart_of _ "ghcr.io/fybrik/reader:1.0" "/tmp/charts"
    "ghcr.io/fybrik/reader" "1.0" "ghcr.io/fybrik/reader:1.0" ∅ _ eq_refl eq_refl ltac:(vm_compute; discriminate) eq_refl).
Defined.
End HelmExamples.
