(* ===== verification/BlueprintExamples.v ===== *)
(** * The blueprint controller and the local cluster on small deployments

    Instances on which the hypotheses of the theorems about the blueprint controller
    and about the local cluster hold. *)
From stdpp Require Import base gmap strings list numbers.
From Stdlib Require Import Ascii.
From S2P Require Import Prelude GoStrings Types External Utils Policy World MultiCluster Storage SelectModules PlotterGen PlotterController PlotterFacts BlueprintController BlueprintFacts ClusterFacts BlueprintLiveness PlotterCtlExamples.
Import SelectExamples.

Module BlueprintExamples.

(** Selectors are names of fields that must exist; a resource is current. *)
Definition statuses : ResourceStatus := {|
  Requirement := string;
  ParseSelector s := inl (if s =? "" then [] else [s]);
  Matches req has _ := has req;
  NestedFieldNoCopy obj fields := (nested obj fields, bool_decide (is_Some (nested obj fields)), None);
  kstatus_Compute _ := inl (CurrentStatus, "") |}.
Definition registry : Registry := {|
  ParseNormalizedDomain _ := inl "ghcr.io"; Keyring := unit; MakeDockerKeyring _ := tt;
  LookupCredentials _ _ := ([("user", "password")], true) |}.

(** Modules of the deployment and one pull secret. *)
Definition pullSecret : Secret := mkSecret "kubernetes.io/dockerconfigjson" ∅.
Definition client (modules : list FybrikModule) : Client Fake.state := {|
  Applications := ConcreteStore.absent; Plotters := ConcreteStore.absent; Blueprints := ConcreteStore.absent;
  ModulesClient := {| Get _ w := Done (inr ConcreteStore.notFound, w); List_ _ w := Done (inl modules, w);
    Create o w := Done (inl o, w); Update o w := Done (inl o, w); StatusUpdate o w := Done (inl o, w);
    Delete _ w := Done (None, w); CreateOrUpdate _ _ w := Done (None, w); RetryOnConflict f o := f o |};
  ListStorageAccounts _ w := Done (inl [], w);
  GetSecret _ w := Done (inl pullSecret, w); GetConfigMap _ w := Done (inr ConcreteStore.notFound, w) |}.
Definition reconciler (modules : list FybrikModule) (helm : Helm Fake.state unit) : BlueprintReconciler Fake.state unit :=
  mkBlueprintReconciler (client modules) "Blueprint" helm
    (fun w => Done (inl "/tmp/fybrik-helm-1", w)) (fun _ w => Done (None, w)).

Definition readArg : ReadModuleArgs := mkReadModuleArgs zeroDataStore "assets/1" [redact].
Definition arguments : ModuleArguments :=
  mkModuleArguments None (mkLabelSelector {[ "app" := "notebook" ]} []) None [readArg] [].
Definition chart : ChartSpec := mkChartSpec "ghcr.io/fybrik/arrow-flight:1.0" "pull" {[ "image.tag" := "latest" ]}.
Definition reader : BlueprintModule := mkBlueprintModule "arrow-flight" chart arguments ["assets/1"].
Definition blueprint : Blueprint :=
  mkBlueprint (meta "notebook") (mkBlueprintSpec "thegreendragon" "fybrik-blueprints" {[ "arrow-flight" := reader ]})
    (mkBlueprintStatus (mkObservedState false "") 1 None None).

Lemma chart_values_carry_actions_witness :
  exists entries m, @chartArgs canonical_range chart (StructToMap_ModuleArguments arguments) !! "read" = Some (VList entries) /\
    VMap m ∈ entries /\ m !! "assetID" = Some (VString "assets/1") /\
    m !! "transformations" = Some (VList (Action_MarshalJSON <$> [redact])).
Proof.
  apply (@chart_values_carry_actions canonical_range chart arguments readArg).
  - change (chart_Values chart) with ({[ "image.tag" := "latest" ]} : gmap string string).
    apply map_Forall_singleton. vm_compute. discriminate.
  - by left.
  - discriminate.
Defined.

(** The release is deployed and has one resource. *)
Definition deployed : Fake.state :=
  Fake.NewFake (Some (mkRelease "release" (Some StatusDeployed))) [mkUnstructured "Deployment" ∅].
Definition fake : BlueprintReconciler Fake.state unit := reconciler [] Fake.helm.

Notation reconcileOf := (@reconcile canonical_range Concrete.k8s (Concrete.env []) statuses registry Fake.state unit).

Definition after := match reconcileOf fake blueprint deployed with Done x => x | Panic _ => (noResult, blueprint, deployed) end.
Lemma after_run : reconcileOf fake blueprint deployed = Done ((after.1.1, after.1.2), after.2).
Proof. vm_compute. reflexivity. Qed.

Lemma blueprint_ready_sound_witness :
  os_Error (bpstatus_ObservedState (bp_Status after.1.2)) = "" /\
  map_Forall (fun instance _ =>
    bpstatus_ObservedGeneration (bp_Status blueprint) = meta_Generation (bp_Meta blueprint) /\
    @runs Concrete.k8s (Concrete.env []) statuses Fake.state unit fake blueprint instance /\
    mget (bpstatus_ModulesState (bp_Status after.1.2)) instance = Some (mkObservedState true ""))
    (bpspec_Modules (bp_Spec blueprint)).
Proof. apply (blueprint_ready_sound fake blueprint deployed _ _ _ after_run). vm_compute. reflexivity. Defined.

Lemma blueprint_releases_exact_witness :
  map_Forall (fun instance _ => exists rel, moduleRelease blueprint instance = Done rel /\
    mget (bpstatus_Releases (bp_Status after.1.2)) rel = Some 1%Z) (bpspec_Modules (bp_Spec blueprint)).
Proof. apply (blueprint_releases_exact fake blueprint deployed _ _ _ after_run). Defined.

(** A Helm whose releases are always deployed. *)
Definition steady : Helm Fake.state unit := {|
  Uninstall := Uninstall Fake.helm; Install := Install Fake.helm; Upgrade := Upgrade Fake.helm;
  Status _ rel s := Done (inl (Some (mkRelease rel (Some StatusDeployed))), s);
  RegistryLogin := RegistryLogin Fake.helm; RegistryLogout := RegistryLogout Fake.helm; Pull := Pull Fake.helm;
  LoadChart := LoadChart Fake.helm; GetResources := GetResources Fake.helm |}.

Lemma steady_services : services (reconciler [] steady).
Proof.
  split; intros; intros w; eexists _, _; (split; [reflexivity|]); try done.
  - intros x [= <-]. by eexists.
  - intros x [= <-]. eexists. split; [reflexivity|]. by eexists.
  - intros x [= <-]. eexists. split; [reflexivity|]. by eexists.
Qed.

Lemma blueprint_reconcile_returns_witness : exists out w',
  reconcileOf (reconciler [] steady) blueprint deployed = Done (out, w').
Proof.
  destruct (@blueprint_reconcile_returns canonical_range Concrete.k8s (Concrete.env []) statuses registry
    Fake.state unit (reconciler [] steady) blueprint steady_services deployed) as (out & w' & E & _).
  exists out, w'. exact E.
Defined.

Definition lost : error := newError "connection lost".

(** A cluster whose resources come up three rounds after the last change. *)
Record cluster := mkCluster { cl_Releases : gset (string * string); cl_Waiting : nat }.
Definition slow_install (ns rel : string) : M cluster (option Release + error) := fun c =>
  Done (inl (Some (mkRelease rel (Some StatusDeployed))), mkCluster ({[ (ns, rel) ]} ∪ cl_Releases c) 3).
Definition slow : Helm cluster unit := {|
  Uninstall ns rel c := Done (None, mkCluster (cl_Releases c ∖ {[ (ns, rel) ]}) (cl_Waiting c));
  Install _ ns rel _ := slow_install ns rel; Upgrade _ ns rel _ := slow_install ns rel;
  Status ns rel c := Done (if decide ((ns, rel) ∈ cl_Releases c)
    then inl (Some (mkRelease rel (Some StatusDeployed))) else inr lost, c);
  RegistryLogin _ _ _ _ c := Done (None, c); RegistryLogout _ c := Done (None, c); Pull _ _ c := Done (None, c);
  LoadChart _ _ c := Done (inl tt, c);
  GetResources _ _ c := Done (inl [mkUnstructured (if cl_Waiting c then "Deployment" else "Pending") ∅;
    mkUnstructured "Batch" (if cl_Waiting c then {[ "done" := VString "yes" ]} else ∅)], c) |}.

(** Selectors are names of fields that must exist; a deployment is current. *)
Definition slow_statuses : ResourceStatus := {|
  Requirement := string; ParseSelector s := inl (if s =? "" then [] else [s]); Matches req has _ := has req;
  NestedFieldNoCopy obj fields := (nested obj fields, bool_decide (is_Some (nested obj fields)), None);
  kstatus_Compute res := inl (if res_Kind res =? "Deployment" then CurrentStatus else "InProgress", "") |}.
(** A module that says when a batch is done, and when it has failed. *)
Definition batches : FybrikModule :=
  mkFybrikModule (meta "batches") (mkFybrikModuleSpec "" "service" "" [] [] (mkChartSpec "chart" "" ∅)
    [mkResourceStatusIndicator "Batch" "done" "failed" "error"]) (mkFybrikModuleStatus []).
Definition slow_reconciler : BlueprintReconciler cluster unit :=
  mkBlueprintReconciler {|
    Applications := ConcreteStore.absent; Plotters := ConcreteStore.absent; Blueprints := ConcreteStore.absent;
    ModulesClient := {| Get _ w := Done (inr ConcreteStore.notFound, w); List_ _ w := Done (inl [batches], w);
      Create o w := Done (inl o, w); Update o w := Done (inl o, w); StatusUpdate o w := Done (inl o, w);
      Delete _ w := Done (None, w); CreateOrUpdate _ _ w := Done (None, w); RetryOnConflict f o := f o |};
    ListStorageAccounts _ w := Done (inl [], w);
    GetSecret _ w := Done (inl pullSecret, w); GetConfigMap _ w := Done (inr ConcreteStore.notFound, w) |}
    "Blueprint" slow (fun w => Done (inl "/tmp/fybrik-helm-1", w)) (fun _ w => Done (None, w)).
Definition wait (c : cluster) : cluster := mkCluster (cl_Releases c) (pred (cl_Waiting c)).

(** The only indicator is the one for batches. *)
Lemma only_batches kind ind : indicates [batches] kind ind ->
  kind = "Batch" /\ ind = mkResourceStatusIndicator "Batch" "done" "failed" "error".
Proof.
  intros (before & after & E & Hk & _). simpl in E. destruct before as [|i before]; simpl in E.
  - injection E as <- <-. by subst.
  - injection E as _ E. by destruct before.
Qed.

Lemma slow_comes_up c :
  @comes_up Concrete.k8s slow_statuses cluster cl_Waiting [batches] c (mkUnstructured (if cl_Waiting c then "Deployment" else "Pending") ∅) /\
  @comes_up Concrete.k8s slow_statuses cluster cl_Waiting [batches] c (mkUnstructured "Batch" (if cl_Waiting c then {[ "done" := VString "yes" ]} else ∅)).
Proof.
  destruct c as [releases [|n]]; split; split; simpl.
  - intros _. split; [done|]. by eexists.
  - intros ind [[=] _]%only_batches.
  - by intros [[] _]%Forall_cons_1.
  - intros ind [_ ->]%only_batches. assert (@satisfies Concrete.k8s slow_statuses (mkUnstructured "Batch" {[ "done" := VString "yes" ]}) "done")
      by (exists ["done"]; split; [done|]; constructor; [by vm_compute|constructor]). done.
  - intros _. split; [done|]. discriminate.
  - intros ind [[=] _]%only_batches.
  - by intros [[] _]%Forall_cons_1.
  - intros ind [_ ->]%only_batches. split; [|discriminate]. intros (reqs & [= <-] & [Hr _]%Forall_cons_1). by vm_compute in Hr.
Qed.

Lemma slow_cooperative :
  @cooperative Concrete.k8s slow_statuses cluster unit slow_reconciler cl_Releases cl_Waiting wait [batches].
Proof.
  split; try (intros; intros w; eexists _, w; simpl; eauto; fail).
  - intros c ns rel args w. eexists _, _. split; [done|]. simpl. eauto.
  - intros c ns rel args w. eexists _, _. split; [done|]. simpl. eauto.
  - intros ns rel w. eexists _, w. split; [done|]. simpl. split; [|done]. destruct (decide _); eauto.
  - intros ns rel w. eexists _, w. split; [done|]. split; [|done]. intros _. eexists. split; [done|].
    destruct (slow_comes_up w) as [Hd Hb]. exact (Forall_cons_2 _ _ _ Hd (Forall_cons_2 _ _ _ Hb (Forall_nil_2 _))).
  - intros ns rel w. eexists _, _. split; [done|]. simpl. split; [done|lia].
  - done.
Qed.


(** The first round installs the chart, the fourth finds its resources ready. *)
Example four_rounds :
  (fun n => match @poll canonical_range Concrete.k8s (Concrete.env []) slow_statuses registry cluster unit slow_reconciler wait n
     blueprint (mkCluster ∅ 0) with Done (Some _, _) => true | _ => false end) <$> [3; 4] = [false; true].
Proof. vm_compute. reflexivity. Qed.

(** A registry that does not answer the logout. *)
Definition noLogout : Helm Fake.state unit := {|
  Uninstall _ _ s := Done (Some lost, s); Install := Install Fake.helm; Upgrade := Upgrade Fake.helm;
  Status := Status Fake.helm; RegistryLogin := RegistryLogin Fake.helm; RegistryLogout _ s := Done (Some lost, s);
  Pull := Pull Fake.helm; LoadChart := LoadChart Fake.helm; GetResources := GetResources Fake.helm |}.
Definition empty : Fake.state := Fake.NewFake None [].

Lemma logout_failure_is_hidden_witness :
  @applyChartResource canonical_range (Concrete.env []) registry Fake.state unit (reconciler [] noLogout) chart ∅
    blueprint "release" empty = Done (None, empty).
Proof.
  apply (@logout_failure_is_hidden canonical_range (Concrete.env []) registry Fake.state unit (reconciler [] noLogout)
    chart ∅ blueprint "release" empty "ghcr.io" empty "/tmp/fybrik-helm-1" empty empty lost empty None empty);
    try reflexivity. discriminate.
Defined.

(** A module that indicates when its resource is ready, but not when it has failed. *)
Definition indicator : ResourceStatusIndicator := mkResourceStatusIndicator "Batch" "status.done" "" "status.error".
Definition batch : FybrikModule :=
  mkFybrikModule (meta "batch") (mkFybrikModuleSpec "" "service" "" [] [] (mkChartSpec "chart" "" ∅) [indicator])
    (mkFybrikModuleStatus []).

Lemma unspecified_failure_condition_fails_witness :
  exists msg, @checkResourceStatus Concrete.k8s (Concrete.env []) statuses Fake.state unit
    (reconciler [batch] Fake.helm) (mkUnstructured "Batch" ∅) empty = Done ((ConditionFalse, msg), empty).
Proof.
  apply (@unspecified_failure_condition_fails Concrete.k8s (Concrete.env []) statuses Fake.state unit
    (reconciler [batch] Fake.helm) (mkUnstructured "Batch" ∅) empty indicator empty); vm_compute; reflexivity.
Defined.

(** A blueprint under deletion whose release cannot be uninstalled. *)
Definition accepting : Client Fake.state := {|
  Applications := ConcreteStore.absent; Plotters := ConcreteStore.absent; ModulesClient := ConcreteStore.absent;
  Blueprints := {| Get _ w := Done (inr ConcreteStore.notFound, w); List_ _ w := Done (inl [], w);
    Create o w := Done (inl o, w); Update o w := Done (inl o, w); StatusUpdate o w := Done (inl o, w);
    Delete _ w := Done (None, w); CreateOrUpdate _ _ w := Done (None, w); RetryOnConflict f o := f o |};
  ListStorageAccounts _ w := Done (inl [], w);
  GetSecret _ w := Done (inl pullSecret, w); GetConfigMap _ w := Done (inr ConcreteStore.notFound, w) |}.
Definition deleting : BlueprintReconciler Fake.state unit :=
  mkBlueprintReconciler accepting "Blueprint" noLogout (fun w => Done (inl "/tmp", w)) (fun _ w => Done (None, w)).
Definition dying : Blueprint := blueprint
  <| bp_Meta := (meta "notebook") <| meta_DeletionTimestamp := Some 1%Z |> <| meta_Finalizers := ["Blueprint.finalizer"] |> |>
  <| bp_Status := mkBlueprintStatus (mkObservedState true "") 1 None (Some {[ "release" := 1%Z ]}) |>.

Lemma blueprint_deletion_ignores_failure_witness : exists b',
  @reconcileFinalizers canonical_range Concrete.k8s Fake.state unit deleting dying empty = Done ((None, b'), empty) /\
  meta_Finalizers (bp_Meta b') = [].
Proof.
  exists (setBlueprintFinalizers [] dying). split; [|reflexivity].
  apply (@blueprint_deletion_ignores_failure canonical_range Concrete.k8s Fake.state unit deleting dying empty
    (newError "connection lost") empty); vm_compute; reflexivity.
Defined.

(** ** The local cluster *)
Definition localData : gmap string string := {[ "ClusterName" := "thegreendragon"; "Region" := "theshire" ]}.
Notation store := (gmap NamespacedName Blueprint).
Definition localClient : Client store := {|
  Applications := ConcreteStore.absent; Plotters := ConcreteStore.absent; ModulesClient := ConcreteStore.absent;
  Blueprints := ConcreteStore.client ObjectKey; ListStorageAccounts _ w := Done (inl [], w);
  GetSecret _ w := Done (inl pullSecret, w); GetConfigMap _ w := Done (inl localData, w) |}.
Definition localReconciler : PlotterReconciler store :=
  mkPlotterReconciler ConcreteStore.absent "Plotter" (Local.manager localClient "fybrik-system")
    (fun w => Done (7%Z, w)) (fun _ w => Done (1%Z, w)).

Lemma Local_update_get_witness :
  exists w' b', Local.UpdateBlueprint localClient "fybrik-system" "thegreendragon" blueprint ∅ = Done (None, w') /\
    Local.GetBlueprint localClient "fybrik-system" "thegreendragon" "fybrik-system" "notebook" w' =
      Done (inl (Some b'), w') /\ bp_Spec b' = bp_Spec blueprint.
Proof.
  pose proof (@Local_update_get store localClient "fybrik-system" (fun w k => w !! k)
    (ConcreteStore.laws ObjectKey) localData (fun w => eq_refl) "thegreendragon" blueprint ∅) as T.
  change (localName localData =? "thegreendragon") with true in T. destruct T as (w' & b' & Hu & Hg & Hs & _).
  exists w', b'. split; [exact Hu|]. split; [exact Hg|exact Hs].
Defined.

(** The plotter of the example, recorded as deployed, on an empty cluster. *)
Definition theRecord : MetaBlueprint := CreateMetaBlueprintWithoutState PlotterCtlExamples.running.
Definition lostRun := match @PlotterController.reconcile canonical_range store localReconciler PlotterCtlExamples.deployed ∅
  with Done x => x | Panic _ => (noResult, [], PlotterCtlExamples.deployed, ∅) end.

Lemma lost_blueprint_not_recreated_witness :
  lostRun.1.1.2 <> [] /\ mget (plstatus_Blueprints (pl_Status lostRun.1.2)) "thegreendragon" = Some theRecord.
Proof.
  apply (@lost_blueprint_not_recreated store localClient "fybrik-system" (fun w k => w !! k)
    (ConcreteStore.laws ObjectKey) localData (fun w => eq_refl) canonical_range Concrete.k8s localReconciler eq_refl
    PlotterCtlExamples.deployed "thegreendragon" PlotterCtlExamples.theSpec theRecord ∅ ∅
    lostRun.1.1.1 lostRun.1.1.2 lostRun.1.2 lostRun.2); vm_compute; reflexivity.
Defined.

Lemma lost_blueprint_blocks_deletion_witness :
  exists e, @PlotterController.reconcileFinalizers canonical_range Concrete.k8s store localReconciler
    PlotterCtlExamples.dying ∅ = Done ((Some e, PlotterCtlExamples.dying), ∅).
Proof.
  apply (@lost_blueprint_blocks_deletion store localClient "fybrik-system" (fun w k => w !! k)
    (ConcreteStore.laws ObjectKey) localData (fun w => eq_refl) canonical_range Concrete.k8s localReconciler eq_refl
    PlotterCtlExamples.dying "thegreendragon" theRecord); vm_compute; reflexivity.
Defined.
End BlueprintExamples.
