(* ===== verification/Vault.v ===== *)
(** * Vault

    [pkg/vault]: the interface to a Vault server, its implementation on the Vault API
    ([vault_impl.go]) and the in-memory implementation ([vault_dummy.go]).  The client
    library of Vault and the HTTP client are parameters. *)
From stdpp Require Import base gmap strings list numbers.
From S2P Require Import Prelude GoStrings Types External Utils GoJSON.

(** [vault.Interface].  A struct passed to [AddSecretFromStruct] is given by its JSON. *)
Record VaultInterface (W : Type) := mkVaultInterface {
  LinkPolicyToIdentity (identity policyName boundedNamespace serviceAccount auth ttl : string) : M W (option error);
  RemovePolicyFromIdentity (identity policyName auth : string) : M W (option error);
  WritePolicy (policyName policy : string) : M W (option error);
  DeletePolicy (policyName : string) : M W (option error);
  Mount (path : string) : M W (option error);
  DeleteSecret (vaultPath : string) : M W (option error);
  GetSecret (vaultPath : string) : M W (string + error);
  AddSecret (path : string) (credentials : gomap value) : M W (option error);
  AddSecretFromStruct (path : string) (creds : value) : M W (option error)
}.
Arguments mkVaultInterface {W}.
Arguments LinkPolicyToIdentity {W}.
Arguments RemovePolicyFromIdentity {W}.
Arguments WritePolicy {W}.
Arguments DeletePolicy {W}.
Arguments Mount {W}.
Arguments DeleteSecret {W}.
Arguments GetSecret {W}.
Arguments AddSecret {W}.
Arguments AddSecretFromStruct {W}.

(** ** vault_dummy.go *)
Module Dummy.

Record state := mkState { values : gomap string }.

Definition NewDummyConnection : state := mkState (Some ∅).

Definition ok : M state (option error) := mret None.

(** [c.values[path] = text] *)
Definition put (path text : string) : M state (option error) := fun s =>
  match mset (values s) path text with
  | Done m => Done (None, mkState m)
  | Panic why => Panic why
  end.

Definition DeleteSecret (vaultPath : string) : M state (option error) := fun s =>
  Done (None, mkState (mdelete (values s) vaultPath)).

Definition GetSecret (vaultPath : string) : M state (string + error) := fun s =>
  Done (match mget (values s) vaultPath with
        | Some text => inl text
        | None => inr (newError "could not find key")
        end, s).

Definition AddSecret (path : string) (credentials : gomap value) : M state (option error) :=
  put path (json_Marshal (json_map credentials)).

Definition AddSecretFromStruct (path : string) (creds : value) : M state (option error) :=
  put path (json_Marshal creds).

Definition vault : VaultInterface state :=
  mkVaultInterface (fun _ _ _ _ _ _ => ok) (fun _ _ _ => ok) (fun _ _ => ok) (fun _ => ok) (fun _ => ok)
    DeleteSecret GetSecret AddSecret AddSecretFromStruct.
End Dummy.

(** ** vault_impl.go *)
Module Connection.

(** [api.Logical] of the Vault client: what is written and read at a path; reading gives
    no secret where there is none. *)
Record Logical (W : Type) := mkLogical {
  Write : string -> gomap value -> M W (option error);
  Read : string -> M W (option (gomap value) + error);
  Delete : string -> M W (option error)
}.
Arguments mkLogical {W}.
Arguments Write {W}.
Arguments Read {W}.
Arguments Delete {W}.

(** [api.Client], and the HTTP client used to mount a secret engine. *)
Record Client (W : Type) := mkClient {
  client_Logical : option (Logical W);
  PutPolicy : string -> string -> M W (option error);
  Sys_DeletePolicy : string -> M W (option error);
  http_NewRequest : string -> string -> option error;
  http_Do : string -> string -> string -> M W (Z + error)
}.
Arguments mkClient {W}.
Arguments client_Logical {W}.
Arguments PutPolicy {W}.
Arguments Sys_DeletePolicy {W}.
Arguments http_NewRequest {W}.
Arguments http_Do {W}.

Record t (W : Type) := mkConnection { conn_Client : Client W; Address : string; Token : string }.
Arguments mkConnection {W}.
Arguments conn_Client {W}.
Arguments Address {W}.
Arguments Token {W}.

Definition NewConnection {W} (newClient : string -> Client W + error) (addr token : string) : t W + error :=
  match newClient addr with
  | inr err => inr (wrapError "error creating vault client" err)
  | inl client =>
      if token =? "" then inr (newError "cannot authenticate with vault: no vault token found")
      else inl (mkConnection client addr token)
  end.

Section Operations.
Context {W : Type} (c : t W).

(** [errors.Wrapf(err, msg)] of an error that may be nil. *)
Definition wrapped (msg : string) (r : M W (option error)) : M W (option error) :=
  err ← r; mret (wrapError msg <$> err).

(** Every operation on secrets starts with the logical client. *)
Definition withLogical (missing : string) (k : Logical W -> M W (option error)) : M W (option error) :=
  match client_Logical (conn_Client c) with
  | None => mret (Some (newError missing))
  | Some logicalClient => k logicalClient
  end.

Definition identityPath (auth identity : string) : string := "auth/" +:+ auth +:+ "/" +:+ identity.

Definition LinkPolicyToIdentity (identity policyName boundedNamespace serviceAccount auth ttl : string)
    : M W (option error) :=
  withLogical ("no logical client received when linking policy " +:+ policyName +:+ " to idenity " +:+ identity)
    (fun logicalClient =>
       let params : gmap string value :=
         {[ "user_claim" := VString "sub"; "role_type" := VString auth;
            "bound_service_account_names" := VString serviceAccount;
            "bound_service_account_namespaces" := VString boundedNamespace;
            "policies" := VString policyName; "ttl" := VString ttl ]} in
       wrapped ("error linking policy " +:+ policyName +:+ " to identity " +:+ identity)
         (Write logicalClient (identityPath auth identity) (Some params))).

Definition RemovePolicyFromIdentity (identity policyName auth : string) : M W (option error) :=
  withLogical ("no logical client received when deleting policy " +:+ policyName +:+ " from idenity " +:+ identity)
    (fun logicalClient =>
       wrapped ("error deleting policy " +:+ policyName +:+ " from identity " +:+ identity)
         (Delete logicalClient (identityPath auth identity))).

Definition WritePolicy (policyName policy : string) : M W (option error) :=
  wrapped ("error writing policy name " +:+ policyName +:+ " with rules: " +:+ policy)
    (PutPolicy (conn_Client c) policyName policy).

Definition DeletePolicy (policyName : string) : M W (option error) :=
  wrapped ("error deleting policy " +:+ policyName) (Sys_DeletePolicy (conn_Client c) policyName).

Definition DeleteSecret (vaultPath : string) : M W (option error) :=
  withLogical "no logical client received when deleting credentials from vault"
    (fun logicalClient =>
       wrapped ("error deleting credentials from vault for " +:+ vaultPath) (Delete logicalClient vaultPath)).

(** The values of a secret come out of a JSON document, so encoding them does not
    fail. *)
Definition GetSecret (vaultPath : string) : M W (string + error) :=
  match client_Logical (conn_Client c) with
  | None => mret (inr (newError "no logical client received when retrieving credentials from vault"))
  | Some logicalClient =>
      data ← Read logicalClient vaultPath;
      mret (match data with
            | inr err => inr (wrapError ("error reading credentials from vault for " +:+ vaultPath) err)
            | inl (Some (Some m)) => inl (json_Marshal (VMap m))
            | inl _ => inr (newError ("no data received for credentials from vault for " +:+ vaultPath))
            end)
  end.

Definition AddSecret (path : string) (credentials : gomap value) : M W (option error) :=
  withLogical "no logical client received when adding secrets to vault"
    (fun logicalClient =>
       wrapped ("error adding credentials to vault to " +:+ path) (Write logicalClient path credentials)).

(** The struct goes through its JSON text into a map: null gives a nil map, and what is
    not an object an error. *)
Definition AddSecretFromStruct (path : string) (creds : value) : M W (option error) :=
  match creds with
  | VMap m => AddSecret path (Some m)
  | VNull => AddSecret path None
  | _ => mret (Some (newError "json: cannot unmarshal into Go value of type map[string]interface {}"))
  end.

(** The status of the answer is not looked at. *)
Definition Mount (path : string) : M W (option error) :=
  let url := Address c +:+ path in
  match http_NewRequest (conn_Client c) "POST" url with
  | Some err => mret (Some (wrapError ("error creating request to mount vault for " +:+ url) err))
  | None =>
      resp ← http_Do (conn_Client c) url (Token c) (json_Marshal (VMap {[ "type" := VString "kv-v1" ]}));
      mret (match resp with
            | inr err => Some (wrapError ("error mounting vault for " +:+ url) err)
            | inl _ => None
            end)
  end.

Definition vault : VaultInterface W :=
  mkVaultInterface LinkPolicyToIdentity RemovePolicyFromIdentity WritePolicy DeletePolicy Mount
    DeleteSecret GetSecret AddSecret AddSecretFromStruct.
End Operations.
End Connection.

(** ** vault_interface.go *)

(** [InitConnection]: the in-memory implementation when the environment asks for it. *)
Definition InitConnection `{Runtime} {W} (newClient : string -> Connection.Client W + error) (addr token : string)
    : Dummy.state + (Connection.t W + error) :=
  if Getenv "RUN_WITHOUT_VAULT" =? "1" then inl Dummy.NewDummyConnection
  else inr (Connection.NewConnection newClient addr token).

(** ** What an implementation promises

    An abstract store of secrets: [secrets w] has the text of the secret at each path.
    The laws say what an operation that succeeds does to it. *)
Class SecretStore {W : Type} (v : VaultInterface W) := {
  secrets : W -> gmap string string;
  AddSecret_ok path m w w' :
    AddSecret v path (Some m) w = Done (None, w') ->
    secrets w' = <[path := json_Marshal (VMap m)]> (secrets w);
  DeleteSecret_ok path w w' :
    DeleteSecret v path w = Done (None, w') -> secrets w' = delete path (secrets w);
  GetSecret_ok path w r w' :
    GetSecret v path w = Done (r, w') ->
    secrets w' = secrets w /\ (forall text, r = inl text -> secrets w !! path = Some text);
  AddSecretFromStruct_ok path m w w' :
    AddSecretFromStruct v path (VMap m) w = Done (None, w') ->
    secrets w' = <[path := json_Marshal (VMap m)]> (secrets w)
}.

(** The in-memory implementation. *)
#[export] Program Instance Dummy_store : SecretStore Dummy.vault := {| secrets s := gm (Dummy.values s) |}.
Next Obligation. intros path m [[g|]] w'; [|done]. unfold AddSecret; simpl. by intros [= <-]. Qed.
Next Obligation. intros path [[g|]] w'; simpl; unfold DeleteSecret; simpl; intros [= <-]; simpl; [done|]. by rewrite delete_empty. Qed.
Next Obligation.
  intros path [vs] r w'. unfold GetSecret; simpl. unfold Dummy.GetSecret; simpl. intros [= <- <-].
  split; [done|]. intros text. unfold mget. destruct (gm vs !! path) eqn:E; [|done]. intros [= ->]. done.
Qed.
Next Obligation. intros path m [[g|]] w'; [|done]. unfold AddSecretFromStruct; simpl. by intros [= <-]. Qed.

(** The key-value engine of Vault (version 1): a write replaces the data at the path, a
    delete removes it, a read gives the data that was written. *)
Class KVLaws {W : Type} (l : Connection.Logical W) := {
  kv : W -> gmap string (gmap string value);
  kv_write path m w w' :
    Connection.Write l path (Some m) w = Done (None, w') -> kv w' = <[path := m]> (kv w);
  kv_delete path w w' : Connection.Delete l path w = Done (None, w') -> kv w' = delete path (kv w);
  kv_read path w r w' :
    Connection.Read l path w = Done (r, w') ->
    kv w' = kv w /\ (forall m, r = inl (Some (Some m)) -> kv w !! path = Some m)
}.

Lemma wrapped_none {W} msg (r : M W (option error)) w w' :
  Connection.wrapped msg r w = Done (None, w') -> r w = Done (None, w').
Proof.
  unfold Connection.wrapped. intros H. m_step H. m_step H. by destruct a.
Qed.

(** The implementation on the Vault API, given the laws of the engine. *)
#[export] Program Instance Connection_store {W} (c : Connection.t W) l
    (Hl : Connection.client_Logical (Connection.conn_Client c) = Some l) `{!KVLaws l}
  : SecretStore (Connection.vault c) := {| secrets w := json_Marshal ∘ VMap <$> kv w |}.
Next Obligation.
  intros W c l Hl ? path m w w'. unfold AddSecret; simpl. unfold Connection.AddSecret, Connection.withLogical.
  rewrite Hl. intros E%wrapped_none%kv_write. by rewrite E, fmap_insert.
Qed.
Next Obligation.
  intros W c l Hl ? path w w'. unfold DeleteSecret; simpl. unfold Connection.DeleteSecret, Connection.withLogical.
  rewrite Hl. intros E%wrapped_none%kv_delete. by rewrite E, fmap_delete.
Qed.
Next Obligation.
  intros W c l Hl ? path w r w'. unfold GetSecret; simpl. unfold Connection.GetSecret. rewrite Hl. intros H.
  m_step H. m_step H. apply kv_read in E as [-> Hr]. split; [done|]. intros text.
  destruct a as [[[m|]|]|]; try done. intros [= <-]. by rewrite lookup_fmap, (Hr m eq_refl).
Qed.
Next Obligation.
  intros W c l Hl ? path m w w'. unfold AddSecretFromStruct; simpl. unfold Connection.AddSecret, Connection.withLogical.
  rewrite Hl. intros E%wrapped_none%kv_write. by rewrite E, fmap_insert.
Qed.

(** ** Sequences of operations *)

Inductive command :=
| Add (path : string) (credentials : gmap string value)
| AddStruct (path : string) (creds : gmap string value)
| Drop (path : string)
| Look (path : string).

(** An operation without an answer. *)
Definition unanswered {W} (c : M W (option error)) : M W (option string + error) :=
  err ← c; mret (match err with Some e => inr e | None => inl None end).

Definition exec {W} (v : VaultInterface W) (c : command) : M W (option string + error) :=
  match c with
  | Add path m => unanswered (AddSecret v path (Some m))
  | AddStruct path m => unanswered (AddSecretFromStruct v path (VMap m))
  | Drop path => unanswered (DeleteSecret v path)
  | Look path => r ← GetSecret v path; mret (match r with inl text => inl (Some text) | inr e => inr e end)
  end.

(** Run commands until one fails, and collect what was read. *)
Fixpoint execs {W} (v : VaultInterface W) (cs : list command) : M W (list (option string) + error) :=
  match cs with
  | [] => mret (inl [])
  | c :: cs =>
      r ← exec v c;
      match r with
      | inr e => mret (inr e)
      | inl a => rest ← execs v cs; mret (match rest with inl l => inl (a :: l) | inr e => inr e end)
      end
  end.

(** The abstract store: a map from paths to texts.  Reading a path without a secret fails. *)
Definition abstract (c : command) (m : gmap string string) : option (option string) * gmap string string :=
  match c with
  | Add path creds | AddStruct path creds => (Some None, <[path := json_Marshal (VMap creds)]> m)
  | Drop path => (Some None, delete path m)
  | Look path => (Some <$> m !! path, m)
  end.
Fixpoint reference (cs : list command) (m : gmap string string) : option (list (option string)) * gmap string string :=
  match cs with
  | [] => (Some [], m)
  | c :: cs =>
      match abstract c m with
      | (None, m) => (None, m)
      | (Some a, m) => let '(rest, m) := reference cs m in (cons a <$> rest, m)
      end
  end.

Lemma unanswered_ok {W} (c : M W (option error)) w a w' :
  unanswered c w = Done (inl a, w') -> a = None /\ c w = Done (None, w').
Proof. unfold unanswered. intros H. m_step H. destruct a0; m_step H; done. Qed.

Lemma exec_ok {W} (v : VaultInterface W) `{!SecretStore v} c w a w' :
  exec v c w = Done (inl a, w') -> abstract c (secrets w) = (Some a, secrets w').
Proof.
  destruct c as [p m|p m|p|p]; simpl.
  - intros [-> E]%unanswered_ok. by rewrite (AddSecret_ok _ _ _ _ E).
  - intros [-> E]%unanswered_ok. by rewrite (AddSecretFromStruct_ok _ _ _ _ E).
  - intros [-> E]%unanswered_ok. by rewrite (DeleteSecret_ok _ _ _ E).
  - intros H. m_step H. destruct a0 as [text|]; m_step H. apply GetSecret_ok in E as [-> Hr]. by rewrite (Hr text eq_refl).
Qed.

Lemma execs_ok {W} (v : VaultInterface W) `{!SecretStore v} cs w answers w' :
  execs v cs w = Done (inl answers, w') -> reference cs (secrets w) = (Some answers, secrets w').
Proof.
  revert w answers. induction cs as [|c cs IH]; intros w answers H; simpl in *.
  { by m_step H. }
  m_step H. destruct a as [a|]; [|m_step H]. m_step H. destruct a0 as [l|]; m_step H.
  by rewrite (exec_ok v _ _ _ _ E), (IH _ _ E0).
Qed.

(** The in-memory implementation never fails but for the reading of a missing secret. *)
Lemma Dummy_execs cs m :
  execs Dummy.vault cs (Dummy.mkState (Some m)) =
    Done (match (reference cs m).1 with Some l => inl l | None => inr (newError "could not find key") end,
          Dummy.mkState (Some (reference cs m).2)).
Proof.
  revert m. induction cs as [|c cs IH]; intros m; [done|].
  assert (exec Dummy.vault c (Dummy.mkState (Some m)) =
    Done (match (abstract c m).1 with Some a => inl a | None => inr (newError "could not find key") end,
          Dummy.mkState (Some (abstract c m).2))) as E.
  { destruct c as [p c|p c|p|p]; simpl; [done..|]. unfold mbind, M_bind, GetSecret; simpl. unfold Dummy.GetSecret, mget; simpl.
    by destruct (m !! p). }
  cbn [execs reference]. rewrite (M_bind_run _ _ _ _ _ E). destruct (abstract c m) as [[a|] m']; [|done]. simpl.
  rewrite (M_bind_run _ _ _ _ _ (IH m')). by destruct (reference cs m') as [[l|] m2].
Qed.


(** ** Credentials of a Kubernetes secret

    [manager/controllers/app/data_catalog_interface.go] *)

Definition translationMap : gmap string string :=
  {[ "accessKeyID" := "access_key"; "accessKey" := "access_key"; "secretAccessKey" := "secret_key";
     "SecretKey" := "secret_key"; "apiKey" := "api_key"; "resourceInstanceId" := "resource_instance_id" ]}.

Definition translated (key : string) : string := default key (translationMap !! key).

Section Credentials.
Context `{MapRange} {W : Type} (GetKubeSecret : NamespacedName -> M W (gmap string string + error)).

Definition credsMap (data : gmap string string) : gmap string value :=
  foldl (fun m kv => <[translated kv.1 := VString kv.2]> m) ∅ (range data).

Definition SecretToCredentialMap (secretRef : NamespacedName) : M W (gmap string value + error) :=
  secret ← GetKubeSecret secretRef;
  mret (match secret with inr err => inr err | inl data => inl (credsMap data) end).

Definition SecretToCredentials (secretRef : NamespacedName) : M W (string + error) :=
  creds ← SecretToCredentialMap secretRef;
  mret (match creds with inr err => inr err | inl m => inl (json_Marshal (VMap m)) end).
End Credentials.

(** The credentials read from a Kubernetes secret are its entries under the names
    the connectors expect: every entry of the secret is among them under its translated
    name, and each of them is such an entry, for every order in which the secret is
    traversed.  When two entries have the same translation one of them is taken. *)
Theorem SecretToCredentialMap_exact `{MapRange} {W} GetKubeSecret ref (w : W) data w' :
  GetKubeSecret ref w = Done (inl data, w') ->
  exists creds, SecretToCredentialMap GetKubeSecret ref w = Done (inl creds, w') /\
    (forall k c, creds !! k = Some c -> exists key v, data !! key = Some v /\ translated key = k /\ c = VString v) /\
    (forall key v, data !! key = Some v -> is_Some (creds !! translated key)) /\
    (forall key v, data !! key = Some v ->
       (forall key', is_Some (data !! key') -> translated key' = translated key -> key' = key) ->
       creds !! translated key = Some (VString v)).
Proof.
  intros E. unfold SecretToCredentialMap. rewrite (M_bind_run _ _ _ _ _ E). eexists. split; [done|].
  assert (Hin : forall k c, credsMap data !! k = Some c ->
    exists key v, data !! key = Some v /\ translated key = k /\ c = VString v).
  { intros k c [([key v] & Hr & Hk & Hv)|[He _]]%(foldl_insert_lookup (fun kv => translated kv.1) (fun kv => VString kv.2));
      [|by rewrite lookup_empty in He]. apply range_elem in Hr. by exists key, v. }
  assert (Hall : forall key v, data !! key = Some v -> is_Some (credsMap data !! translated key)).
  { intros key v Hk. apply (foldl_insert_present (fun kv => translated kv.1) (fun kv => VString kv.2) _ ∅ (key, v)).
    by apply range_elem. }
  split; [done|]. split; [done|]. intros key v Hk Hu. destruct (Hall key v Hk) as [c Hc]. rewrite Hc.
  destruct (Hin _ _ Hc) as (key' & v' & Hk' & Ht & ->). rewrite (Hu key') in Hk' by eauto. congruence.
Qed.

Module VaultExamples.
Definition creds (s : string) : gmap string value := {[ "access_key" := VString s ]}.
Definition history : list command :=
  [Add "a" (creds "1"); Add "b" (creds "2"); Look "a"; Drop "b"; AddStruct "a" (creds "3"); Look "a"].

(** An engine in memory, for which the laws hold. *)
Definition engine : Connection.Logical (gmap string (gmap string value)) := {|
  Connection.Write path m s := Done (None, match m with Some m => <[path := m]> s | None => s end);
  Connection.Read path s := Done (inl (Some <$> s !! path), s);
  Connection.Delete path s := Done (None, delete path s)
|}.
#[export] Program Instance engine_laws : KVLaws engine := {| kv s := s |}.
Next Obligation. by intros path m w w' [= <-]. Qed.
Next Obligation. by intros path w w' [= <-]. Qed.
Next Obligation.
  intros path w r w' [= <- <-]. split; [done|]. intros m. destruct (w !! path) eqn:E; simpl; [|done].
  by intros [= ->].
Qed.

Definition connection : Connection.t (gmap string (gmap string value)) :=
  Connection.mkConnection (Connection.mkClient (Some engine) (fun _ _ => mret None) (fun _ => mret None)
    (fun _ _ => None) (fun _ _ _ => mret (inl 200%Z))) "http://vault" "token".

Definition kv_start : gmap string (gmap string value) := ∅.
Definition kv_after : gmap string (gmap string value) := {[ "a" := creds "3" ]}.

(** The sequence in memory and on the Vault API. *)
Definition answers : list (option string) :=
  [None; None; Some (json_Marshal (VMap (creds "1"))); None; None; Some (json_Marshal (VMap (creds "3")))].


Definition kube_secret : gmap string string := {[ "accessKeyID" := "id"; "user" := "bob" ]}.

Definition read_kube_secret (_ : NamespacedName) : M unit (gmap string string + error) := mret (inl kube_secret).

Lemma SecretToCredentialMap_exact_witness :
  exists creds, @SecretToCredentialMap canonical_range unit read_kube_secret (mkNamespacedName "s" "ns") tt
    = Done (inl creds, tt) /\ is_Some (creds !! "access_key").
Proof.
  destruct (@SecretToCredentialMap_exact canonical_range unit read_kube_secret (mkNamespacedName "s" "ns")
    tt kube_secret tt eq_refl) as (creds & E & _ & Hall & _).
  exists creds. split; [exact E|]. exact (Hall "accessKeyID" "id" eq_refl).
Defined.
End VaultExamples.
