(* ===== verification/Startup.v ===== *)
(** * The executable of the manager

    [manager/main.go]: the choice of the connectors and of the cluster manager from the
    environment, and the start of the controllers.  What the libraries do when a
    controller is set up is a parameter: an answer to each step. *)
From stdpp Require Import base gmap strings list numbers.
From S2P Require Import Prelude GoStrings GoInt Types External Utils Policy Proto PolicyClient CatalogClient.

(** ** Clients *)

(** [time.Second], in nanoseconds *)
Definition time_Second : Z := 1000000000.

Section Clients.
Context `{MapRange, Runtime}.

(** [time.Duration(n) * time.Second] is a 64-bit multiplication. *)
Definition getConnectionTimeout : Z + error :=
  match Atoi (Getenv "CONNECTION_TIMEOUT") with
  | None => inr (newError "Atoi conversion of CONNECTION_TIMEOUT failed")
  | Some timeOutInSeconds => inl (int64 (timeOutInSeconds * time_Second))
  end.

(** [NewGrpcPolicyManager], with [grpc.DialContext] for a timeout *)
Definition NewGrpcPolicyManager (rand_Read : nat -> list Z + error)
    (dial : string -> Z -> (pb.ApplicationContext -> pb.PoliciesDecisions + error) + error)
    (connectionURL : string) (connectionTimeout : Z)
    : (GetPolicyDecisionsRequest -> string -> outcome (GetPolicyDecisionsResponse + error)) + error :=
  match dial connectionURL connectionTimeout with
  | inr err => inr (wrapError ("NewGrpcPolicyManager failed when connecting to " +:+ connectionURL) err)
  | inl client => inl (grpc_GetPoliciesDecisions rand_Read client)
  end.

Definition newPolicyManager (rand_Read : nat -> list Z + error)
    (dial : string -> Z -> (pb.ApplicationContext -> pb.PoliciesDecisions + error) + error)
    (openapi : string -> string -> GetPolicyDecisionsRequest -> GetPolicyDecisionsResponse + error)
    : (GetPolicyDecisionsRequest -> string -> outcome (GetPolicyDecisionsResponse + error)) + error :=
  match getConnectionTimeout with
  | inr err => inr err
  | inl connectionTimeout =>
      let name := Getenv "MAIN_POLICY_MANAGER_NAME" in
      let url := Getenv "MAIN_POLICY_MANAGER_CONNECTOR_URL" in
      if HasPrefix url "http"
      then inl (fun req creds => Done (openapi_GetPoliciesDecisions name (openapi url) req creds))
      else NewGrpcPolicyManager rand_Read dial url connectionTimeout
  end.

Definition newDataCatalog (dial : string -> (pb.CatalogDatasetRequest -> pb.CatalogDatasetInfo + GrpcError) + error)
    (openapi : string -> string -> GetAssetRequest -> GetAssetResponse + error)
    : (GetAssetRequest -> string -> outcome (GetAssetResponse + error)) + error :=
  match getConnectionTimeout with
  | inr err => inr err
  | inl _ => NewDataCatalog openapi dial (Getenv "CATALOG_PROVIDER_NAME") (Getenv "CATALOG_CONNECTOR_URL")
  end.

(** The constructor of the cluster manager and its arguments. *)
Inductive ClusterManagerChoice :=
| RazeeLocal (url user password group : string)
| SatConf (apikey group : string)
| RazeeOAuth (url apikey group : string)
| LocalCluster (namespace : string).

Definition newClusterManager : ClusterManagerChoice :=
  let multiClusterGroup := Getenv "MULTICLUSTER_GROUP" in
  match LookupEnv "RAZEE_USER" with
  | Some user =>
      let razeeURL := TrimSpace (Getenv "RAZEE_URL") in
      let password := TrimSpace (Getenv "RAZEE_PASSWORD") in
      RazeeLocal (TrimSpace razeeURL) (TrimSpace user) password multiClusterGroup
  | None =>
      match LookupEnv "IAM_API_KEY" with
      | Some apiKey => SatConf (TrimSpace apiKey) multiClusterGroup
      | None =>
          match LookupEnv "API_KEY" with
          | Some apiKey =>
              let razeeURL := TrimSpace (Getenv "RAZEE_URL") in
              RazeeOAuth (TrimSpace razeeURL) (TrimSpace apiKey) multiClusterGroup
          | None => LocalCluster GetSystemNamespace
          end
      end
  end.
End Clients.

(** ** The start of the controllers *)

Inductive step :=
| NewManager | NewClusterManager | NewPolicyManager | NewDataCatalogFacade | PrepareQuery
| SetupApplicationController | SetupApplicationWebhook | SetupModuleWebhook | SetupModuleController
| SetupPlotterController | SetupBlueprintController | StartManager
| CloseDataCatalog | ClosePolicyManager.
#[export] Instance step_eq_dec : EqDecision step.
Proof. solve_decision. Defined.

Record Flags := mkFlags {
  enableApplicationController : bool;
  enableBlueprintController : bool;
  enablePlotterController : bool;
  enableAllControllers : bool
}.

Section Run.
Context `{Runtime}.
(** The answer to a step, after the steps taken so far. *)
Context (answer : list step -> step -> option error).

Definition perform (s : step) : M (list step) (option error) := fun taken =>
  Done (answer taken s, taken ++ [s]).

(** [if err := s; err != nil { return 1 }] *)
Definition orExit (s : step) (k : M (list step) Z) : M (list step) Z :=
  err ← perform s;
  match err with Some _ => mret 1%Z | None => k end.

(** [defer]: the step is taken when the function returns, its error is only logged. *)
Definition deferred (s : step) (k : M (list step) Z) : M (list step) Z :=
  code ← k; _ ← perform s; mret code.

Definition when (b : bool) (f : M (list step) Z -> M (list step) Z) (k : M (list step) Z) : M (list step) Z :=
  if b then f k else k.

Definition setupApplication (k : M (list step) Z) : M (list step) Z :=
  orExit NewPolicyManager (deferred ClosePolicyManager (
    orExit NewDataCatalogFacade (deferred CloseDataCatalog (
      orExit PrepareQuery (
      orExit SetupApplicationController (
      when (Getenv "ENABLE_WEBHOOKS" <>? "false")
        (fun k => orExit SetupApplicationWebhook (orExit SetupModuleWebhook k)) (
      orExit SetupModuleController k))))))).

Definition run (application blueprint plotter : bool) : M (list step) Z :=
  orExit NewManager (
  when (application || plotter) (orExit NewClusterManager) (
  when application setupApplication (
  when plotter (orExit SetupPlotterController) (
  when blueprint (orExit SetupBlueprintController) (
  orExit StartManager (mret 0%Z)))))).

Definition main (f : Flags) : M (list step) Z :=
  let application := enableApplicationController f || enableAllControllers f in
  let blueprint := enableBlueprintController f || enableAllControllers f in
  let plotter := enablePlotterController f || enableAllControllers f in
  if negb application && negb plotter && negb blueprint then mret 1%Z
  else run application blueprint plotter.
End Run.

(** ** What the start-up promises *)

(** The timeout of the connectors is the configured number of seconds exactly when
    that number is at most 9223372036 in absolute value; beyond it the 64-bit number of
    nanoseconds wraps around and the connectors get another timeout. *)
Theorem getConnectionTimeout_bounds `{Runtime} n :
  Atoi (Getenv "CONNECTION_TIMEOUT") = Some n ->
  exists d, getConnectionTimeout = inl d /\ (- 2 ^ 63 <= d < 2 ^ 63)%Z /\
    (d = (n * time_Second)%Z <-> (- 9223372036 <= n <= 9223372036)%Z).
Proof.
  intros E. unfold getConnectionTimeout. rewrite E. eexists. split; [done|]. split; [apply int64_range|].
  unfold time_Second. split.
  - intros Hd. pose proof (int64_range (n * 1000000000)). lia.
  - intros Hn. apply int64_small. lia.
Qed.

(** The steps of a start that succeeds, in order. *)
Definition startSteps (webhooks application blueprint plotter : bool) : list step :=
  [NewManager] ++ (if application || plotter then [NewClusterManager] else []) ++
  (if application then
     [NewPolicyManager; NewDataCatalogFacade; PrepareQuery; SetupApplicationController] ++
     (if webhooks then [SetupApplicationWebhook; SetupModuleWebhook] else []) ++ [SetupModuleController]
   else []) ++
  (if plotter then [SetupPlotterController] else []) ++
  (if blueprint then [SetupBlueprintController] else []) ++
  [StartManager] ++ (if application then [CloseDataCatalog; ClosePolicyManager] else []).

Section StartFacts.
Context `{Runtime} (answer : list step -> step -> option error).

(** The steps that open a facade, with the steps that close it. *)
Definition facades : list (step * step) :=
  [(NewPolicyManager, ClosePolicyManager); (NewDataCatalogFacade, CloseDataCatalog)].

(** Every facade that was opened among [more], the steps taken after [taken], was closed
    later. *)
Definition closed (taken more : list step) : Prop :=
  forall o c before after, (o, c) ∈ facades -> more = before ++ o :: after ->
    answer (taken ++ before) o = None -> c ∈ after.

(** The run ends with an exit code; on success it took the expected steps, and it closed
    what it opened in any case. *)
Definition ends (k : M (list step) Z) (expected : list step) : Prop :=
  forall taken, exists code more, k taken = Done (code, taken ++ more) /\
    (code = 0%Z \/ code = 1%Z) /\ (code = 0%Z -> more = expected) /\ closed taken more.

Lemma ends_ret : ends (mret 0%Z) [].
Proof.
  intros taken. exists 0%Z, []. rewrite app_nil_r. split; [done|]. split; [by left|]. split; [done|].
  intros o c [|? ?] after _; discriminate.
Qed.

Lemma closed_cons taken s more :
  (forall c, (s, c) ∈ facades -> answer taken s = None -> c ∈ more) ->
  closed (taken ++ [s]) more -> closed taken (s :: more).
Proof.
  intros Hs Hm o c [|s' before] after Hf; simpl.
  - intros [= -> ->]. rewrite app_nil_r. by apply Hs.
  - intros [= <- ->] Ha. eapply Hm; [exact Hf|done|]. by rewrite <- app_assoc.
Qed.

Lemma closed_nil taken : closed taken [].
Proof. intros o c [|? ?] after _; discriminate. Qed.

Lemma ends_exit s k expected :
  (forall c, (s, c) ∉ facades) -> ends k expected -> ends (orExit answer s k) (s :: expected).
Proof.
  intros Hs Hk taken. unfold orExit, perform, mbind, M_bind. destruct (answer taken s) as [err|].
  - exists 1%Z, [s]. split; [done|]. split; [by right|]. split; [done|].
    apply closed_cons; [|apply closed_nil]. intros c Hc. by destruct (Hs c).
  - destruct (Hk (taken ++ [s])) as (code & more & E & Hc & He & Hcl). exists code, (s :: more).
    rewrite E, <- app_assoc. split; [done|]. split; [done|]. split; [by intros ->%He|].
    apply closed_cons; [|done]. intros c Hin. by destruct (Hs c).
Qed.

Lemma closed_snoc taken more c0 :
  (forall c, (c0, c) ∉ facades) -> closed taken more -> closed taken (more ++ [c0]).
Proof.
  intros Hc0 Hm o c before after Hf. destruct after as [|x after _] using rev_ind.
  - intros [-> [= ->]]%app_inj_2 _; [|done]. by destruct (Hc0 c).
  - rewrite app_comm_cons, app_assoc. intros [-> _]%app_inj_2 Ha; [|done].
    apply elem_of_app. left. by eapply Hm.
Qed.

Lemma ends_open o c k expected :
  (forall c', (o, c') ∈ facades -> c' = c) -> (forall c', (c, c') ∉ facades) ->
  ends k expected -> ends (orExit answer o (deferred answer c k)) (o :: expected ++ [c]).
Proof.
  intros Ho Hc Hk taken. unfold orExit, deferred, perform, mbind, M_bind.
  destruct (answer taken o) as [err|] eqn:Ea.
  - exists 1%Z, [o]. split; [done|]. split; [by right|]. split; [done|].
    apply closed_cons; [|apply closed_nil]. congruence.
  - destruct (Hk (taken ++ [o])) as (code & more & E & Hcode & He & Hcl). exists code, (o :: more ++ [c]).
    rewrite E. split; [by rewrite <- !app_assoc|]. split; [done|]. split; [by intros ->%He|].
    apply closed_cons; [|by apply closed_snoc]. intros c' ->%Ho _. set_solver.
Qed.

Ltac not_facade := intros ? ?; unfold facades in *; set_solver.

Lemma ends_when b f k expected extra :
  (ends k expected -> ends (f k) (extra ++ expected)) -> ends k expected ->
  ends (when b f k) ((if b then extra else []) ++ expected).
Proof. intros Hf Hk. destruct b; [by apply Hf|done]. Qed.

Lemma ends_setupApplication k expected :
  ends k expected ->
  ends (setupApplication answer k)
    (NewPolicyManager :: (NewDataCatalogFacade :: (PrepareQuery :: SetupApplicationController ::
      (if Getenv "ENABLE_WEBHOOKS" <>? "false" then [SetupApplicationWebhook; SetupModuleWebhook] else []) ++
      SetupModuleController :: expected) ++ [CloseDataCatalog]) ++ [ClosePolicyManager]).
Proof.
  intros Hk. unfold setupApplication.
  apply ends_open; [not_facade|not_facade|]. apply ends_open; [not_facade|not_facade|].
  do 2 (apply ends_exit; [not_facade|]). apply ends_when; [|by apply ends_exit; [not_facade|]].
  intros Hk'. do 2 (apply ends_exit; [not_facade|]). exact Hk'.
Qed.

Lemma run_ends application blueprint plotter :
  ends (run answer application blueprint plotter)
    (startSteps (Getenv "ENABLE_WEBHOOKS" <>? "false") application blueprint plotter).
Proof.
  assert (Htail : ends (when plotter (orExit answer SetupPlotterController)
      (when blueprint (orExit answer SetupBlueprintController) (orExit answer StartManager (mret 0%Z))))
    ((if plotter then [SetupPlotterController] else []) ++
     (if blueprint then [SetupBlueprintController] else []) ++ [StartManager])).
  { apply ends_when; [by apply ends_exit; not_facade|]. apply ends_when; [by apply ends_exit; not_facade|].
    apply ends_exit; [not_facade|apply ends_ret]. }
  unfold run, startSteps. apply ends_exit; [not_facade|].
  apply ends_when; [by apply ends_exit; not_facade|]. destruct application; simpl.
  - apply ends_setupApplication in Htail.
    destruct (Getenv "ENABLE_WEBHOOKS" <>? "false"), plotter, blueprint; exact Htail.
  - exact Htail.
Qed.
End StartFacts.

(** C38: the executable exits with 0 only after it has set up exactly the controllers its
    flags ask for, each after the clients it needs, has started the manager and has
    closed the clients; it closes every client it opened on every other path too.  It
    holds whatever the libraries answer at each step. *)
Theorem startup_correct `{Runtime} answer f :
  let all := enableAllControllers f in
  let application := enableApplicationController f || all in
  let blueprint := enableBlueprintController f || all in
  let plotter := enablePlotterController f || all in
  exists code taken, main answer f [] = Done (code, taken) /\
    (code = 0%Z -> (application || blueprint || plotter) = true /\
       taken = startSteps (Getenv "ENABLE_WEBHOOKS" <>? "false") application blueprint plotter) /\
    (forall o c before after, (o, c) ∈ facades -> taken = before ++ o :: after ->
       answer before o = None -> c ∈ after).
Proof.
  intros all application blueprint plotter. unfold main. fold all. fold application blueprint plotter.
  destruct (negb application && negb plotter && negb blueprint) eqn:E.
  - exists 1%Z, []. split; [done|]. split; [done|]. exact (closed_nil answer []).
  - destruct (run_ends answer application blueprint plotter []) as (code & more & Er & _ & He & Hcl).
    exists code, more. split; [done|]. split; [|exact Hcl]. intros Hc. split; [|by apply He].
    destruct application, blueprint, plotter; done.
Qed.

Module StartupExamples.
Lemma getConnectionTimeout_bounds_witness :
  exists d, @getConnectionTimeout (Concrete.env [("CONNECTION_TIMEOUT", "9223372037")]) = inl d /\
    (- 2 ^ 63 <= d < 2 ^ 63)%Z /\ (d = (9223372037 * time_Second)%Z <-> (- 9223372036 <= 9223372037 <= 9223372036)%Z).
Proof.
  exact (@getConnectionTimeout_bounds (Concrete.env [("CONNECTION_TIMEOUT", "9223372037")]) 9223372037
    ltac:(vm_compute; reflexivity)).
Defined.
End StartupExamples.
