(* ===== verification/Taxonomy.v ===== *)
(** * Taxonomy documents

    [pkg/taxonomy/model]: JSON schemas with definitions, references and their
    conversion to the schemas of the API machinery; [pkg/slices].  A document comes out
    of a file, so its schemas form a tree without shared nodes; a [null] in place of a
    schema of a map or of a list is not modelled.  Numbers are kept as literals. *)
From stdpp Require Import base gmap strings list numbers.
From Stdlib Require Import Ascii.
From S2P Require Import Prelude GoStrings GoJSON.

(** ** The model

    [Schema R] is the struct [model.Schema], with [R] for the schemas it points to.
    Slices that are tested for nil are options. *)
Record AdditionalPropertiesType (R : Type) := mkAdditionalProperties {
  ap_Allowed : option bool;
  ap_Schema : option R
}.
Arguments mkAdditionalProperties {R}.
Arguments ap_Allowed {R}.
Arguments ap_Schema {R}.

Record Schema (R : Type) := mkSchema {
  sc_Type : string;
  sc_Title : string;
  sc_Description : string;
  sc_Properties : gomap R;
  sc_AdditionalProperties : option (AdditionalPropertiesType R);
  sc_Items : option R;
  sc_Default : option value;
  sc_OneOf : option (list R);
  sc_AnyOf : option (list R);
  sc_AllOf : option (list R);
  sc_Not : option R;
  sc_Required : list string;
  sc_MinProps : option Z;
  sc_MaxProps : option Z;
  sc_Format : string;
  sc_Enum : list value;
  sc_MinLength : option Z;
  sc_MaxLength : option Z;
  sc_Pattern : string;
  sc_Min : option string;
  sc_Max : option string;
  sc_MultipleOf : option string;
  sc_ExclusiveMin : bool;
  sc_ExclusiveMax : bool;
  sc_MinItems : option Z;
  sc_MaxItems : option Z;
  sc_UniqueItems : bool
}.
Arguments mkSchema {R}.
Arguments sc_Type {R}.
Arguments sc_Title {R}.
Arguments sc_Description {R}.
Arguments sc_Properties {R}.
Arguments sc_AdditionalProperties {R}.
Arguments sc_Items {R}.
Arguments sc_Default {R}.
Arguments sc_OneOf {R}.
Arguments sc_AnyOf {R}.
Arguments sc_AllOf {R}.
Arguments sc_Not {R}.
Arguments sc_Required {R}.
Arguments sc_MinProps {R}.
Arguments sc_MaxProps {R}.
Arguments sc_Format {R}.
Arguments sc_Enum {R}.
Arguments sc_MinLength {R}.
Arguments sc_MaxLength {R}.
Arguments sc_Pattern {R}.
Arguments sc_Min {R}.
Arguments sc_Max {R}.
Arguments sc_MultipleOf {R}.
Arguments sc_ExclusiveMin {R}.
Arguments sc_ExclusiveMax {R}.
Arguments sc_MinItems {R}.
Arguments sc_MaxItems {R}.
Arguments sc_UniqueItems {R}.

(** [model.SchemaRef]: a schema and a reference. *)
Inductive SchemaRef : Type := mkSchemaRef (schema : Schema SchemaRef) (ref : string).
Definition sr_Schema (s : SchemaRef) : Schema SchemaRef := let '(mkSchemaRef schema _) := s in schema.
Definition sr_Ref (s : SchemaRef) : string := let '(mkSchemaRef _ ref) := s in ref.

Record Document := mkDocument {
  doc_Schema : Schema SchemaRef;
  doc_SchemaVersion : string;
  doc_Definitions : gmap string SchemaRef
}.

(** The zero value of [model.Schema]. *)
Definition zeroSchema : Schema SchemaRef :=
  mkSchema "" "" "" None None None None None None None None [] None None "" [] None None "" None None None
    false false None None false.

(** ** schemaref.go, additionalprops.go, document.go *)

Definition RefName (s : SchemaRef) : string := afterLastSlash (sr_Ref s).

Definition IsAllowed (a : option (AdditionalPropertiesType SchemaRef)) : bool :=
  match a with Some a => default false (ap_Allowed a) | None => false end.

(** [Document.Deref] on the definitions of the document. *)
Definition Deref (definitions : gmap string SchemaRef) (s : SchemaRef) : option SchemaRef :=
  if sr_Ref s <>? "" then definitions !! RefName s else Some s.

(** ** pkg/slices and mpvl/unique

    [unique.Sort] sorts and removes duplicates. *)
Class Unique := { unique_Sort : forall {A : Type}, (A -> A -> bool) -> list A -> list A }.

Definition UniqueStrings `{Unique} (l : list string) : list string := unique_Sort str_lt l.

(** [jsonSlice.Less] *)
Definition json_Less (left right : value) : bool := str_lt (json_Marshal left) (json_Marshal right).
Definition UniqueJSONSlice `{Unique} (items : list value) : list value := unique_Sort json_Less items.

(** [a] and [b] are considered duplicates. *)
Definition tied {A} (less : A -> A -> bool) (a b : A) : Prop := less a b = false /\ less b a = false.

(** "Sort sorts data and removes duplicates": nothing is made up, and of the elements
    that are not told apart by the order one is kept. *)
Class UniqueLaws `{Unique} : Prop := {
  unique_subset {A} (less : A -> A -> bool) l x : x ∈ unique_Sort less l -> x ∈ l;
  unique_keeps {A} (less : A -> A -> bool) l x :
    (forall a, less a a = false) -> x ∈ l -> exists y, y ∈ unique_Sort less l /\ tied less x y
}.

(** [append(a, b...)] on slices that may be nil: appending nothing to nil gives nil. *)
Definition go_append {A} (a b : option (list A)) : option (list A) :=
  match a, default [] b with
  | None, [] => None
  | _, bs => Some (default [] a ++ bs)
  end.
