(* ===== verification/TaxonomyCompile.v ===== *)
(** * The taxonomy compiler

    [pkg/taxonomy/compile]: a base document and layers are merged ([merge.go]) and the
    result is made structural ([transform.go]).  The nodes of the documents are not
    shared, so an update in place of a node is the new value of the node; the copy of
    the base document is the document itself.  A definition that is updated through a
    reference is updated in the table of definitions. *)
From stdpp Require Import base gmap strings list numbers.
From S2P Require Import Prelude GoStrings GoJSON Taxonomy.

(** ** merge.go *)
Section Merge.
Context `{Unique}.

Definition maybeOverrideString (dst src : string) : string := if src <>? "" then src else dst.

(** [if src != nil { dst = src }] *)
Definition maybeOverride {A} (dst src : option A) : option A := match src with Some _ => src | None => dst end.

(** Update the entries of [dst] with the functions of [fs]. *)
Definition updateMap {A} (dst : gmap string A) (fs : gmap string (option A -> A)) : gmap string A :=
  merge (fun d f => match f with Some f => Some (f d) | None => d end) dst fs.

(** [mergeSchemaRef(dst, src)] for a [src] that is not nil. *)
Fixpoint mergeInto (src : SchemaRef) (dst : option SchemaRef) {struct src} : SchemaRef :=
  match dst with
  | None => src
  | Some (mkSchemaRef d ref) =>
      let '(mkSchemaRef s _) := src in
      mkSchemaRef (mkSchema
        (sc_Type d)
        (maybeOverrideString (sc_Title d) (sc_Title s))
        (maybeOverrideString (sc_Description d) (sc_Description s))
        (match sc_Properties s with
         | None => sc_Properties d
         | Some srcProperties => Some (updateMap (gm (sc_Properties d)) (mergeInto <$> srcProperties))
         end)
        (match sc_AdditionalProperties s with
         | None => sc_AdditionalProperties d
         | Some a =>
             match ap_Allowed a, ap_Schema a with
             | Some allowed, _ => Some (mkAdditionalProperties (Some allowed) None)
             | None, Some schema =>
                 let maybeSchema := sc_AdditionalProperties d ≫= ap_Schema in
                 Some (mkAdditionalProperties None (Some (mergeInto schema maybeSchema)))
             | None, None => sc_AdditionalProperties d
             end
         end)
        (match sc_Items s with Some i => Some (mergeInto i (sc_Items d)) | None => sc_Items d end)
        (maybeOverride (sc_Default d) (sc_Default s))
        (go_append (sc_OneOf d) (sc_OneOf s))
        (go_append (sc_AnyOf d) (sc_AnyOf s))
        (go_append (sc_AllOf d) (sc_AllOf s))
        (match sc_Not s with Some n => Some (mergeInto n (sc_Not d)) | None => sc_Not d end)
        (UniqueStrings (sc_Required d ++ sc_Required s))
        (maybeOverride (sc_MinProps d) (sc_MinProps s))
        (maybeOverride (sc_MaxProps d) (sc_MaxProps s))
        (maybeOverrideString (sc_Format d) (sc_Format s))
        (UniqueJSONSlice (sc_Enum d ++ sc_Enum s))
        (maybeOverride (sc_MinLength d) (sc_MinLength s))
        (maybeOverride (sc_MaxLength d) (sc_MaxLength s))
        (maybeOverrideString (sc_Pattern d) (sc_Pattern s))
        (maybeOverride (sc_Min d) (sc_Min s))
        (maybeOverride (sc_Max d) (sc_Max s))
        (maybeOverride (sc_MultipleOf d) (sc_MultipleOf s))
        (sc_ExclusiveMin d || sc_ExclusiveMin s)
        (sc_ExclusiveMax d || sc_ExclusiveMax s)
        (maybeOverride (sc_MinItems d) (sc_MinItems s))
        (maybeOverride (sc_MaxItems d) (sc_MaxItems s))
        (sc_UniqueItems d || sc_UniqueItems s)) ref
  end.

Definition mergeSchemaRef (dst src : option SchemaRef) : option SchemaRef :=
  match src with Some s => Some (mergeInto s dst) | None => dst end.

(** [merge(dst, src)] on the definitions of the documents *)
Definition mergeDefs (dst src : gmap string SchemaRef) : gmap string SchemaRef :=
  updateMap dst (mergeInto <$> src).

Definition mergeDefinitions (documents : list Document) : gmap string SchemaRef :=
  foldl (fun result doc => mergeDefs result (doc_Definitions doc)) ∅ documents.
End Merge.

(** ** transform.go *)

(** The state of the transformer: the definitions of the document, the keys that were
    visited, and the definitions that were assigned a new schema since the last one was
    taken from the table. *)
Record transformer := mkTransformer {
  t_Definitions : gmap string SchemaRef;
  t_visited : gset string;
  t_replaced : gset string
}.

(** Assignments to fields of a schema. *)
Definition set_Enum (enum : list value) (s : SchemaRef) : SchemaRef :=
  mkSchemaRef ((sr_Schema s) <| sc_Enum := enum |>) (sr_Ref s).
Definition set_Properties (props : gomap SchemaRef) (s : SchemaRef) : SchemaRef :=
  mkSchemaRef ((sr_Schema s) <| sc_Properties := props |>) (sr_Ref s).

(** [propogateEnumFromValidationGroup]: what a validation item appends to the values of
    a property. *)
Fixpoint validationEnums (propertyName : string) (item : SchemaRef) : list value :=
  let '(mkSchemaRef s _) := item in
  match mget (sc_Properties s) propertyName with Some p => sc_Enum (sr_Schema p) | None => [] end ++
  from_option (fun l => mjoin (validationEnums propertyName <$> l)) [] (sc_AllOf s) ++
  from_option (fun l => mjoin (validationEnums propertyName <$> l)) [] (sc_AnyOf s) ++
  from_option (fun l => mjoin (validationEnums propertyName <$> l)) [] (sc_OneOf s).

(** The values of all validation groups of a schema for a property. *)
Definition groupEnums (propertyName : string) (s : SchemaRef) : list value :=
  let group (g : option (list SchemaRef)) := default [] g ≫= validationEnums propertyName in
  group (sc_AllOf (sr_Schema s)) ++ group (sc_AnyOf (sr_Schema s)) ++ group (sc_OneOf (sr_Schema s)).

Section Transform.
Context `{MapRange, Unique}.

Definition extendEnum (values : list value) (s : SchemaRef) : SchemaRef :=
  set_Enum (UniqueJSONSlice (sc_Enum (sr_Schema s) ++ values)) s.

(** The loop of [propogateEnum]: a property with a reference stands for the definition,
    which must exist; any other property is updated in the map. *)
Fixpoint propogateLoop (schema : SchemaRef) (todo : list (string * SchemaRef)) (props : gmap string SchemaRef)
    (t : transformer) : outcome (gmap string SchemaRef * transformer) :=
  match todo with
  | [] => Done (props, t)
  | (propertyName, property) :: rest =>
      let values := groupEnums propertyName schema in
      if sr_Ref property <>? "" then
        match t_Definitions t !! RefName property with
        | None => Panic "invalid memory address or nil pointer dereference"
        | Some definition =>
            propogateLoop schema rest props
              (t <| t_Definitions := <[RefName property := extendEnum values definition]> (t_Definitions t) |>)
        end
      else propogateLoop schema rest (<[propertyName := extendEnum values property]> props) t
  end.

(** [propogateEnum]: the assignment it makes to the properties of the schema. *)
Definition propogateEnum (schema : SchemaRef) (t : transformer)
    : outcome ((SchemaRef -> SchemaRef) * transformer) :=
  match sc_Properties (sr_Schema schema) with
  | None => Done (id, t)
  | Some props =>
      r ← propogateLoop schema (range props) props t;
      Done (set_Properties (Some r.1), r.2)
  end.

(** ** Unions *)

(** A subtype of a union, with its transformation. *)
Notation subtype := (SchemaRef * (string -> transformer -> outcome ((SchemaRef -> SchemaRef) * transformer)))%type.

Definition unnamed (v : SchemaRef) : bool := (sc_Title (sr_Schema v) =? "") && (sr_Ref v =? "").

Definition subtypeName (v : SchemaRef) : string := if sr_Ref v <>? "" then RefName v else sc_Title (sr_Schema v).
Definition subtypeKey (v : SchemaRef) : string := if sr_Ref v <>? "" then RefName v else "".

(** A property for each subtype. *)
Fixpoint addSubtypes (subtypes : list subtype) (options : list string) (props : gmap string SchemaRef)
    (t : transformer) : outcome (list string * gmap string SchemaRef * transformer) :=
  match subtypes with
  | [] => Done (options, props, t)
  | (v, transformSubtype) :: rest =>
      let name := subtypeName v in
      r ← transformSubtype (subtypeKey v) t;
      addSubtypes rest (options ++ [name]) (<[name := r.1 v]> props) r.2
  end.

Definition nameDefinition (options : list string) : SchemaRef :=
  mkSchemaRef (zeroSchema <| sc_Type := "string" |> <| sc_Enum := VString <$> options |>) "".

Definition optionValidation (option : string) : SchemaRef :=
  mkSchemaRef (zeroSchema
    <| sc_Properties := Some {[ "name" := mkSchemaRef (zeroSchema <| sc_Enum := [VString option] |>) "" ]} |>
    <| sc_Required := ["name"; option] |>) "".

(** The assignments to the fields of a union. *)
Definition set_Union (props : gmap string SchemaRef) (options : list string) (s : SchemaRef) : SchemaRef :=
  let schema := sr_Schema s in
  mkSchemaRef (schema <| sc_Properties := Some props |> <| sc_OneOf := Some (optionValidation <$> options) |>
    <| sc_AdditionalProperties :=
         (fun a => mkAdditionalProperties (Some false) (ap_Schema a)) <$> sc_AdditionalProperties schema |>) (sr_Ref s).

(** Whether the transformation of unions applies. *)
Definition isUnion (key : string) (s : SchemaRef) : bool :=
  let schema := sr_Schema s in
  negb ((key =? "") || negb (bool_decide (is_Some (sc_OneOf schema))) ||
        negb (Nat.eqb (size (gm (sc_Properties schema))) 1) || negb (IsAllowed (sc_AdditionalProperties schema))) &&
  bool_decide (is_Some (mget (sc_Properties schema) "name")) &&
  negb (existsb unnamed (default [] (sc_OneOf schema))).

Definition oneOfRefsTransform (subtypes : list subtype) (key : string) (schema : SchemaRef) (t : transformer)
    : outcome ((SchemaRef -> SchemaRef) * transformer) :=
  if negb (isUnion key schema) then Done (id, t)
  else
    r ← addSubtypes subtypes [] (gm (sc_Properties (sr_Schema schema))) t;
    let '(options, props, t) := r in
    let nameDefinitionKey := key +:+ "Name" in
    let t := mkTransformer (<[nameDefinitionKey := nameDefinition options]> (t_Definitions t)) (t_visited t)
               ({[nameDefinitionKey]} ∪ t_replaced t) in
    let props := <["name" := mkSchemaRef zeroSchema ("#/definitions/" +:+ nameDefinitionKey)]> props in
    Done (set_Union props options, t).

(** [transformSchema]: the assignments to the schema, which the caller makes to the node
    it took it from. *)
Fixpoint transformSchema (schema : SchemaRef) (key : string) (t : transformer) {struct schema}
    : outcome ((SchemaRef -> SchemaRef) * transformer) :=
  if decide (key ∈ t_visited t) then Done (id, t)
  else
    let t := t <| t_visited := {[key]} ∪ t_visited t |> in
    let '(mkSchemaRef s _) := schema in
    let subtypes := from_option (fmap (fun v => (v, transformSchema v))) [] (sc_OneOf s) in
    '(union, t) ← oneOfRefsTransform subtypes key schema t;
    '(enums, t) ← propogateEnum (union schema) t;
    Done (fun s => enums (union s), t).

(** A definition of the document; when its entry was replaced meanwhile, the schema that
    is updated is not in the document any more. *)
Definition transformDefinition (definitionKey : string) (t : transformer) : outcome transformer :=
  match t_Definitions t !! definitionKey with
  | None => Done t
  | Some value =>
      r ← transformSchema value definitionKey (t <| t_replaced := ∅ |>);
      let '(edit, t) := r in
      Done (if decide (definitionKey ∈ t_replaced t) then t
            else t <| t_Definitions := alter edit definitionKey (t_Definitions t) |>)
  end.

Fixpoint transformDefinitions (keys : list string) (t : transformer) : outcome transformer :=
  match keys with
  | [] => Done t
  | key :: rest => t ← transformDefinition key t; transformDefinitions rest t
  end.

(** ** Removal of validation *)

Notation removal A := (gmap string SchemaRef -> option (A * gmap string SchemaRef)).

(** The schemas of a map, in the order of the iteration. *)
Fixpoint removeMap (todo : list (string * removal SchemaRef)) (props : gmap string SchemaRef)
    : removal (gmap string SchemaRef) := fun defs =>
  match todo with
  | [] => Some (props, defs)
  | (name, remove) :: rest =>
      match remove defs with
      | None => None
      | Some (s, defs) => removeMap rest (<[name := s]> props) defs
      end
  end.

Definition removeOption (remove : option (removal SchemaRef)) : removal (option SchemaRef) := fun defs =>
  match remove with
  | None => Some (None, defs)
  | Some remove => match remove defs with None => None | Some (s, defs) => Some (Some s, defs) end
  end.

(** [removeComplexValidation] of a schema: a property with a reference leads to its
    definition, which [follow] treats; [None] stands for a recursion that goes deeper than
    the fuel. *)
Fixpoint removeSchema (follow : string -> gmap string SchemaRef -> option (gmap string SchemaRef))
    (schema : SchemaRef) {struct schema} : removal SchemaRef := fun defs =>
  let '(mkSchemaRef s ref) := schema in
  let removeProperty (p : SchemaRef) : removal SchemaRef := fun defs =>
    if sr_Ref p <>? "" then match follow (RefName p) defs with None => None | Some defs => Some (p, defs) end
    else removeSchema follow p defs in
  match removeMap (range (from_option (fmap removeProperty) ∅ (sc_Properties s))) (gm (sc_Properties s)) defs with
  | None => None
  | Some (props, defs) =>
      match removeOption (removeSchema follow <$> sc_Items s) defs with
      | None => None
      | Some (items, defs) =>
          match removeOption (from_option (fun a => removeSchema follow <$> ap_Schema a) None (sc_AdditionalProperties s)) defs with
          | None => None
          | Some (additional, defs) =>
              Some (mkSchemaRef (s <| sc_AllOf := None |> <| sc_OneOf := None |> <| sc_AnyOf := None |> <| sc_Not := None |>
                      <| sc_Properties := (fun _ => props) <$> sc_Properties s |>
                      <| sc_Items := items |>
                      <| sc_AdditionalProperties :=
                           (fun a => mkAdditionalProperties (ap_Allowed a) additional) <$> sc_AdditionalProperties s |>) ref, defs)
          end
      end
  end.

(** The definition of a name, if there is one. *)
Fixpoint removeDefinition (fuel : nat) (name : string) (defs : gmap string SchemaRef) : option (gmap string SchemaRef) :=
  match fuel with
  | O => None
  | S fuel =>
      match defs !! name with
      | None => Some defs
      | Some schema =>
          match removeSchema (removeDefinition fuel) schema defs with
          | None => None
          | Some (schema, defs) => Some (<[name := schema]> defs)
          end
      end
  end.

Fixpoint removeDefinitions (fuel : nat) (names : list string) (defs : gmap string SchemaRef)
    : option (gmap string SchemaRef) :=
  match names with
  | [] => Some defs
  | name :: rest =>
      match removeDefinition fuel name defs with
      | None => None
      | Some defs => removeDefinitions fuel rest defs
      end
  end.

(** [transform] *)
Definition transform (fuel : nat) (base doc : Document) (codegenTarget : bool) : outcome (option Document) :=
  t ← transformDefinitions (range (doc_Definitions base)).*1 (mkTransformer (doc_Definitions doc) ∅ ∅);
  let defs := t_Definitions t in
  Done (if codegenTarget then
          (fun defs => doc <| doc_Definitions := defs |>) <$> removeDefinitions fuel (range defs).*1 defs
        else Some (doc <| doc_Definitions := defs |>)).

(** ** compile.go *)

Record compileOptions := mkCompileOptions { codegenTarget : bool }.
Definition Option : Type := compileOptions -> compileOptions.
Definition WithCodeGenerationTarget (enabled : bool) : Option := fun _ => mkCompileOptions enabled.

Definition Documents (fuel : nat) (base : Document) (layers : list Document) (opts : list Option)
    : outcome (option Document) :=
  let options := foldl (fun o opt => opt o) (mkCompileOptions false) opts in
  let merged := mkDocument (doc_Schema base) (doc_SchemaVersion base) (mergeDefinitions (base :: layers)) in
  transform fuel base merged (codegenTarget options).

(** [Files], with [taxonomyio.ReadDocumentFromFile] *)
Definition Files (fuel : nat) (read : string -> Document + error) (baseDocPath : string) (layerDocPaths : list string)
    (opts : list Option) : outcome (option Document + error) :=
  match read baseDocPath with
  | inr err => Done (inr err)
  | inl base =>
      let fix layers paths :=
        match paths with
        | [] => inl []
        | path :: rest =>
            match read path with
            | inr err => inr err
            | inl doc => match layers rest with inr err => inr err | inl docs => inl (doc :: docs) end
            end
        end in
      match layers layerDocPaths with
      | inr err => Done (inr err)
      | inl docs => inl <$> Documents fuel base docs opts
      end
  end.
End Transform.
