(* ===== verification/TaxonomyFacts.v ===== *)
(** * What the taxonomy compiler promises *)
From stdpp Require Import base gmap strings list numbers.
From S2P Require Import Prelude GoStrings GoJSON Taxonomy TaxonomyCompile.

(** ** Orders *)

Lemma tied_str a b : tied str_lt a b -> a = b.
Proof.
  unfold tied, str_lt. intros [H1 H2]. apply String.compare_eq_iff.
  rewrite (String.compare_antisym b a) in H2. by destruct (String.compare a b).
Qed.

Lemma tied_json a b : tied json_Less a b -> json_Marshal a = json_Marshal b.
Proof. apply tied_str. Qed.

Lemma str_lt_irrefl a : str_lt a a = false.
Proof. unfold str_lt. pose proof (String.compare_antisym a a). by destruct (String.compare a a). Qed.

Lemma json_Less_irrefl a : json_Less a a = false.
Proof. apply str_lt_irrefl. Qed.

(** ** The merge, node by node *)

(** The schema at a path of properties. *)
Fixpoint atPath (s : SchemaRef) (path : list string) : option SchemaRef :=
  match path with
  | [] => Some s
  | p :: ps => mget (sc_Properties (sr_Schema s)) p ≫= fun s => atPath s ps
  end.

(** The schema at a path below a definition. *)
Definition schemaAt (defs : gmap string SchemaRef) (key : string) (path : list string) : option SchemaRef :=
  defs !! key ≫= fun s => atPath s path.

Section MergeFacts.
Context `{Unique}.

Lemma updateMap_lookup (dst src : gmap string SchemaRef) k :
  updateMap dst (mergeInto <$> src) !! k = mergeSchemaRef (dst !! k) (src !! k).
Proof.
  unfold updateMap, mergeSchemaRef. rewrite lookup_merge, lookup_fmap.
  destruct (dst !! k), (src !! k); done.
Qed.

Lemma mergeInto_None s : mergeInto s None = s.
Proof. by destruct s. Qed.

Lemma mergeSchemaRef_assoc_at d s path :
  (forall d s, atPath (mergeInto s (Some d)) path = mergeSchemaRef (atPath d path) (atPath s path)) ->
  mergeSchemaRef d s ≫= (fun x => atPath x path) =
    mergeSchemaRef (d ≫= fun x => atPath x path) (s ≫= fun x => atPath x path).
Proof.
  intros Hp. destruct d as [d|], s as [s|]; simpl; [apply Hp| | |done].
  - by destruct (atPath d path).
  - rewrite mergeInto_None. destruct (atPath s path) as [x|]; simpl; [by rewrite mergeInto_None|done].
Qed.

Lemma mergeInto_properties d s p :
  mget (sc_Properties (sr_Schema (mergeInto s (Some d)))) p =
    mergeSchemaRef (mget (sc_Properties (sr_Schema d)) p) (mget (sc_Properties (sr_Schema s)) p).
Proof.
  destruct d as [d dref], s as [s sref]. simpl. unfold mget. destruct (sc_Properties s) as [sp|]; simpl.
  - apply updateMap_lookup.
  - rewrite lookup_empty. done.
Qed.

(** Merging commutes with going to a property. *)
Lemma atPath_mergeInto path d s :
  atPath (mergeInto s (Some d)) path = mergeSchemaRef (atPath d path) (atPath s path).
Proof.
  revert d s. induction path as [|p ps IH]; intros d s; [done|].
  cbn [atPath]. rewrite mergeInto_properties. by apply mergeSchemaRef_assoc_at.
Qed.

Lemma schemaAt_mergeDefs dst src key path :
  schemaAt (mergeDefs dst src) key path = mergeSchemaRef (schemaAt dst key path) (schemaAt src key path).
Proof.
  unfold schemaAt, mergeDefs. rewrite updateMap_lookup. apply mergeSchemaRef_assoc_at, atPath_mergeInto.
Qed.

Lemma schemaAt_foldl docs defs key path :
  schemaAt (foldl (fun result doc => mergeDefs result (doc_Definitions doc)) defs docs) key path =
    foldl (fun d doc => mergeSchemaRef d (schemaAt (doc_Definitions doc) key path)) (schemaAt defs key path) docs.
Proof.
  revert defs. induction docs as [|doc docs IH]; intros defs; [done|]. simpl. by rewrite IH, schemaAt_mergeDefs.
Qed.

(** The nodes of the documents at a path, in the order of the documents. *)
Definition nodes (docs : list Document) (key : string) (path : list string) : list SchemaRef :=
  omap (fun doc => schemaAt (doc_Definitions doc) key path) docs.

Definition mergeNodes (n : SchemaRef) (rest : list SchemaRef) : SchemaRef :=
  foldl (fun d s => mergeInto s (Some d)) n rest.

Lemma foldl_nodes docs key path d :
  foldl (fun d doc => mergeSchemaRef d (schemaAt (doc_Definitions doc) key path)) d docs =
    match d, nodes docs key path with
    | Some d, ns => Some (mergeNodes d ns)
    | None, [] => None
    | None, n :: ns => Some (mergeNodes n ns)
    end.
Proof.
  revert d. induction docs as [|doc docs IH]; intros d; [by destruct d|]. simpl. rewrite IH.
  unfold nodes. simpl. destruct d, (schemaAt (doc_Definitions doc) key path); simpl; rewrite ?mergeInto_None; done.
Qed.

Lemma mergeDefinitions_nodes docs key path :
  schemaAt (mergeDefinitions docs) key path =
    match nodes docs key path with [] => None | n :: ns => Some (mergeNodes n ns) end.
Proof.
  unfold mergeDefinitions. rewrite schemaAt_foldl.
  assert (schemaAt ∅ key path = None) as -> by (unfold schemaAt; by rewrite lookup_empty).
  apply (foldl_nodes docs key path None).
Qed.

Context `{!UniqueLaws}.

Lemma UniqueStrings_elem l x : x ∈ UniqueStrings l <-> x ∈ l.
Proof.
  unfold UniqueStrings. split; [apply unique_subset|]. intros (y & Hy & ->%tied_str)%(unique_keeps str_lt _ _ str_lt_irrefl). done.
Qed.

(** The last text that is not empty, and the last value that is given. *)
Definition lastText (texts : list string) : string := default "" (list.last (filter (fun t => t <> "") texts)).
Definition lastGiven {A} (values : list (option A)) : option A := list.last (omap id values).

Lemma lastText_snoc l t : lastText (l ++ [t]) = maybeOverrideString (lastText l) t.
Proof.
  unfold lastText, maybeOverrideString. rewrite list.filter_app, filter_cons, filter_nil.
  destruct (String.eqb_spec t "") as [->|Ht].
  - rewrite decide_False by tauto. by rewrite app_nil_r.
  - rewrite decide_True by done. by rewrite last_snoc.
Qed.
Lemma lastGiven_snoc {A} l (v : option A) : lastGiven (l ++ [v]) = maybeOverride (lastGiven l) v.
Proof.
  unfold lastGiven. rewrite omap_app. destruct v as [v|]; simpl; [by rewrite last_snoc|by rewrite app_nil_r].
Qed.

(** The fields of a schema by the way they are merged. *)
Definition texts : list (Schema SchemaRef -> string) := [@sc_Title _; @sc_Description _; @sc_Format _; @sc_Pattern _].
Definition sizes : list (Schema SchemaRef -> option Z) :=
  [@sc_MinProps _; @sc_MaxProps _; @sc_MinLength _; @sc_MaxLength _; @sc_MinItems _; @sc_MaxItems _].
Definition numbers : list (Schema SchemaRef -> option string) := [@sc_Min _; @sc_Max _; @sc_MultipleOf _].
Definition flags : list (Schema SchemaRef -> bool) := [@sc_ExclusiveMin _; @sc_ExclusiveMax _; @sc_UniqueItems _].
Definition alternatives : list (Schema SchemaRef -> option (list SchemaRef)) := [@sc_OneOf _; @sc_AllOf _; @sc_AnyOf _].

(** What a merged node says, in terms of the nodes it is made of. *)
Record merges (ns : list SchemaRef) (m : SchemaRef) : Prop := {
  merges_Required r : r ∈ sc_Required (sr_Schema m) <-> exists n, n ∈ ns /\ r ∈ sc_Required (sr_Schema n);
  merges_Enum v : v ∈ sc_Enum (sr_Schema m) -> exists n, n ∈ ns /\ v ∈ sc_Enum (sr_Schema n);
  merges_Enum_all n v : n ∈ ns -> v ∈ sc_Enum (sr_Schema n) ->
    exists v', v' ∈ sc_Enum (sr_Schema m) /\ json_Marshal v' = json_Marshal v;
  merges_texts : Forall (fun f => f (sr_Schema m) = lastText ((fun n => f (sr_Schema n)) <$> ns)) texts;
  merges_sizes : Forall (fun f => f (sr_Schema m) = lastGiven ((fun n => f (sr_Schema n)) <$> ns)) sizes;
  merges_numbers : Forall (fun f => f (sr_Schema m) = lastGiven ((fun n => f (sr_Schema n)) <$> ns)) numbers;
  merges_Default : sc_Default (sr_Schema m) = lastGiven ((fun n => sc_Default (sr_Schema n)) <$> ns);
  merges_flags : Forall (fun f => f (sr_Schema m) = existsb (fun n => f (sr_Schema n)) ns) flags;
  merges_alternatives : Forall (fun f => default [] (f (sr_Schema m)) = ns ≫= fun n => default [] (f (sr_Schema n))) alternatives
}.

Lemma merges_one n : merges [n] n.
Proof.
  assert (forall t, t = lastText [t]) as Ht.
  { intros t. unfold lastText. rewrite filter_cons, filter_nil. case_decide as E; [done|]. by destruct (decide (t = "")). }
  assert (forall {A} (v : option A), v = lastGiven [v]) as Hg by (by intros A []).
  split; [intros; set_solver..| | | | | |].
  - repeat constructor; apply Ht.
  - repeat constructor; apply Hg.
  - repeat constructor; apply Hg.
  - apply Hg.
  - repeat constructor; simpl; by rewrite orb_false_r.
  - repeat constructor; simpl; by rewrite app_nil_r.
Qed.

Lemma go_append_default {A} (a b : option (list A)) : default [] (go_append a b) = default [] a ++ default [] b.
Proof. unfold go_append. destruct a as [a|], b as [[|y b]|]; simpl; rewrite ?app_nil_r; done. Qed.

Lemma merges_snoc ns m n : merges ns m -> merges (ns ++ [n]) (mergeInto n (Some m)).
Proof.
  intros [Mr Me Ma Mt Ms Mn Md Mf Mo]. destruct m as [m mref], n as [n nref]. split; simpl.
  - intros r. rewrite UniqueStrings_elem, elem_of_app, (Mr r). split.
    + intros [(x & ? & ?)|?]; [exists x; set_solver|exists (mkSchemaRef n nref); set_solver].
    + intros (x & [?| ->%list_elem_of_singleton]%elem_of_app & ?); [left; eauto|by right].
  - intros v Hv%unique_subset. apply elem_of_app in Hv as [(x & ? & ?)%Me|Hv]; [exists x; set_solver|].
    exists (mkSchemaRef n nref). set_solver.
  - intros x v [Hx| ->%list_elem_of_singleton]%elem_of_app Hv.
    + destruct (Ma x v Hx Hv) as (v' & Hv' & Ev).
      destruct (unique_keeps json_Less (sc_Enum m ++ sc_Enum n) v' json_Less_irrefl) as (w & Hw & Et%tied_json); [set_solver|].
      exists w. split; [done|congruence].
    + destruct (unique_keeps json_Less (sc_Enum m ++ sc_Enum n) v json_Less_irrefl) as (w & Hw & Et%tied_json); [set_solver|].
      exists w. split; [done|congruence].
  - unfold texts in *. decompose_Forall_hyps. repeat constructor; simpl; rewrite fmap_app; simpl; rewrite lastText_snoc; congruence.
  - unfold sizes in *. decompose_Forall_hyps. repeat constructor; simpl; rewrite fmap_app; simpl; rewrite lastGiven_snoc; congruence.
  - unfold numbers in *. decompose_Forall_hyps. repeat constructor; simpl; rewrite fmap_app; simpl; rewrite lastGiven_snoc; congruence.
  - rewrite fmap_app. simpl. rewrite lastGiven_snoc. simpl in Md. congruence.
  - unfold flags in *. decompose_Forall_hyps. repeat constructor; simpl; rewrite existsb_app; simpl; rewrite orb_false_r; congruence.
  - unfold alternatives in *. decompose_Forall_hyps.
    repeat constructor; simpl; rewrite go_append_default, bind_app; simpl; rewrite app_nil_r; congruence.
Qed.

Lemma mergeNodes_spec n ns :
  merges (n :: ns) (mergeNodes n ns) /\ sr_Ref (mergeNodes n ns) = sr_Ref n /\
  sc_Type (sr_Schema (mergeNodes n ns)) = sc_Type (sr_Schema n).
Proof.
  unfold mergeNodes. induction ns as [|x ns IH] using rev_ind; [split; [apply merges_one|done]|].
  rewrite foldl_app. simpl. destruct IH as (IHm & IHr & IHt). split; [|split].
  - apply (merges_snoc _ _ x) in IHm. exact IHm.
  - rewrite <- IHr. destruct (foldl _ n ns), x. done.
  - rewrite <- IHt. destruct (foldl _ n ns), x. done.
Qed.
End MergeFacts.

(** C25: merging documents unites them at every path of definitions and properties, when the
    sorting library keeps one of the elements that its order does not tell apart: a
    schema is there exactly when some document has one there, a schema of a single
    document is taken as it is, and a schema of several has the type and the reference
    of the first; the last title, description, format and pattern that are not empty; the
    last default and the last bound of each kind that are given; a flag that any of them
    sets; their alternatives (oneOf, allOf and anyOf) one after the other; the required names
    of all of them, and their enumerated values up to equal JSON text. *)
Theorem mergeDefinitions_exact `{Unique, !UniqueLaws} docs key path :
  match nodes docs key path with
  | [] => schemaAt (mergeDefinitions docs) key path = None
  | n :: ns => exists m, schemaAt (mergeDefinitions docs) key path = Some m /\
      (ns = [] -> m = n) /\ merges (n :: ns) m /\ sr_Ref m = sr_Ref n /\
      sc_Type (sr_Schema m) = sc_Type (sr_Schema n)
  end.
Proof.
  rewrite mergeDefinitions_nodes. destruct (nodes docs key path) as [|n ns]; [done|].
  eexists. split; [done|]. split; [by intros ->|]. apply mergeNodes_spec.
Qed.

(** ** Schemas by induction *)

Fixpoint schema_size (s : SchemaRef) : nat :=
  let '(mkSchemaRef s _) := s in
  S (from_option (map_fold (fun _ p n => schema_size p + n) 0) 0 (sc_Properties s) +
     from_option schema_size 0 (sc_Items s) +
     from_option (fun a => from_option schema_size 0 (ap_Schema a)) 0 (sc_AdditionalProperties s)).

Lemma schema_size_property s ref k p :
  mget (sc_Properties s) k = Some p -> schema_size p < schema_size (mkSchemaRef s ref).
Proof.
  unfold mget. simpl. destruct (sc_Properties s) as [m|]; simpl; [|by rewrite lookup_empty].
  intros Hk. rewrite (map_fold_delete_L _ _ k p m); [lia|lia|done].
Qed.

(** Induction over the schemas that [removeComplexValidation] goes to. *)
Lemma schema_ind (P : SchemaRef -> Prop) :
  (forall s ref,
     (forall k p, mget (sc_Properties s) k = Some p -> P p) ->
     (forall i, sc_Items s = Some i -> P i) ->
     (forall a x, sc_AdditionalProperties s = Some a -> ap_Schema a = Some x -> P x) ->
     P (mkSchemaRef s ref)) -> forall s, P s.
Proof.
  intros HP s. remember (schema_size s) as n eqn:Hn. revert s Hn.
  induction (lt_wf n) as [n _ IH]. intros [s ref] ->. apply HP.
  - intros k p Hk. eapply IH; [|reflexivity]. by eapply schema_size_property.
  - intros i Hi. eapply IH; [|reflexivity]. simpl. rewrite Hi. simpl. lia.
  - intros a x Ha Hx. eapply IH; [|reflexivity]. simpl. rewrite Ha. simpl. rewrite Hx. simpl. lia.
Qed.

(** ** The removal of validation as a function on schemas *)

(** No validation at the schema, nor at what it is made of; a property with a reference
    stands for its definition. *)
Inductive plain : SchemaRef -> Prop :=
| plain_intro s ref :
    sc_AllOf s = None -> sc_OneOf s = None -> sc_AnyOf s = None -> sc_Not s = None ->
    (forall k p, mget (sc_Properties s) k = Some p -> sr_Ref p = "" -> plain p) ->
    (forall i, sc_Items s = Some i -> plain i) ->
    (forall a x, sc_AdditionalProperties s = Some a -> ap_Schema a = Some x -> plain x) ->
    plain (mkSchemaRef s ref).

(** The names of the definitions a schema leads to. *)
Inductive follows : SchemaRef -> string -> Prop :=
| follows_ref s ref k p :
    mget (sc_Properties s) k = Some p -> sr_Ref p <> "" -> follows (mkSchemaRef s ref) (RefName p)
| follows_property s ref k p r :
    mget (sc_Properties s) k = Some p -> sr_Ref p = "" -> follows p r -> follows (mkSchemaRef s ref) r
| follows_items s ref i r : sc_Items s = Some i -> follows i r -> follows (mkSchemaRef s ref) r
| follows_additional s ref a x r :
    sc_AdditionalProperties s = Some a -> ap_Schema a = Some x -> follows x r -> follows (mkSchemaRef s ref) r.

Fixpoint clean (s : SchemaRef) : SchemaRef :=
  let '(mkSchemaRef s ref) := s in
  mkSchemaRef (s <| sc_AllOf := None |> <| sc_OneOf := None |> <| sc_AnyOf := None |> <| sc_Not := None |>
    <| sc_Properties :=
         (fun m : gmap string SchemaRef => (fun p => if sr_Ref p <>? "" then p else clean p) <$> m) <$> sc_Properties s |>
    <| sc_Items := clean <$> sc_Items s |>
    <| sc_AdditionalProperties :=
         (fun a => mkAdditionalProperties (ap_Allowed a) (clean <$> ap_Schema a)) <$> sc_AdditionalProperties s |>) ref.

Definition cleanProperty (p : SchemaRef) : SchemaRef := if sr_Ref p <>? "" then p else clean p.

(** The parts of a cleaned schema. *)
Definition cleaned (s : Schema SchemaRef) : Schema SchemaRef :=
  s <| sc_AllOf := None |> <| sc_OneOf := None |> <| sc_AnyOf := None |> <| sc_Not := None |>
    <| sc_Properties := (fun m : gmap string SchemaRef => cleanProperty <$> m) <$> sc_Properties s |>
    <| sc_Items := clean <$> sc_Items s |>
    <| sc_AdditionalProperties :=
         (fun a => mkAdditionalProperties (ap_Allowed a) (clean <$> ap_Schema a)) <$> sc_AdditionalProperties s |>.

Lemma clean_unfold s ref : clean (mkSchemaRef s ref) = mkSchemaRef (cleaned s) ref.
Proof. done. Qed.

Lemma clean_Ref s : sr_Ref (clean s) = sr_Ref s.
Proof. by destruct s. Qed.

Lemma cleaned_parts s :
  sc_Properties (cleaned s) = (fun m : gmap string SchemaRef => cleanProperty <$> m) <$> sc_Properties s /\
  sc_Items (cleaned s) = clean <$> sc_Items s /\
  sc_AdditionalProperties (cleaned s) =
    (fun a => mkAdditionalProperties (ap_Allowed a) (clean <$> ap_Schema a)) <$> sc_AdditionalProperties s.
Proof. by destruct s. Qed.

Lemma cleaned_property s k : mget (sc_Properties (cleaned s)) k = cleanProperty <$> mget (sc_Properties s) k.
Proof.
  unfold mget. rewrite (proj1 (cleaned_parts s)). destruct (sc_Properties s); simpl; [by rewrite lookup_fmap|].
  by rewrite lookup_empty.
Qed.

Lemma cleaned_items s i : sc_Items (cleaned s) = Some i <-> exists j, sc_Items s = Some j /\ i = clean j.
Proof. rewrite (proj1 (proj2 (cleaned_parts s))), fmap_Some. naive_solver. Qed.

Lemma cleaned_additional s x :
  (exists a, sc_AdditionalProperties (cleaned s) = Some a /\ ap_Schema a = Some x) <->
  exists a y, sc_AdditionalProperties s = Some a /\ ap_Schema a = Some y /\ x = clean y.
Proof.
  rewrite (proj2 (proj2 (cleaned_parts s))). split.
  - intros (a & (b & Hb & ->)%fmap_Some & Hx). simpl in Hx. apply fmap_Some in Hx as (y & Hy & ->). eauto.
  - intros (a & y & Ha & Hy & ->). rewrite Ha. eexists. split; [done|]. simpl. by rewrite Hy.
Qed.

Lemma cleanProperty_Ref p : sr_Ref (cleanProperty p) = sr_Ref p.
Proof. unfold cleanProperty. destruct (sr_Ref p <>? ""); [done|apply clean_Ref]. Qed.

Lemma cleanProperty_inline p : sr_Ref p = "" -> cleanProperty p = clean p.
Proof. unfold cleanProperty. by intros ->. Qed.

Lemma plain_clean s : plain (clean s).
Proof.
  induction s as [s ref Hp Hi Ha] using schema_ind. rewrite clean_unfold. constructor; try (by destruct s).
  - intros k p. rewrite cleaned_property. intros (q & Hq & ->)%fmap_Some. rewrite cleanProperty_Ref. intros Hr.
    rewrite cleanProperty_inline by done. eauto.
  - intros i (j & Hj & ->)%cleaned_items. eauto.
  - intros a x Hx Hy. destruct (proj1 (cleaned_additional s x)) as (b & y & Hb & Hy' & ->); eauto.
Qed.

(** Cleaning keeps the references. *)
Lemma follows_clean s r : follows (clean s) r <-> follows s r.
Proof.
  induction s as [s ref Hp Hi Ha] using schema_ind. rewrite clean_unfold. split; inversion 1; subst.
  - rewrite cleaned_property in *. match goal with E : _ <$> _ = Some _ |- _ => apply fmap_Some in E as (q & Eq & ->) end.
    unfold RefName. rewrite cleanProperty_Ref in *. by eapply follows_ref.
  - rewrite cleaned_property in *. match goal with E : _ <$> _ = Some _ |- _ => apply fmap_Some in E as (q & Eq & ->) end.
    rewrite cleanProperty_Ref in *. rewrite cleanProperty_inline in * by done.
    eapply follows_property; [done..|]. by eapply Hp.
  - match goal with E : sc_Items _ = _ |- _ => apply cleaned_items in E as (j & Ej & ->) end.
    eapply follows_items; [done|]. by eapply Hi.
  - destruct (proj1 (cleaned_additional s x)) as (b & y & Hb & Hy & ->); [eauto|].
    eapply follows_additional; [done..|]. by eapply Ha.
  - match goal with E : mget (sc_Properties s) ?k = Some ?p |- _ =>
      pose proof (cleaned_property s k) as Ec; rewrite E in Ec end.
    unfold RefName. rewrite <- cleanProperty_Ref. eapply follows_ref; [exact Ec|]. by rewrite cleanProperty_Ref.
  - match goal with E : mget (sc_Properties s) ?k = Some ?p |- _ =>
      pose proof (cleaned_property s k) as Ec; rewrite E in Ec end.
    eapply follows_property; [exact Ec|by rewrite cleanProperty_Ref|]. rewrite cleanProperty_inline by done. by eapply Hp.
  - eapply follows_items; [apply cleaned_items; eauto|]. by eapply Hi.
  - destruct (proj2 (cleaned_additional s (clean x))) as (b & Hb & Hy); [eauto|].
    eapply follows_additional; [done..|]. by eapply Ha.
Qed.

Lemma cleaned_cleaned s :
  (forall k p, mget (sc_Properties s) k = Some p -> cleanProperty (cleanProperty p) = cleanProperty p) ->
  (forall i, sc_Items s = Some i -> clean (clean i) = clean i) ->
  (forall a x, sc_AdditionalProperties s = Some a -> ap_Schema a = Some x -> clean (clean x) = clean x) ->
  cleaned (cleaned s) = cleaned s.
Proof.
  intros Hp Hi Ha.
  destruct s as [ty ti de props ap items df oneof anyof allof nt req minp maxp fmt en minl maxl pat mn mx mo xmin xmax mini maxi uq].
  unfold cleaned; simpl in *. f_equal.
  - destruct props as [m|]; simpl in *; [|done]. f_equal. apply map_eq. intros k. rewrite !lookup_fmap.
    destruct (m !! k) as [p|] eqn:E; simpl; [|done]. f_equal. by eapply (Hp k).
  - destruct ap as [[al [x|]]|]; simpl in *; [|done..]. do 3 f_equal. by eapply Ha.
  - destruct items as [i|]; simpl in *; [|done]. f_equal. auto.
Qed.

Lemma clean_clean s : clean (clean s) = clean s.
Proof.
  induction s as [s ref Hp Hi Ha] using schema_ind. rewrite !clean_unfold. f_equal. apply cleaned_cleaned; auto.
  intros k p Hk. unfold cleanProperty at 1. rewrite cleanProperty_Ref.
  destruct (sr_Ref p <>? "") eqn:E; [done|]. unfold cleanProperty. rewrite E. eauto.
Qed.

(** ** The loops of the removal *)

Section Removal.
Context `{MapRange}.
Notation defs_t := (gmap string SchemaRef).

(** Definitions of which some have been cleaned. *)
Definition partly (defs defs' : defs_t) : Prop :=
  forall k, defs' !! k = defs !! k \/ defs' !! k = clean <$> defs !! k.

Lemma partly_refl defs : partly defs defs.
Proof. by left. Qed.

Lemma clean_option (o : option SchemaRef) : clean <$> (clean <$> o) = clean <$> o.
Proof. destruct o; simpl; [|done]. by rewrite clean_clean. Qed.

Lemma partly_trans d1 d2 d3 : partly d1 d2 -> partly d2 d3 -> partly d1 d3.
Proof.
  intros H12 H23 k. destruct (H23 k) as [-> | ->]; [apply H12|].
  destruct (H12 k) as [-> | ->]; rewrite ?clean_option; by right.
Qed.

(** A map of removals runs each of them once; [I] is kept by all of them. *)
Lemma removeMap_run (I : defs_t -> Prop) todo props d props' d' :
  NoDup todo.*1 ->
  (forall name f d s d', (name, f) ∈ todo -> I d -> f d = Some (s, d') -> I d') ->
  I d -> removeMap todo props d = Some (props', d') ->
  I d' /\
  (forall name f, (name, f) ∈ todo -> exists d1 s d2, I d1 /\ f d1 = Some (s, d2) /\ props' !! name = Some s) /\
  (forall name, name ∉ todo.*1 -> props' !! name = props !! name).
Proof.
  revert props d. induction todo as [|[n f] todo IH]; intros props d Hn HI Hd E; simpl in *.
  { injection E as -> ->. split; [done|]. split; [set_solver|done]. }
  apply list.NoDup_cons in Hn as [Hnew Hn].
  destruct (f d) as [[s d1]|] eqn:Ef; [|done].
  assert (I d1) as Hd1 by (eapply HI; [apply list_elem_of_here|exact Hd|exact Ef]).
  destruct (IH (<[n := s]> props) d1 Hn) as (HI' & Hall & Hout);
    [intros; eapply HI; [by apply list_elem_of_further|done..]|done|exact E|].
  split; [done|]. split.
  - intros name g [[= -> ->]|Hin]%elem_of_cons; [|by apply Hall].
    exists d, s, d1. split; [done|]. split; [done|]. rewrite Hout by done. apply lookup_insert_eq.
  - intros name Hname. rewrite Hout by set_solver. apply lookup_insert_ne. set_solver.
Qed.

Lemma removeMap_total (I : defs_t -> Prop) todo props d :
  (forall name f d, (name, f) ∈ todo -> I d -> exists s d', f d = Some (s, d') /\ I d') ->
  I d -> exists props' d', removeMap todo props d = Some (props', d') /\ I d'.
Proof.
  revert props d. induction todo as [|[n f] todo IH]; intros props d Hf Hd; simpl; [eauto|].
  destruct (Hf n f d (list_elem_of_here _ _) Hd) as (s & d1 & -> & Hd1). apply IH; [|done].
  intros. eapply Hf; [by apply list_elem_of_further|done].
Qed.

(** One step of [removeSchema] into the removals of its parts. *)
Definition removeProperty (follow : string -> defs_t -> option defs_t) (p : SchemaRef) (d : defs_t) : option (SchemaRef * defs_t) :=
  if sr_Ref p <>? "" then match follow (RefName p) d with None => None | Some d => Some (p, d) end
  else removeSchema follow p d.

Definition additionalSchema (s : Schema SchemaRef) : option SchemaRef := sc_AdditionalProperties s ≫= ap_Schema.

Lemma removeSchema_unfold follow s ref d :
  removeSchema follow (mkSchemaRef s ref) d =
    match removeMap (range (removeProperty follow <$> gm (sc_Properties s))) (gm (sc_Properties s)) d with
    | None => None
    | Some (props, d) =>
        match removeOption (removeSchema follow <$> sc_Items s) d with
        | None => None
        | Some (items, d) =>
            match removeOption (removeSchema follow <$> additionalSchema s) d with
            | None => None
            | Some (additional, d) =>
                Some (mkSchemaRef (s <| sc_AllOf := None |> <| sc_OneOf := None |> <| sc_AnyOf := None |> <| sc_Not := None |>
                  <| sc_Properties := (fun _ => props) <$> sc_Properties s |>
                  <| sc_Items := items |>
                  <| sc_AdditionalProperties :=
                       (fun a => mkAdditionalProperties (ap_Allowed a) additional) <$> sc_AdditionalProperties s |>) ref, d)
            end
        end
    end.
Proof.
  simpl. unfold additionalSchema.
  assert (from_option (fmap (removeProperty follow)) ∅ (sc_Properties s) = removeProperty follow <$> gm (sc_Properties s)) as <-.
  { destruct (sc_Properties s); simpl; [done|]. by rewrite fmap_empty. }
  by destruct (sc_AdditionalProperties s).
Qed.

Lemma range_removals_elem follow (m : defs_t) name f :
  (name, f) ∈ range (removeProperty follow <$> m) <-> exists p, m !! name = Some p /\ f = removeProperty follow p.
Proof. rewrite range_elem, lookup_fmap, fmap_Some. done. Qed.

Lemma range_removals_keys follow (m : defs_t) name :
  name ∈ (range (removeProperty follow <$> m)).*1 <-> is_Some (m !! name).
Proof.
  rewrite list_elem_of_fmap. split.
  - intros ([n f] & -> & (p & Hp & _)%range_removals_elem). eauto.
  - intros [p Hp]. exists (name, removeProperty follow p). split; [done|]. apply range_removals_elem. eauto.
Qed.

Lemma removeOption_run (I : defs_t -> Prop) (f : option (defs_t -> option (SchemaRef * defs_t))) d o d' :
  (forall g d s d', f = Some g -> I d -> g d = Some (s, d') -> I d') -> I d ->
  removeOption f d = Some (o, d') ->
  I d' /\ (f = None -> o = None) /\ (forall g, f = Some g -> exists s, g d = Some (s, d') /\ o = Some s).
Proof.
  intros HI Hd. unfold removeOption. destruct f as [g|]; [|intros [= <- <-]; naive_solver].
  destruct (g d) as [[s d1]|] eqn:E; [|done]. intros [= <- <-]. split; [by eapply HI|]. split; [done|]. naive_solver.
Qed.

Lemma removeOption_total (I : defs_t -> Prop) (f : option (defs_t -> option (SchemaRef * defs_t))) d :
  (forall g d, f = Some g -> I d -> exists s d', g d = Some (s, d') /\ I d') -> I d ->
  exists o d', removeOption f d = Some (o, d') /\ I d'.
Proof.
  intros Hf Hd. unfold removeOption. destruct f as [g|]; [|eauto].
  destruct (Hf g d eq_refl Hd) as (s & d' & -> & Hd'). eauto.
Qed.

(** What a removal that returns did: it kept [I], cleaned the schema, and followed every
    reference. *)
Definition removed (follow : string -> defs_t -> option defs_t) (I : defs_t -> Prop) (s : SchemaRef) : Prop :=
  forall d s' d', I d -> removeSchema follow s d = Some (s', d') ->
    I d' /\ s' = clean s /\ (forall r, follows s r -> exists d1 d2, I d1 /\ follow r d1 = Some d2).

Lemma removeProperty_run follow (I : defs_t -> Prop) p d s' d' :
  (forall r d d', I d -> follow r d = Some d' -> I d') -> removed follow I p ->
  I d -> removeProperty follow p d = Some (s', d') ->
  I d' /\ s' = cleanProperty p /\
  (sr_Ref p <> "" -> exists d2, follow (RefName p) d = Some d2) /\
  (sr_Ref p = "" -> forall r, follows p r -> exists d1 d2, I d1 /\ follow r d1 = Some d2).
Proof.
  intros HI Hp Hd. unfold removeProperty, cleanProperty. destruct (String.eqb_spec (sr_Ref p) "") as [E|E]; simpl.
  - intros Hr. destruct (Hp _ _ _ Hd Hr) as (? & ? & ?). naive_solver.
  - destruct (follow (RefName p) d) as [d2|] eqn:Ef; [|done]. intros [= <- <-]. split; [by eapply HI|].
    split; [done|]. split; [eauto|done].
Qed.

Lemma removed_properties follow (I : defs_t -> Prop) (m : defs_t) d props d' :
  (forall r d d', I d -> follow r d = Some d' -> I d') ->
  (forall k p, m !! k = Some p -> removed follow I p) ->
  I d -> removeMap (range (removeProperty follow <$> m)) m d = Some (props, d') ->
  I d' /\ props = cleanProperty <$> m /\
  (forall k p, m !! k = Some p -> sr_Ref p <> "" -> exists d1 d2, I d1 /\ follow (RefName p) d1 = Some d2) /\
  (forall k p r, m !! k = Some p -> sr_Ref p = "" -> follows p r -> exists d1 d2, I d1 /\ follow r d1 = Some d2).
Proof.
  intros HI Hm Hd E.
  assert (HIf : forall name f d s d', (name, f) ∈ range (removeProperty follow <$> m) -> I d -> f d = Some (s, d') -> I d').
  { intros name f d0 s d0' (p & Hp & ->)%range_removals_elem Hd0 Ef.
    by destruct (removeProperty_run follow I p d0 s d0' HI (Hm _ _ Hp) Hd0 Ef). }
  destruct (removeMap_run I _ _ _ _ _ (range_NoDup _) HIf Hd E) as (HI' & Hall & Hout).
  assert (Hone : forall k p, m !! k = Some p -> exists d1 d2, I d1 /\ removeProperty follow p d1 = Some (cleanProperty p, d2) /\
    props !! k = Some (cleanProperty p)).
  { intros k p Hk. destruct (Hall k (removeProperty follow p)) as (d1 & s & d2 & Hd1 & Ef & Ek).
    { apply range_removals_elem. eauto. }
    destruct (removeProperty_run follow I p d1 s d2 HI (Hm _ _ Hk) Hd1 Ef) as (_ & -> & _). eauto 10. }
  split; [done|]. split; [|split].
  - apply map_eq. intros k. rewrite lookup_fmap. destruct (m !! k) as [p|] eqn:Ek.
    + by destruct (Hone k p Ek) as (_ & _ & _ & _ & ->).
    + rewrite Hout; [by rewrite Ek|]. rewrite range_removals_keys, Ek. by intros [? [=]].
  - intros k p Hk Hr. destruct (Hone k p Hk) as (d1 & d2 & Hd1 & Ef & _). exists d1.
    destruct (removeProperty_run follow I p d1 _ _ HI (Hm _ _ Hk) Hd1 Ef) as (_ & _ & Hf & _). naive_solver.
  - intros k p r Hk Hr Hfo. destruct (Hone k p Hk) as (d1 & d2 & Hd1 & Ef & _).
    destruct (removeProperty_run follow I p d1 _ _ HI (Hm _ _ Hk) Hd1 Ef) as (_ & _ & _ & Hf). auto.
Qed.

Lemma removed_option follow (I : defs_t -> Prop) (o : option SchemaRef) d o' d' :
  (forall x, o = Some x -> removed follow I x) -> I d ->
  removeOption (removeSchema follow <$> o) d = Some (o', d') ->
  I d' /\ o' = clean <$> o /\
  (forall x r, o = Some x -> follows x r -> exists d1 d2, I d1 /\ follow r d1 = Some d2).
Proof.
  intros Ho Hd. destruct o as [x|]; simpl; [|intros [= <- <-]; naive_solver].
  destruct (removeSchema follow x d) as [[s d1]|] eqn:E; [|done]. intros [= <- <-].
  destruct (Ho x eq_refl d s d1 Hd E) as (? & -> & Hf). split; [done|]. split; [done|]. naive_solver.
Qed.

Lemma removeSchema_run follow (I : defs_t -> Prop) s :
  (forall r d d', I d -> follow r d = Some d' -> I d') -> removed follow I s.
Proof.
  intros HI. induction s as [s ref Hp Hi Ha] using schema_ind. intros d s' d' Hd. rewrite removeSchema_unfold.
  destruct (removeMap _ _ d) as [[props d1]|] eqn:E1; [|done].
  destruct (removed_properties follow I _ _ _ _ HI (fun k p => Hp k p) Hd E1) as (Hd1 & -> & Hf1 & Hf2).
  destruct (removeOption (removeSchema follow <$> sc_Items s) d1) as [[items d2]|] eqn:E2; [|done].
  destruct (removed_option follow I _ _ _ _ Hi Hd1 E2) as (Hd2 & -> & Hf3).
  destruct (removeOption (removeSchema follow <$> additionalSchema s) d2) as [[additional d3]|] eqn:E3; [|done].
  assert (Ha' : forall x, additionalSchema s = Some x -> removed follow I x).
  { unfold additionalSchema. intros x (a & Ea & Ex)%bind_Some. eauto. }
  destruct (removed_option follow I _ _ _ _ Ha' Hd2 E3) as (Hd3 & -> & Hf4).
  intros [= <- <-]. split; [done|]. split.
  - rewrite clean_unfold. f_equal. destruct s as [ty ti de pr ap items df oneof anyof allof nt req minp maxp fmt en minl maxl pat mn mx mo xmin xmax mini maxi uq].
    unfold cleaned, additionalSchema; simpl. f_equal; [by destruct pr|by destruct ap].
  - intros r Hr. inversion Hr; subst; [by eapply Hf1|by eapply Hf2|by eapply Hf3|].
    eapply Hf4; [|done]. unfold additionalSchema. apply bind_Some. eauto.
Qed.

(** A removal returns when it can follow every reference. *)
Lemma removeSchema_total follow (I : defs_t -> Prop) s :
  (forall r d, follows s r -> I d -> exists d', follow r d = Some d' /\ I d') ->
  forall d, I d -> exists s' d', removeSchema follow s d = Some (s', d') /\ I d'.
Proof.
  induction s as [s ref Hp Hi Ha] using schema_ind. intros Hf d Hd. rewrite removeSchema_unfold.
  destruct (removeMap_total I (range (removeProperty follow <$> gm (sc_Properties s))) (gm (sc_Properties s)) d)
    as (props & d1 & -> & Hd1); [|done|].
  { intros name f d0 (p & Hk & ->)%range_removals_elem Hd0. unfold removeProperty.
    destruct (String.eqb_spec (sr_Ref p) "") as [E|E]; simpl.
    - apply (Hp name); [done| |done]. intros r d2 Hr. apply Hf. by eapply follows_property.
    - destruct (Hf (RefName p) d0) as (d2 & -> & Hd2); [by eapply follows_ref|done|]. eauto. }
  destruct (removeOption_total I (removeSchema follow <$> sc_Items s) d1) as (items & d2 & -> & Hd2); [|done|].
  { intros g d0 (i & Ei & ->)%fmap_Some Hd0. apply (Hi i); [done| |done]. intros r d2 Hr. apply Hf. by eapply follows_items. }
  destruct (removeOption_total I (removeSchema follow <$> additionalSchema s) d2) as (additional & d3 & -> & Hd3); [|done|eauto].
  unfold additionalSchema. intros g d0 (x & (a & Ea & Ex)%bind_Some & ->)%fmap_Some Hd0.
  apply (Ha a x); [done..| |done]. intros r d4 Hr. apply Hf. by eapply follows_additional.
Qed.

(** ** Definitions *)

Lemma removeDefinition_run fuel name d d' :
  removeDefinition fuel name d = Some d' -> partly d d' /\ d' !! name = clean <$> d !! name.
Proof.
  revert name d d'. induction fuel as [|fuel IH]; intros name d d'; simpl; [done|].
  destruct (d !! name) as [s|] eqn:En; [|intros [= <-]; split; [apply partly_refl|by rewrite En]].
  destruct (removeSchema _ s d) as [[s' d1]|] eqn:Er; [|done]. intros [= <-].
  destruct (removeSchema_run (removeDefinition fuel) (partly d) s) with (d := d) (s' := s') (d' := d1) as (Hd1 & -> & _).
  { intros r d2 d3 Hd2 [Hr _]%IH. by eapply partly_trans. }
  { apply partly_refl. }
  { done. }
  split; [|by rewrite lookup_insert_eq].
  intros k. destruct (decide (name = k)) as [<-|Hk]; [right; by rewrite lookup_insert_eq, En|].
  rewrite lookup_insert_ne by done. apply Hd1.
Qed.

Lemma removeDefinitions_run fuel names d d' :
  removeDefinitions fuel names d = Some d' ->
  partly d d' /\ (forall k, k ∈ names -> d' !! k = clean <$> d !! k).
Proof.
  revert d. induction names as [|n names IH]; intros d; simpl.
  { intros [= <-]. split; [apply partly_refl|set_solver]. }
  destruct (removeDefinition fuel n d) as [d1|] eqn:E; [|done].
  apply removeDefinition_run in E as [H1 Hn]. intros [H2 Hns]%IH.
  split; [by eapply partly_trans|]. intros k [->|Hk]%elem_of_cons.
  - destruct (H2 n) as [-> | ->]; rewrite Hn; [done|apply clean_option].
  - rewrite Hns by done. destruct (H1 k) as [-> | ->]; [done|apply clean_option].
Qed.

(** When the removal returns, every definition has been cleaned and nothing else has
    changed. *)
Lemma removeDefinitions_clean fuel d d' :
  removeDefinitions fuel (range d).*1 d = Some d' -> d' = clean <$> d.
Proof.
  intros [Hp Hn]%removeDefinitions_run. apply map_eq. intros k. rewrite lookup_fmap.
  destruct (d !! k) as [s|] eqn:Ek.
  - rewrite Hn, Ek; [done|]. apply list_elem_of_fmap. exists (k, s). split; [done|]. by apply range_elem.
  - destruct (Hp k) as [-> | ->]; by rewrite Ek.
Qed.

(** References through properties lead to definitions of smaller rank. *)
Definition ranked (rank : string -> nat) (d : defs_t) : Prop :=
  forall k s r, d !! k = Some s -> follows s r -> rank r < rank k.

Lemma partly_lookup d d' k s' : partly d d' -> d' !! k = Some s' ->
  exists s, d !! k = Some s /\ (s' = s \/ s' = clean s).
Proof. intros Hp Hk. destruct (Hp k) as [E|E]; rewrite Hk in E; [eauto|]. symmetry in E. apply fmap_Some in E as (s & ? & ->). eauto. Qed.

Lemma ranked_partly rank d d' : partly d d' -> ranked rank d -> ranked rank d'.
Proof.
  intros Hp Hr k s' r Hk Hf. destruct (partly_lookup _ _ _ _ Hp Hk) as (s & Es & [-> | ->]); [by eapply Hr|].
  eapply Hr; [done|]. by apply follows_clean.
Qed.

Lemma removeDefinition_total rank fuel name d :
  ranked rank d -> rank name < fuel -> exists d', removeDefinition fuel name d = Some d'.
Proof.
  revert name d. induction fuel as [|fuel IH]; intros name d Hr Hf; [lia|]. simpl.
  destruct (d !! name) as [s|] eqn:En; [|eauto].
  destruct (removeSchema_total (removeDefinition fuel) (ranked rank) s) with (d := d) as (s' & d1 & -> & _); [|done|eauto].
  intros r d2 Hfo Hd2. pose proof (Hr _ _ _ En Hfo). destruct (IH r d2 Hd2) as (d3 & E3); [lia|].
  exists d3. split; [done|]. eapply ranked_partly; [by apply removeDefinition_run in E3 as [? _]|done].
Qed.

Lemma removeDefinitions_total rank fuel names d :
  ranked rank d -> (forall k, k ∈ names -> rank k < fuel) -> exists d', removeDefinitions fuel names d = Some d'.
Proof.
  revert d. induction names as [|n names IH]; intros d Hr Hf; simpl; [eauto|].
  destruct (removeDefinition_total rank fuel n d Hr) as (d1 & E1); [apply Hf; set_solver|]. rewrite E1.
  apply IH; [|set_solver]. eapply ranked_partly; [by apply removeDefinition_run in E1 as [? _]|done].
Qed.

(** A set of definitions each of which leads to one of them. *)
Definition recursive (S : string -> Prop) (d : defs_t) : Prop :=
  forall k, S k -> exists s r, d !! k = Some s /\ follows s r /\ S r.

Lemma recursive_partly S d d' : partly d d' -> recursive S d -> recursive S d'.
Proof.
  intros Hp Hr k Hk. destruct (Hr k Hk) as (s & r & Es & Hf & HS).
  destruct (Hp k) as [E|E]; rewrite Es in E; simpl in E; rewrite E; eexists _, r; (split; [done|]); [done|].
  by rewrite follows_clean.
Qed.

Lemma removeDefinition_diverges S fuel name d : recursive S d -> S name -> removeDefinition fuel name d = None.
Proof.
  revert name d. induction fuel as [|fuel IH]; intros name d Hr Hn; [done|]. simpl.
  destruct (Hr name Hn) as (s & r & -> & Hf & HS).
  destruct (removeSchema _ s d) as [[s' d1]|] eqn:E; [|done]. exfalso.
  destruct (removeSchema_run (removeDefinition fuel) (recursive S) s) with (d := d) (s' := s') (d' := d1) as (_ & _ & Hall).
  { intros r' d2 d3 Hd2 [Hp _]%removeDefinition_run. by eapply recursive_partly. }
  { done. }
  { done. }
  destruct (Hall r Hf) as (d2 & d3 & Hd2 & E2). by rewrite (IH r d2 Hd2 HS) in E2.
Qed.

Lemma removeDefinitions_diverges S fuel names name d :
  recursive S d -> S name -> name ∈ names -> removeDefinitions fuel names d = None.
Proof.
  revert d. induction names as [|n names IH]; intros d Hr Hn; [set_solver|]. simpl.
  intros [->|Hin]%elem_of_cons; [by rewrite (removeDefinition_diverges S)|].
  destruct (removeDefinition fuel n d) as [d1|] eqn:E; [|done]. apply IH; [|done..].
  eapply recursive_partly; [by apply removeDefinition_run in E as [? _]|done].
Qed.
End Removal.

Lemma Documents_codegen `{MapRange, Unique} fuel base layers doc :
  Documents fuel base layers [] = Done (Some doc) ->
  Documents fuel base layers [WithCodeGenerationTarget true] =
    Done ((fun d => doc <| doc_Definitions := d |>) <$> removeDefinitions fuel (range (doc_Definitions doc)).*1 (doc_Definitions doc)).
Proof.
  unfold Documents, transform. simpl. destruct (transformDefinitions _ _) as [t|]; simpl; [|done].
  intros [= <-]. done.
Qed.

Lemma definition_in_range `{MapRange} {A} (d : gmap string A) k : k ∈ (range d).*1 <-> is_Some (d !! k).
Proof.
  rewrite list_elem_of_fmap. split.
  - intros ([k' s] & -> & ?%range_elem). eauto.
  - intros [s Hs]. exists (k, s). split; [done|]. by apply range_elem.
Qed.

(** The document compiled as a target of code generators is the compiled document
    without composed validation: every definition has lost its oneOf, anyOf, allOf and
    not, as has everything it is made of, and nothing else has changed.  The compiler
    returns it when the references through properties have no cycle; the fuel has to
    exceed the length of the longest chain of references. *)
Theorem codegen_removes_validation `{MapRange, Unique} rank fuel base layers doc :
  Documents fuel base layers [] = Done (Some doc) ->
  ranked rank (doc_Definitions doc) -> map_Forall (fun k _ => rank k < fuel) (doc_Definitions doc) ->
  exists doc', Documents fuel base layers [WithCodeGenerationTarget true] = Done (Some doc') /\
    doc_Definitions doc' = clean <$> doc_Definitions doc /\
    map_Forall (fun _ s => plain s) (doc_Definitions doc').
Proof.
  intros ->%Documents_codegen Hr Hf.
  destruct (removeDefinitions_total rank fuel (range (doc_Definitions doc)).*1 (doc_Definitions doc) Hr) as (d & E).
  { intros k [s Hs]%definition_in_range. by eapply Hf. }
  rewrite E. eexists. split; [done|]. apply removeDefinitions_clean in E as ->. destruct doc; simpl. split; [done|].
  intros k s. rewrite lookup_fmap. intros (x & _ & ->)%fmap_Some. apply plain_clean.
Qed.

(** A recursive taxonomy cannot be compiled as a target of code generators: when the
    definitions have a cycle of references through properties, the removal of validation
    recurses beyond any bound and the compiler does not return. *)
Theorem recursive_taxonomy_diverges `{MapRange, Unique} (S : string -> Prop) fuel base layers doc k :
  Documents fuel base layers [] = Done (Some doc) ->
  recursive S (doc_Definitions doc) -> S k ->
  Documents fuel base layers [WithCodeGenerationTarget true] = Done None.
Proof.
  intros ->%Documents_codegen Hr Hk.
  rewrite (removeDefinitions_diverges S fuel _ k); [done..|]. apply definition_in_range.
  destruct (Hr k Hk) as (s & _ & -> & _). eauto.
Qed.

(** ** Unions *)

(** A subtype that is only a reference. *)
Definition isReference (v : SchemaRef) : Prop :=
  sr_Ref v <> "" /\ sc_Properties (sr_Schema v) = None /\ sc_OneOf (sr_Schema v) = None.

(** [d'] is [d] with more enumerated values, of which the new ones are among [vals]. *)
Definition enlarged (vals : list value) (d d' : SchemaRef) : Prop :=
  exists e, d' = set_Enum e d /\ (forall x, x ∈ e -> x ∈ sc_Enum (sr_Schema d) \/ x ∈ vals) /\
    (forall x, x ∈ sc_Enum (sr_Schema d) -> exists y, y ∈ e /\ json_Marshal y = json_Marshal x).

Lemma set_Enum_parts e d :
  sc_Enum (sr_Schema (set_Enum e d)) = e /\ sr_Ref (set_Enum e d) = sr_Ref d /\
  sc_Type (sr_Schema (set_Enum e d)) = sc_Type (sr_Schema d) /\
  (forall e', set_Enum e' (set_Enum e d) = set_Enum e' d).
Proof. by destruct d as [[] r]. Qed.

Lemma enlarged_refl vals d : enlarged vals d d.
Proof. exists (sc_Enum (sr_Schema d)). split; [by destruct d as [[] r]|]. split; [auto|eauto]. Qed.

Lemma enlarged_trans vals d1 d2 d3 : enlarged vals d1 d2 -> enlarged vals d2 d3 -> enlarged vals d1 d3.
Proof.
  intros (e & -> & H1 & H2) (e' & -> & H1' & H2'). destruct (set_Enum_parts e d1) as (Ee & _ & _ & Es).
  rewrite Ee in *. exists e'. split; [apply Es|]. split.
  - intros x [?%H1|?]%H1'; auto.
  - intros x (y & Hy & Ey)%H2. destruct (H2' y Hy) as (z & Hz & Ez). exists z. split; [done|congruence].
Qed.

Section Unions.
Context `{MapRange, Unique, !UniqueLaws}.

Lemma enlarged_extendEnum vals values d : (forall x, x ∈ values -> x ∈ vals) -> enlarged vals d (extendEnum values d).
Proof.
  intros Hv. eexists. split; [done|]. split.
  - intros x [?|?%Hv]%unique_subset%elem_of_app; auto.
  - intros x Hx. destruct (unique_keeps json_Less (sc_Enum (sr_Schema d) ++ values) x json_Less_irrefl) as (y & Hy & Ht%tied_json);
      [set_solver|]. exists y. split; [done|congruence].
Qed.

(** Definitions of which some have been enlarged. *)
Definition enlarges (vals : list value) (d d' : gmap string SchemaRef) : Prop :=
  forall k, match d !! k, d' !! k with Some s, Some s' => enlarged vals s s' | None, None => True | _, _ => False end.

Lemma enlarges_refl vals d : enlarges vals d d.
Proof. intros k. destruct (d !! k); [apply enlarged_refl|done]. Qed.

Lemma enlarges_insert vals d d' k s s' :
  d !! k = Some s -> enlarged vals s s' -> enlarges vals (<[k := s']> d) d' -> enlarges vals d d'.
Proof.
  intros Hk Hs Hd k'. specialize (Hd k'). destruct (decide (k = k')) as [<-|Hne].
  - rewrite lookup_insert_eq in Hd. rewrite Hk. destruct (d' !! k); [|done]. by eapply enlarged_trans.
  - by rewrite lookup_insert_ne in Hd.
Qed.

Lemma propogateLoop_references vals schema todo props t props' t' :
  (forall name p, (name, p) ∈ todo -> sr_Ref p <> "") ->
  (forall name x, x ∈ groupEnums name schema -> x ∈ vals) ->
  propogateLoop schema todo props t = Done (props', t') ->
  props' = props /\ t_replaced t' = t_replaced t /\ enlarges vals (t_Definitions t) (t_Definitions t').
Proof.
  intros Hr Hv. revert t. induction todo as [|[n p] todo IH]; intros t; cbn [propogateLoop].
  { intros [= <- <-]. split; [done|]. split; [done|apply enlarges_refl]. }
  destruct (String.eqb_spec (sr_Ref p) "") as [E|_]; [by destruct (Hr n p (list_elem_of_here _ _))|]. simpl.
  destruct (t_Definitions t !! RefName p) as [d|] eqn:Ed; [|done]. intros E.
  apply IH in E as (-> & Hrep & Hen); [|intros; eapply Hr; by apply list_elem_of_further].
  destruct t as [defs vis rep]; simpl in *. split; [done|]. split; [done|].
  eapply enlarges_insert; [done| |exact Hen]. apply enlarged_extendEnum. apply Hv.
Qed.

Lemma transformSchema_reference v k t :
  isReference v ->
  exists f t', transformSchema v k t = Done (f, t') /\ f v = v /\
    t_Definitions t' = t_Definitions t /\ t_replaced t' = t_replaced t.
Proof.
  intros (_ & Hp & Ho). destruct v as [s r]. simpl in Hp, Ho. simpl.
  destruct (decide (k ∈ t_visited t)); [by eexists _, _|]. unfold oneOfRefsTransform, isUnion. simpl. rewrite Ho. simpl.
  rewrite orb_true_r. simpl. unfold propogateEnum. simpl. rewrite Hp. eexists _, _. split; [done|]. by destruct t.
Qed.

Lemma addSubtypes_references vs options props t :
  Forall isReference vs ->
  exists t', addSubtypes ((fun v => (v, transformSchema v)) <$> vs) options props t =
      Done (options ++ (subtypeName <$> vs), foldl (fun m v => <[subtypeName v := v]> m) props vs, t') /\
    t_Definitions t' = t_Definitions t /\ t_replaced t' = t_replaced t.
Proof.
  intros Hvs. revert options props t. induction Hvs as [|v vs Hv _ IH]; intros options props t.
  { exists t. split; [|done]. simpl. by rewrite app_nil_r. }
  rewrite fmap_cons. cbn [addSubtypes].
  destruct (transformSchema_reference v (subtypeKey v) t Hv) as (f & t1 & E & Ef & Hd & Hr). rewrite E. simpl. rewrite Ef.
  destruct (IH (options ++ [subtypeName v]) (<[subtypeName v := v]> props) t1) as (t2 & E2 & Hd2 & Hr2).
  exists t2. split; [|by rewrite Hd2, Hr2]. etrans; [exact E2|]. by rewrite <- app_assoc.
Qed.

(** The properties of a union whose subtypes are references. *)
Definition unionProperties (key : string) (vs : list SchemaRef) (props : gmap string SchemaRef) : gmap string SchemaRef :=
  <["name" := mkSchemaRef zeroSchema ("#/definitions/" +:+ key +:+ "Name")]>
    (foldl (fun m v => <[subtypeName v := v]> m) props vs).

Lemma size_one_key (m : gmap string SchemaRef) a b : size m = 1 -> is_Some (m !! a) -> is_Some (m !! b) -> a = b.
Proof.
  intros Hs Ha%elem_of_dom Hb%elem_of_dom. eapply (size_singleton_inv (dom m)); [|done..]. by rewrite size_dom.
Qed.

Lemma unionProperties_lookup key vs props n p :
  size props = 1 -> is_Some (props !! "name") -> Forall isReference vs ->
  unionProperties key vs props !! n = Some p ->
  sr_Ref p <> "" /\ (n = "name" \/ n ∈ subtypeName <$> vs).
Proof.
  intros Hs Hn Hvs. unfold unionProperties. rewrite lookup_insert_Some. intros [[<- <-]|[Hne Hk]]; [by split; [|left]|].
  apply (foldl_insert_lookup subtypeName (fun v => v)) in Hk as [(v & Hv & <- & ->)|[Hk _]].
  - rewrite list.Forall_forall in Hvs. split; [by apply Hvs|]. right. apply list_elem_of_fmap. eauto.
  - destruct Hne. eapply size_one_key; eauto.
Qed.

Lemma unionProperties_present key vs props n :
  n = "name" \/ n ∈ subtypeName <$> vs -> is_Some (unionProperties key vs props !! n).
Proof.
  intros Hn. unfold unionProperties. apply lookup_insert_is_Some. destruct (decide ("name" = n)) as [|Hne]; [by left|].
  right. split; [done|]. destruct Hn as [|(v & -> & Hv)%list_elem_of_fmap]; [done|].
  by apply (foldl_insert_present subtypeName (fun v => v)).
Qed.

Lemma validationEnums_option name o x :
  x ∈ validationEnums name (optionValidation o) -> x = VString o.
Proof.
  simpl. unfold mget; simpl. rewrite !app_nil_r. destruct (decide (name = "name")) as [->|Hn].
  - rewrite lookup_singleton_eq. simpl. set_solver.
  - rewrite lookup_singleton_ne by done. set_solver.
Qed.

Lemma set_Union_parts props options s :
  let u := sr_Schema (set_Union props options s) in
  sc_Properties u = Some props /\ sc_OneOf u = Some (optionValidation <$> options) /\
  sc_AllOf u = sc_AllOf (sr_Schema s) /\ sc_AnyOf u = sc_AnyOf (sr_Schema s) /\
  IsAllowed (sc_AdditionalProperties u) = false.
Proof.
  destruct s as [[ty ti de pr ap items df oneof anyof allof nt req minp maxp fmt en minl maxl pat mn mx mo xmin xmax mini maxi uq] r].
  simpl. repeat (split; [done|]). by destruct ap.
Qed.

Lemma groupEnums_union name props options s x :
  sc_AllOf (sr_Schema s) = None -> sc_AnyOf (sr_Schema s) = None ->
  x ∈ groupEnums name (set_Union props options s) -> x ∈ VString <$> options.
Proof.
  intros Hal Han. destruct (set_Union_parts props options s) as (_ & Eo & Eal & Ean & _).
  unfold groupEnums. rewrite Eo, Eal, Ean, Hal, Han. simpl. rewrite list_elem_of_bind.
  intros (o & Hx & (n & -> & Hn)%list_elem_of_fmap). apply validationEnums_option in Hx as ->.
  apply list_elem_of_fmap. eauto.
Qed.

(** A union after its transformation: a property for the name and for each subtype, and
    no others. *)
Record structural_union (key : string) (names : list string) (s : SchemaRef) : Prop := {
  union_closed : IsAllowed (sc_AdditionalProperties (sr_Schema s)) = false;
  union_validation : sc_OneOf (sr_Schema s) = Some (optionValidation <$> names);
  union_properties n : is_Some (mget (sc_Properties (sr_Schema s)) n) <-> n = "name" \/ n ∈ names;
  union_name : mget (sc_Properties (sr_Schema s)) "name" =
    Some (mkSchemaRef zeroSchema ("#/definitions/" +:+ key +:+ "Name"))
}.

(** The definition of the names of the subtypes. *)
Record names_enumerated (names : list string) (d : SchemaRef) : Prop := {
  names_type : sc_Type (sr_Schema d) = "string";
  names_only x : x ∈ sc_Enum (sr_Schema d) -> exists n, n ∈ names /\ x = VString n;
  names_all n : n ∈ names -> exists x, x ∈ sc_Enum (sr_Schema d) /\ json_Marshal x = json_Marshal (VString n)
}.

Lemma names_enlarged names d :
  enlarged (VString <$> names) (nameDefinition names) d -> names_enumerated names d.
Proof.
  intros (e & -> & Hin & Hall). destruct (set_Enum_parts e (nameDefinition names)) as (Ee & _ & Et & _).
  simpl in Hin, Hall. split; [by rewrite Et| |]; rewrite Ee.
  - intros x Hx. assert (x ∈ VString <$> names) as (n & -> & Hn)%list_elem_of_fmap by (by destruct (Hin x Hx)). eauto.
  - intros n Hn. apply Hall. apply list_elem_of_fmap. eauto.
Qed.

Lemma str_app_name_ne (key : string) : key +:+ "Name" <> key.
Proof. intros E%(f_equal String.length). rewrite str_length_app in E. simpl in E. lia. Qed.

Lemma structural_union_edit key vs props s :
  size props = 1 -> is_Some (props !! "name") -> Forall isReference vs ->
  structural_union key (subtypeName <$> vs)
    (set_Properties (Some (unionProperties key vs props)) (set_Union (unionProperties key vs props) (subtypeName <$> vs) s)).
Proof.
  intros Hs Hn Hvs. destruct (set_Union_parts (unionProperties key vs props) (subtypeName <$> vs) s) as (_ & Eo & _ & _ & Ea).
  assert (Hsp : forall p x, sc_Properties (sr_Schema (set_Properties p x)) = p /\
    sc_OneOf (sr_Schema (set_Properties p x)) = sc_OneOf (sr_Schema x) /\
    sc_AdditionalProperties (sr_Schema (set_Properties p x)) = sc_AdditionalProperties (sr_Schema x)) by (by intros p [[] ?]).
  destruct (Hsp (Some (unionProperties key vs props)) (set_Union (unionProperties key vs props) (subtypeName <$> vs) s))
    as (E1 & E2 & E3).
  split; rewrite ?E1, ?E2, ?E3; [done|done| |].
  - intros n. unfold mget; simpl. split; [|apply unionProperties_present].
    intros [p Hp]. by eapply unionProperties_lookup.
  - unfold mget, unionProperties; simpl. apply lookup_insert_eq.
Qed.
End Unions.

Lemma isUnion_spec key s :
  isUnion key s = true ->
  exists vs, sc_OneOf (sr_Schema s) = Some vs /\ size (gm (sc_Properties (sr_Schema s))) = 1 /\
    is_Some (gm (sc_Properties (sr_Schema s)) !! "name").
Proof.
  unfold isUnion. destruct (sc_OneOf (sr_Schema s)) as [vs|]; simpl; [|by rewrite orb_true_r].
  rewrite !andb_true_iff, negb_true_iff, !orb_false_iff, negb_false_iff, Nat.eqb_eq.
  intros [[[[[_ _] Hs] _] Hn] _].
  exists vs. split; [done|]. split; [done|]. by apply bool_decide_eq_true in Hn.
Qed.


(** ** Instances *)
Module TaxonomyExamples.

(** Sorting by insertion, without duplicates. *)
Fixpoint insert_unique {A} (less : A -> A -> bool) (x : A) (l : list A) : list A :=
  match l with
  | [] => [x]
  | y :: l' => if less x y then x :: l else if less y x then y :: insert_unique less x l' else l
  end.
#[export] Instance unique : Unique := {| unique_Sort A less l := foldr (insert_unique less) [] l |}.

Lemma insert_unique_spec {A} (less : A -> A -> bool) x l :
  (forall z, z ∈ insert_unique less x l -> z = x \/ z ∈ l) /\
  (forall z, z ∈ l -> z ∈ insert_unique less x l) /\
  (exists y, y ∈ insert_unique less x l /\ (y = x \/ tied less x y)).
Proof.
  induction l as [|y l (IH1 & IH2 & IH3)]; simpl.
  { split; [set_solver|]. split; [set_solver|]. exists x. set_solver. }
  destruct (less x y) eqn:E1; [split; [set_solver|split; [set_solver|exists x; set_solver]]|].
  destruct (less y x) eqn:E2.
  - split; [set_solver|]. split; [set_solver|]. destruct IH3 as (w & Hw & Hx). exists w. set_solver.
  - split; [set_solver|]. split; [set_solver|]. exists y. split; [set_solver|]. by right.
Qed.

#[export] Instance unique_laws : UniqueLaws.
Proof.
  split; intros A less l x; simpl.
  - induction l as [|y l IH]; simpl; [done|]. destruct (insert_unique_spec less y (foldr (insert_unique less) [] l)) as (H1 & _).
    intros [->|?%IH]%H1; set_solver.
  - intros Hirr. induction l as [|y l IH]; simpl; [set_solver|].
    destruct (insert_unique_spec less y (foldr (insert_unique less) [] l)) as (_ & H2 & (w & Hw & Ht)).
    intros [->|(z & Hz & Hzt)%IH]%elem_of_cons; [|eauto]. exists w. split; [done|]. destruct Ht as [->|]; [by split|done].
Qed.

(** A union of two kinds of connections, and a layer that describes one of them. *)
Definition object (props : list (string * SchemaRef)) : SchemaRef :=
  mkSchemaRef (zeroSchema <| sc_Type := "object" |> <| sc_Properties := Some (list_to_map props) |>) "".
Definition text : SchemaRef := mkSchemaRef (zeroSchema <| sc_Type := "string" |>) "".
Definition reference (name : string) : SchemaRef := mkSchemaRef zeroSchema ("#/definitions/" +:+ name).
Definition union (subtypes : list string) : SchemaRef :=
  mkSchemaRef (zeroSchema <| sc_Type := "object" |> <| sc_Properties := Some {[ "name" := text ]} |>
    <| sc_OneOf := Some (reference <$> subtypes) |>
    <| sc_AdditionalProperties := Some (mkAdditionalProperties (Some true) None) |>) "".
Definition document (defs : list (string * SchemaRef)) : Document := mkDocument zeroSchema "" (list_to_map defs).

Definition base : Document := document
  [("Connection", union ["s3"; "db2"]); ("s3", object [("endpoint", text)]); ("db2", object [])].
Definition layer : Document := document [("s3", object [("bucket", text)])].

(** The endpoint of a bucket comes from the first layer, the bucket from the second. *)
Lemma mergeDefinitions_exact_witness :
  (exists m, schemaAt (mergeDefinitions [base; layer]) "s3" ["bucket"] = Some m /\ sr_Ref m = "") /\
  (exists m, schemaAt (mergeDefinitions [base; layer]) "s3" [] = Some m /\ sc_Type (sr_Schema m) = "object") /\
  schemaAt (mergeDefinitions [base; layer]) "db2" ["bucket"] = None.
Proof.
  split; [|split].
  - destruct (mergeDefinitions_exact [base; layer] "s3" ["bucket"]) as (m & E & _ & _ & Er & _). by exists m.
  - destruct (mergeDefinitions_exact [base; layer] "s3" []) as (m & E & _ & _ & _ & Et). by exists m.
  - exact (mergeDefinitions_exact [base; layer] "db2" ["bucket"]).
Defined.

(** A connection is an object for each kind of store. *)
Definition merged : transformer := mkTransformer (mergeDefinitions [base]) ∅ ∅.
Definition transformed : transformer :=
  match @transformDefinition canonical_range _ "Connection" merged with Done t => t | _ => merged end.


Definition compiled : Document :=
  match @Documents canonical_range _ 5 base [layer] [] with Done (Some doc) => doc | _ => base end.
Definition rank (k : string) : nat := if String.eqb k "Connection" then 1 else 0.

(** The references of a schema, as a list. *)
Fixpoint refsOf (s : SchemaRef) : list string :=
  let '(mkSchemaRef s _) := s in
  from_option (map_fold (fun _ p l => (if sr_Ref p <>? "" then [RefName p] else refsOf p) ++ l) []) [] (sc_Properties s) ++
  from_option refsOf [] (sc_Items s) ++
  from_option (fun a => from_option refsOf [] (ap_Schema a)) [] (sc_AdditionalProperties s).

Lemma refsOf_property s ref k p r :
  mget (sc_Properties s) k = Some p -> r ∈ (if sr_Ref p <>? "" then [RefName p] else refsOf p) ->
  r ∈ refsOf (mkSchemaRef s ref).
Proof.
  intros Hk Hr. simpl. apply elem_of_app. left. unfold mget in Hk.
  destruct (sc_Properties s) as [m|]; simpl in *; [|by rewrite lookup_empty in Hk].
  revert Hk. revert k p Hr. induction m as [|k' p' m Hm Hfst IH] using map_first_key_ind; intros k p Hr; [by rewrite lookup_empty|].
  rewrite map_fold_insert_first_key by done. rewrite lookup_insert_Some.
  intros [[<- <-]|[_ Hk]]; [set_solver|]. apply elem_of_app. right. by eapply IH.
Qed.

Lemma follows_refsOf s r : follows s r -> r ∈ refsOf s.
Proof.
  induction 1 as [s ref k p Hk Hr|s ref k p r Hk Hr _ IH|s ref i r Hi _ IH|s ref a x r Ha Hx _ IH].
  - eapply refsOf_property; [done|]. apply String.eqb_neq in Hr. rewrite Hr. simpl. set_solver.
  - eapply refsOf_property; [done|]. by rewrite Hr.
  - simpl. rewrite Hi. simpl. set_solver.
  - simpl. rewrite Ha. simpl. rewrite Hx. simpl. set_solver.
Qed.

Lemma ranked_check rk (d : gmap string SchemaRef) :
  forallb (fun kv => forallb (fun r => Nat.ltb (rk r) (rk kv.1)) (refsOf kv.2)) (map_to_list d) = true -> ranked rk d.
Proof.
  rewrite forallb_forall. intros Hd k s r Hk Hf%follows_refsOf.
  specialize (Hd (k, s)). rewrite <- list_elem_of_In, elem_of_map_to_list in Hd. specialize (Hd Hk).
  rewrite forallb_forall in Hd. apply Nat.ltb_lt, Hd. by apply list_elem_of_In.
Qed.

Lemma codegen_removes_validation_witness :
  exists doc', @Documents canonical_range _ 5 base [layer] [WithCodeGenerationTarget true] = Done (Some doc') /\
    doc_Definitions doc' = clean <$> doc_Definitions compiled /\ map_Forall (fun _ s => plain s) (doc_Definitions doc').
Proof.
  apply (@codegen_removes_validation canonical_range _ rank 5 base [layer] compiled).
  - vm_compute. reflexivity.
  - apply ranked_check. vm_compute. reflexivity.
  - intros k s _. unfold rank. destruct (String.eqb k "Connection"); lia.
Defined.

(** A list of nodes. *)
Definition recursive_base : Document := document [("Node", object [("value", text); ("next", reference "Node")])].

Lemma recursive_taxonomy_diverges_witness :
  @Documents canonical_range _ 100 recursive_base [] [WithCodeGenerationTarget true] = Done None.
Proof.
  apply (@recursive_taxonomy_diverges canonical_range _ (eq "Node") 100 recursive_base [] recursive_base "Node");
    [vm_compute; reflexivity| |reflexivity].
  intros k <-. exists (object [("value", text); ("next", reference "Node")]), "Node".
  split; [reflexivity|]. split; [|reflexivity].
  apply (follows_ref _ _ "next" (reference "Node")); [reflexivity|discriminate].
Defined.

(** ** The order of the definitions *)

(** The definitions in the opposite order. *)
Program Definition reversed_range : MapRange := {| range := fun A m => reverse (map_to_list m) |}.
Next Obligation. intros A m. apply reverse_Permutation. Qed.

(** A union one of whose subtypes is a union. *)
Definition nested_base : Document := document
  [("Outer", union ["Inner"]); ("Inner", union ["leaf"]); ("leaf", object [])].

Definition inner_transformed (r : outcome (option Document)) : option bool :=
  match r with Done (Some doc) => Some (bool_decide (is_Some (doc_Definitions doc !! "InnerName"))) | _ => None end.

(** The result depends on the order in which Go iterates over the definitions: a union
    that is met as a subtype first is marked as visited and is not transformed. *)
Lemma compile_order_dependent :
  inner_transformed (@Documents canonical_range _ 0 nested_base [] []) <>
  inner_transformed (@Documents reversed_range _ 0 nested_base [] []).
Proof. vm_compute. discriminate. Qed.
End TaxonomyExamples.
