(* ===== verification/TaxonomyProps.v ===== *)
(** * Taxonomies as schemas of the API machinery

    [ToJSONSchemaProps] of [pkg/taxonomy/model] converts a schema, with its references
    kept or replaced by what they refer to, and [pkg/taxonomy/validate/structural.go]
    validates the result as the schema of a custom resource. *)
From stdpp Require Import base gmap strings list numbers.
From S2P Require Import Prelude GoStrings GoJSON Taxonomy.

(** ** [apiextensions.JSONSchemaProps]

    The fields that are set; a list of items ([JSONSchemaPropsOrArray]) is given by its
    schema, additional properties ([JSONSchemaPropsOrBool]) by [Allows] and a schema. *)
Record Props (R : Type) := mkProps_ {
  p_Ref : option string;
  p_Schema : string;
  p_Description : string;
  p_Type : string;
  p_Format : string;
  p_Title : string;
  p_Default : option value;
  p_Maximum : option string;
  p_ExclusiveMaximum : bool;
  p_Minimum : option string;
  p_ExclusiveMinimum : bool;
  p_MaxLength : option Z;
  p_MinLength : option Z;
  p_Pattern : string;
  p_MaxItems : option Z;
  p_MinItems : option Z;
  p_UniqueItems : bool;
  p_MultipleOf : option string;
  p_Enum : list value;
  p_MaxProperties : option Z;
  p_MinProperties : option Z;
  p_Required : list string;
  p_Items : option (option R);
  p_AllOf : list R;
  p_OneOf : list R;
  p_AnyOf : list R;
  p_Not : option R;
  p_Properties : gmap string R;
  p_AdditionalProperties : option (bool * option R);
  p_Definitions : gmap string R
}.
Arguments mkProps_ {R}.
Arguments p_Ref {R}.
Arguments p_Schema {R}.
Arguments p_Type {R}.
Arguments p_Items {R}.
Arguments p_AllOf {R}.
Arguments p_OneOf {R}.
Arguments p_AnyOf {R}.
Arguments p_Not {R}.
Arguments p_Properties {R}.
Arguments p_AdditionalProperties {R}.
Arguments p_Definitions {R}.

Inductive JSONSchemaProps : Type := mkProps (props : Props JSONSchemaProps).
Definition js (p : JSONSchemaProps) : Props JSONSchemaProps := let '(mkProps props) := p in props.

(** [&apiextensions.JSONSchemaProps{Ref: &ref}] *)
Definition refProps (ref : string) : JSONSchemaProps :=
  mkProps (mkProps_ (Some ref) "" "" "" "" "" None None false None false None None "" None None false None [] None None []
    None [] [] [] None ∅ None ∅).

(** ** Conversions that follow references

    A conversion may go deeper than the fuel ([None]) or panic. *)
Definition F (A : Type) : Type := option (outcome A).
#[export] Instance F_ret : MRet F := fun _ a => Some (Done a).
#[export] Instance F_bind : MBind F := fun _ _ k c =>
  match c with
  | Some (Done a) => k a
  | Some (Panic why) => Some (Panic why)
  | None => None
  end.

(** [*p] *)
Definition derefF {A} (p : option A) : F A :=
  match p with Some a => mret a | None => Some (Panic "invalid memory address or nil pointer dereference") end.

(** The elements of a list or of a map, each dereferenced. *)
Fixpoint collectList {A} (l : list (F (option A))) : F (list A) :=
  match l with
  | [] => mret []
  | c :: rest => p ← c; a ← derefF p; tl ← collectList rest; mret (a :: tl)
  end.
Fixpoint collectMap {A} (l : list (string * F (option A))) (result : gmap string A) : F (gmap string A) :=
  match l with
  | [] => mret result
  | (k, c) :: rest => p ← c; a ← derefF p; collectMap rest (<[k := a]> result)
  end.
(** A pointer that may be nil. *)
Definition pointer {A} (c : option (F (option A))) : F (option A) := match c with Some c => c | None => mret None end.

Section Conversion.
Context `{MapRange}.

(** [AdditionalPropertiesType.ToJSONSchemaProps], given the conversion of its schema *)
Definition additionalProps (a : option (option bool * option (F (option JSONSchemaProps))))
    : F (option (bool * option JSONSchemaProps)) :=
  match a with
  | None => mret None
  | Some (_, Some c) => p ← c; mret (Some (true, p))
  | Some (Some _, None) => mret None
  | Some (None, None) => mret (Some (false, None))
  end.

(** [SchemaRef.ToJSONSchemaProps]: [follow] converts what a reference leads to, when the
    references are replaced. *)
Fixpoint toProps (follow : option (string -> F (option JSONSchemaProps))) (s : SchemaRef) {struct s}
    : F (option JSONSchemaProps) :=
  let '(mkSchemaRef s ref) := s in
  match follow, ref <>? "" with
  | Some follow, true => follow (afterLastSlash ref)
  | None, true => mret (Some (refProps ref))
  | _, false =>
      items ← pointer (toProps follow <$> sc_Items s);
      allOf ← collectList (from_option (fmap (toProps follow)) [] (sc_AllOf s));
      oneOf ← collectList (from_option (fmap (toProps follow)) [] (sc_OneOf s));
      anyOf ← collectList (from_option (fmap (toProps follow)) [] (sc_AnyOf s));
      not ← pointer (toProps follow <$> sc_Not s);
      properties ← collectMap (range (from_option (fmap (toProps follow)) ∅ (sc_Properties s))) ∅;
      additional ← additionalProps
        ((fun a => (ap_Allowed a, toProps follow <$> ap_Schema a)) <$> sc_AdditionalProperties s);
      mret (Some (mkProps (mkProps_ None "" (sc_Description s) (sc_Type s) (sc_Format s) (sc_Title s) (sc_Default s)
        (sc_Max s) (sc_ExclusiveMax s) (sc_Min s) (sc_ExclusiveMin s) (sc_MaxLength s) (sc_MinLength s) (sc_Pattern s)
        (sc_MaxItems s) (sc_MinItems s) (sc_UniqueItems s) (sc_MultipleOf s) (sc_Enum s) (sc_MaxProps s) (sc_MinProps s)
        (sc_Required s) (Some items) allOf oneOf anyOf not properties additional ∅)))
  end.

(** [flattenBy.Deref(ref).ToJSONSchemaProps(flattenBy)]: a name without a definition gives
    a nil pointer. *)
Fixpoint flatten (fuel : nat) (defs : gmap string SchemaRef) (name : string) : F (option JSONSchemaProps) :=
  match fuel with
  | O => None
  | S fuel =>
      match defs !! name with
      | None => mret None
      | Some s => toProps (Some (flatten fuel defs)) s
      end
  end.

(** [Document.ToJSONSchemaProps] *)
Definition ToJSONSchemaProps (d : Document) : F JSONSchemaProps :=
  props ← toProps None (mkSchemaRef (doc_Schema d) "");
  props ← derefF props;
  definitions ← collectMap (range (toProps None <$> doc_Definitions d)) ∅;
  mret (mkProps ((js props) <| p_Schema := doc_SchemaVersion d |> <| p_Definitions := definitions |>)).

(** [Document.ToFlatJSONSchemaProps] *)
Definition ToFlatJSONSchemaProps (fuel : nat) (d : Document) : F JSONSchemaProps :=
  let follow := Some (flatten fuel (doc_Definitions d)) in
  props ← toProps follow (mkSchemaRef (doc_Schema d) "");
  props ← derefF props;
  properties ← collectMap (range (toProps follow <$> doc_Definitions d)) ∅;
  mret (mkProps ((js props) <| p_Type := "object" |> <| p_Schema := doc_SchemaVersion d |> <| p_Properties := properties |>)).

(** ** structural.go, with [ReadDocumentFromFile] and [ValidateCustomResourceDefinition] *)
Definition IsStructuralSchema (fuel : nat) (read : string -> Document + error) (validate : JSONSchemaProps -> list error)
    (toAggregate : list error -> error) (path : string) : F (option error) :=
  match read path with
  | inr err => mret (Some err)
  | inl document =>
      props ← ToFlatJSONSchemaProps fuel document;
      mret (match validate props with [] => None | errorList => Some (toAggregate errorList) end)
  end.
End Conversion.

(** ** The parts of a schema *)

Definition parts (s : SchemaRef) : list SchemaRef :=
  let s := sr_Schema s in
  option_list (sc_Items s) ++ default [] (sc_AllOf s) ++ default [] (sc_OneOf s) ++ default [] (sc_AnyOf s) ++
  option_list (sc_Not s) ++ (map_to_list (gm (sc_Properties s))).*2 ++
  option_list (sc_AdditionalProperties s ≫= ap_Schema).

Definition total_of {A} (f : A -> nat) (l : list A) : nat := foldr (fun a n => f a + n) 0 l.

Lemma total_of_elem {A} (f : A -> nat) l a : a ∈ l -> f a <= total_of f l.
Proof. induction 1 as [a l|a b l _ IH]; simpl; lia. Qed.

Fixpoint weight (s : SchemaRef) : nat :=
  let '(mkSchemaRef s _) := s in
  S (from_option weight 0 (sc_Items s) + from_option (total_of weight) 0 (sc_AllOf s) +
     from_option (total_of weight) 0 (sc_OneOf s) + from_option (total_of weight) 0 (sc_AnyOf s) +
     from_option weight 0 (sc_Not s) + from_option (map_fold (fun _ p n => weight p + n) 0) 0 (sc_Properties s) +
     from_option (fun a => from_option weight 0 (ap_Schema a)) 0 (sc_AdditionalProperties s)).

Lemma weight_list o x : x ∈ default [] o -> weight x <= from_option (total_of weight) 0 o.
Proof. destruct o as [l|]; simpl; [apply total_of_elem|by intros ?%elem_of_nil]. Qed.

Lemma weight_option o x : x ∈ option_list o -> weight x <= from_option weight 0 o.
Proof. destruct o as [y|]; simpl; [by intros ->%list_elem_of_singleton|by intros ?%elem_of_nil]. Qed.

Lemma weight_map (o : gomap SchemaRef) x :
  x ∈ (map_to_list (gm o)).*2 -> weight x <= from_option (map_fold (fun _ p n => weight p + n) 0) 0 o.
Proof.
  intros ([k y] & -> & Hin)%list_elem_of_fmap. apply elem_of_map_to_list in Hin.
  destruct o as [m|]; simpl in *; [|by rewrite lookup_empty in Hin].
  rewrite (map_fold_delete_L _ _ k y m); [lia|lia|done].
Qed.

Lemma weight_additional (o : option (AdditionalPropertiesType SchemaRef)) x :
  x ∈ option_list (o ≫= ap_Schema) -> weight x <= from_option (fun a => from_option weight 0 (ap_Schema a)) 0 o.
Proof. destruct o as [a|]; simpl; [apply weight_option|by intros ?%elem_of_nil]. Qed.

Lemma weight_parts s x : x ∈ parts s -> weight x < weight s.
Proof.
  destruct s as [s ref]. unfold parts. simpl. rewrite !elem_of_app.
  intros [?%weight_option|[?%weight_list|[?%weight_list|[?%weight_list|[?%weight_option|[?%weight_map|?%weight_additional]]]]]]; lia.
Qed.

(** Induction over all the parts. *)
Lemma parts_ind (P : SchemaRef -> Prop) : (forall s, (forall x, x ∈ parts s -> P x) -> P s) -> forall s, P s.
Proof.
  intros HP s. remember (weight s) as n eqn:Hn. revert s Hn. induction (lt_wf n) as [n _ IH]. intros s ->.
  apply HP. intros x Hx. eapply IH; [by apply weight_parts|reflexivity].
Qed.

(** The names a schema refers to, anywhere. *)
Inductive mentions : SchemaRef -> string -> Prop :=
| mentions_ref s : sr_Ref s <> "" -> mentions s (RefName s)
| mentions_part s x r : sr_Ref s = "" -> x ∈ parts s -> mentions x r -> mentions s r.

(** No references in a converted schema. *)
Definition props_parts (p : Props JSONSchemaProps) : list JSONSchemaProps :=
  option_list (mjoin (p_Items p)) ++ p_AllOf p ++ p_OneOf p ++ p_AnyOf p ++ option_list (p_Not p) ++
  (map_to_list (p_Properties p)).*2 ++ option_list (p_AdditionalProperties p ≫= snd).
Inductive ref_free : JSONSchemaProps -> Prop :=
| ref_free_intro p : p_Ref p = None -> (forall x, x ∈ props_parts p -> ref_free x) -> ref_free (mkProps p).

(** ** Flattening *)
Section Flattening.
Context `{MapRange}.

(** A conversion that gives a schema without references. *)
Definition flat (c : F (option JSONSchemaProps)) : Prop := exists p, c = Some (Done (Some p)) /\ ref_free p.

Lemma collectList_flat l : Forall flat l -> exists ps, collectList l = Some (Done ps) /\ Forall ref_free ps.
Proof.
  induction 1 as [|c l (p & -> & Hp) _ (ps & E & Hps)]; [by exists []|]. exists (p :: ps). simpl.
  unfold mbind, F_bind in *. simpl. rewrite E. split; [done|by constructor].
Qed.

Lemma collectMap_flat l acc :
  Forall (fun kv => flat kv.2) l -> map_Forall (fun _ => ref_free) acc ->
  exists m, collectMap l acc = Some (Done m) /\ map_Forall (fun _ => ref_free) m /\
    forall k, is_Some (m !! k) <-> k ∈ l.*1 \/ is_Some (acc !! k).
Proof.
  intros Hl. revert acc. induction Hl as [|[k c] l (p & E & Hp) _ IH]; intros acc Hacc; simpl in *.
  { exists acc. split; [done|]. split; [done|]. intros k. rewrite elem_of_nil. naive_solver. }
  subst c. destruct (IH (<[k := p]> acc)) as (m & E & Hm & Hk); [by apply map_Forall_insert_2|].
  exists m. split; [exact E|]. split; [done|]. intros k'. rewrite Hk, elem_of_cons, lookup_insert_is_Some'. naive_solver.
Qed.

Lemma pointer_flat o : (forall c, o = Some c -> flat c) ->
  exists q, pointer o = Some (Done q) /\ forall p, q = Some p -> ref_free p.
Proof.
  destruct o as [c|]; simpl; [|by exists None]. intros Hc. destruct (Hc c eq_refl) as (p & -> & Hp).
  exists (Some p). split; [done|]. by intros ? [= <-].
Qed.

Lemma additional_flat (o : option (option bool * option (F (option JSONSchemaProps)))) :
  (forall a c, o = Some (a, Some c) -> flat c) ->
  exists q, additionalProps o = Some (Done q) /\ forall a p, q = Some (a, Some p) -> ref_free p.
Proof.
  destruct o as [[a [c|]]|]; simpl; intros Hc.
  - destruct (Hc a c eq_refl) as (p & -> & Hp). exists (Some (true, Some p)). split; [by destruct a|]. intros ? ? [= _ <-]; exact Hp.
  - destruct a; eexists; (split; [reflexivity|]); done.
  - eexists. by split; [reflexivity|].
Qed.

Lemma toProps_flat f s :
  (forall r, mentions s r -> flat (f r)) -> flat (toProps (Some f) s).
Proof.
  induction s as [s IH] using parts_ind. intros Hf. destruct s as [s ref].
  destruct (String.eqb_spec ref "") as [->|Hne]; cycle 1.
  { cbn [toProps]. assert ((ref <>? "") = true) as -> by (by apply negb_true_iff, String.eqb_neq).
    apply (Hf (RefName (mkSchemaRef s ref))). by constructor. }
  assert (Hpart : forall x, x ∈ parts (mkSchemaRef s "") -> flat (toProps (Some f) x)).
  { intros x Hx. apply IH; [done|]. intros r Hr. apply Hf. by eapply mentions_part. }
  clear IH Hf. unfold parts in Hpart. cbn [sr_Schema] in Hpart. cbn [toProps]. change ("" <>? "") with false. cbn beta iota.
  assert (Hlist : forall o, (forall x, x ∈ default [] o -> flat (toProps (Some f) x)) ->
    exists ps, collectList (from_option (fmap (toProps (Some f))) [] o) = Some (Done ps) /\ Forall ref_free ps).
  { intros [l|] Hl; simpl; [|by exists []]. apply collectList_flat, Forall_fmap, list.Forall_forall. exact Hl. }
  assert (Hopt : forall o, (forall x, x ∈ option_list o -> flat (toProps (Some f) x)) ->
    exists q, pointer (toProps (Some f) <$> o) = Some (Done q) /\ forall p, q = Some p -> ref_free p).
  { intros o Ho. apply pointer_flat. intros c (x & -> & ->)%fmap_Some. apply Ho. by apply list_elem_of_singleton. }
  destruct (Hopt (sc_Items s)) as (items & Ei & Hi); [intros x Hx; apply Hpart; set_solver|].
  destruct (Hlist (sc_AllOf s)) as (allOf & Eal & Hal); [intros x Hx; apply Hpart; set_solver|].
  destruct (Hlist (sc_OneOf s)) as (oneOf & Eon & Hon); [intros x Hx; apply Hpart; set_solver|].
  destruct (Hlist (sc_AnyOf s)) as (anyOf & Ean & Han); [intros x Hx; apply Hpart; set_solver|].
  destruct (Hopt (sc_Not s)) as (not & En & Hn); [intros x Hx; apply Hpart; set_solver|].
  destruct (collectMap_flat (range (from_option (fmap (toProps (Some f))) ∅ (sc_Properties s))) ∅) as (props & Ep & Hp & _).
  { apply (range_Forall (fun _ c => flat c)). intros k c Hk. destruct (sc_Properties s) as [m|]; simpl in Hk; [|by rewrite lookup_empty in Hk].
    rewrite lookup_fmap in Hk. apply fmap_Some in Hk as (x & Hx & ->). apply Hpart. rewrite !elem_of_app. do 5 right. left.
    apply list_elem_of_fmap. exists (k, x). split; [done|]. by apply elem_of_map_to_list. }
  { apply map_Forall_empty. }
  destruct (additional_flat ((fun a => (ap_Allowed a, toProps (Some f) <$> ap_Schema a)) <$> sc_AdditionalProperties s)) as (add & Ea & Ha).
  { intros a c E. apply fmap_Some in E as (b & Hb & [= -> Hc]). symmetry in Hc. apply fmap_Some in Hc as (x & Hx & ->).
    apply Hpart. rewrite !elem_of_app. do 6 right. rewrite Hb. simpl. rewrite Hx. by apply list_elem_of_singleton. }
  unfold mbind, F_bind. rewrite Ei, Eal, Eon, Ean, En, Ep, Ea. eexists. split; [reflexivity|].
  constructor; [done|]. unfold props_parts. cbn. intros x. rewrite !elem_of_app.
  rewrite list.Forall_forall in Hal, Hon, Han.
  intros [Hx|[Hx|[Hx|[Hx|[Hx|[Hx|Hx]]]]]]; auto.
  - destruct items as [i|]; simpl in Hx; [apply list_elem_of_singleton in Hx as ->; auto|by apply elem_of_nil in Hx].
  - destruct not as [i|]; simpl in Hx; [apply list_elem_of_singleton in Hx as ->; auto|by apply elem_of_nil in Hx].
  - apply list_elem_of_fmap in Hx as ([k y] & -> & Hx%elem_of_map_to_list). by eapply Hp.
  - destruct add as [[a [i|]]|]; simpl in Hx; [apply list_elem_of_singleton in Hx as ->; eauto|by apply elem_of_nil in Hx..].
Qed.

Lemma flatten_flat rank defs fuel name :
  (forall k s r, defs !! k = Some s -> mentions s r -> rank r < rank k /\ is_Some (defs !! r)) ->
  is_Some (defs !! name) -> rank name < fuel -> flat (flatten fuel defs name).
Proof.
  intros Hr. revert name. induction fuel as [|fuel IH]; intros name [s Hs] Hk; [lia|]. simpl. rewrite Hs.
  apply toProps_flat. intros r Hm. destruct (Hr _ _ _ Hs Hm) as [Hlt Hd]. apply IH; [done|lia].
Qed.

(** The schema of the document with the converted definitions. *)
Lemma ref_free_document p (props : gmap string JSONSchemaProps) t v :
  ref_free p -> map_Forall (fun _ => ref_free) props ->
  ref_free (mkProps ((js p) <| p_Type := t |> <| p_Schema := v |> <| p_Properties := props |>)).
Proof.
  intros [q Hq Hparts] Hp. destruct q. simpl in *. constructor; [done|]. intros x. unfold props_parts in *. simpl in *.
  rewrite !elem_of_app in *. intros [Hx|[Hx|[Hx|[Hx|[Hx|[Hx|Hx]]]]]]; try (apply Hparts; rewrite !elem_of_app; tauto).
  apply list_elem_of_fmap in Hx as ([k y] & -> & Hx%elem_of_map_to_list). by eapply Hp.
Qed.
End Flattening.

(** C40: flattening a taxonomy gives a schema without references: when every reference of
    the document leads to a definition and definitions do not refer to each other in a
    circle, the conversion returns, with an object that has a property for each definition
    and no reference anywhere, as the API server demands of the schema of a resource. *)
Theorem flat_taxonomy `{MapRange} rank fuel d :
  (forall k s r, doc_Definitions d !! k = Some s -> mentions s r -> rank r < rank k /\ is_Some (doc_Definitions d !! r)) ->
  (forall r, mentions (mkSchemaRef (doc_Schema d) "") r -> is_Some (doc_Definitions d !! r)) ->
  (forall k, is_Some (doc_Definitions d !! k) -> rank k < fuel) ->
  exists props, ToFlatJSONSchemaProps fuel d = Some (Done props) /\ ref_free props /\ p_Type (js props) = "object" /\
    forall k, is_Some (p_Properties (js props) !! k) <-> is_Some (doc_Definitions d !! k).
Proof.
  intros Hr Hd Hf. unfold ToFlatJSONSchemaProps.
  assert (Hflat : forall r, is_Some (doc_Definitions d !! r) -> flat (flatten fuel (doc_Definitions d) r)).
  { intros r Hs. eapply flatten_flat; [exact Hr|done|auto]. }
  destruct (toProps_flat (flatten fuel (doc_Definitions d)) (mkSchemaRef (doc_Schema d) "")) as (p & Ep & Hp); [auto|].
  destruct (collectMap_flat (range (toProps (Some (flatten fuel (doc_Definitions d))) <$> doc_Definitions d)) ∅)
    as (props & Em & Hm & Hk); [|apply map_Forall_empty|].
  { apply (range_Forall (fun _ c => flat c)). intros k c Hc. rewrite lookup_fmap in Hc. apply fmap_Some in Hc as (s & Hs & ->).
    apply toProps_flat. intros r Hmr. apply Hflat. by destruct (Hr _ _ _ Hs Hmr). }
  unfold mbind, F_bind. rewrite Ep. simpl derefF. unfold mret, F_ret. rewrite Em. eexists. split; [reflexivity|].
  split; [by apply ref_free_document|]. split; [by destruct (js p)|].
  intros k. change (p_Properties _) with props. rewrite Hk, lookup_empty. split.
  - intros [Hin|[? ?]]; [|done]. apply list_elem_of_fmap in Hin as ([k' c] & -> & Hin%range_elem). simpl.
    rewrite lookup_fmap in Hin. apply fmap_Some in Hin as (s & Hs & _). eauto.
  - intros [s Hs]. left. apply list_elem_of_fmap. exists (k, toProps (Some (flatten fuel (doc_Definitions d))) s).
    split; [done|]. apply range_elem. rewrite lookup_fmap, Hs. done.
Qed.

(** ** Instances *)

(** The names a schema refers to, as a list. *)
Fixpoint names (n : nat) (s : SchemaRef) : list string :=
  match n with
  | O => []
  | S n => if sr_Ref s <>? "" then [RefName s] else parts s ≫= names n
  end.

Lemma mentions_names s r : mentions s r -> forall n, weight s <= n -> r ∈ names n s.
Proof.
  induction 1 as [s Hs|s x r Hs Hx _ IH]; intros [|n] Hn; try (destruct s; simpl in Hn; lia); simpl.
  - apply String.eqb_neq in Hs. rewrite Hs. by apply list_elem_of_singleton.
  - rewrite Hs. simpl. apply list_elem_of_bind. exists x. split; [|done]. apply IH. apply weight_parts in Hx. lia.
Qed.

Module PropsExamples.
Definition property (name : string) (s : SchemaRef) : SchemaRef :=
  mkSchemaRef (zeroSchema <| sc_Type := "object" |> <| sc_Properties := Some {[ name := s ]} |>) "".
Definition reference (name : string) : SchemaRef := mkSchemaRef zeroSchema ("#/definitions/" +:+ name).
Definition text : SchemaRef := mkSchemaRef (zeroSchema <| sc_Type := "string" |>) "".
Definition document (defs : list (string * SchemaRef)) : Document := mkDocument zeroSchema "" (list_to_map defs).

Definition assets : Document := document [("Asset", property "connection" (reference "Connection")); ("Connection", text)].
Definition rank (k : string) : nat := if k =? "Asset" then 1 else 0.

Lemma flat_taxonomy_witness :
  exists props, @ToFlatJSONSchemaProps canonical_range 2 assets = Some (Done props) /\ ref_free props /\
    p_Type (js props) = "object" /\
    forall k, is_Some (p_Properties (js props) !! k) <-> is_Some (doc_Definitions assets !! k).
Proof.
  apply (@flat_taxonomy canonical_range rank 2 assets).
  - intros k s r Hk Hr.
    assert (r ∈ names (weight s) s) as Hin by (by apply (mentions_names _ _ Hr)). revert Hin.
    apply elem_of_map_to_list in Hk. vm_compute in Hk.
    repeat (apply elem_of_cons in Hk as [Hk|Hk]; [injection Hk as -> ->; vm_compute; intros Hin|]);
      [| |by apply elem_of_nil in Hk].
    + by apply elem_of_nil in Hin.
    + apply list_elem_of_singleton in Hin as ->. split; [lia|by eexists].
  - intros r Hr. apply (fun H => mentions_names _ _ H 5) in Hr; [|vm_compute; lia]. vm_compute in Hr. by apply elem_of_nil in Hr.
  - intros k _. unfold rank. destruct (k =? "Asset"); lia.
Defined.

(** A reference without a definition is dereferenced as a nil pointer, and a definition
    that refers to itself is followed without end. *)
Lemma dangling_reference_panics : exists why,
  @ToFlatJSONSchemaProps canonical_range 5 (document [("Asset", property "connection" (reference "Connection"))]) = Some (Panic why).
Proof. vm_compute. eauto. Qed.

Lemma flatten_cyclic `{MapRange} fuel :
  flatten fuel {[ "Node" := property "next" (reference "Node") ]} "Node" = None.
Proof.
  induction fuel as [|fuel IH]; [done|]. cbn [flatten]. rewrite lookup_singleton_eq.
  set (follow := flatten fuel _) in *. unfold property. cbn [toProps]. simpl. rewrite map_fmap_singleton, range_singleton. simpl.
  change ("" +:+ "Node") with "Node". by rewrite IH.
Qed.
End PropsExamples.
