(* ===== verification/GoHeap.v ===== *)
(** * Go memory

    Values with references, places and the heap, for the code whose point is which
    memory is shared: the deep copies of [zz_generated.deepcopy.go].  Everywhere else
    the development uses plain values; the theorems of DeepCopyFacts.v are what makes
    that sound for the snapshots the controllers take with [DeepCopy]. *)
From stdpp Require Import base gmap strings list numbers.
From S2P Require Import Prelude.

(** ** Values, places, heaps *)

Notation loc := positive.

(** A step into a variable: a field of a struct, an element of an array. *)
Inductive access := AField (f : string) | AIndex (i : nat).

(** An addressable part of a variable, such as [out.Spec.Flows] or [items[i]]. *)
Record place := mkPlace { p_base : loc; p_path : list access }.

(** What a variable holds.  A slice is a window of an array; [GNil] is the nil pointer,
    slice, map or interface.  An interface holds its dynamic value. *)
Inductive gv : Type :=
| GString (s : string)
| GInt (n : Z)
| GFloat (literal : string)
| GBool (b : bool)
| GStruct (fs : list (string * gv))
| GArray (vs : list gv)
| GNil
| GPtr (p : place)
| GSlice (l : loc) (off len : nat)
| GMap (l : loc).

(** The entries of a map are not addressable: a map is a cell of its own. *)
Inductive cell := CVar (v : gv) | CMap (m : gmap string gv).

Notation heap := (gmap positive cell).

(** *** Fields *)

Fixpoint field_get {A} (f : string) (fs : list (string * A)) : option A :=
  match fs with
  | [] => None
  | (g, v) :: fs => if f =? g then Some v else field_get f fs
  end.

Fixpoint field_set {A} (f : string) (w : A) (fs : list (string * A)) : list (string * A) :=
  match fs with
  | [] => []
  | (g, v) :: fs => if f =? g then (g, w) :: fs else (g, v) :: field_set f w fs
  end.

(** *** Reading and writing a part of a value *)

Fixpoint get_path (p : list access) (v : gv) : option gv :=
  match p with
  | [] => Some v
  | a :: p =>
      match a, v with
      | AField f, GStruct fs => field_get f fs ≫= get_path p
      | AIndex i, GArray vs => vs !! i ≫= get_path p
      | _, _ => None
      end
  end.

Fixpoint set_path (p : list access) (w v : gv) : option gv :=
  match p with
  | [] => Some w
  | a :: p =>
      match a, v with
      | AField f, GStruct fs =>
          x ← field_get f fs; y ← set_path p w x; Some (GStruct (field_set f y fs))
      | AIndex i, GArray vs => x ← vs !! i; y ← set_path p w x; Some (GArray (<[i := y]> vs))
      | _, _ => None
      end
  end.

Definition read (h : heap) (p : place) : option gv :=
  match h !! p_base p with Some (CVar v) => get_path (p_path p) v | _ => None end.

Definition write (h : heap) (p : place) (w : gv) : option heap :=
  match h !! p_base p with
  | Some (CVar v) => v' ← set_path (p_path p) w v; Some (<[p_base p := CVar v']> h)
  | _ => None
  end.

(** ** Types *)

(** [TAny] is [interface{}]; [TRestriction] is [adminrules.Restriction], a map of lists of
    strings that has a hand-written copy. *)
Inductive ty : Type :=
| TString | TInt | TFloat | TBool
| TStruct (fs : list (string * ty))
| TPtr (t : ty) | TSlice (t : ty) | TMap (t : ty)
| TRestriction
| TAny.

(** The zero value of a type. *)
Fixpoint zero (t : ty) : gv :=
  match t with
  | TString => GString ""
  | TInt => GInt 0
  | TFloat => GFloat "0"
  | TBool => GBool false
  | TStruct fs =>
      GStruct ((fix fields (fs : list (string * ty)) :=
        match fs with [] => [] | (f, t) :: fs => (f, zero t) :: fields fs end) fs)
  | TPtr _ | TSlice _ | TMap _ | TRestriction | TAny => GNil
  end.

(** A value of a flat type holds no reference. *)
Fixpoint flat (t : ty) : bool :=
  match t with
  | TString | TInt | TFloat | TBool => true
  | TStruct fs =>
      (fix fields (fs : list (string * ty)) :=
        match fs with [] => true | (_, t) :: fs => flat t && fields fs end) fs
  | _ => false
  end.

Definition nilable (t : ty) : bool :=
  match t with TPtr _ | TSlice _ | TMap _ | TRestriction | TAny => true | _ => false end.

Section ty_ind.
Context (P : ty -> Prop)
  (Hstr : P TString) (Hint : P TInt) (Hflt : P TFloat) (Hbool : P TBool)
  (Hrest : P TRestriction) (Hany : P TAny)
  (Hstruct : forall fs, Forall (fun ft => P ft.2) fs -> P (TStruct fs))
  (Hptr : forall t, P t -> P (TPtr t)) (Hslice : forall t, P t -> P (TSlice t))
  (Hmap : forall t, P t -> P (TMap t)).

Fixpoint ty_nested_ind (t : ty) : P t :=
  match t return P t with
  | TStruct fs =>
      Hstruct fs ((fix fields (fs : list (string * ty)) : Forall (fun ft => P ft.2) fs :=
        match fs with
        | [] => Forall_nil _
        | ft :: fs => Forall_cons _ _ _ (ty_nested_ind ft.2) (fields fs)
        end) fs)
  | TPtr t => Hptr t (ty_nested_ind t)
  | TSlice t => Hslice t (ty_nested_ind t)
  | TMap t => Hmap t (ty_nested_ind t)
  | TString => Hstr | TInt => Hint | TFloat => Hflt | TBool => Hbool
  | TRestriction => Hrest | TAny => Hany
  end.
End ty_ind.

(** ** Statements *)

Section Statements.
Context `{MapRange}.
Implicit Types (h : heap) (p : place) (v w : gv).

Definition load p : M heap gv := fun h =>
  match read h p with
  | Some v => Done (v, h)
  | None => Panic "invalid memory address or nil pointer dereference"
  end.

Definition store p w : M heap unit := fun h =>
  match write h p w with
  | Some h' => Done (tt, h')
  | None => Panic "invalid memory address or nil pointer dereference"
  end.

Definition alloc (c : cell) : M heap loc := fun h =>
  let l := fresh (dom h) in Done (l, <[l := c]> h).

(** [new(T)] *)
Definition new (t : ty) : M heap place := l ← alloc (CVar (zero t)); mret (mkPlace l []).

(** What [v] points to. *)
Definition deref v : M heap place :=
  match v with
  | GPtr p => mret p
  | _ => panic "invalid memory address or nil pointer dereference"
  end.

(** [make([]T, n)], [make(map[string]T)]: the second argument of the latter is a hint. *)
Definition make_slice (t : ty) (n : nat) : M heap gv :=
  l ← alloc (CVar (GArray (replicate n (zero t)))); mret (GSlice l 0 n).
Definition make_map : M heap gv := l ← alloc (CMap ∅); mret (GMap l).

(** [len(v)] of a slice. *)
Definition slice_len v : nat := match v with GSlice _ _ n => n | _ => 0 end.

(** [&v[i]] *)
Definition index v (i : nat) : M heap place :=
  match v with
  | GSlice l off n =>
      if Nat.ltb i n then mret (mkPlace l [AIndex (off + i)]) else panic "index out of range"
  | _ => panic "index out of range"
  end.

Definition map_entries v : M heap (list (string * gv)) := fun h =>
  match v with
  | GMap l => match h !! l with Some (CMap m) => Done (range m, h) | _ => Panic "not a map" end
  | _ => Done ([], h)
  end.

(** [v[k] = w] *)
Definition map_set v (k : string) w : M heap unit := fun h =>
  match v with
  | GMap l =>
      match h !! l with
      | Some (CMap m) => Done (tt, <[l := CMap (<[k := w]> m)]> h)
      | _ => Panic "not a map"
      end
  | _ => Panic "assignment to entry in nil map"
  end.

Definition for_each {A} (body : A -> M heap unit) : list A -> M heap unit :=
  fix loop l := match l with [] => mret tt | x :: l => body x ;; loop l end.

(** [copy(dst, src)]: all elements are read before the first is written. *)
Definition copy_slice (dst src : gv) : M heap unit :=
  let n := Nat.min (slice_len dst) (slice_len src) in
  vs ← mapM (fun i => p ← index src i; load p) (seq 0 n);
  for_each (fun iv => p ← index dst iv.1; store p iv.2) (zip (seq 0 n) vs).

Definition is_nil v : bool := match v with GNil => true | _ => false end.
End Statements.

(** [p.f] *)
Definition dot (p : place) (f : string) : place := mkPlace (p_base p) (p_path p ++ [AField f]).
Notation "p @ f" := (dot p f) (at level 9, f at level 9, format "p @ f") : go_scope.

#[global] Arguments index : simpl never.
#[global] Arguments deref : simpl never.
#[global] Arguments map_entries : simpl never.
#[global] Arguments map_set : simpl never.
