(* ===== verification/GoHeapFacts.v ===== *)
(** * Facts about Go memory

    Reading and writing places, the trees that values stand for ([rep]) and the statements
    of GoHeap.v, each with what it needs and what it leaves. *)
From stdpp Require Import base gmap strings list numbers.
From S2P Require Import Prelude GoHeap.

(** ** Fields and paths *)

Lemma field_get_is_Some {A} f (fs : list (string * A)) : is_Some (field_get f fs) <-> f ∈ fs.*1.
Proof.
  induction fs as [|[g v] fs IH]; simpl; [split; [intros []%is_Some_None|set_solver]|].
  destruct (String.eqb_spec f g) as [->|Hne]; [split; [set_solver|eauto]|].
  rewrite IH. set_solver.
Qed.

Lemma field_get_names {A B} f (fs : list (string * A)) (gs : list (string * B)) v :
  fs.*1 = gs.*1 -> field_get f fs = Some v -> exists w, field_get f gs = Some w.
Proof.
  intros Hn Hv. apply field_get_is_Some. rewrite <- Hn. apply field_get_is_Some. eauto.
Qed.

Lemma field_set_names {A} f w (fs : list (string * A)) : (field_set f w fs).*1 = fs.*1.
Proof.
  induction fs as [|[g v] fs IH]; [done|]. simpl. destruct (f =? g); csimpl; [done|by rewrite IH].
Qed.

Lemma field_get_set {A} f w (fs : list (string * A)) v :
  field_get f fs = Some v -> field_get f (field_set f w fs) = Some w.
Proof.
  induction fs as [|[g x] fs IH]; [done|]. simpl. destruct (f =? g) eqn:E; simpl; rewrite E; auto.
Qed.

Lemma field_get_set_ne {A} f g w (fs : list (string * A)) :
  f <> g -> field_get f (field_set g w fs) = field_get f fs.
Proof.
  intros Hne. induction fs as [|[k x] fs IH]; [done|]. simpl.
  destruct (String.eqb_spec g k) as [->|]; simpl; [|by rewrite IH].
  by rewrite (proj2 (String.eqb_neq f k)).
Qed.

Lemma field_set_set {A} f w w' (fs : list (string * A)) :
  field_set f w (field_set f w' fs) = field_set f w fs.
Proof.
  induction fs as [|[g x] fs IH]; [done|]. simpl. destruct (f =? g) eqn:E; simpl; rewrite E; congruence.
Qed.

Lemma field_set_same {A} f v (fs : list (string * A)) : field_get f fs = Some v -> field_set f v fs = fs.
Proof.
  induction fs as [|[g x] fs IH]; [done|]. simpl. destruct (f =? g) eqn:E; [|intros; f_equal; auto].
  intros [= ->]. done.
Qed.

(** A place that can be read can be written. *)
Lemma set_path_is_Some p w v x : get_path p v = Some x -> is_Some (set_path p w v).
Proof.
  revert v. induction p as [|[f|i] p IH]; intros v Hx; [eauto|..];
    destruct v; try done; simpl in *; apply bind_Some in Hx as (y & Ey & Hx); rewrite Ey; simpl;
    destruct (IH _ Hx) as (z & ->); eauto.
Qed.

Lemma get_set_path p w v v' : set_path p w v = Some v' -> get_path p v' = Some w.
Proof.
  revert v v'. induction p as [|[f|i] p IH]; intros v v' Hs; [by simplify_eq/=|..];
    destruct v; try done; simpl in *;
    apply bind_Some in Hs as (y & Ey & (z & Ez & [= <-])%bind_Some); simpl.
  - by rewrite (field_get_set _ _ _ _ Ey); simpl; eauto.
  - rewrite list_lookup_insert_eq by (by eapply lookup_lt_Some). simpl. eauto.
Qed.

Lemma set_set_path p w w' v v' : set_path p w v = Some v' -> set_path p w' v' = set_path p w' v.
Proof.
  revert v v'. induction p as [|[f|i] p IH]; intros v v' Hs; [done|..];
    destruct v; try done; simpl in *;
    apply bind_Some in Hs as (y & Ey & (z & Ez & [= <-])%bind_Some); simpl; rewrite Ey; simpl.
  - rewrite (field_get_set _ _ _ _ Ey). simpl. rewrite (IH _ _ Ez).
    destruct (set_path p w' y); simpl; [by rewrite field_set_set|done].
  - rewrite list_lookup_insert_eq by (by eapply lookup_lt_Some). simpl. rewrite (IH _ _ Ez).
    destruct (set_path p w' y); simpl; [by rewrite list_insert_insert_eq|done].
Qed.

Lemma set_path_same p v w : get_path p v = Some w -> set_path p w v = Some v.
Proof.
  revert v. induction p as [|[f|i] p IH]; intros v Hg; [simpl in *; congruence|..];
    destruct v; try done; simpl in *; apply bind_Some in Hg as (y & Ey & Hg); rewrite Ey; simpl;
    rewrite (IH _ Hg); simpl; [by rewrite (field_set_same _ _ _ Ey)|by rewrite list_insert_id].
Qed.

Lemma get_path_app p q v : get_path (p ++ q) v = get_path p v ≫= get_path q.
Proof.
  revert v. induction p as [|[f|i] p IH]; intros v; [done|..]; destruct v; try done; simpl.
  - destruct (field_get f fs); simpl; auto.
  - destruct (vs !! i); simpl; auto.
Qed.

(** Writing below a place is writing a changed value at the place. *)
Lemma set_path_app p q w v :
  set_path (p ++ q) w v = x ← get_path p v; y ← set_path q w x; set_path p y v.
Proof.
  revert v. induction p as [|[f|i] p IH]; intros v; simpl.
  - by destruct (set_path q w v).
  - destruct v; try done. destruct (field_get f fs) as [x|]; [|done]. simpl. rewrite IH.
    destruct (get_path p x) as [y|]; [|done]. simpl. by destruct (set_path q w y).
  - destruct v; try done. destruct (vs !! i) as [x|]; [|done]. simpl. rewrite IH.
    destruct (get_path p x) as [y|]; [|done]. simpl. by destruct (set_path q w y).
Qed.

(** ** Reading and writing the heap *)

Lemma write_inv h p w h' : write h p w = Some h' ->
  exists v v', h !! p_base p = Some (CVar v) /\ set_path (p_path p) w v = Some v' /\
               h' = <[p_base p := CVar v']> h.
Proof.
  unfold write. destruct (h !! p_base p) as [[v|]|] eqn:E; try done.
  intros (v' & Ev & [= <-])%bind_Some. eauto.
Qed.

Lemma read_inv h p v : read h p = Some v ->
  exists x, h !! p_base p = Some (CVar x) /\ get_path (p_path p) x = Some v.
Proof. unfold read. destruct (h !! p_base p) as [[x|]|]; try done. eauto. Qed.

Lemma write_is_Some h p v w : read h p = Some v -> exists h', write h p w = Some h'.
Proof.
  intros (x & Ex & Hx)%read_inv. unfold write. rewrite Ex.
  destruct (set_path_is_Some _ w _ _ Hx) as (y & ->). simpl. eauto.
Qed.

Lemma read_write h p w h' : write h p w = Some h' -> read h' p = Some w.
Proof.
  intros (v & v' & Ev & Es & ->)%write_inv. unfold read. rewrite lookup_insert_eq.
  by eapply get_set_path.
Qed.

Lemma lookup_write_ne h p w h' l : write h p w = Some h' -> l <> p_base p -> h' !! l = h !! l.
Proof. intros (v & v' & Ev & Es & ->)%write_inv Hne. by rewrite lookup_insert_ne. Qed.

Lemma lookup_write_None h p w h' l : write h p w = Some h' -> h' !! l = None <-> h !! l = None.
Proof.
  intros (v & v' & Ev & Es & ->)%write_inv. rewrite lookup_insert_None.
  split; [by intros []|]. intros Hl. split; [done|]. intros <-. congruence.
Qed.

Lemma write_write h p w w' h' : write h p w = Some h' -> write h' p w' = write h p w'.
Proof.
  intros (v & v' & Ev & Es & ->)%write_inv. unfold write. rewrite lookup_insert_eq, Ev.
  rewrite (set_set_path _ _ _ _ _ Es). destruct (set_path (p_path p) w' v); [|done].
  simpl. by rewrite insert_insert_eq.
Qed.

Lemma write_same h p w : read h p = Some w -> write h p w = Some h.
Proof.
  intros (x & Ex & Hx)%read_inv. unfold write. rewrite Ex, (set_path_same _ _ _ Hx). simpl.
  by rewrite insert_id.
Qed.

Lemma read_agree h h' p : h' !! p_base p = h !! p_base p -> read h' p = read h p.
Proof. unfold read. by intros ->. Qed.

Lemma read_sub h h' p v : h ⊆ h' -> read h p = Some v -> read h' p = Some v.
Proof.
  intros Hs (x & Ex & Hx)%read_inv. unfold read. by rewrite (lookup_weaken _ _ _ _ Ex Hs).
Qed.

Lemma read_dot h p fs f : read h p = Some (GStruct fs) -> read h p@f = field_get f fs.
Proof.
  intros (x & Ex & Hx)%read_inv. unfold read, dot. simpl. rewrite Ex, get_path_app, Hx. simpl.
  by destruct (field_get f fs).
Qed.

(** Writing a field of a struct, or an element of an array, that has just been written. *)
Lemma write_below p q w0 w1 w h h' : write h p w0 = Some h' -> set_path q w w0 = Some w1 ->
  write h' (mkPlace (p_base p) (p_path p ++ q)) w = write h p w1.
Proof.
  intros Hw Hs. rewrite <- (write_write _ _ _ w1 _ Hw). pose proof (read_write _ _ _ _ Hw) as Hr.
  apply read_inv in Hr as (x & Ex & Hx). unfold write. simpl. rewrite Ex.
  rewrite set_path_app, Hx. simpl. rewrite Hs. done.
Qed.

Lemma write_dot h p fs f x w h' : write h p (GStruct fs) = Some h' -> field_get f fs = Some x ->
  write h' p@f w = write h p (GStruct (field_set f w fs)).
Proof. intros Hw Hf. eapply write_below; [done|]. simpl. by rewrite Hf. Qed.

(** Extending a heap that has been written to, then writing again. *)
Lemma write_sub h h' p w h2 : h ⊆ h' -> write h p w = Some h2 ->
  exists h2', write h' p w = Some h2' /\ h2 ⊆ h2'.
Proof.
  intros Hs (v & v' & Ev & Es & ->)%write_inv. unfold write.
  rewrite (lookup_weaken _ _ _ _ Ev Hs), Es. simpl. eexists. split; [done|].
  by apply insert_mono.
Qed.

(** ** Trees *)

(** What a value stands for, references followed. *)
Inductive tree : Type :=
| LString (s : string) | LInt (n : Z) | LFloat (literal : string) | LBool (b : bool)
| LStruct (fs : list (string * tree))
| LNil
| LPtr (t : tree)
| LSlice (ts : list tree)
| LMap (m : gmap string tree).

(** In the heap [h] the value [v] of type [t] stands for a tree, and the memory it refers to
    satisfies [P]. *)
Inductive rep (P : loc -> Prop) (h : heap) : ty -> gv -> tree -> Prop :=
| rep_string s : rep P h TString (GString s) (LString s)
| rep_int n : rep P h TInt (GInt n) (LInt n)
| rep_float s : rep P h TFloat (GFloat s) (LFloat s)
| rep_bool b : rep P h TBool (GBool b) (LBool b)
| rep_struct fts fs trs :
    NoDup fts.*1 -> fs.*1 = fts.*1 -> trs.*1 = fts.*1 ->
    (forall f t v tr, field_get f fts = Some t -> field_get f fs = Some v ->
       field_get f trs = Some tr -> rep P h t v tr) ->
    rep P h (TStruct fts) (GStruct fs) (LStruct trs)
| rep_nil t : nilable t -> rep P h t GNil LNil
| rep_ptr t p v tr :
    P (p_base p) -> read h p = Some v -> rep P h t v tr -> rep P h (TPtr t) (GPtr p) (LPtr tr)
| rep_slice t l off n vs trs :
    P l -> h !! l = Some (CVar (GArray vs)) -> off + n <= length vs -> length trs = n ->
    (forall i v tr, vs !! (off + i) = Some v -> trs !! i = Some tr -> rep P h t v tr) ->
    rep P h (TSlice t) (GSlice l off n) (LSlice trs)
| rep_map t l m mt :
    P l -> h !! l = Some (CMap m) -> (forall k, is_Some (m !! k) <-> is_Some (mt !! k)) ->
    (forall k v tr, m !! k = Some v -> mt !! k = Some tr -> rep P h t v tr) ->
    rep P h (TMap t) (GMap l) (LMap mt)
| rep_restriction v tr : rep P h (TMap (TSlice TString)) v tr -> rep P h TRestriction v tr
| rep_any t v tr : rep P h t v tr -> rep P h TAny v tr.

Lemma rep_frame (P Q : loc -> Prop) h h' t v tr :
  rep P h t v tr -> (forall l, P l -> is_Some (h !! l) -> Q l /\ h' !! l = h !! l) -> rep Q h' t v tr.
Proof.
  intros Hr Hag.
  assert (Hq : forall l c, P l -> h !! l = Some c -> Q l) by (intros; by eapply Hag).
  assert (Hcell : forall l c, P l -> h !! l = Some c -> h' !! l = Some c).
  { intros l c Hp Hc. destruct (Hag l Hp) as [_ ->]; eauto. }
  induction Hr; try (by constructor); try (econstructor; eauto; fail).
  match goal with Hx : read h p = Some v |- _ => pose proof (read_inv _ _ _ Hx) as (x & Ex & Hpath) end.
  econstructor; [by eapply Hq| |done]. unfold read. by rewrite (Hcell _ (CVar x)).
Qed.

Lemma rep_sub (P Q : loc -> Prop) h h' t v tr :
  rep P h t v tr -> (forall l, P l -> is_Some (h !! l) -> Q l) -> h ⊆ h' -> rep Q h' t v tr.
Proof.
  intros Hr Hpq Hs. eapply rep_frame; [done|]. intros l Hp [c Hc]. rewrite Hc.
  split; [eauto|by eapply lookup_weaken].
Qed.

(** The fields of a struct type that is flat are. *)
Lemma flat_field fts f t : flat (TStruct fts) = true -> field_get f fts = Some t -> flat t = true.
Proof.
  simpl. induction fts as [|[g t'] fts IH]; [done|]. simpl. intros [Hf Hfs]%andb_prop.
  destruct (f =? g); [by intros [= ->]|auto].
Qed.

(** A flat value stands for the same tree in every heap. *)
Lemma rep_flat (P Q : loc -> Prop) h h' t v tr : rep P h t v tr -> flat t = true -> rep Q h' t v tr.
Proof.
  intros Hr. induction Hr; intros Hf; try (by constructor); try done.
  constructor; [done..|]. intros f t v tr Ht Hv Htr. eauto using flat_field.
Qed.

Lemma rep_nil_zero P h t tr : rep P h t GNil tr -> zero t = GNil.
Proof. intros Hr. inversion Hr; subst; try done. by destruct t. Qed.

(** What the copies make of a tree: the same, except that the lists of a
    [adminrules.Restriction] are lost. *)
Fixpoint copied (t : ty) (tr : tree) : tree :=
  match t, tr with
  | TStruct fts, LStruct trs =>
      LStruct ((fix fields (fts : list (string * ty)) (trs : list (string * tree)) :=
        match fts, trs with
        | (_, t) :: fts, (f, tr) :: trs => (f, copied t tr) :: fields fts trs
        | _, _ => trs
        end) fts trs)
  | TPtr t, LPtr tr => LPtr (copied t tr)
  | TSlice t, LSlice trs => LSlice (copied t <$> trs)
  | TMap t, LMap m => LMap (copied t <$> m)
  | TRestriction, LMap m => LMap ((fun _ => LSlice []) <$> m)
  | _, _ => tr
  end.

Fixpoint lossless (t : ty) : bool :=
  match t with
  | TStruct fs =>
      (fix fields (fs : list (string * ty)) :=
        match fs with [] => true | (_, t) :: fs => lossless t && fields fs end) fs
  | TPtr t | TSlice t | TMap t => lossless t
  | TRestriction => false
  | _ => true
  end.

Lemma copied_lossless t : forall tr, lossless t = true -> copied t tr = tr.
Proof.
  induction t as [| | | | | |fs IH|t IH|t IH|t IH] using ty_nested_ind; intros tr; destruct tr; try done; simpl; intros Hl.
  - f_equal. revert fs0. induction IH as [|[f t] fs Ht IH IH']; intros trs; [done|].
    apply andb_prop in Hl as [Hl1 Hl2]. destruct trs as [|[g tr] trs]; [done|].
    by rewrite Ht, (IH' Hl2).
  - by rewrite IH.
  - f_equal. rewrite <- (list_fmap_id ts) at 2. apply list_fmap_ext. auto.
  - f_equal. rewrite <- (map_fmap_id m) at 2. apply map_fmap_ext. auto.
Qed.

Lemma flat_lossless t : flat t = true -> lossless t = true.
Proof.
  induction t as [| | | | | |fs IH|t IH|t IH|t IH] using ty_nested_ind; simpl; try done.
  induction IH as [|[f t] fs Ht IH IH']; [done|]. intros [H1 H2]%andb_prop. simpl in Ht.
  by rewrite (Ht H1), (IH' H2).
Qed.

Lemma copied_flat t tr : flat t = true -> copied t tr = tr.
Proof. intros. by apply copied_lossless, flat_lossless. Qed.

(** The fields of the copy of a struct. *)
Definition copied_fields (fts : list (string * ty)) (trs : list (string * tree)) : list (string * tree) :=
  match copied (TStruct fts) (LStruct trs) with LStruct trs => trs | _ => [] end.

Lemma copied_struct fts trs : copied (TStruct fts) (LStruct trs) = LStruct (copied_fields fts trs).
Proof. done. Qed.

Lemma copied_fields_cons f g t tr fts trs :
  copied_fields ((f, t) :: fts) ((g, tr) :: trs) = (g, copied t tr) :: copied_fields fts trs.
Proof. done. Qed.

Lemma copied_fields_names fts trs : (copied_fields fts trs).*1 = trs.*1.
Proof.
  revert trs. induction fts as [|[f t] fts IH]; intros [|[g tr] trs]; try done.
  rewrite copied_fields_cons. csimpl. by rewrite IH.
Qed.

Lemma copied_fields_get fts trs f t tr : trs.*1 = fts.*1 ->
  field_get f fts = Some t -> field_get f (copied_fields fts trs) = Some tr ->
  exists tr0, field_get f trs = Some tr0 /\ tr = copied t tr0.
Proof.
  revert trs. induction fts as [|[g t'] fts IH]; intros [|[k tr'] trs]; try done.
  rewrite copied_fields_cons. csimpl. intros [= -> Hn].
  destruct (f =? g); [intros [= ->] [= <-]; eauto|by apply IH].
Qed.

(** ** Statements *)

Lemma reaches_alloc {A} c (k : loc -> M heap A) h (Q : A -> heap -> Prop) :
  (forall l, h !! l = None -> reaches (k l) (<[l := c]> h) Q) -> reaches (alloc c ≫= k) h Q.
Proof.
  intros Hk. apply reaches_bind. eexists _, _. split; [done|]. apply Hk.
  apply not_elem_of_dom, is_fresh.
Qed.

Section Steps.
Context {A : Type} (Q : A -> heap -> Prop).

Lemma reaches_load p (k : gv -> M heap A) h v :
  read h p = Some v -> reaches (k v) h Q -> reaches (load p ≫= k) h Q.
Proof. intros Hr Hk. apply reaches_bind. exists v, h. unfold load. by rewrite Hr. Qed.

Lemma reaches_store p w (k : unit -> M heap A) h h' :
  write h p w = Some h' -> reaches (k tt) h' Q -> reaches (store p w ≫= k) h Q.
Proof. intros Hw Hk. apply reaches_bind. exists tt, h'. unfold store. by rewrite Hw. Qed.

Lemma reaches_new t (k : place -> M heap A) h :
  (forall l, h !! l = None -> reaches (k (mkPlace l [])) (<[l := CVar (zero t)]> h) Q) ->
  reaches (new t ≫= k) h Q.
Proof.
  intros Hk. apply reaches_bind, reaches_alloc. intros l Hl. apply reaches_ret. by apply Hk.
Qed.

Lemma reaches_make_slice t n (k : gv -> M heap A) h :
  (forall l, h !! l = None ->
     reaches (k (GSlice l 0 n)) (<[l := CVar (GArray (replicate n (zero t)))]> h) Q) ->
  reaches (make_slice t n ≫= k) h Q.
Proof.
  intros Hk. apply reaches_bind, reaches_alloc. intros l Hl. apply reaches_ret. by apply Hk.
Qed.

Lemma reaches_make_map (k : gv -> M heap A) h :
  (forall l, h !! l = None -> reaches (k (GMap l)) (<[l := CMap ∅]> h) Q) ->
  reaches (make_map ≫= k) h Q.
Proof.
  intros Hk. apply reaches_bind, reaches_alloc. intros l Hl. apply reaches_ret. by apply Hk.
Qed.

Lemma reaches_deref p (k : place -> M heap A) h :
  reaches (k p) h Q -> reaches (deref (GPtr p) ≫= k) h Q.
Proof. intros Hk. by apply reaches_bind, reaches_ret. Qed.

Lemma reaches_index l off n i (k : place -> M heap A) h :
  i < n -> reaches (k (mkPlace l [AIndex (off + i)])) h Q -> reaches (index (GSlice l off n) i ≫= k) h Q.
Proof.
  intros Hi Hk. apply reaches_bind. unfold index. rewrite (proj2 (Nat.ltb_lt i n) Hi).
  by apply reaches_ret.
Qed.

Lemma reaches_entries `{MapRange} l m (k : list (string * gv) -> M heap A) h :
  h !! l = Some (CMap m) -> reaches (k (range m)) h Q -> reaches (map_entries (GMap l) ≫= k) h Q.
Proof. intros Hl Hk. apply reaches_bind. exists (range m), h. unfold map_entries. by rewrite Hl. Qed.
End Steps.

(** One statement of a straight-line body. *)
Ltac heap_step :=
  lazymatch goal with
  | |- reaches (load _ ≫= _) _ _ => eapply reaches_load
  | |- reaches (store _ _ ≫= _) _ _ => eapply reaches_store
  | |- reaches (new _ ≫= _) _ _ => apply reaches_new; intros ? ?
  | |- reaches (make_slice _ _ ≫= _) _ _ => apply reaches_make_slice; intros ? ?
  | |- reaches (make_map ≫= _) _ _ => apply reaches_make_map; intros ? ?
  | |- reaches (deref _ ≫= _) _ _ => apply reaches_deref
  | |- reaches (index _ _ ≫= _) _ _ => apply reaches_index
  end.

Lemma reaches_load_last p h v (Q : gv -> heap -> Prop) :
  read h p = Some v -> Q v h -> reaches (load p) h Q.
Proof. intros Hr Hq. exists v, h. unfold load. by rewrite Hr. Qed.

Lemma reaches_store_last p w h h' (Q : unit -> heap -> Prop) :
  write h p w = Some h' -> Q tt h' -> reaches (store p w) h Q.
Proof. intros Hw Hq. exists tt, h'. unfold store. by rewrite Hw. Qed.

(** The built-in [copy] between two arrays. *)
Lemma reaches_read_window l off n vs h a k (Q : list gv -> heap -> Prop) :
  h !! l = Some (CVar (GArray vs)) -> off + n <= length vs -> a + k <= n ->
  Q (take k (drop (off + a) vs)) h ->
  reaches (mapM (fun i => p ← index (GSlice l off n) i; load p) (seq a k)) h Q.
Proof.
  intros Hl Hn. revert a Q. induction k as [|k IH]; intros a Q Hk HQ.
  { exists [], h. split; [done|]. by rewrite take_0 in HQ. }
  destruct (lookup_lt_is_Some_2 vs (off + a)) as [v Hv]; [lia|].
  simpl. apply reaches_bind, reaches_index; [lia|]. eapply reaches_load_last.
  { unfold read. simpl. by rewrite Hl; simpl; rewrite Hv. }
  apply reaches_bind, IH; [lia|]. apply reaches_ret.
  rewrite (drop_S _ _ _ Hv) in HQ. by replace (off + S a) with (S (off + a)) by lia.
Qed.

Lemma reaches_write_window l n vs ws h a (Q : unit -> heap -> Prop) :
  h !! l = Some (CVar (GArray vs)) -> length vs = n -> a + length ws = n ->
  Q tt (<[l := CVar (GArray (take a vs ++ ws))]> h) ->
  reaches (for_each (fun iv : nat * gv => p ← index (GSlice l 0 n) iv.1; store p iv.2)
             (zip (seq a (length ws)) ws)) h Q.
Proof.
  intros Hl Hn. revert a vs h Hl Hn. induction ws as [|w ws IH]; intros a vs h Hl Hn Ha HQ; simpl in *.
  { apply reaches_ret. rewrite app_nil_r, take_ge, insert_id in HQ by (done || lia). done. }
  destruct (lookup_lt_is_Some_2 vs a) as [v Hv]; [lia|].
  apply reaches_bind, reaches_index; [lia|]. eapply reaches_store_last.
  { unfold write. simpl. rewrite Hl. simpl. by rewrite Hv. }
  eapply IH; [by rewrite lookup_insert_eq|by rewrite length_insert|lia|].
  rewrite insert_insert_eq. replace (take (S a) (<[a:=w]> vs)) with (take a vs ++ [w]); [by rewrite <- app_assoc|].
  rewrite insert_take_drop by lia. rewrite take_app_ge by (rewrite length_take; lia).
  rewrite length_take, Nat.min_l by lia. by replace (S a - a) with 1 by lia.
Qed.

Lemma reaches_copy_slice l off n vs l' us h (Q : unit -> heap -> Prop) :
  h !! l = Some (CVar (GArray vs)) -> off + n <= length vs ->
  h !! l' = Some (CVar (GArray us)) -> length us = n ->
  Q tt (<[l' := CVar (GArray (take n (drop off vs)))]> h) ->
  reaches (copy_slice (GSlice l' 0 n) (GSlice l off n)) h Q.
Proof.
  intros Hl Hn Hl' Hus HQ. unfold copy_slice. cbn [slice_len]. rewrite Nat.min_id.
  apply reaches_bind. eapply reaches_read_window; [done|done|lia|]. rewrite Nat.add_0_r.
  assert (Hw : length (take n (drop off vs)) = n) by (rewrite length_take, length_drop; lia).
  rewrite <- Hw at 1. eapply reaches_write_window; [done|done|lia|]. done.
Qed.
