(* ===== verification/DeepCopy.v ===== *)
(** * Deep copies: the statements controller-gen writes

    The bodies of [zz_generated.deepcopy.go] are made of a few blocks, one for each shape a
    field can have.  Each block is defined here statement by statement, on places of the
    heap; a generated [DeepCopyInto] is the list of the blocks of its fields
    (DeepCopyTypes.v).  Two functions are hand-written: the copies of
    [adminrules.Restriction] and of [serde.Properties]. *)
From stdpp Require Import base gmap strings list numbers.
From S2P Require Import Prelude GoHeap.

(** [func (in *T) DeepCopyInto(out *T)] *)
Definition copier : Type := place -> place -> M heap unit.

Section Blocks.
Context `{MapRange}.
Implicit Types (inp out : place) (t : ty) (c : copier).

(** [*out = *in] *)
Definition assign : copier := fun inp out => v ← load inp; store out v.

(** [if *in != nil { ... }] *)
Definition unless_nil (body : copier) : copier := fun inp out =>
  v ← load inp; if is_nil v then mret tt else body inp out.

(** [*out = make([]T, len( *in)); copy( *out, *in)] *)
Definition make_and_copy t : copier := fun inp out =>
  src ← load inp;
  made ← make_slice t (slice_len src);
  store out made ;;
  dst ← load out;
  src ← load inp;
  copy_slice dst src.

(** [*out = make([]T, len( *in))], then a copy of each element into its place. *)
Definition make_and_copy_each t c : copier := fun inp out =>
  src ← load inp;
  made ← make_slice t (slice_len src);
  store out made ;;
  src ← load inp;
  for_each (fun i =>
    src ← load inp;
    from ← index src i;
    dst ← load out;
    to ← index dst i;
    c from to) (seq 0 (slice_len src)).

(** [if in == nil { return nil }; out := new(T); in.DeepCopyInto(out); return out] *)
Definition DeepCopy_of t c (v : gv) : M heap gv :=
  if is_nil v then mret GNil else
  inp ← deref v;
  out ← new t;
  c inp out ;;
  mret (GPtr out).

(** The blocks of fields. *)
Definition slice_flat t : copier := unless_nil (make_and_copy t).
Definition slice_deep t c : copier := unless_nil (make_and_copy_each t c).

(** [for key, val := range *in { out[key] = val }] *)
Definition map_flat : copier := unless_nil (fun inp out =>
  made ← make_map;
  store out made ;;
  src ← load inp;
  entries ← map_entries src;
  for_each (fun kv => dst ← load out; map_set dst kv.1 kv.2) entries).

(** [for key, val := range *in { out[key] = *val.DeepCopy() }]; the loop has one
    variable [val], whose address is the receiver. *)
Definition map_deep t c : copier := unless_nil (fun inp out =>
  made ← make_map;
  store out made ;;
  src ← load inp;
  entries ← map_entries src;
  val ← new t;
  for_each (fun kv =>
    store val kv.2 ;;
    q ← DeepCopy_of t c (GPtr val);
    copied ← deref q;
    w ← load copied;
    dst ← load out;
    map_set dst kv.1 w) entries).

(** [*out = new(T); **out = **in] *)
Definition ptr_flat t : copier := unless_nil (fun inp out =>
  made ← new t;
  store out (GPtr made) ;;
  src ← load inp;
  from ← deref src;
  v ← load from;
  dst ← load out;
  to ← deref dst;
  store to v).

(** [*out = new(T)], then [DeepCopyInto] from what [*in] points to, to what [*out] points
    to. *)
Definition ptr_deep t c : copier := unless_nil (fun inp out =>
  made ← new t;
  store out (GPtr made) ;;
  src ← load inp;
  from ← deref src;
  dst ← load out;
  to ← deref dst;
  c from to).

(** [out.F = in.F.DeepCopy()], or [*out = ( *in).DeepCopy()] *)
Definition by_DeepCopy (copy : gv -> M heap gv) : copier := fun inp out =>
  v ← load inp;
  w ← copy v;
  store out w.

(** A generated [DeepCopyInto] of a struct: [*out = *in], then the blocks of the fields
    that are listed. *)
Definition field_block (fc : string * copier) : copier := fun inp out =>
  fc.2 inp@(fc.1) out@(fc.1).
Definition struct_copy (blocks : list (string * copier)) : copier := fun inp out =>
  assign inp out ;;
  for_each (fun fc => field_block fc inp out) blocks.

(** A generated [DeepCopyInto] of a slice type with a name, whose receiver is a value:
    [{ in := &in; *out = make(T, len( *in)); ... }]. *)
Definition DeepCopyInto_value (body : copier) (v : gv) (out : place) : M heap unit :=
  l ← alloc (CVar v);
  body (mkPlace l []) out.

(** [if in == nil { return nil }; out := new(T); in.DeepCopyInto(out); return *out] *)
Definition DeepCopy_value t (into : gv -> place -> M heap unit) (v : gv) : M heap gv :=
  if is_nil v then mret GNil else
  out ← new t;
  into v out ;;
  load out.

(** [if c := in.DeepCopy(); c != nil { return c }; return nil] *)
Definition DeepCopyObject_of (copy : gv -> M heap gv) (v : gv) : M heap gv :=
  c ← copy v;
  if is_nil c then mret GNil else mret c.
End Blocks.

Notation "f ~> c" := (f, c) (at level 60, only parsing) : go_scope.

(** ** adminrules.Restriction *)
Section Restriction.
Context `{MapRange}.

(** [func (in Restriction) DeepCopyInto(out *Restriction)]: each list is copied into a
    new slice of length zero. *)
Definition adminrules_Restriction_DeepCopyInto (v : gv) (out : place) : M heap unit :=
  made ← make_map;
  store out made ;;
  entries ← map_entries v;
  for_each (fun kv =>
    outVal ← make_slice TString 0;
    (if is_nil kv.2 then mret tt else copy_slice outVal kv.2) ;;
    dst ← load out;
    map_set dst kv.1 outVal) entries.

Definition adminrules_Restriction_DeepCopy : gv -> M heap gv := DeepCopy_value TRestriction adminrules_Restriction_DeepCopyInto.
End Restriction.

(** ** Libraries

    The copies of the API machinery, and [deepcopy.Copy] of mohae/deepcopy, which takes and
    returns an interface. *)
Class DeepCopyLib := {
  T_TypeMeta : ty;
  T_ObjectMeta : ty;
  T_ListMeta : ty;
  T_LabelSelector : ty;
  T_Time : ty;
  ObjectMeta_DeepCopyInto : copier;
  ListMeta_DeepCopyInto : copier;
  LabelSelector_DeepCopyInto : copier;
  Time_DeepCopy : gv -> M heap gv;
  deepcopy_Copy : gv -> M heap gv
}.

(** ** serde.Properties *)

Definition T_Properties : ty := TStruct ["Items" ~> TMap TAny].

Section Properties.
Context `{DeepCopyLib}.

(** [copy, _ := deepcopy.Copy(in).( *Properties); *out = *copy]: a value of another type
    gives a nil pointer, which is then followed. *)
Definition Properties_DeepCopyInto : copier := fun inp out =>
  copied ← deepcopy_Copy (GPtr inp);
  copy ← deref copied;
  v ← load copy;
  store out v.

Definition Properties_DeepCopy : gv -> M heap gv := DeepCopy_of T_Properties Properties_DeepCopyInto.
End Properties.
