(* ===== verification/DeepCopyFacts.v ===== *)
(** * Deep copiers

    A copier is deep ([deep_copies]) when the target stands for the tree of the source
    afterwards, all memory the target refers to is new, and nothing else is changed.  Each
    block of DeepCopy.v is deep when the copiers it calls are. *)
From stdpp Require Import base gmap strings list numbers.
From S2P Require Import Prelude GoHeap GoHeapFacts DeepCopy.

(** ** Deep copiers *)

(** [h'] is [h] with a new value at [p] and new memory; the value stands for the copy of
    [tr] and refers to new memory only. *)
Definition holds_copy (h : heap) (p : place) (t : ty) (tr : tree) (h' : heap) : Prop :=
  exists v h1, write h p v = Some h1 /\ h1 ⊆ h' /\ rep (fun l => h !! l = None) h' t v (copied t tr).

Definition deep_copies (t : ty) (c : copier) : Prop :=
  forall h inp out v old tr,
    read h inp = Some v -> read h out = Some old -> p_base inp <> p_base out ->
    (v = GNil -> old = GNil) ->
    rep (fun l => l <> p_base out) h t v tr ->
    reaches (c inp out) h (fun _ => holds_copy h out t tr).

(** The same for a function from values to values, such as [DeepCopy]. *)
Definition deep_value (t : ty) (copy : gv -> M heap gv) : Prop :=
  forall h v tr P, rep P h t v tr ->
    reaches (copy v) h (fun w h' => h ⊆ h' /\ rep (fun l => h !! l = None) h' t w (copied t tr)).

(** Memory that is allocated does not get in the way. *)
Lemma sub_alloc (h h' : heap) l c : h ⊆ h' -> h !! l = None -> h ⊆ <[l := c]> h'.
Proof. intros Hs Hl. etrans; [|by apply insert_mono]. by apply insert_subseteq. Qed.

Lemma read_alloc (h : heap) l c p v : read h p = Some v -> h !! l = None -> read (<[l := c]> h) p = Some v.
Proof. intros Hr Hl. eapply read_sub; [by apply insert_subseteq|done]. Qed.

Lemma read_base_ne (h : heap) l p v : read h p = Some v -> h !! l = None -> p_base p <> l.
Proof. intros (x & Ex & _)%read_inv Hl E. congruence. Qed.

Lemma read_write_ne h p w h' q : write h p w = Some h' -> p_base q <> p_base p -> read h' q = read h q.
Proof. intros Hw Hne. apply read_agree. by eapply lookup_write_ne. Qed.

(** The target keeps what it was given while other new memory changes. *)
Lemma write_survives (h ha hb h' : heap) p w : 
  h ⊆ ha -> write ha p w = Some hb -> (forall l, is_Some (h !! l) -> h' !! l = hb !! l) ->
  (exists x, read h p = Some x) -> exists h1, write h p w = Some h1 /\ h1 ⊆ h'.
Proof.
  intros Hs Hw Hag [x Hx]. destruct (write_is_Some _ _ _ w Hx) as [h1 Hh1].
  exists h1. split; [done|]. destruct (write_sub _ _ _ _ _ Hs Hh1) as (h2 & Hh2 & Hsub).
  assert (h2 = hb) as -> by congruence. apply map_subseteq_spec. intros l c Hl.
  rewrite Hag; [by eapply lookup_weaken|]. destruct (h !! l) eqn:E; [eauto|].
  apply (lookup_write_None _ _ _ _ _ Hh1) in E. congruence.
Qed.

(** The first two statements of a block: new memory [l'] is allocated and the target refers
    to it. *)
Lemma install h l' c out old w : h !! l' = None -> read h out = Some old ->
  exists h1, write (<[l' := c]> h) out w = Some h1 /\ p_base out <> l' /\ h1 !! l' = Some c /\
    (forall x, is_Some (h !! x) -> x <> p_base out -> h1 !! x = h !! x) /\
    (forall x, h1 !! x = None -> h !! x = None) /\
    (forall h', (forall x, is_Some (h !! x) -> h' !! x = h1 !! x) ->
       exists h2, write h out w = Some h2 /\ h2 ⊆ h').
Proof.
  intros Hl Hout. assert (Hne : p_base out <> l') by (by eapply read_base_ne).
  destruct (write_is_Some _ _ _ w (read_alloc h l' c _ _ Hout Hl)) as [h1 Hh1].
  exists h1. split_and!; [done|done|..].
  - rewrite (lookup_write_ne _ _ _ _ _ Hh1) by done. by rewrite lookup_insert_eq.
  - intros x [d Hx] Hxo. rewrite (lookup_write_ne _ _ _ _ _ Hh1) by done.
    rewrite lookup_insert_ne; [done|congruence].
  - intros x Hx. apply (lookup_write_None _ _ _ _ _ Hh1), lookup_insert_None in Hx. by destruct Hx.
  - intros h' Hag. eapply write_survives; [by apply insert_subseteq|done|done|eauto].
Qed.

(** A part of the heap that a block does not touch is read as before. *)
Lemma read_keep h h1 p v q : read h p = Some v -> p_base p <> p_base q ->
  (forall x, is_Some (h !! x) -> x <> p_base q -> h1 !! x = h !! x) -> read h1 p = Some v.
Proof.
  intros Hp Hne Hag. rewrite <- Hp. apply read_agree, Hag; [|done].
  apply read_inv in Hp as (x & -> & _). eauto.
Qed.

Section BlockFacts.
Context `{MapRange}.

Lemma unless_nil_deep t body :
  (forall h inp out v old tr, v <> GNil ->
    read h inp = Some v -> read h out = Some old -> p_base inp <> p_base out ->
    rep (fun l => l <> p_base out) h t v tr ->
    reaches (body inp out) h (fun _ => holds_copy h out t tr)) ->
  deep_copies t (unless_nil body).
Proof.
  intros Hb h inp out v old tr Hin Hout Hne Hnil Hr. unfold unless_nil.
  eapply reaches_load; [done|]. destruct (is_nil v) eqn:E; [|eapply Hb; eauto; by intros ->].
  destruct v; try done. rewrite (Hnil eq_refl) in Hout. apply reaches_ret.
  exists GNil, h. split_and!; [by apply write_same|done|].
  assert (tr = LNil) as ->.
  { clear -Hr. remember GNil as v eqn:Ev. induction Hr; try done; auto. }
  assert (copied t LNil = LNil) as -> by (by destruct t).
  assert (nilable t) as Ht by (inversion Hr; by subst). by constructor.
Qed.

Lemma assign_deep t : flat t = true -> deep_copies t assign.
Proof.
  intros Hf h inp out v old tr Hin Hout Hne Hnil Hr. unfold assign. heap_step; [done|].
  destruct (write_is_Some _ _ _ v Hout) as [h1 Hh1]. eapply reaches_store_last; [done|].
  exists v, h1. split_and!; [done|done|]. rewrite copied_flat by done. by eapply rep_flat.
Qed.

(** A slice value that is not nil. *)
Lemma rep_slice_inv P h t v tr : v <> GNil -> rep P h (TSlice t) v tr ->
  exists l off n vs trs, v = GSlice l off n /\ tr = LSlice trs /\ P l /\
    h !! l = Some (CVar (GArray vs)) /\ off + n <= length vs /\ length trs = n /\
    (forall i v tr, vs !! (off + i) = Some v -> trs !! i = Some tr -> rep P h t v tr).
Proof. intros Hnil Hr. inversion Hr; subst; [done|]. eauto 15. Qed.

Lemma make_and_copy_deep t h inp out v old tr :
  flat t = true -> v <> GNil ->
  read h inp = Some v -> read h out = Some old -> p_base inp <> p_base out ->
  rep (fun l => l <> p_base out) h (TSlice t) v tr ->
  reaches (make_and_copy t inp out) h (fun _ => holds_copy h out (TSlice t) tr).
Proof.
  intros Hf Hnil Hin Hout Hne Hr.
  destruct (rep_slice_inv _ _ _ _ _ Hnil Hr) as (l & off & n & vs & trs & -> & -> & Hl & El & Hn & Hlen & Hel).
  unfold make_and_copy. heap_step; [done|]. heap_step. rename l0 into l', H0 into Hl'.
  assert (l <> l') by congruence.
  destruct (install h l' (CVar (GArray (replicate n (zero t)))) out old (GSlice l' 0 n) Hl' Hout)
    as (h1 & Hh1 & Hol & Hl1 & Hag1 & Hnew & Hinst).
  heap_step; [done|]. heap_step; [by eapply read_write|]. heap_step; [by eapply read_keep|].
  eapply (reaches_copy_slice _ _ _ vs _ (replicate n (zero t))); [|done|done|by rewrite length_replicate|].
  { rewrite Hag1; eauto. }
  destruct (Hinst (<[l':=CVar (GArray (take n (drop off vs)))]> h1)) as (h2 & Hh2 & Hsub).
  { intros x [c Hx]. rewrite lookup_insert_ne; [done|congruence]. }
  exists (GSlice l' 0 n), h2. split_and!; [done..|].
  econstructor; [done|by rewrite lookup_insert_eq| |by rewrite length_fmap|].
  { rewrite length_take, length_drop. lia. }
  intros i v tr Hv Htr. apply list_lookup_fmap_Some in Htr as (tr0 & -> & Htr0).
  rewrite copied_flat by done. apply lookup_take_Some in Hv as [Hv _]. rewrite lookup_drop in Hv.
  eapply rep_flat; [by eapply Hel|done].
Qed.

Lemma slice_flat_deep t : flat t = true -> deep_copies (TSlice t) (slice_flat t).
Proof. intros Hf. apply unless_nil_deep. intros. by eapply make_and_copy_deep. Qed.

(** The state of a loop that fills the new array [l'] of a heap [h1]: [ws] is what the
    elements copied so far hold. *)
Definition filling (h1 : heap) (l' : loc) (t : ty) (trs : list tree) (m : nat) (ws : list gv) (hk : heap) : Prop :=
  (forall x, is_Some (h1 !! x) -> x <> l' -> hk !! x = h1 !! x) /\
  hk !! l' = Some (CVar (GArray (ws ++ replicate m (zero t)))) /\
  (forall i w tr, ws !! i = Some w -> trs !! i = Some tr ->
     rep (fun x => h1 !! x = None) hk t w (copied t tr)).

Lemma filling_step (h1 : heap) l' t trs m ws hk w h2 h3 tr :
  filling h1 l' t trs (S m) ws hk -> is_Some (h1 !! l') -> trs !! length ws = Some tr ->
  write hk (mkPlace l' [AIndex (length ws)]) w = Some h2 -> h2 ⊆ h3 ->
  rep (fun x => hk !! x = None) h3 t w (copied t tr) ->
  filling h1 l' t trs m (ws ++ [w]) h3.
Proof.
  intros (Hag & Hl' & Hws) Hd Htr Hw Hs Hr.
  assert (Hkeep : forall x, is_Some (hk !! x) -> x <> l' -> h3 !! x = hk !! x).
  { intros x [c Hx] Hne. rewrite Hx. eapply lookup_weaken; [|done].
    by rewrite (lookup_write_ne _ _ _ _ _ Hw). }
  assert (Hgrow : forall x, is_Some (h1 !! x) -> is_Some (hk !! x)).
  { intros x Hx. destruct (decide (x = l')) as [->|]; [by rewrite Hl'|by rewrite Hag]. }
  split_and!.
  - intros x Hx Hne. rewrite Hkeep, Hag by auto. done.
  - eapply lookup_weaken; [|done]. apply write_inv in Hw as (v & v' & Ev & Es & ->). simpl in *.
    rewrite lookup_insert_eq. rewrite Hl' in Ev. injection Ev as <-. simpl in Es.
    rewrite lookup_app_r, Nat.sub_diag in Es by lia. simpl in Es. simplify_eq.
    by rewrite insert_app_r_alt, Nat.sub_diag, <- app_assoc by lia.
  - intros i w' tr' [Hw'|[-> <-]]%lookup_snoc_Some Htr'.
    + destruct Hw' as [_ Hw']. eapply rep_frame; [by eapply Hws|]. intros x Hx Hsx. split; [done|].
      apply Hkeep; [done|]. intros ->. destruct Hd. congruence.
    + simplify_eq. eapply rep_sub; [done| |done]. intros x Hx _. destruct (h1 !! x) eqn:E; [|done].
      destruct (Hgrow x); [eauto|]. congruence.
Qed.

Lemma copy_each_loop t c h1 inp out l off n vs trs l' :
  deep_copies t c ->
  read h1 inp = Some (GSlice l off n) -> read h1 out = Some (GSlice l' 0 n) ->
  p_base inp <> l' -> p_base out <> l' -> l <> l' ->
  h1 !! l = Some (CVar (GArray vs)) -> is_Some (h1 !! l') -> off + n <= length vs -> length trs = n ->
  (forall i v tr, vs !! (off + i) = Some v -> trs !! i = Some tr -> rep (fun x => x <> l') h1 t v tr) ->
  forall m ws hk, length ws + m = n -> filling h1 l' t trs m ws hk ->
  reaches (for_each (fun i =>
    src ← load inp; from ← index src i; dst ← load out; to ← index dst i; c from to) (seq (length ws) m)) hk
    (fun _ h' => exists ws', length ws' = n /\ filling h1 l' t trs 0 ws' h').
Proof.
  intros Hc Hin Hout Hin' Hout' Hll' Hl Hl' Hn Hlen Hel m. induction m as [|m IH]; intros ws hk Hm Hf.
  { apply reaches_ret. exists ws. split; [lia|done]. }
  destruct Hf as (Hag & Hlk & Hws).
  assert (Hread : forall p v, p_base p <> l' -> read h1 p = Some v -> read hk p = Some v).
  { intros p v Hne Hp. rewrite <- Hp. apply read_agree, Hag; [|done].
    apply read_inv in Hp as (x & -> & _). eauto. }
  destruct (lookup_lt_is_Some_2 vs (off + length ws)) as [v Hv]; [lia|].
  destruct (lookup_lt_is_Some_2 trs (length ws)) as [tr Htr]; [lia|].
  simpl. apply reaches_bind.
  heap_step; [by apply Hread|]. heap_step; [lia|]. heap_step; [by apply Hread|]. heap_step; [lia|].
  pose proof (Hel _ _ _ Hv Htr) as Hvr.
  eapply reaches_mono.
  { eapply (Hc hk _ _ v (zero t) tr); simpl; [| |done| |].
    - apply Hread; [done|]. unfold read. simpl. rewrite Hl. simpl. by rewrite Hv.
    - unfold read. simpl. rewrite Hlk. simpl. rewrite lookup_app_r, Nat.sub_diag by lia. done.
    - intros ->. by eapply rep_nil_zero.
    - eapply rep_frame; [done|]. simpl. intros x Hx Hsx. auto. }
  intros _ h3 (w & h2 & Hw & Hs & Hr).
  assert (Hf' : filling h1 l' t trs m (ws ++ [w]) h3) by (by eapply filling_step).
  specialize (IH (ws ++ [w]) h3). rewrite length_app in IH. simpl in IH.
  rewrite Nat.add_1_r in IH. apply IH; [lia|done].
Qed.

Lemma make_and_copy_each_deep t c h inp out v old tr :
  deep_copies t c -> v <> GNil ->
  read h inp = Some v -> read h out = Some old -> p_base inp <> p_base out ->
  rep (fun l => l <> p_base out) h (TSlice t) v tr ->
  reaches (make_and_copy_each t c inp out) h (fun _ => holds_copy h out (TSlice t) tr).
Proof.
  intros Hc Hnil Hin Hout Hne Hr.
  destruct (rep_slice_inv _ _ _ _ _ Hnil Hr) as (l & off & n & vs & trs & -> & -> & Hl & El & Hn & Hlen & Hel).
  unfold make_and_copy_each. heap_step; [done|]. heap_step. rename l0 into l', H0 into Hl'.
  assert (l <> l') by congruence. assert (p_base inp <> l') by (by eapply read_base_ne).
  destruct (install h l' (CVar (GArray (replicate n (zero t)))) out old (GSlice l' 0 n) Hl' Hout)
    as (h1 & Hh1 & Hol & Hl1 & Hag1 & Hnew & Hinst).
  heap_step; [done|]. heap_step; [by eapply read_keep|].
  eapply reaches_mono.
  { eapply (copy_each_loop t c h1 inp out l off n vs trs l') with (ws := []); try done.
    - by eapply read_keep.
    - by eapply read_write.
    - rewrite Hag1; eauto.
    - intros i v tr Hv Htr. eapply rep_frame; [by eapply Hel|]. intros x Hx [d Hd]. split; [congruence|].
      apply Hag1; eauto. }
  intros _ h' (ws & Hws & Hag & Hl2 & Hreps). rewrite app_nil_r in Hl2.
  destruct (Hinst h') as (h2 & Hh2 & Hsub).
  { intros x [d Hx]. assert (x <> l') by congruence. apply Hag; [|done].
    destruct (h1 !! x) eqn:E; [eauto|]. apply Hnew in E. congruence. }
  exists (GSlice l' 0 n), h2. split_and!; [done..|].
  econstructor; [done|done|simpl; lia|by rewrite length_fmap|].
  intros i v tr Hv Htr. apply list_lookup_fmap_Some in Htr as (tr0 & -> & Htr0).
  eapply rep_sub; [by eapply Hreps| |done]. eauto.
Qed.

Lemma slice_deep_deep t c : deep_copies t c -> deep_copies (TSlice t) (slice_deep t c).
Proof. intros Hc. apply unless_nil_deep. intros. by eapply make_and_copy_each_deep. Qed.

Lemma DeepCopy_of_deep t c : deep_copies t c -> deep_value (TPtr t) (DeepCopy_of t c).
Proof.
  intros Hc h v tr P Hr. unfold DeepCopy_of. inversion Hr; subst; simpl.
  { apply reaches_ret. split; [done|]. by constructor. }
  heap_step. heap_step. rename H3 into Hl.
  assert (Hne : p_base p <> l) by (by eapply read_base_ne).
  eapply reaches_then.
  { eapply (Hc _ p (mkPlace l []) v0 (zero t)); simpl; [by apply read_alloc| |done| |].
    - unfold read. simpl. by rewrite lookup_insert_eq.
    - intros ->. by eapply rep_nil_zero.
    - eapply rep_sub; [done| |by apply insert_subseteq]. intros x _ [d Hd] ->. congruence. }
  intros _ h' (w & h2 & Hw & Hs & Hrep). apply reaches_ret.
  assert (Hl2 : h2 = <[l := CVar w]> h).
  { apply write_inv in Hw as (? & ? & _ & Es & ->). simpl in *. simplify_eq. by rewrite insert_insert_eq. }
  subst h2. split; [etrans; [by apply insert_subseteq|done]|].
  econstructor; [done| |].
  - unfold read. simpl. erewrite lookup_weaken by (done || by rewrite lookup_insert_eq). done.
  - eapply rep_sub; [done| |done]. intros x Hx _. by apply lookup_insert_None in Hx as [? _].
Qed.

(** The state of a loop that fills the new map [l'] of a heap [h1]; [X] is the memory the
    loop writes to and [I] what it needs of it. *)
Section MapLoop.
Context (t : ty) (g : tree -> tree) (h1 : heap) (X : loc -> Prop) (I : heap -> Prop) (l' : loc).
Context (m : gmap string gv) (mt : gmap string tree) (body : string * gv -> M heap unit).
Context (HXl : X l') (HX : forall x, X x -> is_Some (h1 !! x)).

Definition stays (hk h' : heap) : Prop :=
  (forall x, is_Some (hk !! x) -> ~ X x -> h' !! x = hk !! x) /\
  (forall x, is_Some (hk !! x) -> is_Some (h' !! x)).

Definition collecting (md : gmap string gv) (hk : heap) : Prop :=
  I hk /\ stays h1 hk /\ hk !! l' = Some (CMap md) /\
  (forall k w tr, md !! k = Some w -> mt !! k = Some tr ->
     rep (fun x => h1 !! x = None) hk t w (g tr)).

Context (Hbody : forall hk k v tr md,
  I hk -> stays h1 hk -> hk !! l' = Some (CMap md) -> m !! k = Some v -> mt !! k = Some tr ->
  reaches (body (k, v)) hk (fun _ h' => I h' /\ stays hk h' /\
    exists w, h' !! l' = Some (CMap (<[k := w]> md)) /\ rep (fun x => hk !! x = None) h' t w (g tr))).

Lemma stays_trans ha hb hc : stays ha hb -> stays hb hc -> stays ha hc.
Proof. intros [H1 H2] [H3 H4]. split; [|auto]. intros x Hx HnX. rewrite H3, H1; auto. Qed.

Lemma stays_fresh ha hb x : stays ha hb -> hb !! x = None -> ha !! x = None.
Proof. intros [_ Hg] Hx. destruct (ha !! x) eqn:E; [|done]. destruct (Hg x); [eauto|]. congruence. Qed.

Lemma collect_loop entries md hk :
  (forall k v, (k, v) ∈ entries -> m !! k = Some v /\ is_Some (mt !! k)) -> collecting md hk ->
  reaches (for_each body entries) hk (fun _ h' => exists md', collecting md' h' /\
    forall k, is_Some (md' !! k) <-> is_Some (md !! k) \/ k ∈ entries.*1).
Proof.
  revert md hk. induction entries as [|[k v] entries IH]; intros md hk He Hco.
  { apply reaches_ret. exists md. split; [done|]. set_solver. }
  destruct Hco as (HI & Hst & Hl' & Hreps). destruct (He k v) as [Hv [tr Htr]]; [apply list_elem_of_here|].
  simpl. eapply reaches_then; [by eapply Hbody|].
  intros _ h' (HI' & Hst' & w & Hl2 & Hw). eapply reaches_mono.
  - apply (IH (<[k := w]> md)); [intros k2 v2 Hin; by apply He, list_elem_of_further|]. split_and!; [done|by eapply stays_trans|done|].
    intros k' w' tr' [[<- <-]|[_ Hw']]%lookup_insert_Some Htr'.
    + simplify_eq. eapply rep_sub; [done| |done]. intros x Hx _. by eapply stays_fresh.
    + eapply rep_frame; [by eapply Hreps|]. intros x Hx Hsx. split; [done|]. apply Hst'; [done|].
      intros HXx. destruct (HX x HXx). congruence.
  - intros _ h2 (md' & Hco & Hdom). exists md'. split; [done|]. intros k'. rewrite Hdom.
    rewrite lookup_insert_is_Some'. change ((k, v) :: entries).*1 with (k :: entries.*1). rewrite elem_of_cons. clear. naive_solver.
Qed.
End MapLoop.

(** A map value that is not nil. *)
Lemma rep_map_inv P h t v tr : v <> GNil -> rep P h (TMap t) v tr ->
  exists l m mt, v = GMap l /\ tr = LMap mt /\ P l /\ h !! l = Some (CMap m) /\
    (forall k, is_Some (m !! k) <-> is_Some (mt !! k)) /\
    (forall k v tr, m !! k = Some v -> mt !! k = Some tr -> rep P h t v tr).
Proof. intros Hnil Hr. inversion Hr; subst; [done|]. eauto 10. Qed.

(** A map that was collected from the entries of a map. *)
Lemma collected_rep t g (h h1 h' : heap) X I l' (m md : gmap string gv) mt :
  collecting t g h1 X I l' mt md h' -> h !! l' = None -> (forall x, h1 !! x = None -> h !! x = None) ->
  (forall k, is_Some (m !! k) <-> is_Some (mt !! k)) ->
  (forall k, is_Some (md !! k) <-> is_Some ((∅ : gmap string gv) !! k) \/ k ∈ (range m).*1) ->
  rep (fun x => h !! x = None) h' (TMap t) (GMap l') (LMap (g <$> mt)).
Proof.
  intros (_ & _ & Hl' & Hreps) Hnone Hnew Hm Hdom. econstructor; [done|done|..].
  - intros k. rewrite Hdom, lookup_empty, lookup_fmap, fmap_is_Some, <- Hm, list_elem_of_fmap.
    split; [intros [[]%is_Some_None|([k' v] & -> & Hv%range_elem)]; simpl; eauto|].
    intros [v Hv]. right. exists (k, v). by rewrite range_elem.
  - intros k w tr Hw Htr. apply lookup_fmap_Some in Htr as (tr0 & <- & Htr0).
    eapply rep_sub; [by eapply Hreps| |done]. eauto.
Qed.

Lemma range_in (m : gmap string gv) (mt : gmap string tree) k v :
  (forall k, is_Some (m !! k) <-> is_Some (mt !! k)) -> (k, v) ∈ range m -> m !! k = Some v /\ is_Some (mt !! k).
Proof. intros Hm Hv%range_elem. split; [done|]. apply Hm. eauto. Qed.

Lemma map_flat_deep t : flat t = true -> deep_copies (TMap t) map_flat.
Proof.
  intros Hf. apply unless_nil_deep. intros h inp out v old tr Hnil Hin Hout Hne Hr.
  destruct (rep_map_inv _ _ _ _ _ Hnil Hr) as (l & m & mt & -> & -> & Hl & El & Hm & Hel).
  heap_step. rename l0 into l', H0 into Hl'.
  destruct (install h l' (CMap ∅) out old (GMap l') Hl' Hout) as (h1 & Hh1 & Hol & Hl1 & Hag1 & Hnew & Hinst).
  heap_step; [done|]. heap_step; [by eapply read_keep|].
  eapply reaches_entries; [rewrite Hag1; eauto|].
  eapply reaches_mono.
  { apply (collect_loop t (copied t) h1 (fun x => x = l') (fun _ => True) l' m mt) with (md := ∅); [done|by intros x ->| | |].
    - intros hk k v tr md _ [Hst Hgrow] Hlk Hv Htr. simpl.
      eapply reaches_load.
      { rewrite (read_agree h1); [by eapply read_write|]. apply Hst; [|done].
        apply write_inv in Hh1 as (? & ? & _ & _ & ->). rewrite lookup_insert_eq. eauto. }
      eexists _, _. unfold map_set. rewrite Hlk. split; [done|]. split_and!; [done| |].
      + split; [intros x _ Hx; by rewrite lookup_insert_ne by congruence|].
        intros x Hx. apply lookup_insert_is_Some'. auto.
      + exists v. rewrite lookup_insert_eq, copied_flat by done. split; [done|].
        eapply rep_flat; [by eapply Hel|done].
    - intros k v. by apply range_in.
    - split_and!; [done|by split|done|]. intros k w tr Hw. by rewrite lookup_empty in Hw. }
  intros _ h' (md & Hco & Hdom). destruct (Hinst h') as (h2 & Hh2 & Hsub).
  { destruct Hco as (_ & [Hst _] & _). intros x [d Hx]. apply Hst; [|congruence].
    destruct (h1 !! x) eqn:E; [eauto|]. apply Hnew in E. congruence. }
  exists (GMap l'), h2. split_and!; [done..|]. by eapply collected_rep.
Qed.

(** One round of the loop that copies the values of a map: [val] is the loop variable. *)
Lemma map_deep_body t c out l' lv (k : string) v tr md (hk : heap) :
  deep_copies t c -> (exists x, hk !! lv = Some (CVar x)) -> hk !! l' = Some (CMap md) -> l' <> lv ->
  read hk out = Some (GMap l') -> p_base out <> lv ->
  rep (fun x => x <> lv) hk t v tr ->
  reaches (store (mkPlace lv []) v ;;
           q ← DeepCopy_of t c (GPtr (mkPlace lv []));
           copied ← deref q; w ← load copied; dst ← load out; map_set dst k w) hk
    (fun _ h' => (exists x, h' !! lv = Some (CVar x)) /\ stays (fun x => x = l' \/ x = lv) hk h' /\
       exists w, h' !! l' = Some (CMap (<[k := w]> md)) /\ rep (fun x => hk !! x = None) h' t w (copied t tr)).
Proof.
  intros Hc [x0 Hlv] Hl' Hne Hout Hol Hr.
  assert (Hw : write hk (mkPlace lv []) v = Some (<[lv := CVar v]> hk)) by (unfold write; simpl; by rewrite Hlv).
  heap_step; [done|]. set (h1 := <[lv := CVar v]> hk) in *.
  assert (Hr1 : rep (fun _ => True) h1 (TPtr t) (GPtr (mkPlace lv [])) (LPtr tr)).
  { econstructor; [done|by eapply read_write|]. eapply rep_frame; [done|]. simpl. intros x Hx _.
    split; [done|]. by apply lookup_insert_ne. }
  eapply reaches_then; [by eapply (DeepCopy_of_deep t c Hc)|].
  simpl. intros q h' [Hs Hq]. inversion Hq; subst. heap_step. heap_step; [done|]. simpl.
  assert (Hout1 : read h1 out = Some (GMap l')) by (by rewrite (read_write_ne _ _ _ _ _ Hw)).
  heap_step; [by eapply read_sub|].
  assert (Hl2 : h' !! l' = Some (CMap md)).
  { eapply lookup_weaken; [|done]. unfold h1. by rewrite lookup_insert_ne. }
  exists tt, (<[l' := CMap (<[k := v0]> md)]> h'). unfold map_set. rewrite Hl2. split; [done|]. split_and!.
  - exists v. rewrite lookup_insert_ne by done. eapply lookup_weaken; [|done]. apply lookup_insert_eq.
  - split; intros x [d Hx].
    + intros HnX. rewrite lookup_insert_ne by (intros ->; auto). rewrite Hx. eapply lookup_weaken; [|done].
      unfold h1. rewrite lookup_insert_ne by (intros ->; auto). done.
    + apply lookup_insert_is_Some'. right.
      assert (is_Some (h1 !! x)) as [d' Hd'] by (apply lookup_insert_is_Some'; eauto).
      exists d'. by eapply lookup_weaken.
  - exists v0. rewrite lookup_insert_eq. split; [done|].
    assert (Hfresh : forall x, h1 !! x = None -> hk !! x = None /\ l' <> x).
    { intros x Hx. apply lookup_insert_None in Hx as [Hx _]. split; [done|]. intros ->. congruence. }
    eapply rep_frame; [done|]. intros x Hx _. destruct (Hfresh _ Hx). split; [done|]. by apply lookup_insert_ne.
Qed.

Lemma map_deep_deep t c : deep_copies t c -> deep_copies (TMap t) (map_deep t c).
Proof.
  intros Hc. apply unless_nil_deep. intros h inp out v old tr Hnil Hin Hout Hne Hr.
  destruct (rep_map_inv _ _ _ _ _ Hnil Hr) as (l & m & mt & -> & -> & Hl & El & Hm & Hel).
  heap_step. rename l0 into l', H0 into Hl'.
  destruct (install h l' (CMap ∅) out old (GMap l') Hl' Hout) as (h1 & Hh1 & Hol & Hl1 & Hag1 & Hnew & Hinst).
  heap_step; [done|]. heap_step; [by eapply read_keep|].
  eapply reaches_entries; [rewrite Hag1; eauto|]. heap_step. rename l0 into lv, H0 into Hlv.
  pose proof (read_write _ _ _ _ Hh1) as Hout1.
  assert (Hne' : l' <> lv) by congruence. assert (Hov : p_base out <> lv) by (by eapply read_base_ne).
  set (h2 := <[lv := CVar (zero t)]> h1).
  eapply reaches_mono.
  { apply (collect_loop t (copied t) h2 (fun x => x = l' \/ x = lv) (fun h => exists x, h !! lv = Some (CVar x)) l' m mt)
      with (md := ∅); [by left| | | |].
    - unfold h2. intros x [->| ->]; [rewrite lookup_insert_ne by done|rewrite lookup_insert_eq]; eauto.
    - intros hk k v tr md HI [Hst Hgrow] Hlk Hv Htr. apply map_deep_body; [done|done|done|done| |done|].
      + rewrite (read_agree h2); [by apply read_alloc|]. apply Hst; [|naive_solver].
        unfold h2. apply lookup_insert_is_Some'. right. apply read_inv in Hout1 as (? & -> & _). eauto.
      + eapply rep_frame; [by eapply Hel|]. intros x Hx [d Hd].
        assert (h1 !! x = Some d) by (rewrite Hag1; eauto). split; [congruence|].
        assert (Hx2 : h2 !! x = h !! x) by (unfold h2; rewrite lookup_insert_ne by congruence; congruence).
        rewrite Hst; [done|rewrite Hx2; eauto|]. intros [->| ->]; congruence.
    - intros k v. by apply range_in.
    - split_and!; [exists (zero t); apply lookup_insert_eq|by split| |].
      + unfold h2. by rewrite lookup_insert_ne.
      + intros k w tr Hw. by rewrite lookup_empty in Hw. }
  intros _ h' (md & Hco & Hdom).
  assert (Hnew2 : forall x, h2 !! x = None -> h !! x = None).
  { intros x Hx. apply lookup_insert_None in Hx as [Hx _]. auto. }
  destruct (Hinst h') as (h3 & Hh3 & Hsub).
  { destruct Hco as (_ & [Hst _] & _). intros x [d Hx].
    assert (is_Some (h1 !! x)) as [d1 Hd1].
    { destruct (h1 !! x) eqn:E; [eauto|]. apply Hnew in E. congruence. }
    assert (Hx2 : h2 !! x = h1 !! x) by (unfold h2; rewrite lookup_insert_ne by congruence; done).
    rewrite <- Hx2. apply Hst; [rewrite Hx2; eauto|]. intros [->| ->]; congruence. }
  exists (GMap l'), h3. split_and!; [done..|]. by eapply collected_rep.
Qed.

(** The end of a block for a pointer: the new variable [l'] holds a copy of the target. *)
Lemma ptr_block_deep t h inp out v old tr l' h1 (body : M heap unit) :
  h !! l' = None -> read h inp = Some (GPtr v) -> read h out = Some old -> p_base inp <> p_base out ->
  rep (fun l => l <> p_base out) h (TPtr t) (GPtr v) tr ->
  write (<[l' := CVar (zero t)]> h) out (GPtr (mkPlace l' [])) = Some h1 ->
  (forall x tr0, read h1 v = Some x -> read h1 (mkPlace l' []) = Some (zero t) -> p_base v <> l' ->
     (x = GNil -> zero t = GNil) -> rep (fun l => l <> l') h1 t x tr0 ->
     reaches body h1 (fun _ => holds_copy h1 (mkPlace l' []) t tr0)) ->
  reaches body h1 (fun _ => holds_copy h out (TPtr t) tr).
Proof.
  intros Hl' Hin Hout Hne Hr Hw Hbody. inversion Hr; subst.
  destruct (install h l' (CVar (zero t)) out old (GPtr (mkPlace l' [])) Hl' Hout)
    as (h1' & Hh1 & Hol & Hl1 & Hag1 & Hnew & Hinst).
  assert (h1' = h1) as -> by congruence.
  eapply reaches_mono.
  { apply (Hbody v0 tr0); [by eapply read_keep| |by eapply read_base_ne| |].
    - unfold read. simpl. by rewrite Hl1.
    - intros ->. by eapply rep_nil_zero.
    - eapply rep_frame; [done|]. intros x Hx [d Hd]. split; [congruence|]. apply Hag1; eauto. }
  intros _ h' (w & h2 & Hw2 & Hs & Hrep).
  assert (Hag2 : forall x, is_Some (h !! x) -> h' !! x = h1 !! x).
  { intros x [d Hx]. assert (Hxl : x <> l') by congruence.
    assert (is_Some (h1 !! x)) as [d1 Hd1].
    { destruct (h1 !! x) eqn:E; [eauto|]. apply Hnew in E. congruence. }
    rewrite Hd1. eapply lookup_weaken; [|done]. by rewrite (lookup_write_ne _ _ _ _ _ Hw2). }
  destruct (Hinst h' Hag2) as (h3 & Hh3 & Hsub). exists (GPtr (mkPlace l' [])), h3. split_and!; [done..|].
  eapply rep_ptr; [done|eapply (read_sub h2); [done|by eapply read_write]|].
  eapply rep_sub; [done| |done]. eauto.
Qed.

Lemma rep_ptr_inv P h t v tr : v <> GNil -> rep P h (TPtr t) v tr -> exists p, v = GPtr p.
Proof. intros Hnil Hr. inversion Hr; subst; [done|eauto]. Qed.

Lemma ptr_deep_deep t c : deep_copies t c -> deep_copies (TPtr t) (ptr_deep t c).
Proof.
  intros Hc. apply unless_nil_deep. intros h inp out v old tr Hnil Hin Hout Hne Hr.
  destruct (rep_ptr_inv _ _ _ _ _ Hnil Hr) as [p ->]. heap_step. rename l into l'.
  destruct (install h l' (CVar (zero t)) out old (GPtr (mkPlace l' [])) H0 Hout)
    as (h1 & Hh1 & Hol & Hl1 & Hag1 & Hnew & Hinst).
  heap_step; [done|]. heap_step; [by eapply read_keep|]. heap_step.
  heap_step; [by eapply read_write|]. heap_step.
  eapply ptr_block_deep; [done..|]. intros. by eapply Hc.
Qed.

Lemma ptr_flat_deep t : flat t = true -> deep_copies (TPtr t) (ptr_flat t).
Proof.
  intros Hf. apply unless_nil_deep. intros h inp out v old tr Hnil Hin Hout Hne Hr.
  destruct (rep_ptr_inv _ _ _ _ _ Hnil Hr) as [p ->]. heap_step. rename l into l'.
  destruct (install h l' (CVar (zero t)) out old (GPtr (mkPlace l' [])) H0 Hout)
    as (h1 & Hh1 & Hol & Hl1 & Hag1 & Hnew & Hinst).
  heap_step; [done|]. heap_step; [by eapply read_keep|]. heap_step.
  eapply ptr_block_deep; [done..|]. intros x tr0 Hx Hz Hp Hxz Hrx.
  heap_step; [done|]. heap_step; [by eapply read_write|]. heap_step.
  destruct (assign_deep t Hf h1 p (mkPlace l' []) x (zero t) tr0) as (? & h' & E & Hcp); [done..|].
  exists tt, h'. split; [|done]. unfold assign in E.
  unfold mbind, M_bind, load in E. by rewrite Hx in E; destruct x0.
Qed.

Lemma by_DeepCopy_deep t copy : deep_value t copy -> deep_copies t (by_DeepCopy copy).
Proof.
  intros Hc h inp out v old tr Hin Hout Hne Hnil Hr. unfold by_DeepCopy. heap_step; [done|].
  eapply reaches_then; [by eapply Hc|]. intros w h1 [Hs Hw].
  destruct (write_is_Some h out old w Hout) as (h2 & Hh2).
  destruct (write_sub _ _ _ _ _ Hs Hh2) as (h3 & Hh3 & Hs3).
  eapply reaches_store_last; [done|]. exists w, h2. split_and!; [done..|].
  eapply rep_frame; [done|]. intros x Hx _. split; [done|]. eapply lookup_write_ne; [done|].
  intros ->. apply read_inv in Hout as (? & ? & _). congruence.
Qed.
End BlockFacts.

(** ** Structs *)

Section StructFacts.
Context (fts : list (string * ty)) (h : heap) (inp out : place) (fs : list (string * gv)) (trs : list (string * tree)).
Context (Hin : read h inp = Some (GStruct fs)) (Hne : p_base inp <> p_base out).
Context (Hnames : fs.*1 = fts.*1) (Htnames : trs.*1 = fts.*1).
Context (Hfields : forall f t v tr, field_get f fts = Some t -> field_get f fs = Some v ->
  field_get f trs = Some tr -> rep (fun l => l <> p_base out) h t v tr).

(** After [*out = *in] and the blocks of the fields [done], the target holds [fs']. *)
Definition fields_done (done : list string) (fs' : list (string * gv)) (hk : heap) : Prop :=
  (exists h1, write h out (GStruct fs') = Some h1 /\ h1 ⊆ hk) /\ fs'.*1 = fs.*1 /\
  (forall f, f ∉ done -> field_get f fs' = field_get f fs) /\
  (forall f t v tr, f ∈ done -> field_get f fts = Some t -> field_get f fs' = Some v ->
     field_get f trs = Some tr -> rep (fun l => h !! l = None) hk t v (copied t tr)).

Lemma fields_done_keeps done fs' hk x : fields_done done fs' hk -> is_Some (h !! x) -> x <> p_base out -> hk !! x = h !! x.
Proof.
  intros ((h1 & Hw & Hs) & _) [d Hd] Hx. rewrite Hd. eapply lookup_weaken; [|done].
  by rewrite (lookup_write_ne _ _ _ _ _ Hw).
Qed.

Lemma fields_done_base done fs' hk : fields_done done fs' hk -> is_Some (h !! p_base out).
Proof. intros ((h1 & (v & _ & Ev & _)%write_inv & _) & _). eauto. Qed.

Lemma fields_done_fresh done fs' hk x : fields_done done fs' hk -> hk !! x = None -> h !! x = None.
Proof.
  intros ((h1 & Hw & Hs) & _) Hx. apply (lookup_write_None _ _ _ _ _ Hw).
  by eapply lookup_weaken_None.
Qed.

(** One more block. *)
Lemma fields_done_step done fs' hk f t tr h' :
  fields_done done fs' hk -> f ∉ done -> field_get f fts = Some t -> field_get f trs = Some tr ->
  holds_copy hk out@f t tr h' -> exists fs'', fields_done (f :: done) fs'' h'.
Proof.
  intros Hd Hf Ht Htr (w & h2 & Hw2 & Hs2 & Hr). pose proof Hd as ((h1 & Hw & Hs) & Hn & Hold & Hnew).
  destruct (field_get_names _ _ _ _ (eq_sym (eq_trans Hn Hnames)) Ht) as [x Hx].
  pose proof (write_dot _ _ _ _ _ w _ Hw Hx) as Hdot.
  destruct (write h1 out@f w) as [h1'|] eqn:E1; last first.
  { destruct (write_is_Some _ _ _ w (eq_trans (read_dot _ _ _ f (read_write _ _ _ _ Hw)) Hx)) as [? ?].
    congruence. }
  destruct (write_sub _ _ _ _ _ Hs E1) as (h2' & Hh2' & Hsub). assert (h2' = h2) as -> by congruence.
  exists (field_set f w fs'). split_and!.
  - exists h1'. split; [done|]. by etrans.
  - by rewrite field_set_names.
  - intros g [Hg1 Hg2]%not_elem_of_cons. rewrite field_get_set_ne by done. auto.
  - intros g t' v tr' [->|Hg]%elem_of_cons Ht' Hv Htr'.
    + rewrite (field_get_set _ _ _ _ Hx) in Hv. simplify_eq.
      eapply rep_sub; [done| |done]. intros l Hl _. by eapply fields_done_fresh.
    + assert (g <> f) by (intros ->; done). rewrite field_get_set_ne in Hv by done.
      eapply rep_frame; [by eapply Hnew|]. intros l Hl [d Hdl]. split; [done|]. rewrite Hdl.
      eapply lookup_weaken; [|done]. rewrite (lookup_write_ne _ _ _ _ _ Hw2); [done|]. simpl.
      intros ->. destruct (fields_done_base _ _ _ Hd). congruence.
Qed.

Lemma blocks_loop blocks done fs' hk :
  NoDup (blocks.*1 ++ done) ->
  Forall (fun fc => exists t, field_get fc.1 fts = Some t /\ deep_copies t fc.2) blocks ->
  fields_done done fs' hk ->
  reaches (for_each (fun fc => field_block fc inp out) blocks) hk
    (fun _ h' => exists fs'' done', fields_done done' fs'' h' /\ forall f, f ∈ done' <-> f ∈ done \/ f ∈ blocks.*1).
Proof.
  intros Hnd Hb. revert done fs' hk Hnd.
  induction Hb as [|[f c] blocks (t & Ht & Hc) Hb IH]; intros done fs' hk Hnd Hd; simpl in *.
  { apply reaches_ret. exists fs', done. set_solver. }
  csimpl in *. apply list.NoDup_cons in Hnd as [Hf Hnd]. rewrite not_elem_of_app in Hf. destruct Hf as [Hfb Hfd].
  destruct (field_get_names _ _ _ _ (eq_sym Hnames) Ht) as [v Hv].
  destruct (field_get_names _ _ _ _ (eq_sym Htnames) Ht) as [tr Htr].
  pose proof Hd as ((h1 & Hw & Hs) & Hn & Hold & Hnew).
  eapply reaches_then.
  { unfold field_block. simpl. eapply (Hc hk _ _ v v tr); simpl; [| |done|done|].
    - rewrite <- Hv, <- (read_dot _ _ _ f Hin). apply read_agree. simpl.
      eapply fields_done_keeps; [done| |done]. apply read_inv in Hin as (? & -> & _). eauto.
    - eapply read_sub; [done|]. rewrite (read_dot _ _ _ f (read_write _ _ _ _ Hw)), Hold by done. done.
    - eapply rep_frame; [by eapply Hfields|]. intros x Hx Hsx. split; [done|]. by eapply fields_done_keeps. }
  intros a h' Hcp. cbv beta in Hcp. destruct (fields_done_step _ _ _ _ _ _ _ Hd Hfd Ht Htr Hcp) as [fs2 Hd2].
  eapply reaches_mono; [apply (IH (f :: done) fs2 h')|].
  - rewrite <- Permutation_middle. constructor; [|done]. by rewrite not_elem_of_app.
  - done.
  - intros _ h2 (fs3 & done' & Hd3 & Hdone). exists fs3, done'. split; [done|].
    intros f'. rewrite Hdone, !elem_of_cons. clear. naive_solver.
Qed.
End StructFacts.

(** A generated [DeepCopyInto] is deep when the fields that have no block are flat and the
    blocks of the others are deep. *)
Lemma struct_copy_deep fts blocks :
  forallb (fun ft => existsb (String.eqb ft.1) blocks.*1 || flat ft.2) fts = true ->
  NoDup blocks.*1 ->
  Forall (fun fc => exists t, field_get fc.1 fts = Some t /\ deep_copies t fc.2) blocks ->
  deep_copies (TStruct fts) (struct_copy blocks).
Proof.
  intros Hflat Hnd Hb h inp out v old tr Hin Hout Hne _ Hr. inversion Hr; subst; [|done].
  unfold struct_copy, assign.
  destruct (write_is_Some _ _ _ (GStruct fs) Hout) as [h1 Hh1].
  eapply reaches_then.
  { eapply reaches_load; [done|]. eapply reaches_store_last; [done|].
    instantiate (1 := fun _ h' => h' = h1). done. }
  intros _ ? ->. eapply reaches_mono.
  { eapply (blocks_loop fts h inp out fs trs) with (done := []); try done; [by rewrite app_nil_r|].
    split_and!; [by eauto|done|done|]. set_solver. }
  intros _ h' (fs' & done & ((h2 & Hw & Hs) & Hn & Hold & Hnew) & Hdone).
  exists (GStruct fs'), h2. split_and!; [done..|]. rewrite copied_struct.
  constructor; [done|congruence|by rewrite copied_fields_names|].
  intros f t v tr Ht Hv Htr. destruct (copied_fields_get fts trs f t tr) as (tr0 & Htr0 & ->); [done..|].
  destruct (decide (f ∈ done)) as [Hf|Hf]; [by eapply Hnew|].
  rewrite Hold in Hv by done.
  assert (Hft : flat t = true).
  { clear -Hflat Ht Hf Hdone. induction fts as [|[g t'] fts IH]; [done|]. simpl in *.
    apply andb_prop in Hflat as [H1 H2]. destruct (String.eqb_spec f g) as [->|]; [|auto].
    simplify_eq. apply orb_prop in H1 as [H1|H1]; [|done]. exfalso. apply Hf, Hdone. right.
    apply existsb_exists in H1 as (x & Hx%list_elem_of_In & ->%String.eqb_eq). done. }
  rewrite copied_flat by done. eapply rep_flat; [|done]. eauto.
Qed.

(** ** Slice types with a name *)
Section ValueFacts.
Context `{MapRange}.

Lemma DeepCopy_value_deep t body :
  zero t = GNil ->
  (forall h inp out v old tr, v <> GNil ->
    read h inp = Some v -> read h out = Some old -> p_base inp <> p_base out ->
    rep (fun l => l <> p_base out) h t v tr ->
    reaches (body inp out) h (fun _ => holds_copy h out t tr)) ->
  deep_value t (DeepCopy_value t (DeepCopyInto_value body)).
Proof.
  intros Hz Hb h v tr P Hr. unfold DeepCopy_value. destruct (is_nil v) eqn:E.
  { destruct v; try done. apply reaches_ret. split; [done|].
    assert (tr = LNil) as ->.
    { clear -Hr. remember GNil as v eqn:Ev. induction Hr; try done; auto. }
    assert (copied t LNil = LNil) as -> by (by destruct t). constructor. by destruct t. }
  heap_step. rename H0 into Hl. apply reaches_bind. unfold DeepCopyInto_value. apply reaches_alloc. intros l1 Hl1.
  set (h0 := <[l := CVar (zero t)]> h) in *. set (h1 := <[l1 := CVar v]> h0).
  assert (l <> l1) by (intros ->; unfold h0 in Hl1; by rewrite lookup_insert_eq in Hl1).
  assert (Hs1 : h ⊆ h1) by (etrans; [by apply (insert_subseteq _ l (CVar (zero t)))|by apply insert_subseteq]).
  eapply reaches_mono.
  { eapply (Hb h1 (mkPlace l1 []) (mkPlace l []) v (zero t)); simpl.
    - by intros ->.
    - unfold read. simpl. unfold h1. by rewrite lookup_insert_eq.
    - unfold read. simpl. unfold h1. rewrite lookup_insert_ne by done. unfold h0. by rewrite lookup_insert_eq.
    - done.
    - eapply rep_sub; [done| |done]. intros x _ [d Hd] ->. congruence. }
  intros _ h' (w & h2 & Hw & Hs & Hrep). apply read_write in Hw as Hrw.
  eapply reaches_load_last; [by eapply (read_sub h2)|]. split.
  - apply map_subseteq_spec. intros x d Hd. eapply lookup_weaken; [|done].
    rewrite (lookup_write_ne _ _ _ _ _ Hw) by (simpl; congruence). by eapply lookup_weaken.
  - eapply rep_sub; [done| |done]. intros x Hx _. exact (lookup_weaken_None _ _ _ Hx Hs1).
Qed.

(** *** adminrules.Restriction *)

Lemma Restriction_deep : deep_value TRestriction adminrules_Restriction_DeepCopy.
Proof.
  intros h v tr P Hr. unfold adminrules_Restriction_DeepCopy, DeepCopy_value. inversion Hr; subst.
  { apply reaches_ret. split; [done|]. by constructor. }
  match goal with Hx : rep _ _ (TMap _) _ _ |- _ => inversion Hx; subst end.
  { apply reaches_ret. split; [done|]. by constructor. }
  rename l into ls, H0 into Hm, H2 into Hp, H3 into Hls, H4 into Hdom. simpl.
  heap_step. rename l into lo, H0 into Hlo.
  assert (Hout : read (<[lo := CVar GNil]> h) (mkPlace lo []) = Some GNil).
  { unfold read. simpl. by rewrite lookup_insert_eq. }
  apply reaches_bind. unfold adminrules_Restriction_DeepCopyInto. heap_step. rename l into l', H0 into Hl'.
  destruct (install _ l' (CMap ∅) _ _ (GMap l') Hl' Hout) as (h1 & Hh1 & Hol & Hl1 & Hag1 & Hnew & Hinst).
  simpl in Hol, Hag1.
  assert (Hag : forall x, is_Some (h !! x) -> h1 !! x = h !! x).
  { intros x [d Hd]. assert (x <> lo) by congruence.
    rewrite Hag1; [by rewrite lookup_insert_ne| |done]. rewrite lookup_insert_ne by done. eauto. }
  heap_step; [done|]. eapply reaches_entries; [rewrite Hag; eauto|].
  pose proof (read_write _ _ _ _ Hh1) as Hout1.
  eapply reaches_mono.
  { apply (collect_loop (TSlice TString) (fun _ => LSlice []) h1 (fun x => x = l') (fun _ => True) l' m mt) with (md := ∅);
      [done|by intros x ->| | |].
    - intros hk k v tr md _ [Hst Hgrow] Hlk Hv Htr. cbn [fst snd]. heap_step. rename l into la, H0 into Hla.
      assert (Hcopy : (if is_nil v then mret tt else copy_slice (GSlice la 0 0) v : M heap unit) =
                      (mret tt : M heap unit)) by (by destruct v).
      rewrite Hcopy. apply reaches_bind, reaches_ret. eapply reaches_load.
      { rewrite (read_agree hk) by (simpl; apply lookup_insert_ne; intros ->; destruct (Hgrow lo) as [? ?];
          [apply read_inv in Hout1 as (? & ? & _); eauto|congruence]).
        rewrite (read_agree h1); [done|]. apply Hst; [|done]. apply read_inv in Hout1 as (? & -> & _). eauto. }
      assert (la <> l') by congruence.
      eexists _, _. unfold map_set. rewrite lookup_insert_ne, Hlk by done. split; [done|]. split_and!; [done|split|].
      + intros x Hx HxX. rewrite !lookup_insert_ne; [done|intros ->; destruct Hx; congruence|congruence].
      + intros x Hx. rewrite !lookup_insert_is_Some'. auto.
      + exists (GSlice la 0 0). rewrite lookup_insert_eq. split; [done|]. econstructor.
        * done.
        * rewrite lookup_insert_ne by done. apply lookup_insert_eq.
        * done.
        * done.
        * intros i w tr' _ Hi. by rewrite lookup_nil in Hi.
    - intros k v. by apply range_in.
    - split_and!; [done|by split|done|]. intros k w tr Hw. by rewrite lookup_empty in Hw. }
  intros _ h' (md & Hco & Hd). pose proof Hco as (_ & [Hst Hgrow] & _).
  eapply reaches_load_last.
  { rewrite (read_agree h1); [done|]. apply Hst; [|done]. apply read_inv in Hout1 as (? & -> & _). eauto. }
  assert (Hnone : h !! l' = None) by (apply lookup_insert_None in Hl'; by destruct Hl').
  split.
  - apply map_subseteq_spec. intros x d Hx. rewrite Hst, Hag; [done|eauto| |congruence]. rewrite Hag; eauto.
  - apply rep_restriction. simpl. eapply (collected_rep (TSlice TString) (fun _ => LSlice [])); [done|done| |done|done].
    intros x Hx. apply Hnew, lookup_insert_None in Hx. by destruct Hx.
Qed.
End ValueFacts.
