(* ===== verification/DeepCopyTypes.v ===== *)
(** * Deep copies of the API types

    The types of [manager/apis/app/v1alpha1], [pkg/model] and the Katalog connector as they
    are laid out in memory, and the [DeepCopyInto], [DeepCopy] and [DeepCopyObject] of each,
    with the blocks of DeepCopy.v.  A type comes after the types of its fields. *)
From stdpp Require Import base gmap strings list numbers.
From S2P Require Import Prelude GoHeap DeepCopy.

Section Generated.
Context `{MapRange, DeepCopyLib}.

(** ** pkg/model/taxonomy *)

Definition T_Action : ty := TStruct [
  "Name" ~> TString;
  "AdditionalProperties" ~> T_Properties].
Definition Action_DeepCopyInto : copier := struct_copy [
  "AdditionalProperties" ~> Properties_DeepCopyInto].
Definition Action_DeepCopy : gv -> M heap gv := DeepCopy_of T_Action Action_DeepCopyInto.

Definition T_AppInfo : ty := TStruct ["Properties" ~> T_Properties].
Definition AppInfo_DeepCopyInto : copier := struct_copy [
  "Properties" ~> Properties_DeepCopyInto].
Definition AppInfo_DeepCopy : gv -> M heap gv := DeepCopy_of T_AppInfo AppInfo_DeepCopyInto.

Definition T_Connection : ty := TStruct [
  "Name" ~> TString;
  "AdditionalProperties" ~> T_Properties].
Definition Connection_DeepCopyInto : copier := struct_copy [
  "AdditionalProperties" ~> Properties_DeepCopyInto].
Definition Connection_DeepCopy : gv -> M heap gv :=
  DeepCopy_of T_Connection Connection_DeepCopyInto.

Definition T_Interface : ty := TStruct [
  "Protocol" ~> TString;
  "DataFormat" ~> TString].
Definition Interface_DeepCopyInto : copier := struct_copy [].
Definition Interface_DeepCopy : gv -> M heap gv := DeepCopy_of T_Interface Interface_DeepCopyInto.

Definition T_PolicyManagerRequestContext : ty := TStruct ["Properties" ~> T_Properties].
Definition PolicyManagerRequestContext_DeepCopyInto : copier := struct_copy [
  "Properties" ~> Properties_DeepCopyInto].
Definition PolicyManagerRequestContext_DeepCopy : gv -> M heap gv :=
  DeepCopy_of T_PolicyManagerRequestContext PolicyManagerRequestContext_DeepCopyInto.

Definition T_Tags : ty := TStruct ["Properties" ~> T_Properties].
Definition Tags_DeepCopyInto : copier := struct_copy [
  "Properties" ~> Properties_DeepCopyInto].
Definition Tags_DeepCopy : gv -> M heap gv := DeepCopy_of T_Tags Tags_DeepCopyInto.

(** ** pkg/model/datacatalog *)

Definition T_GetAssetRequest : ty := TStruct [
  "AssetID" ~> TString;
  "OperationType" ~> TString].
Definition GetAssetRequest_DeepCopyInto : copier := struct_copy [].
Definition GetAssetRequest_DeepCopy : gv -> M heap gv :=
  DeepCopy_of T_GetAssetRequest GetAssetRequest_DeepCopyInto.

Definition T_ResourceColumn : ty := TStruct [
  "Name" ~> TString;
  "Tags" ~> TPtr T_Tags].
Definition ResourceColumn_DeepCopyInto : copier := struct_copy [
  "Tags" ~> ptr_deep T_Tags Tags_DeepCopyInto].
Definition ResourceColumn_DeepCopy : gv -> M heap gv :=
  DeepCopy_of T_ResourceColumn ResourceColumn_DeepCopyInto.

Definition T_ResourceMetadata : ty := TStruct [
  "Name" ~> TString;
  "Owner" ~> TString;
  "Geography" ~> TString;
  "Tags" ~> TPtr T_Tags;
  "Columns" ~> TSlice T_ResourceColumn].
Definition ResourceMetadata_DeepCopyInto : copier := struct_copy [
  "Tags" ~> ptr_deep T_Tags Tags_DeepCopyInto;
  "Columns" ~> slice_deep T_ResourceColumn ResourceColumn_DeepCopyInto].
Definition ResourceMetadata_DeepCopy : gv -> M heap gv :=
  DeepCopy_of T_ResourceMetadata ResourceMetadata_DeepCopyInto.

Definition T_ResourceDetails : ty := TStruct [
  "Connection" ~> T_Connection;
  "DataFormat" ~> TString].
Definition ResourceDetails_DeepCopyInto : copier := struct_copy [
  "Connection" ~> Connection_DeepCopyInto].
Definition ResourceDetails_DeepCopy : gv -> M heap gv :=
  DeepCopy_of T_ResourceDetails ResourceDetails_DeepCopyInto.

Definition T_GetAssetResponse : ty := TStruct [
  "ResourceMetadata" ~> T_ResourceMetadata;
  "Details" ~> T_ResourceDetails;
  "Credentials" ~> TString].
Definition GetAssetResponse_DeepCopyInto : copier := struct_copy [
  "ResourceMetadata" ~> ResourceMetadata_DeepCopyInto;
  "Details" ~> ResourceDetails_DeepCopyInto].
Definition GetAssetResponse_DeepCopy : gv -> M heap gv :=
  DeepCopy_of T_GetAssetResponse GetAssetResponse_DeepCopyInto.

(** ** pkg/model/policymanager *)

Definition T_RequestAction : ty := TStruct [
  "ActionType" ~> TString;
  "ProcessingLocation" ~> TString;
  "Destination" ~> TString].
Definition RequestAction_DeepCopyInto : copier := struct_copy [].
Definition RequestAction_DeepCopy : gv -> M heap gv :=
  DeepCopy_of T_RequestAction RequestAction_DeepCopyInto.

Definition T_Resource : ty := TStruct [
  "ID" ~> TString;
  "Metadata" ~> TPtr T_ResourceMetadata].
Definition Resource_DeepCopyInto : copier := struct_copy [
  "Metadata" ~> ptr_deep T_ResourceMetadata ResourceMetadata_DeepCopyInto].
Definition Resource_DeepCopy : gv -> M heap gv := DeepCopy_of T_Resource Resource_DeepCopyInto.

Definition T_GetPolicyDecisionsRequest : ty := TStruct [
  "Context" ~> T_PolicyManagerRequestContext;
  "Action" ~> T_RequestAction;
  "Resource" ~> T_Resource].
Definition GetPolicyDecisionsRequest_DeepCopyInto : copier := struct_copy [
  "Context" ~> PolicyManagerRequestContext_DeepCopyInto;
  "Action" ~> assign;
  "Resource" ~> Resource_DeepCopyInto].
Definition GetPolicyDecisionsRequest_DeepCopy : gv -> M heap gv :=
  DeepCopy_of T_GetPolicyDecisionsRequest GetPolicyDecisionsRequest_DeepCopyInto.

Definition T_ResultItem : ty := TStruct [
  "Policy" ~> TString;
  "Action" ~> T_Action].
Definition ResultItem_DeepCopyInto : copier := struct_copy [
  "Action" ~> Action_DeepCopyInto].
Definition ResultItem_DeepCopy : gv -> M heap gv :=
  DeepCopy_of T_ResultItem ResultItem_DeepCopyInto.

Definition T_GetPolicyDecisionsResponse : ty := TStruct [
  "DecisionID" ~> TString;
  "Result" ~> TSlice T_ResultItem].
Definition GetPolicyDecisionsResponse_DeepCopyInto : copier := struct_copy [
  "Result" ~> slice_deep T_ResultItem ResultItem_DeepCopyInto].
Definition GetPolicyDecisionsResponse_DeepCopy : gv -> M heap gv :=
  DeepCopy_of T_GetPolicyDecisionsResponse GetPolicyDecisionsResponse_DeepCopyInto.

(** ** pkg/model/adminrules *)

Definition T_Restrictions : ty := TStruct [
  "Clusters" ~> TRestriction;
  "Modules" ~> TRestriction;
  "StorageAccounts" ~> TRestriction].
Definition Restrictions_DeepCopyInto : copier := struct_copy [
  "Clusters" ~> by_DeepCopy adminrules_Restriction_DeepCopy;
  "Modules" ~> by_DeepCopy adminrules_Restriction_DeepCopy;
  "StorageAccounts" ~> by_DeepCopy adminrules_Restriction_DeepCopy].
Definition Restrictions_DeepCopy : gv -> M heap gv :=
  DeepCopy_of T_Restrictions Restrictions_DeepCopyInto.

Definition T_DecisionPolicy : ty := TStruct [
  "ID" ~> TString;
  "PolicySetID" ~> TString;
  "Description" ~> TString;
  "Version" ~> TString].
Definition DecisionPolicy_DeepCopyInto : copier := struct_copy [].
Definition DecisionPolicy_DeepCopy : gv -> M heap gv :=
  DeepCopy_of T_DecisionPolicy DecisionPolicy_DeepCopyInto.

Definition T_Decision : ty := TStruct [
  "Deploy" ~> TString;
  "DeploymentRestrictions" ~> T_Restrictions;
  "Policy" ~> T_DecisionPolicy].
Definition Decision_DeepCopyInto : copier := struct_copy [
  "DeploymentRestrictions" ~> Restrictions_DeepCopyInto;
  "Policy" ~> assign].
Definition Decision_DeepCopy : gv -> M heap gv := DeepCopy_of T_Decision Decision_DeepCopyInto.

Definition T_DecisionPerCapability : ty := TStruct [
  "Capability" ~> TString;
  "Decision" ~> T_Decision].
Definition DecisionPerCapability_DeepCopyInto : copier := struct_copy [
  "Decision" ~> Decision_DeepCopyInto].
Definition DecisionPerCapability_DeepCopy : gv -> M heap gv :=
  DeepCopy_of T_DecisionPerCapability DecisionPerCapability_DeepCopyInto.

Definition T_RuleDecisionList : ty := TSlice T_DecisionPerCapability.
Definition RuleDecisionList_DeepCopyInto : gv -> place -> M heap unit := DeepCopyInto_value
  (make_and_copy_each T_DecisionPerCapability DecisionPerCapability_DeepCopyInto).
Definition RuleDecisionList_DeepCopy : gv -> M heap gv :=
  DeepCopy_value T_RuleDecisionList RuleDecisionList_DeepCopyInto.

Definition T_EvaluationOutputStructure : ty := TStruct ["Config" ~> T_RuleDecisionList].
Definition EvaluationOutputStructure_DeepCopyInto : copier := struct_copy [
  "Config" ~> slice_deep T_DecisionPerCapability DecisionPerCapability_DeepCopyInto].
Definition EvaluationOutputStructure_DeepCopy : gv -> M heap gv :=
  DeepCopy_of T_EvaluationOutputStructure EvaluationOutputStructure_DeepCopyInto.

Definition T_StringList : ty := TSlice TString.
Definition StringList_DeepCopyInto : gv -> place -> M heap unit := DeepCopyInto_value
  (make_and_copy TString).
Definition StringList_DeepCopy : gv -> M heap gv :=
  DeepCopy_value T_StringList StringList_DeepCopyInto.

(** ** manager/apis/app/v1alpha1 *)

Definition T_Vault : ty := TStruct [
  "Role" ~> TString;
  "SecretPath" ~> TString;
  "Address" ~> TString;
  "AuthPath" ~> TString].
Definition Vault_DeepCopyInto : copier := struct_copy [].
Definition Vault_DeepCopy : gv -> M heap gv := DeepCopy_of T_Vault Vault_DeepCopyInto.

Definition T_DataStore : ty := TStruct [
  "Vault" ~> TMap T_Vault;
  "Connection" ~> T_Connection;
  "Format" ~> TString].
Definition DataStore_DeepCopyInto : copier := struct_copy [
  "Vault" ~> map_flat;
  "Connection" ~> Connection_DeepCopyInto].
Definition DataStore_DeepCopy : gv -> M heap gv := DeepCopy_of T_DataStore DataStore_DeepCopyInto.

Definition T_AssetDetails : ty := TStruct [
  "AdvertisedAssetID" ~> TString;
  "DataStore" ~> T_DataStore].
Definition AssetDetails_DeepCopyInto : copier := struct_copy [
  "DataStore" ~> DataStore_DeepCopyInto].
Definition AssetDetails_DeepCopy : gv -> M heap gv :=
  DeepCopy_of T_AssetDetails AssetDetails_DeepCopyInto.

Definition T_Condition : ty := TStruct [
  "Type" ~> TString;
  "Status" ~> TString;
  "Message" ~> TString;
  "ObservedGeneration" ~> TInt].
Definition Condition_DeepCopyInto : copier := struct_copy [].
Definition Condition_DeepCopy : gv -> M heap gv := DeepCopy_of T_Condition Condition_DeepCopyInto.

Definition T_AssetState : ty := TStruct [
  "Conditions" ~> TSlice T_Condition;
  "CatalogedAsset" ~> TString;
  "Endpoint" ~> T_Connection].
Definition AssetState_DeepCopyInto : copier := struct_copy [
  "Conditions" ~> slice_flat T_Condition;
  "Endpoint" ~> Connection_DeepCopyInto].
Definition AssetState_DeepCopy : gv -> M heap gv :=
  DeepCopy_of T_AssetState AssetState_DeepCopyInto.

Definition T_ChartSpec : ty := TStruct [
  "Name" ~> TString;
  "ChartPullSecret" ~> TString;
  "Values" ~> TMap TString].
Definition ChartSpec_DeepCopyInto : copier := struct_copy [
  "Values" ~> map_flat].
Definition ChartSpec_DeepCopy : gv -> M heap gv := DeepCopy_of T_ChartSpec ChartSpec_DeepCopyInto.

Definition T_CopyModuleArgs : ty := TStruct [
  "Source" ~> T_DataStore;
  "Destination" ~> T_DataStore;
  "AssetID" ~> TString;
  "Transformations" ~> TSlice T_Action].
Definition CopyModuleArgs_DeepCopyInto : copier := struct_copy [
  "Source" ~> DataStore_DeepCopyInto;
  "Destination" ~> DataStore_DeepCopyInto;
  "Transformations" ~> slice_deep T_Action Action_DeepCopyInto].
Definition CopyModuleArgs_DeepCopy : gv -> M heap gv :=
  DeepCopy_of T_CopyModuleArgs CopyModuleArgs_DeepCopyInto.

Definition T_ReadModuleArgs : ty := TStruct [
  "Source" ~> T_DataStore;
  "AssetID" ~> TString;
  "Transformations" ~> TSlice T_Action].
Definition ReadModuleArgs_DeepCopyInto : copier := struct_copy [
  "Source" ~> DataStore_DeepCopyInto;
  "Transformations" ~> slice_deep T_Action Action_DeepCopyInto].
Definition ReadModuleArgs_DeepCopy : gv -> M heap gv :=
  DeepCopy_of T_ReadModuleArgs ReadModuleArgs_DeepCopyInto.

Definition T_WriteModuleArgs : ty := TStruct [
  "Destination" ~> T_DataStore;
  "AssetID" ~> TString;
  "Transformations" ~> TSlice T_Action].
Definition WriteModuleArgs_DeepCopyInto : copier := struct_copy [
  "Destination" ~> DataStore_DeepCopyInto;
  "Transformations" ~> slice_deep T_Action Action_DeepCopyInto].
Definition WriteModuleArgs_DeepCopy : gv -> M heap gv :=
  DeepCopy_of T_WriteModuleArgs WriteModuleArgs_DeepCopyInto.

Definition T_ModuleArguments : ty := TStruct [
  "Labels" ~> TMap TString;
  "AppSelector" ~> T_LabelSelector;
  "Copy" ~> TPtr T_CopyModuleArgs;
  "Read" ~> TSlice T_ReadModuleArgs;
  "Write" ~> TSlice T_WriteModuleArgs].
Definition ModuleArguments_DeepCopyInto : copier := struct_copy [
  "Labels" ~> map_flat;
  "AppSelector" ~> LabelSelector_DeepCopyInto;
  "Copy" ~> ptr_deep T_CopyModuleArgs CopyModuleArgs_DeepCopyInto;
  "Read" ~> slice_deep T_ReadModuleArgs ReadModuleArgs_DeepCopyInto;
  "Write" ~> slice_deep T_WriteModuleArgs WriteModuleArgs_DeepCopyInto].
Definition ModuleArguments_DeepCopy : gv -> M heap gv :=
  DeepCopy_of T_ModuleArguments ModuleArguments_DeepCopyInto.

Definition T_BlueprintModule : ty := TStruct [
  "Name" ~> TString;
  "Chart" ~> T_ChartSpec;
  "Arguments" ~> T_ModuleArguments;
  "AssetIDs" ~> TSlice TString].
Definition BlueprintModule_DeepCopyInto : copier := struct_copy [
  "Chart" ~> ChartSpec_DeepCopyInto;
  "Arguments" ~> ModuleArguments_DeepCopyInto;
  "AssetIDs" ~> slice_flat TString].
Definition BlueprintModule_DeepCopy : gv -> M heap gv :=
  DeepCopy_of T_BlueprintModule BlueprintModule_DeepCopyInto.

Definition T_BlueprintSpec : ty := TStruct [
  "Cluster" ~> TString;
  "ModulesNamespace" ~> TString;
  "Modules" ~> TMap T_BlueprintModule].
Definition BlueprintSpec_DeepCopyInto : copier := struct_copy [
  "Modules" ~> map_deep T_BlueprintModule BlueprintModule_DeepCopyInto].
Definition BlueprintSpec_DeepCopy : gv -> M heap gv :=
  DeepCopy_of T_BlueprintSpec BlueprintSpec_DeepCopyInto.

Definition T_ObservedState : ty := TStruct [
  "Ready" ~> TBool;
  "Error" ~> TString].
Definition ObservedState_DeepCopyInto : copier := struct_copy [].
Definition ObservedState_DeepCopy : gv -> M heap gv :=
  DeepCopy_of T_ObservedState ObservedState_DeepCopyInto.

Definition T_BlueprintStatus : ty := TStruct [
  "ObservedState" ~> T_ObservedState;
  "ObservedGeneration" ~> TInt;
  "ModulesState" ~> TMap T_ObservedState;
  "Releases" ~> TMap TInt].
Definition BlueprintStatus_DeepCopyInto : copier := struct_copy [
  "ObservedState" ~> assign;
  "ModulesState" ~> map_flat;
  "Releases" ~> map_flat].
Definition BlueprintStatus_DeepCopy : gv -> M heap gv :=
  DeepCopy_of T_BlueprintStatus BlueprintStatus_DeepCopyInto.

Definition T_Blueprint : ty := TStruct [
  "TypeMeta" ~> T_TypeMeta;
  "ObjectMeta" ~> T_ObjectMeta;
  "Spec" ~> T_BlueprintSpec;
  "Status" ~> T_BlueprintStatus].
Definition Blueprint_DeepCopyInto : copier := struct_copy [
  "TypeMeta" ~> assign;
  "ObjectMeta" ~> ObjectMeta_DeepCopyInto;
  "Spec" ~> BlueprintSpec_DeepCopyInto;
  "Status" ~> BlueprintStatus_DeepCopyInto].
Definition Blueprint_DeepCopy : gv -> M heap gv := DeepCopy_of T_Blueprint Blueprint_DeepCopyInto.
Definition Blueprint_DeepCopyObject : gv -> M heap gv := DeepCopyObject_of Blueprint_DeepCopy.

Definition T_BlueprintList : ty := TStruct [
  "TypeMeta" ~> T_TypeMeta;
  "ListMeta" ~> T_ListMeta;
  "Items" ~> TSlice T_Blueprint].
Definition BlueprintList_DeepCopyInto : copier := struct_copy [
  "TypeMeta" ~> assign;
  "ListMeta" ~> ListMeta_DeepCopyInto;
  "Items" ~> slice_deep T_Blueprint Blueprint_DeepCopyInto].
Definition BlueprintList_DeepCopy : gv -> M heap gv :=
  DeepCopy_of T_BlueprintList BlueprintList_DeepCopyInto.
Definition BlueprintList_DeepCopyObject : gv -> M heap gv :=
  DeepCopyObject_of BlueprintList_DeepCopy.

Definition T_CatalogRequirements : ty := TStruct [
  "CatalogService" ~> TString;
  "CatalogID" ~> TString].
Definition CatalogRequirements_DeepCopyInto : copier := struct_copy [].
Definition CatalogRequirements_DeepCopy : gv -> M heap gv :=
  DeepCopy_of T_CatalogRequirements CatalogRequirements_DeepCopyInto.

Definition T_CopyRequirements : ty := TStruct [
  "Required" ~> TBool;
  "Catalog" ~> T_CatalogRequirements].
Definition CopyRequirements_DeepCopyInto : copier := struct_copy [
  "Catalog" ~> assign].
Definition CopyRequirements_DeepCopy : gv -> M heap gv :=
  DeepCopy_of T_CopyRequirements CopyRequirements_DeepCopyInto.

Definition T_InterfaceDetails : ty := T_Interface.
Definition InterfaceDetails_DeepCopyInto : copier := struct_copy [].
Definition InterfaceDetails_DeepCopy : gv -> M heap gv :=
  DeepCopy_of T_InterfaceDetails InterfaceDetails_DeepCopyInto.

Definition T_DataRequirements : ty := TStruct [
  "Interface" ~> T_InterfaceDetails;
  "Copy" ~> T_CopyRequirements].
Definition DataRequirements_DeepCopyInto : copier := struct_copy [
  "Interface" ~> assign;
  "Copy" ~> assign].
Definition DataRequirements_DeepCopy : gv -> M heap gv :=
  DeepCopy_of T_DataRequirements DataRequirements_DeepCopyInto.

Definition T_DataContext : ty := TStruct [
  "DataSetID" ~> TString;
  "CatalogService" ~> TString;
  "Requirements" ~> T_DataRequirements].
Definition DataContext_DeepCopyInto : copier := struct_copy [
  "Requirements" ~> assign].
Definition DataContext_DeepCopy : gv -> M heap gv :=
  DeepCopy_of T_DataContext DataContext_DeepCopyInto.

Definition T_StepSource : ty := TStruct [
  "AssetID" ~> TString;
  "API" ~> TPtr T_ResourceDetails].
Definition StepSource_DeepCopyInto : copier := struct_copy [
  "API" ~> ptr_deep T_ResourceDetails ResourceDetails_DeepCopyInto].
Definition StepSource_DeepCopy : gv -> M heap gv :=
  DeepCopy_of T_StepSource StepSource_DeepCopyInto.

Definition T_StepSink : ty := TStruct ["AssetID" ~> TString].
Definition StepSink_DeepCopyInto : copier := struct_copy [].
Definition StepSink_DeepCopy : gv -> M heap gv := DeepCopy_of T_StepSink StepSink_DeepCopyInto.

Definition T_StepParameters : ty := TStruct [
  "Source" ~> TPtr T_StepSource;
  "Sink" ~> TPtr T_StepSink;
  "API" ~> TPtr T_ResourceDetails;
  "Actions" ~> TSlice T_Action].
Definition StepParameters_DeepCopyInto : copier := struct_copy [
  "Source" ~> ptr_deep T_StepSource StepSource_DeepCopyInto;
  "Sink" ~> ptr_flat T_StepSink;
  "API" ~> ptr_deep T_ResourceDetails ResourceDetails_DeepCopyInto;
  "Actions" ~> slice_deep T_Action Action_DeepCopyInto].
Definition StepParameters_DeepCopy : gv -> M heap gv :=
  DeepCopy_of T_StepParameters StepParameters_DeepCopyInto.

Definition T_DataFlowStep : ty := TStruct [
  "Name" ~> TString;
  "Cluster" ~> TString;
  "Template" ~> TString;
  "Parameters" ~> TPtr T_StepParameters].
Definition DataFlowStep_DeepCopyInto : copier := struct_copy [
  "Parameters" ~> ptr_deep T_StepParameters StepParameters_DeepCopyInto].
Definition DataFlowStep_DeepCopy : gv -> M heap gv :=
  DeepCopy_of T_DataFlowStep DataFlowStep_DeepCopyInto.

Definition T_DatasetDetails : ty := TStruct [
  "DatasetRef" ~> TString;
  "SecretRef" ~> TString].
Definition DatasetDetails_DeepCopyInto : copier := struct_copy [].
Definition DatasetDetails_DeepCopy : gv -> M heap gv :=
  DeepCopy_of T_DatasetDetails DatasetDetails_DeepCopyInto.

Definition T_Dependency : ty := TStruct [
  "Type" ~> TString;
  "Name" ~> TString].
Definition Dependency_DeepCopyInto : copier := struct_copy [].
Definition Dependency_DeepCopy : gv -> M heap gv :=
  DeepCopy_of T_Dependency Dependency_DeepCopyInto.

Definition T_SubFlow : ty := TStruct [
  "Name" ~> TString;
  "FlowType" ~> TString;
  "Triggers" ~> TSlice TString;
  "Steps" ~> TSlice (TSlice T_DataFlowStep)].
Definition SubFlow_DeepCopyInto : copier := struct_copy [
  "Triggers" ~> slice_flat TString;
  "Steps" ~> slice_deep (TSlice T_DataFlowStep)
    (slice_deep T_DataFlowStep DataFlowStep_DeepCopyInto)].
Definition SubFlow_DeepCopy : gv -> M heap gv := DeepCopy_of T_SubFlow SubFlow_DeepCopyInto.

Definition T_Flow : ty := TStruct [
  "Name" ~> TString;
  "FlowType" ~> TString;
  "AssetID" ~> TString;
  "SubFlows" ~> TSlice T_SubFlow].
Definition Flow_DeepCopyInto : copier := struct_copy [
  "SubFlows" ~> slice_deep T_SubFlow SubFlow_DeepCopyInto].
Definition Flow_DeepCopy : gv -> M heap gv := DeepCopy_of T_Flow Flow_DeepCopyInto.

Definition T_FlowStatus : ty := TStruct [
  "ObservedState" ~> T_ObservedState;
  "SubFlows" ~> TMap T_ObservedState].
Definition FlowStatus_DeepCopyInto : copier := struct_copy [
  "ObservedState" ~> assign;
  "SubFlows" ~> map_flat].
Definition FlowStatus_DeepCopy : gv -> M heap gv :=
  DeepCopy_of T_FlowStatus FlowStatus_DeepCopyInto.

Definition T_Selector : ty := TStruct [
  "ClusterName" ~> TString;
  "WorkloadSelector" ~> T_LabelSelector].
Definition Selector_DeepCopyInto : copier := struct_copy [
  "WorkloadSelector" ~> LabelSelector_DeepCopyInto].
Definition Selector_DeepCopy : gv -> M heap gv := DeepCopy_of T_Selector Selector_DeepCopyInto.

Definition T_FybrikApplicationSpec : ty := TStruct [
  "Selector" ~> T_Selector;
  "SecretRef" ~> TString;
  "AppInfo" ~> T_AppInfo;
  "Data" ~> TSlice T_DataContext].
Definition FybrikApplicationSpec_DeepCopyInto : copier := struct_copy [
  "Selector" ~> Selector_DeepCopyInto;
  "AppInfo" ~> AppInfo_DeepCopyInto;
  "Data" ~> slice_flat T_DataContext].
Definition FybrikApplicationSpec_DeepCopy : gv -> M heap gv :=
  DeepCopy_of T_FybrikApplicationSpec FybrikApplicationSpec_DeepCopyInto.

Definition T_ResourceReference : ty := TStruct [
  "Name" ~> TString;
  "Namespace" ~> TString;
  "Kind" ~> TString;
  "AppVersion" ~> TInt].
Definition ResourceReference_DeepCopyInto : copier := struct_copy [].
Definition ResourceReference_DeepCopy : gv -> M heap gv :=
  DeepCopy_of T_ResourceReference ResourceReference_DeepCopyInto.

Definition T_FybrikApplicationStatus : ty := TStruct [
  "Ready" ~> TBool;
  "ErrorMessage" ~> TString;
  "AssetStates" ~> TMap T_AssetState;
  "ObservedGeneration" ~> TInt;
  "ValidatedGeneration" ~> TInt;
  "ValidApplication" ~> TString;
  "Generated" ~> TPtr T_ResourceReference;
  "ProvisionedStorage" ~> TMap T_DatasetDetails].
Definition FybrikApplicationStatus_DeepCopyInto : copier := struct_copy [
  "AssetStates" ~> map_deep T_AssetState AssetState_DeepCopyInto;
  "Generated" ~> ptr_flat T_ResourceReference;
  "ProvisionedStorage" ~> map_flat].
Definition FybrikApplicationStatus_DeepCopy : gv -> M heap gv :=
  DeepCopy_of T_FybrikApplicationStatus FybrikApplicationStatus_DeepCopyInto.

Definition T_FybrikApplication : ty := TStruct [
  "TypeMeta" ~> T_TypeMeta;
  "ObjectMeta" ~> T_ObjectMeta;
  "Spec" ~> T_FybrikApplicationSpec;
  "Status" ~> T_FybrikApplicationStatus].
Definition FybrikApplication_DeepCopyInto : copier := struct_copy [
  "TypeMeta" ~> assign;
  "ObjectMeta" ~> ObjectMeta_DeepCopyInto;
  "Spec" ~> FybrikApplicationSpec_DeepCopyInto;
  "Status" ~> FybrikApplicationStatus_DeepCopyInto].
Definition FybrikApplication_DeepCopy : gv -> M heap gv :=
  DeepCopy_of T_FybrikApplication FybrikApplication_DeepCopyInto.
Definition FybrikApplication_DeepCopyObject : gv -> M heap gv :=
  DeepCopyObject_of FybrikApplication_DeepCopy.

Definition T_FybrikApplicationList : ty := TStruct [
  "TypeMeta" ~> T_TypeMeta;
  "ListMeta" ~> T_ListMeta;
  "Items" ~> TSlice T_FybrikApplication].
Definition FybrikApplicationList_DeepCopyInto : copier := struct_copy [
  "TypeMeta" ~> assign;
  "ListMeta" ~> ListMeta_DeepCopyInto;
  "Items" ~> slice_deep T_FybrikApplication FybrikApplication_DeepCopyInto].
Definition FybrikApplicationList_DeepCopy : gv -> M heap gv :=
  DeepCopy_of T_FybrikApplicationList FybrikApplicationList_DeepCopyInto.
Definition FybrikApplicationList_DeepCopyObject : gv -> M heap gv :=
  DeepCopyObject_of FybrikApplicationList_DeepCopy.

Definition T_ModuleInOut : ty := TStruct [
  "Source" ~> TPtr T_InterfaceDetails;
  "Sink" ~> TPtr T_InterfaceDetails].
Definition ModuleInOut_DeepCopyInto : copier := struct_copy [
  "Source" ~> ptr_flat T_InterfaceDetails;
  "Sink" ~> ptr_flat T_InterfaceDetails].
Definition ModuleInOut_DeepCopy : gv -> M heap gv :=
  DeepCopy_of T_ModuleInOut ModuleInOut_DeepCopyInto.

Definition T_ModuleSupportedAction : ty := TStruct ["Name" ~> TString].
Definition ModuleSupportedAction_DeepCopyInto : copier := struct_copy [].
Definition ModuleSupportedAction_DeepCopy : gv -> M heap gv :=
  DeepCopy_of T_ModuleSupportedAction ModuleSupportedAction_DeepCopyInto.

Definition T_Plugin : ty := TStruct [
  "PluginType" ~> TString;
  "DataFormat" ~> TString].
Definition Plugin_DeepCopyInto : copier := struct_copy [].
Definition Plugin_DeepCopy : gv -> M heap gv := DeepCopy_of T_Plugin Plugin_DeepCopyInto.

Definition T_ModuleCapability : ty := TStruct [
  "Capability" ~> TString;
  "Scope" ~> TString;
  "SupportedInterfaces" ~> TSlice T_ModuleInOut;
  "API" ~> TPtr T_ResourceDetails;
  "Actions" ~> TSlice T_ModuleSupportedAction;
  "Plugins" ~> TSlice T_Plugin].
Definition ModuleCapability_DeepCopyInto : copier := struct_copy [
  "SupportedInterfaces" ~> slice_deep T_ModuleInOut ModuleInOut_DeepCopyInto;
  "API" ~> ptr_deep T_ResourceDetails ResourceDetails_DeepCopyInto;
  "Actions" ~> slice_flat T_ModuleSupportedAction;
  "Plugins" ~> slice_flat T_Plugin].
Definition ModuleCapability_DeepCopy : gv -> M heap gv :=
  DeepCopy_of T_ModuleCapability ModuleCapability_DeepCopyInto.

Definition T_ResourceStatusIndicator : ty := TStruct [
  "Kind" ~> TString;
  "SuccessCondition" ~> TString;
  "FailureCondition" ~> TString;
  "ErrorMessage" ~> TString].
Definition ResourceStatusIndicator_DeepCopyInto : copier := struct_copy [].
Definition ResourceStatusIndicator_DeepCopy : gv -> M heap gv :=
  DeepCopy_of T_ResourceStatusIndicator ResourceStatusIndicator_DeepCopyInto.

Definition T_FybrikModuleSpec : ty := TStruct [
  "Description" ~> TString;
  "Type" ~> TString;
  "PluginType" ~> TString;
  "Dependencies" ~> TSlice T_Dependency;
  "Capabilities" ~> TSlice T_ModuleCapability;
  "Chart" ~> T_ChartSpec;
  "StatusIndicators" ~> TSlice T_ResourceStatusIndicator].
Definition FybrikModuleSpec_DeepCopyInto : copier := struct_copy [
  "Dependencies" ~> slice_flat T_Dependency;
  "Capabilities" ~> slice_deep T_ModuleCapability ModuleCapability_DeepCopyInto;
  "Chart" ~> ChartSpec_DeepCopyInto;
  "StatusIndicators" ~> slice_flat T_ResourceStatusIndicator].
Definition FybrikModuleSpec_DeepCopy : gv -> M heap gv :=
  DeepCopy_of T_FybrikModuleSpec FybrikModuleSpec_DeepCopyInto.

Definition T_FybrikModuleStatus : ty := TStruct ["Conditions" ~> TSlice T_Condition].
Definition FybrikModuleStatus_DeepCopyInto : copier := struct_copy [
  "Conditions" ~> slice_flat T_Condition].
Definition FybrikModuleStatus_DeepCopy : gv -> M heap gv :=
  DeepCopy_of T_FybrikModuleStatus FybrikModuleStatus_DeepCopyInto.

Definition T_FybrikModule : ty := TStruct [
  "TypeMeta" ~> T_TypeMeta;
  "ObjectMeta" ~> T_ObjectMeta;
  "Spec" ~> T_FybrikModuleSpec;
  "Status" ~> T_FybrikModuleStatus].
Definition FybrikModule_DeepCopyInto : copier := struct_copy [
  "TypeMeta" ~> assign;
  "ObjectMeta" ~> ObjectMeta_DeepCopyInto;
  "Spec" ~> FybrikModuleSpec_DeepCopyInto;
  "Status" ~> FybrikModuleStatus_DeepCopyInto].
Definition FybrikModule_DeepCopy : gv -> M heap gv :=
  DeepCopy_of T_FybrikModule FybrikModule_DeepCopyInto.
Definition FybrikModule_DeepCopyObject : gv -> M heap gv :=
  DeepCopyObject_of FybrikModule_DeepCopy.

Definition T_FybrikModuleList : ty := TStruct [
  "TypeMeta" ~> T_TypeMeta;
  "ListMeta" ~> T_ListMeta;
  "Items" ~> TSlice T_FybrikModule].
Definition FybrikModuleList_DeepCopyInto : copier := struct_copy [
  "TypeMeta" ~> assign;
  "ListMeta" ~> ListMeta_DeepCopyInto;
  "Items" ~> slice_deep T_FybrikModule FybrikModule_DeepCopyInto].
Definition FybrikModuleList_DeepCopy : gv -> M heap gv :=
  DeepCopy_of T_FybrikModuleList FybrikModuleList_DeepCopyInto.
Definition FybrikModuleList_DeepCopyObject : gv -> M heap gv :=
  DeepCopyObject_of FybrikModuleList_DeepCopy.

Definition T_FybrikStorageAccountSpec : ty := TStruct [
  "ID" ~> TString;
  "SecretRef" ~> TString;
  "Endpoints" ~> TMap TString].
Definition FybrikStorageAccountSpec_DeepCopyInto : copier := struct_copy [
  "Endpoints" ~> map_flat].
Definition FybrikStorageAccountSpec_DeepCopy : gv -> M heap gv :=
  DeepCopy_of T_FybrikStorageAccountSpec FybrikStorageAccountSpec_DeepCopyInto.

Definition T_FybrikStorageAccountStatus : ty := TStruct [].
Definition FybrikStorageAccountStatus_DeepCopyInto : copier := struct_copy [].
Definition FybrikStorageAccountStatus_DeepCopy : gv -> M heap gv :=
  DeepCopy_of T_FybrikStorageAccountStatus FybrikStorageAccountStatus_DeepCopyInto.

Definition T_FybrikStorageAccount : ty := TStruct [
  "TypeMeta" ~> T_TypeMeta;
  "ObjectMeta" ~> T_ObjectMeta;
  "Spec" ~> T_FybrikStorageAccountSpec;
  "Status" ~> T_FybrikStorageAccountStatus].
Definition FybrikStorageAccount_DeepCopyInto : copier := struct_copy [
  "TypeMeta" ~> assign;
  "ObjectMeta" ~> ObjectMeta_DeepCopyInto;
  "Spec" ~> FybrikStorageAccountSpec_DeepCopyInto;
  "Status" ~> assign].
Definition FybrikStorageAccount_DeepCopy : gv -> M heap gv :=
  DeepCopy_of T_FybrikStorageAccount FybrikStorageAccount_DeepCopyInto.
Definition FybrikStorageAccount_DeepCopyObject : gv -> M heap gv :=
  DeepCopyObject_of FybrikStorageAccount_DeepCopy.

Definition T_FybrikStorageAccountList : ty := TStruct [
  "TypeMeta" ~> T_TypeMeta;
  "ListMeta" ~> T_ListMeta;
  "Items" ~> TSlice T_FybrikStorageAccount].
Definition FybrikStorageAccountList_DeepCopyInto : copier := struct_copy [
  "TypeMeta" ~> assign;
  "ListMeta" ~> ListMeta_DeepCopyInto;
  "Items" ~> slice_deep T_FybrikStorageAccount FybrikStorageAccount_DeepCopyInto].
Definition FybrikStorageAccountList_DeepCopy : gv -> M heap gv :=
  DeepCopy_of T_FybrikStorageAccountList FybrikStorageAccountList_DeepCopyInto.
Definition FybrikStorageAccountList_DeepCopyObject : gv -> M heap gv :=
  DeepCopyObject_of FybrikStorageAccountList_DeepCopy.

Definition T_MetaBlueprint : ty := TStruct [
  "Name" ~> TString;
  "Namespace" ~> TString;
  "Status" ~> T_BlueprintStatus].
Definition MetaBlueprint_DeepCopyInto : copier := struct_copy [
  "Status" ~> BlueprintStatus_DeepCopyInto].
Definition MetaBlueprint_DeepCopy : gv -> M heap gv :=
  DeepCopy_of T_MetaBlueprint MetaBlueprint_DeepCopyInto.

Definition T_ModuleInfo : ty := TStruct [
  "Name" ~> TString;
  "Type" ~> TString;
  "Chart" ~> T_ChartSpec;
  "Scope" ~> TString].
Definition ModuleInfo_DeepCopyInto : copier := struct_copy [
  "Chart" ~> ChartSpec_DeepCopyInto].
Definition ModuleInfo_DeepCopy : gv -> M heap gv :=
  DeepCopy_of T_ModuleInfo ModuleInfo_DeepCopyInto.

Definition T_Template : ty := TStruct [
  "Name" ~> TString;
  "Modules" ~> TSlice T_ModuleInfo].
Definition Template_DeepCopyInto : copier := struct_copy [
  "Modules" ~> slice_deep T_ModuleInfo ModuleInfo_DeepCopyInto].
Definition Template_DeepCopy : gv -> M heap gv := DeepCopy_of T_Template Template_DeepCopyInto.

Definition T_PlotterSpec : ty := TStruct [
  "Selector" ~> T_Selector;
  "Assets" ~> TMap T_AssetDetails;
  "Flows" ~> TSlice T_Flow;
  "ModulesNamespace" ~> TString;
  "Templates" ~> TMap T_Template].
Definition PlotterSpec_DeepCopyInto : copier := struct_copy [
  "Selector" ~> Selector_DeepCopyInto;
  "Assets" ~> map_deep T_AssetDetails AssetDetails_DeepCopyInto;
  "Flows" ~> slice_deep T_Flow Flow_DeepCopyInto;
  "Templates" ~> map_deep T_Template Template_DeepCopyInto].
Definition PlotterSpec_DeepCopy : gv -> M heap gv :=
  DeepCopy_of T_PlotterSpec PlotterSpec_DeepCopyInto.

Definition T_PlotterStatus : ty := TStruct [
  "ObservedState" ~> T_ObservedState;
  "ObservedGeneration" ~> TInt;
  "Flows" ~> TMap T_FlowStatus;
  "Assets" ~> TMap T_ObservedState;
  "Blueprints" ~> TMap T_MetaBlueprint;
  "Conditions" ~> TSlice T_Condition;
  "ReadyTimestamp" ~> TPtr T_Time].
Definition PlotterStatus_DeepCopyInto : copier := struct_copy [
  "ObservedState" ~> assign;
  "Flows" ~> map_deep T_FlowStatus FlowStatus_DeepCopyInto;
  "Assets" ~> map_flat;
  "Blueprints" ~> map_deep T_MetaBlueprint MetaBlueprint_DeepCopyInto;
  "Conditions" ~> slice_flat T_Condition;
  "ReadyTimestamp" ~> unless_nil (by_DeepCopy Time_DeepCopy)].
Definition PlotterStatus_DeepCopy : gv -> M heap gv :=
  DeepCopy_of T_PlotterStatus PlotterStatus_DeepCopyInto.

Definition T_Plotter : ty := TStruct [
  "TypeMeta" ~> T_TypeMeta;
  "ObjectMeta" ~> T_ObjectMeta;
  "Spec" ~> T_PlotterSpec;
  "Status" ~> T_PlotterStatus].
Definition Plotter_DeepCopyInto : copier := struct_copy [
  "TypeMeta" ~> assign;
  "ObjectMeta" ~> ObjectMeta_DeepCopyInto;
  "Spec" ~> PlotterSpec_DeepCopyInto;
  "Status" ~> PlotterStatus_DeepCopyInto].
Definition Plotter_DeepCopy : gv -> M heap gv := DeepCopy_of T_Plotter Plotter_DeepCopyInto.
Definition Plotter_DeepCopyObject : gv -> M heap gv := DeepCopyObject_of Plotter_DeepCopy.

Definition T_PlotterList : ty := TStruct [
  "TypeMeta" ~> T_TypeMeta;
  "ListMeta" ~> T_ListMeta;
  "Items" ~> TSlice T_Plotter].
Definition PlotterList_DeepCopyInto : copier := struct_copy [
  "TypeMeta" ~> assign;
  "ListMeta" ~> ListMeta_DeepCopyInto;
  "Items" ~> slice_deep T_Plotter Plotter_DeepCopyInto].
Definition PlotterList_DeepCopy : gv -> M heap gv :=
  DeepCopy_of T_PlotterList PlotterList_DeepCopyInto.
Definition PlotterList_DeepCopyObject : gv -> M heap gv := DeepCopyObject_of PlotterList_DeepCopy.

(** ** connectors/katalog: api types *)

Definition T_SecretRef : ty := TStruct ["Name" ~> TString].
Definition SecretRef_DeepCopyInto : copier := struct_copy [].
Definition SecretRef_DeepCopy : gv -> M heap gv := DeepCopy_of T_SecretRef SecretRef_DeepCopyInto.

Definition T_AssetSpec : ty := TStruct [
  "Details" ~> T_ResourceDetails;
  "Metadata" ~> T_ResourceMetadata;
  "SecretRef" ~> T_SecretRef].
Definition AssetSpec_DeepCopyInto : copier := struct_copy [
  "Details" ~> ResourceDetails_DeepCopyInto;
  "Metadata" ~> ResourceMetadata_DeepCopyInto;
  "SecretRef" ~> assign].
Definition AssetSpec_DeepCopy : gv -> M heap gv := DeepCopy_of T_AssetSpec AssetSpec_DeepCopyInto.

Definition T_Asset : ty := TStruct [
  "TypeMeta" ~> T_TypeMeta;
  "ObjectMeta" ~> T_ObjectMeta;
  "Spec" ~> T_AssetSpec].
Definition Asset_DeepCopyInto : copier := struct_copy [
  "TypeMeta" ~> assign;
  "ObjectMeta" ~> ObjectMeta_DeepCopyInto;
  "Spec" ~> AssetSpec_DeepCopyInto].
Definition Asset_DeepCopy : gv -> M heap gv := DeepCopy_of T_Asset Asset_DeepCopyInto.
Definition Asset_DeepCopyObject : gv -> M heap gv := DeepCopyObject_of Asset_DeepCopy.

Definition T_AssetList : ty := TStruct [
  "TypeMeta" ~> T_TypeMeta;
  "ListMeta" ~> T_ListMeta;
  "Items" ~> TSlice T_Asset].
Definition AssetList_DeepCopyInto : copier := struct_copy [
  "TypeMeta" ~> assign;
  "ListMeta" ~> ListMeta_DeepCopyInto;
  "Items" ~> slice_deep T_Asset Asset_DeepCopyInto].
Definition AssetList_DeepCopy : gv -> M heap gv := DeepCopy_of T_AssetList AssetList_DeepCopyInto.
Definition AssetList_DeepCopyObject : gv -> M heap gv := DeepCopyObject_of AssetList_DeepCopy.

(** ** All structs *)

(** Every struct with a generated copy: its name, its type and its [DeepCopyInto]. *)
Definition generated_copies : list (string * ty * copier) := [
  ("Action", T_Action, Action_DeepCopyInto);
  ("AppInfo", T_AppInfo, AppInfo_DeepCopyInto);
  ("Connection", T_Connection, Connection_DeepCopyInto);
  ("Interface", T_Interface, Interface_DeepCopyInto);
  ("PolicyManagerRequestContext", T_PolicyManagerRequestContext, PolicyManagerRequestContext_DeepCopyInto);
  ("Tags", T_Tags, Tags_DeepCopyInto);
  ("GetAssetRequest", T_GetAssetRequest, GetAssetRequest_DeepCopyInto);
  ("ResourceColumn", T_ResourceColumn, ResourceColumn_DeepCopyInto);
  ("ResourceMetadata", T_ResourceMetadata, ResourceMetadata_DeepCopyInto);
  ("ResourceDetails", T_ResourceDetails, ResourceDetails_DeepCopyInto);
  ("GetAssetResponse", T_GetAssetResponse, GetAssetResponse_DeepCopyInto);
  ("RequestAction", T_RequestAction, RequestAction_DeepCopyInto);
  ("Resource", T_Resource, Resource_DeepCopyInto);
  ("GetPolicyDecisionsRequest", T_GetPolicyDecisionsRequest, GetPolicyDecisionsRequest_DeepCopyInto);
  ("ResultItem", T_ResultItem, ResultItem_DeepCopyInto);
  ("GetPolicyDecisionsResponse", T_GetPolicyDecisionsResponse, GetPolicyDecisionsResponse_DeepCopyInto);
  ("Restrictions", T_Restrictions, Restrictions_DeepCopyInto);
  ("DecisionPolicy", T_DecisionPolicy, DecisionPolicy_DeepCopyInto);
  ("Decision", T_Decision, Decision_DeepCopyInto);
  ("DecisionPerCapability", T_DecisionPerCapability, DecisionPerCapability_DeepCopyInto);
  ("EvaluationOutputStructure", T_EvaluationOutputStructure, EvaluationOutputStructure_DeepCopyInto);
  ("Vault", T_Vault, Vault_DeepCopyInto);
  ("DataStore", T_DataStore, DataStore_DeepCopyInto);
  ("AssetDetails", T_AssetDetails, AssetDetails_DeepCopyInto);
  ("Condition", T_Condition, Condition_DeepCopyInto);
  ("AssetState", T_AssetState, AssetState_DeepCopyInto);
  ("ChartSpec", T_ChartSpec, ChartSpec_DeepCopyInto);
  ("CopyModuleArgs", T_CopyModuleArgs, CopyModuleArgs_DeepCopyInto);
  ("ReadModuleArgs", T_ReadModuleArgs, ReadModuleArgs_DeepCopyInto);
  ("WriteModuleArgs", T_WriteModuleArgs, WriteModuleArgs_DeepCopyInto);
  ("ModuleArguments", T_ModuleArguments, ModuleArguments_DeepCopyInto);
  ("BlueprintModule", T_BlueprintModule, BlueprintModule_DeepCopyInto);
  ("BlueprintSpec", T_BlueprintSpec, BlueprintSpec_DeepCopyInto);
  ("ObservedState", T_ObservedState, ObservedState_DeepCopyInto);
  ("BlueprintStatus", T_BlueprintStatus, BlueprintStatus_DeepCopyInto);
  ("Blueprint", T_Blueprint, Blueprint_DeepCopyInto);
  ("BlueprintList", T_BlueprintList, BlueprintList_DeepCopyInto);
  ("CatalogRequirements", T_CatalogRequirements, CatalogRequirements_DeepCopyInto);
  ("CopyRequirements", T_CopyRequirements, CopyRequirements_DeepCopyInto);
  ("InterfaceDetails", T_InterfaceDetails, InterfaceDetails_DeepCopyInto);
  ("DataRequirements", T_DataRequirements, DataRequirements_DeepCopyInto);
  ("DataContext", T_DataContext, DataContext_DeepCopyInto);
  ("StepSource", T_StepSource, StepSource_DeepCopyInto);
  ("StepSink", T_StepSink, StepSink_DeepCopyInto);
  ("StepParameters", T_StepParameters, StepParameters_DeepCopyInto);
  ("DataFlowStep", T_DataFlowStep, DataFlowStep_DeepCopyInto);
  ("DatasetDetails", T_DatasetDetails, DatasetDetails_DeepCopyInto);
  ("Dependency", T_Dependency, Dependency_DeepCopyInto);
  ("SubFlow", T_SubFlow, SubFlow_DeepCopyInto);
  ("Flow", T_Flow, Flow_DeepCopyInto);
  ("FlowStatus", T_FlowStatus, FlowStatus_DeepCopyInto);
  ("Selector", T_Selector, Selector_DeepCopyInto);
  ("FybrikApplicationSpec", T_FybrikApplicationSpec, FybrikApplicationSpec_DeepCopyInto);
  ("ResourceReference", T_ResourceReference, ResourceReference_DeepCopyInto);
  ("FybrikApplicationStatus", T_FybrikApplicationStatus, FybrikApplicationStatus_DeepCopyInto);
  ("FybrikApplication", T_FybrikApplication, FybrikApplication_DeepCopyInto);
  ("FybrikApplicationList", T_FybrikApplicationList, FybrikApplicationList_DeepCopyInto);
  ("ModuleInOut", T_ModuleInOut, ModuleInOut_DeepCopyInto);
  ("ModuleSupportedAction", T_ModuleSupportedAction, ModuleSupportedAction_DeepCopyInto);
  ("Plugin", T_Plugin, Plugin_DeepCopyInto);
  ("ModuleCapability", T_ModuleCapability, ModuleCapability_DeepCopyInto);
  ("ResourceStatusIndicator", T_ResourceStatusIndicator, ResourceStatusIndicator_DeepCopyInto);
  ("FybrikModuleSpec", T_FybrikModuleSpec, FybrikModuleSpec_DeepCopyInto);
  ("FybrikModuleStatus", T_FybrikModuleStatus, FybrikModuleStatus_DeepCopyInto);
  ("FybrikModule", T_FybrikModule, FybrikModule_DeepCopyInto);
  ("FybrikModuleList", T_FybrikModuleList, FybrikModuleList_DeepCopyInto);
  ("FybrikStorageAccountSpec", T_FybrikStorageAccountSpec, FybrikStorageAccountSpec_DeepCopyInto);
  ("FybrikStorageAccountStatus", T_FybrikStorageAccountStatus, FybrikStorageAccountStatus_DeepCopyInto);
  ("FybrikStorageAccount", T_FybrikStorageAccount, FybrikStorageAccount_DeepCopyInto);
  ("FybrikStorageAccountList", T_FybrikStorageAccountList, FybrikStorageAccountList_DeepCopyInto);
  ("MetaBlueprint", T_MetaBlueprint, MetaBlueprint_DeepCopyInto);
  ("ModuleInfo", T_ModuleInfo, ModuleInfo_DeepCopyInto);
  ("Template", T_Template, Template_DeepCopyInto);
  ("PlotterSpec", T_PlotterSpec, PlotterSpec_DeepCopyInto);
  ("PlotterStatus", T_PlotterStatus, PlotterStatus_DeepCopyInto);
  ("Plotter", T_Plotter, Plotter_DeepCopyInto);
  ("PlotterList", T_PlotterList, PlotterList_DeepCopyInto);
  ("SecretRef", T_SecretRef, SecretRef_DeepCopyInto);
  ("AssetSpec", T_AssetSpec, AssetSpec_DeepCopyInto);
  ("Asset", T_Asset, Asset_DeepCopyInto);
  ("AssetList", T_AssetList, AssetList_DeepCopyInto)].
End Generated.
