(* ===== verification/DeepCopyProps.v ===== *)
(** * Deep copies are deep

    The copies of DeepCopyTypes.v, block by block: each generated function is deep because
    the fields without a block are flat and the blocks of the others are deep. *)
From stdpp Require Import base gmap strings list numbers.
From S2P Require Import Prelude GoHeap GoHeapFacts DeepCopy DeepCopyFacts DeepCopyTypes.

(** ** The libraries

    The copies of the API machinery are deep, [TypeMeta] holds two strings, and
    [deepcopy.Copy] of a pointer gives a pointer to a deep copy.  None of these types has
    restrictions in it. *)
Class DeepCopyLaws `{DeepCopyLib} : Prop := {
  TypeMeta_flat : flat T_TypeMeta = true;
  ObjectMeta_deep : deep_copies T_ObjectMeta ObjectMeta_DeepCopyInto;
  ListMeta_deep : deep_copies T_ListMeta ListMeta_DeepCopyInto;
  LabelSelector_deep : deep_copies T_LabelSelector LabelSelector_DeepCopyInto;
  Time_deep : deep_value (TPtr T_Time) Time_DeepCopy;
  deepcopy_Copy_deep : deep_value (TPtr T_Properties) deepcopy_Copy;
  meta_lossless : Forall (fun t => lossless t = true) [T_ObjectMeta; T_ListMeta; T_LabelSelector; T_Time]
}.

Section GeneratedFacts.
Context `{MapRange} `{DeepCopyLaws}.

Lemma Properties_deep : deep_copies T_Properties Properties_DeepCopyInto.
Proof.
  intros h inp out v old tr Hin Hout Hne _ Hr. unfold Properties_DeepCopyInto.
  assert (Hp : rep (fun _ => True) h (TPtr T_Properties) (GPtr inp) (LPtr tr)).
  { econstructor; [done|done|]. by eapply rep_sub. }
  eapply reaches_then; [by eapply deepcopy_Copy_deep|]. intros w h1 [Hs Hw].
  change (copied (TPtr T_Properties) (LPtr tr)) with (LPtr (copied T_Properties tr)) in Hw.
  inversion Hw; subst. heap_step. heap_step; [done|].
  destruct (write_is_Some h out old v0 Hout) as (h2 & Hh2).
  destruct (write_sub _ _ _ _ _ Hs Hh2) as (h3 & Hh3 & Hs3).
  eapply reaches_store_last; [done|]. exists v0, h2. split_and!; [done..|].
  eapply rep_frame; [done|]. intros x Hx _. split; [done|]. eapply lookup_write_ne; [done|].
  intros ->. apply read_inv in Hout as (? & ? & _). congruence.
Qed.

Lemma unless_nil_copier_deep t c : deep_copies t c -> deep_copies t (unless_nil c).
Proof. intros Hc. apply unless_nil_deep. intros. by eapply Hc. Qed.

(** ** Every generated copy *)

Create HintDb deep.
#[local] Hint Resolve assign_deep slice_flat_deep slice_deep_deep map_flat_deep map_deep_deep
  ptr_flat_deep ptr_deep_deep by_DeepCopy_deep unless_nil_copier_deep Restriction_deep
  Properties_deep TypeMeta_flat ObjectMeta_deep ListMeta_deep LabelSelector_deep Time_deep : deep.
#[local] Hint Extern 1 (flat _ = true) => reflexivity : deep.

Ltac deep_struct := apply struct_copy_deep;
  [ reflexivity
  | apply (bool_decide_unpack _); vm_compute; exact I
  | repeat (constructor; [eexists; split; [reflexivity|cbn [snd]; eauto 6 with deep]|]); constructor ].

Lemma Action_deep : deep_copies T_Action Action_DeepCopyInto.
Proof. deep_struct. Qed.
#[local] Hint Resolve Action_deep : deep.
Lemma AppInfo_deep : deep_copies T_AppInfo AppInfo_DeepCopyInto.
Proof. deep_struct. Qed.
#[local] Hint Resolve AppInfo_deep : deep.
Lemma Connection_deep : deep_copies T_Connection Connection_DeepCopyInto.
Proof. deep_struct. Qed.
#[local] Hint Resolve Connection_deep : deep.
Lemma Interface_deep : deep_copies T_Interface Interface_DeepCopyInto.
Proof. deep_struct. Qed.
#[local] Hint Resolve Interface_deep : deep.
Lemma PolicyManagerRequestContext_deep : deep_copies T_PolicyManagerRequestContext PolicyManagerRequestContext_DeepCopyInto.
Proof. deep_struct. Qed.
#[local] Hint Resolve PolicyManagerRequestContext_deep : deep.
Lemma Tags_deep : deep_copies T_Tags Tags_DeepCopyInto.
Proof. deep_struct. Qed.
#[local] Hint Resolve Tags_deep : deep.
Lemma GetAssetRequest_deep : deep_copies T_GetAssetRequest GetAssetRequest_DeepCopyInto.
Proof. deep_struct. Qed.
#[local] Hint Resolve GetAssetRequest_deep : deep.
Lemma ResourceColumn_deep : deep_copies T_ResourceColumn ResourceColumn_DeepCopyInto.
Proof. deep_struct. Qed.
#[local] Hint Resolve ResourceColumn_deep : deep.
Lemma ResourceMetadata_deep : deep_copies T_ResourceMetadata ResourceMetadata_DeepCopyInto.
Proof. deep_struct. Qed.
#[local] Hint Resolve ResourceMetadata_deep : deep.
Lemma ResourceDetails_deep : deep_copies T_ResourceDetails ResourceDetails_DeepCopyInto.
Proof. deep_struct. Qed.
#[local] Hint Resolve ResourceDetails_deep : deep.
Lemma GetAssetResponse_deep : deep_copies T_GetAssetResponse GetAssetResponse_DeepCopyInto.
Proof. deep_struct. Qed.
#[local] Hint Resolve GetAssetResponse_deep : deep.
Lemma RequestAction_deep : deep_copies T_RequestAction RequestAction_DeepCopyInto.
Proof. deep_struct. Qed.
#[local] Hint Resolve RequestAction_deep : deep.
Lemma Resource_deep : deep_copies T_Resource Resource_DeepCopyInto.
Proof. deep_struct. Qed.
#[local] Hint Resolve Resource_deep : deep.
Lemma GetPolicyDecisionsRequest_deep : deep_copies T_GetPolicyDecisionsRequest GetPolicyDecisionsRequest_DeepCopyInto.
Proof. deep_struct. Qed.
#[local] Hint Resolve GetPolicyDecisionsRequest_deep : deep.
Lemma ResultItem_deep : deep_copies T_ResultItem ResultItem_DeepCopyInto.
Proof. deep_struct. Qed.
#[local] Hint Resolve ResultItem_deep : deep.
Lemma GetPolicyDecisionsResponse_deep : deep_copies T_GetPolicyDecisionsResponse GetPolicyDecisionsResponse_DeepCopyInto.
Proof. deep_struct. Qed.
#[local] Hint Resolve GetPolicyDecisionsResponse_deep : deep.
Lemma Restrictions_deep : deep_copies T_Restrictions Restrictions_DeepCopyInto.
Proof. deep_struct. Qed.
#[local] Hint Resolve Restrictions_deep : deep.
Lemma DecisionPolicy_deep : deep_copies T_DecisionPolicy DecisionPolicy_DeepCopyInto.
Proof. deep_struct. Qed.
#[local] Hint Resolve DecisionPolicy_deep : deep.
Lemma Decision_deep : deep_copies T_Decision Decision_DeepCopyInto.
Proof. deep_struct. Qed.
#[local] Hint Resolve Decision_deep : deep.
Lemma DecisionPerCapability_deep : deep_copies T_DecisionPerCapability DecisionPerCapability_DeepCopyInto.
Proof. deep_struct. Qed.
#[local] Hint Resolve DecisionPerCapability_deep : deep.
Lemma EvaluationOutputStructure_deep : deep_copies T_EvaluationOutputStructure EvaluationOutputStructure_DeepCopyInto.
Proof. deep_struct. Qed.
#[local] Hint Resolve EvaluationOutputStructure_deep : deep.
Lemma Vault_deep : deep_copies T_Vault Vault_DeepCopyInto.
Proof. deep_struct. Qed.
#[local] Hint Resolve Vault_deep : deep.
Lemma DataStore_deep : deep_copies T_DataStore DataStore_DeepCopyInto.
Proof. deep_struct. Qed.
#[local] Hint Resolve DataStore_deep : deep.
Lemma AssetDetails_deep : deep_copies T_AssetDetails AssetDetails_DeepCopyInto.
Proof. deep_struct. Qed.
#[local] Hint Resolve AssetDetails_deep : deep.
Lemma Condition_deep : deep_copies T_Condition Condition_DeepCopyInto.
Proof. deep_struct. Qed.
#[local] Hint Resolve Condition_deep : deep.
Lemma AssetState_deep : deep_copies T_AssetState AssetState_DeepCopyInto.
Proof. deep_struct. Qed.
#[local] Hint Resolve AssetState_deep : deep.
Lemma ChartSpec_deep : deep_copies T_ChartSpec ChartSpec_DeepCopyInto.
Proof. deep_struct. Qed.
#[local] Hint Resolve ChartSpec_deep : deep.
Lemma CopyModuleArgs_deep : deep_copies T_CopyModuleArgs CopyModuleArgs_DeepCopyInto.
Proof. deep_struct. Qed.
#[local] Hint Resolve CopyModuleArgs_deep : deep.
Lemma ReadModuleArgs_deep : deep_copies T_ReadModuleArgs ReadModuleArgs_DeepCopyInto.
Proof. deep_struct. Qed.
#[local] Hint Resolve ReadModuleArgs_deep : deep.
Lemma WriteModuleArgs_deep : deep_copies T_WriteModuleArgs WriteModuleArgs_DeepCopyInto.
Proof. deep_struct. Qed.
#[local] Hint Resolve WriteModuleArgs_deep : deep.
Lemma ModuleArguments_deep : deep_copies T_ModuleArguments ModuleArguments_DeepCopyInto.
Proof. deep_struct. Qed.
#[local] Hint Resolve ModuleArguments_deep : deep.
Lemma BlueprintModule_deep : deep_copies T_BlueprintModule BlueprintModule_DeepCopyInto.
Proof. deep_struct. Qed.
#[local] Hint Resolve BlueprintModule_deep : deep.
Lemma BlueprintSpec_deep : deep_copies T_BlueprintSpec BlueprintSpec_DeepCopyInto.
Proof. deep_struct. Qed.
#[local] Hint Resolve BlueprintSpec_deep : deep.
Lemma ObservedState_deep : deep_copies T_ObservedState ObservedState_DeepCopyInto.
Proof. deep_struct. Qed.
#[local] Hint Resolve ObservedState_deep : deep.
Lemma BlueprintStatus_deep : deep_copies T_BlueprintStatus BlueprintStatus_DeepCopyInto.
Proof. deep_struct. Qed.
#[local] Hint Resolve BlueprintStatus_deep : deep.
Lemma Blueprint_deep : deep_copies T_Blueprint Blueprint_DeepCopyInto.
Proof. deep_struct. Qed.
#[local] Hint Resolve Blueprint_deep : deep.
Lemma BlueprintList_deep : deep_copies T_BlueprintList BlueprintList_DeepCopyInto.
Proof. deep_struct. Qed.
#[local] Hint Resolve BlueprintList_deep : deep.
Lemma CatalogRequirements_deep : deep_copies T_CatalogRequirements CatalogRequirements_DeepCopyInto.
Proof. deep_struct. Qed.
#[local] Hint Resolve CatalogRequirements_deep : deep.
Lemma CopyRequirements_deep : deep_copies T_CopyRequirements CopyRequirements_DeepCopyInto.
Proof. deep_struct. Qed.
#[local] Hint Resolve CopyRequirements_deep : deep.
Lemma InterfaceDetails_deep : deep_copies T_InterfaceDetails InterfaceDetails_DeepCopyInto.
Proof. deep_struct. Qed.
#[local] Hint Resolve InterfaceDetails_deep : deep.
Lemma DataRequirements_deep : deep_copies T_DataRequirements DataRequirements_DeepCopyInto.
Proof. deep_struct. Qed.
#[local] Hint Resolve DataRequirements_deep : deep.
Lemma DataContext_deep : deep_copies T_DataContext DataContext_DeepCopyInto.
Proof. deep_struct. Qed.
#[local] Hint Resolve DataContext_deep : deep.
Lemma StepSource_deep : deep_copies T_StepSource StepSource_DeepCopyInto.
Proof. deep_struct. Qed.
#[local] Hint Resolve StepSource_deep : deep.
Lemma StepSink_deep : deep_copies T_StepSink StepSink_DeepCopyInto.
Proof. deep_struct. Qed.
#[local] Hint Resolve StepSink_deep : deep.
Lemma StepParameters_deep : deep_copies T_StepParameters StepParameters_DeepCopyInto.
Proof. deep_struct. Qed.
#[local] Hint Resolve StepParameters_deep : deep.
Lemma DataFlowStep_deep : deep_copies T_DataFlowStep DataFlowStep_DeepCopyInto.
Proof. deep_struct. Qed.
#[local] Hint Resolve DataFlowStep_deep : deep.
Lemma DatasetDetails_deep : deep_copies T_DatasetDetails DatasetDetails_DeepCopyInto.
Proof. deep_struct. Qed.
#[local] Hint Resolve DatasetDetails_deep : deep.
Lemma Dependency_deep : deep_copies T_Dependency Dependency_DeepCopyInto.
Proof. deep_struct. Qed.
#[local] Hint Resolve Dependency_deep : deep.
Lemma SubFlow_deep : deep_copies T_SubFlow SubFlow_DeepCopyInto.
Proof. deep_struct. Qed.
#[local] Hint Resolve SubFlow_deep : deep.
Lemma Flow_deep : deep_copies T_Flow Flow_DeepCopyInto.
Proof. deep_struct. Qed.
#[local] Hint Resolve Flow_deep : deep.
Lemma FlowStatus_deep : deep_copies T_FlowStatus FlowStatus_DeepCopyInto.
Proof. deep_struct. Qed.
#[local] Hint Resolve FlowStatus_deep : deep.
Lemma Selector_deep : deep_copies T_Selector Selector_DeepCopyInto.
Proof. deep_struct. Qed.
#[local] Hint Resolve Selector_deep : deep.
Lemma FybrikApplicationSpec_deep : deep_copies T_FybrikApplicationSpec FybrikApplicationSpec_DeepCopyInto.
Proof. deep_struct. Qed.
#[local] Hint Resolve FybrikApplicationSpec_deep : deep.
Lemma ResourceReference_deep : deep_copies T_ResourceReference ResourceReference_DeepCopyInto.
Proof. deep_struct. Qed.
#[local] Hint Resolve ResourceReference_deep : deep.
Lemma FybrikApplicationStatus_deep : deep_copies T_FybrikApplicationStatus FybrikApplicationStatus_DeepCopyInto.
Proof. deep_struct. Qed.
#[local] Hint Resolve FybrikApplicationStatus_deep : deep.
Lemma FybrikApplication_deep : deep_copies T_FybrikApplication FybrikApplication_DeepCopyInto.
Proof. deep_struct. Qed.
#[local] Hint Resolve FybrikApplication_deep : deep.
Lemma FybrikApplicationList_deep : deep_copies T_FybrikApplicationList FybrikApplicationList_DeepCopyInto.
Proof. deep_struct. Qed.
#[local] Hint Resolve FybrikApplicationList_deep : deep.
Lemma ModuleInOut_deep : deep_copies T_ModuleInOut ModuleInOut_DeepCopyInto.
Proof. deep_struct. Qed.
#[local] Hint Resolve ModuleInOut_deep : deep.
Lemma ModuleSupportedAction_deep : deep_copies T_ModuleSupportedAction ModuleSupportedAction_DeepCopyInto.
Proof. deep_struct. Qed.
#[local] Hint Resolve ModuleSupportedAction_deep : deep.
Lemma Plugin_deep : deep_copies T_Plugin Plugin_DeepCopyInto.
Proof. deep_struct. Qed.
#[local] Hint Resolve Plugin_deep : deep.
Lemma ModuleCapability_deep : deep_copies T_ModuleCapability ModuleCapability_DeepCopyInto.
Proof. deep_struct. Qed.
#[local] Hint Resolve ModuleCapability_deep : deep.
Lemma ResourceStatusIndicator_deep : deep_copies T_ResourceStatusIndicator ResourceStatusIndicator_DeepCopyInto.
Proof. deep_struct. Qed.
#[local] Hint Resolve ResourceStatusIndicator_deep : deep.
Lemma FybrikModuleSpec_deep : deep_copies T_FybrikModuleSpec FybrikModuleSpec_DeepCopyInto.
Proof. deep_struct. Qed.
#[local] Hint Resolve FybrikModuleSpec_deep : deep.
Lemma FybrikModuleStatus_deep : deep_copies T_FybrikModuleStatus FybrikModuleStatus_DeepCopyInto.
Proof. deep_struct. Qed.
#[local] Hint Resolve FybrikModuleStatus_deep : deep.
Lemma FybrikModule_deep : deep_copies T_FybrikModule FybrikModule_DeepCopyInto.
Proof. deep_struct. Qed.
#[local] Hint Resolve FybrikModule_deep : deep.
Lemma FybrikModuleList_deep : deep_copies T_FybrikModuleList FybrikModuleList_DeepCopyInto.
Proof. deep_struct. Qed.
#[local] Hint Resolve FybrikModuleList_deep : deep.
Lemma FybrikStorageAccountSpec_deep : deep_copies T_FybrikStorageAccountSpec FybrikStorageAccountSpec_DeepCopyInto.
Proof. deep_struct. Qed.
#[local] Hint Resolve FybrikStorageAccountSpec_deep : deep.
Lemma FybrikStorageAccountStatus_deep : deep_copies T_FybrikStorageAccountStatus FybrikStorageAccountStatus_DeepCopyInto.
Proof. deep_struct. Qed.
#[local] Hint Resolve FybrikStorageAccountStatus_deep : deep.
Lemma FybrikStorageAccount_deep : deep_copies T_FybrikStorageAccount FybrikStorageAccount_DeepCopyInto.
Proof. deep_struct. Qed.
#[local] Hint Resolve FybrikStorageAccount_deep : deep.
Lemma FybrikStorageAccountList_deep : deep_copies T_FybrikStorageAccountList FybrikStorageAccountList_DeepCopyInto.
Proof. deep_struct. Qed.
#[local] Hint Resolve FybrikStorageAccountList_deep : deep.
Lemma MetaBlueprint_deep : deep_copies T_MetaBlueprint MetaBlueprint_DeepCopyInto.
Proof. deep_struct. Qed.
#[local] Hint Resolve MetaBlueprint_deep : deep.
Lemma ModuleInfo_deep : deep_copies T_ModuleInfo ModuleInfo_DeepCopyInto.
Proof. deep_struct. Qed.
#[local] Hint Resolve ModuleInfo_deep : deep.
Lemma Template_deep : deep_copies T_Template Template_DeepCopyInto.
Proof. deep_struct. Qed.
#[local] Hint Resolve Template_deep : deep.
Lemma PlotterSpec_deep : deep_copies T_PlotterSpec PlotterSpec_DeepCopyInto.
Proof. deep_struct. Qed.
#[local] Hint Resolve PlotterSpec_deep : deep.
Lemma PlotterStatus_deep : deep_copies T_PlotterStatus PlotterStatus_DeepCopyInto.
Proof. deep_struct. Qed.
#[local] Hint Resolve PlotterStatus_deep : deep.
Lemma Plotter_deep : deep_copies T_Plotter Plotter_DeepCopyInto.
Proof. deep_struct. Qed.
#[local] Hint Resolve Plotter_deep : deep.
Lemma PlotterList_deep : deep_copies T_PlotterList PlotterList_DeepCopyInto.
Proof. deep_struct. Qed.
#[local] Hint Resolve PlotterList_deep : deep.
Lemma SecretRef_deep : deep_copies T_SecretRef SecretRef_DeepCopyInto.
Proof. deep_struct. Qed.
#[local] Hint Resolve SecretRef_deep : deep.
Lemma AssetSpec_deep : deep_copies T_AssetSpec AssetSpec_DeepCopyInto.
Proof. deep_struct. Qed.
#[local] Hint Resolve AssetSpec_deep : deep.
Lemma Asset_deep : deep_copies T_Asset Asset_DeepCopyInto.
Proof. deep_struct. Qed.
#[local] Hint Resolve Asset_deep : deep.
Lemma AssetList_deep : deep_copies T_AssetList AssetList_DeepCopyInto.
Proof. deep_struct. Qed.
#[local] Hint Resolve AssetList_deep : deep.

Ltac listed H := apply Forall_cons_2; [exact H|].
Lemma generated_deep : Forall (fun g => deep_copies g.1.2 g.2) generated_copies.
Proof.
  listed Action_deep. listed AppInfo_deep. listed Connection_deep. listed Interface_deep.
  listed PolicyManagerRequestContext_deep. listed Tags_deep. listed GetAssetRequest_deep.
  listed ResourceColumn_deep. listed ResourceMetadata_deep. listed ResourceDetails_deep.
  listed GetAssetResponse_deep. listed RequestAction_deep. listed Resource_deep.
  listed GetPolicyDecisionsRequest_deep. listed ResultItem_deep.
  listed GetPolicyDecisionsResponse_deep. listed Restrictions_deep. listed DecisionPolicy_deep.
  listed Decision_deep. listed DecisionPerCapability_deep. listed EvaluationOutputStructure_deep.
  listed Vault_deep. listed DataStore_deep. listed AssetDetails_deep. listed Condition_deep.
  listed AssetState_deep. listed ChartSpec_deep. listed CopyModuleArgs_deep.
  listed ReadModuleArgs_deep. listed WriteModuleArgs_deep. listed ModuleArguments_deep.
  listed BlueprintModule_deep. listed BlueprintSpec_deep. listed ObservedState_deep.
  listed BlueprintStatus_deep. listed Blueprint_deep. listed BlueprintList_deep.
  listed CatalogRequirements_deep. listed CopyRequirements_deep. listed InterfaceDetails_deep.
  listed DataRequirements_deep. listed DataContext_deep. listed StepSource_deep.
  listed StepSink_deep. listed StepParameters_deep. listed DataFlowStep_deep.
  listed DatasetDetails_deep. listed Dependency_deep. listed SubFlow_deep. listed Flow_deep.
  listed FlowStatus_deep. listed Selector_deep. listed FybrikApplicationSpec_deep.
  listed ResourceReference_deep. listed FybrikApplicationStatus_deep.
  listed FybrikApplication_deep. listed FybrikApplicationList_deep. listed ModuleInOut_deep.
  listed ModuleSupportedAction_deep. listed Plugin_deep. listed ModuleCapability_deep.
  listed ResourceStatusIndicator_deep. listed FybrikModuleSpec_deep.
  listed FybrikModuleStatus_deep. listed FybrikModule_deep. listed FybrikModuleList_deep.
  listed FybrikStorageAccountSpec_deep. listed FybrikStorageAccountStatus_deep.
  listed FybrikStorageAccount_deep. listed FybrikStorageAccountList_deep.
  listed MetaBlueprint_deep. listed ModuleInfo_deep. listed Template_deep.
  listed PlotterSpec_deep. listed PlotterStatus_deep. listed Plotter_deep.
  listed PlotterList_deep. listed SecretRef_deep. listed AssetSpec_deep. listed Asset_deep.
  listed AssetList_deep.
  apply Forall_nil_2.
Qed.

Lemma StringList_deep : deep_value T_StringList StringList_DeepCopy.
Proof. apply DeepCopy_value_deep; [done|]. intros. by eapply make_and_copy_deep. Qed.

Lemma RuleDecisionList_deep : deep_value T_RuleDecisionList RuleDecisionList_DeepCopy.
Proof.
  apply DeepCopy_value_deep; [done|]. intros. eapply make_and_copy_each_deep; eauto with deep.
Qed.
End GeneratedFacts.
