(* ===== verification/DeepCopyReflect.v ===== *)
(** * A reference copy

    A deep copy by reflection that works on every acyclic value, and the tree of a value as
    a function.  The reference copy is not the code of a library: it shows that the laws of
    the libraries the generated code calls can be met, and makes the generated code
    executable. *)
From stdpp Require Import base gmap strings list numbers.
From S2P Require Import Prelude GoHeap GoHeapFacts DeepCopy DeepCopyFacts DeepCopyTypes DeepCopyProps.

(** Two lists with the names of [fs] that have the same fields. *)
Lemma fields_eq {A B} (fs : list (string * A)) (xs ys : list (string * B)) :
  NoDup fs.*1 -> xs.*1 = fs.*1 -> ys.*1 = fs.*1 ->
  (forall f v x y, field_get f fs = Some v -> field_get f xs = Some x -> field_get f ys = Some y -> x = y) ->
  xs = ys.
Proof.
  revert xs ys. induction fs as [|[f v] fs IH]; intros [|[g x] xs] [|[k y] ys]; try done.
  csimpl. intros [Hf Hnd]%list.NoDup_cons [= -> Hx] [= -> Hy] Heq. f_equal.
  { f_equal. apply (Heq f v); simpl; by rewrite String.eqb_refl. }
  apply IH; [done..|]. intros g v' x' y' Hv' Hx' Hy'.
  assert (f <> g) as Hne by (intros ->; apply Hf, field_get_is_Some; eauto).
  apply (Heq g v'); simpl; rewrite (proj2 (String.eqb_neq g f)) by done; done.
Qed.

(** ** Copying by reflection

    The copy is given a bound on the depth of what is copied. *)
Section Reflect.
Context `{MapRange}.

Fixpoint reflect_copy (n : nat) (v : gv) : M heap gv :=
  match n with
  | 0 => panic "too deep"
  | S n =>
      match v with
      | GStruct fs => fs' ← mapM (fun fx : string * gv => y ← reflect_copy n fx.2; mret (fx.1, y)) fs; mret (GStruct fs')
      | GPtr p => x ← load p; y ← reflect_copy n x; l ← alloc (CVar y); mret (GPtr (mkPlace l []))
      | GSlice l off k =>
          xs ← mapM (fun i => p ← index v i; load p) (seq 0 k);
          ys ← mapM (reflect_copy n) xs;
          l' ← alloc (CVar (GArray ys)); mret (GSlice l' 0 k)
      | GMap l =>
          kvs ← map_entries v;
          kvs' ← mapM (fun kv : string * gv => y ← reflect_copy n kv.2; mret (kv.1, y)) kvs;
          l' ← alloc (CMap (list_to_map kvs')); mret (GMap l')
      | v => mret v
      end
  end.

(** Copying the parts of a value one after the other. *)
Lemma reaches_mapM {A B} (f : A -> M heap B) (S : heap -> A -> B -> Prop) xs h :
  (forall h1 h2 x y, h1 ⊆ h2 -> S h1 x y -> S h2 x y) ->
  (forall x h1, x ∈ xs -> h ⊆ h1 -> reaches (f x) h1 (fun y h2 => h1 ⊆ h2 /\ S h2 x y)) ->
  forall h1, h ⊆ h1 -> reaches (mapM f xs) h1 (fun ys h2 => h1 ⊆ h2 /\ Forall2 (S h2) xs ys).
Proof.
  intros Hmono. induction xs as [|x xs IH]; intros Hf h1 Hs.
  { apply reaches_ret. split; [done|constructor]. }
  simpl. eapply reaches_then; [apply Hf; [set_solver|done]|]. intros y h2 [Hs2 Hy].
  eapply reaches_then; [apply IH; [|by etrans]|].
  { intros x' h' Hx' Hh'. apply Hf; [set_solver|done]. }
  intros ys h3 [Hs3 Hys]. apply reaches_ret. split; [by etrans|]. constructor; [by eapply Hmono|done].
Qed.

Fixpoint tdepth (tr : tree) : nat :=
  match tr with
  | LStruct fs => S (max_list_with (fun ft => tdepth ft.2) fs)
  | LPtr tr => S (tdepth tr)
  | LSlice trs => S (max_list_with tdepth trs)
  | LMap m => S (map_fold (fun _ tr n => Nat.max (tdepth tr) n) 0 m)
  | _ => 1
  end.

Lemma max_list_with_elem {A} (f : A -> nat) x l : x ∈ l -> f x <= max_list_with f l.
Proof. induction 1; simpl; lia. Qed.

Lemma field_get_elem {A} f (fs : list (string * A)) v : field_get f fs = Some v -> (f, v) ∈ fs.
Proof.
  induction fs as [|[g x] fs IH]; [done|]. simpl. destruct (String.eqb_spec f g) as [->|]; [|set_solver].
  intros [= ->]. set_solver.
Qed.

Lemma elem_field_get {A} f (fs : list (string * A)) x : NoDup fs.*1 -> (f, x) ∈ fs -> field_get f fs = Some x.
Proof.
  induction fs as [|[g y] fs IH]; [set_solver|]. csimpl. intros [Hg Hnd]%list.NoDup_cons Hx.
  destruct (String.eqb_spec f g) as [->|].
  - apply elem_of_cons in Hx as [[= ->]|Hx]; [done|]. exfalso. apply Hg, list_elem_of_fmap. by exists (g, x).
  - apply elem_of_cons in Hx as [[= -> ->]|Hx]; [done|auto].
Qed.

Lemma tdepth_field trs f tr : field_get f trs = Some tr -> tdepth tr < tdepth (LStruct trs).
Proof.
  intros Hf%field_get_elem. simpl.
  pose proof (max_list_with_elem (fun ft : string * tree => tdepth ft.2) (f, tr) trs Hf) as Hm. simpl in Hm. lia.
Qed.

Lemma tdepth_elem trs i tr : trs !! i = Some tr -> tdepth tr < tdepth (LSlice trs).
Proof. intros Hi%list_elem_of_lookup_2. pose proof (max_list_with_elem tdepth tr trs Hi). simpl. lia. Qed.

Lemma tdepth_entry (m : gmap string tree) k tr : m !! k = Some tr -> tdepth tr < tdepth (LMap m).
Proof.
  simpl. intros Hk. apply Nat.lt_succ_r. revert k tr Hk.
  apply (map_fold_weak_ind (fun n m => forall k tr, m !! k = Some tr -> tdepth tr <= n)).
  - intros k tr Hk. by rewrite lookup_empty in Hk.
  - intros i x m' n _ IH k tr [[<- <-]|[_ Hk]]%lookup_insert_Some; [lia|]. apply IH in Hk. lia.
Qed.

(** A value stands for one tree. *)
Lemma rep_det P h t v tr : rep P h t v tr -> forall t' tr', rep P h t' v tr' -> tr = tr'.
Proof.
  induction 1 as [s|z|s|b|fts fs trs Hnd Hn Htn Hf IH|t Ht|t p v tr Hp Hv Hr IH
                 |t l off k vs trs Hl Hvs Hlen Htrs Hel IH|t l m mt Hl Hm Hdom Hel IH|v tr Hr IH|t v tr Hr IH];
    intros t' tr' Hr'; [..|eauto|eauto];
    match type of Hr' with rep _ _ _ ?v _ => remember v as v' eqn:Ev end;
    induction Hr' as [| | | |fts' fs' trs' Hnd' Hn' Htn' Hf' _| |? ? ? ? ? ? ? _
                 |? ? ? ? ? trs' ? ? ? Htrs' ? _|? ? ? mt' ? ? Hdom' ? _|? ? ? IHr|? ? ? ? IHr];
    try (by auto); simplify_eq; try done; f_equal; eauto.
  - apply (fields_eq fs); [congruence..|]. intros f v tr1 tr2 Hv Htr1 Htr2.
    destruct (field_get_names f fs fts v Hn Hv) as [t Ht].
    destruct (field_get_names f fs fts' v Hn' Hv) as [t' Ht']. eauto.
  - apply list_eq_same_length with (length trs); [done|done|]. intros i tr1 tr2 Hi Htr1 Htr2.
    destruct (lookup_lt_is_Some_2 vs (off + i)) as [v Hv]; [lia|]. eauto.
  - apply map_eq. intros k. destruct (mt !! k) as [tr1|] eqn:E1, (mt' !! k) as [tr2|] eqn:E2; [|exfalso..|done].
    + destruct (proj2 (Hdom k)) as [v Hv]; [eauto|]. f_equal. eauto.
    + destruct (proj1 (Hdom' k)) as [? ?]; [|congruence]. apply Hdom. eauto.
    + destruct (proj1 (Hdom k)) as [? ?]; [|congruence]. apply Hdom'. eauto.
Qed.

(** From every larger heap, [n] levels are enough to copy [v]. *)
Definition copies_at (n : nat) (h : heap) (t : ty) (v : gv) (tr : tree) : Prop :=
  forall h1, h ⊆ h1 ->
  reaches (reflect_copy n v) h1 (fun w h2 => h1 ⊆ h2 /\ rep (fun l => h1 !! l = None) h2 t w tr).

Lemma rep_fresh_mono (ha hb h1 h2 : heap) t w tr :
  rep (fun l => hb !! l = None) h1 t w tr -> ha ⊆ hb -> h1 ⊆ h2 -> rep (fun l => ha !! l = None) h2 t w tr.
Proof.
  intros Hw Hab Hs. eapply rep_sub; [done| |done]. intros l Hl _. exact (lookup_weaken_None _ _ _ Hl Hab).
Qed.

Lemma reflect_struct n h fts fs trs :
  NoDup fts.*1 -> fs.*1 = fts.*1 -> trs.*1 = fts.*1 ->
  (forall f t v tr, field_get f fts = Some t -> field_get f fs = Some v -> field_get f trs = Some tr ->
     copies_at n h t v tr) ->
  copies_at (S n) h (TStruct fts) (GStruct fs) (LStruct trs).
Proof.
  intros Hnd Hn Htn IH h1 Hs. simpl. eapply reaches_then.
  { apply (reaches_mapM _ (fun h2 (fx fy : string * gv) => fy.1 = fx.1 /\ forall t tr,
      field_get fx.1 fts = Some t -> field_get fx.1 trs = Some tr ->
      rep (fun l => h1 !! l = None) h2 t fy.2 tr) fs h1); [| |done].
    - intros ha hb x y Hab [Hy1 Hy2]. split; [done|]. eauto using rep_fresh_mono.
    - intros [f x] h2 Hx Hs2. apply elem_field_get in Hx as Hx'; [|by rewrite Hn]. simpl.
      destruct (field_get_names f fs fts x Hn Hx') as [t Ht].
      destruct (field_get_names f fts trs t (eq_sym Htn) Ht) as [tr Htr].
      eapply reaches_then; [eapply (IH f t x tr Ht Hx' Htr h2); by etrans|].
      simpl. intros y h3 [Hs3 Hy]. apply reaches_ret. split; [done|]. split; [done|].
      intros t' tr' Ht' Htr'. simplify_eq. by eapply rep_fresh_mono. }
  intros ys h2 [Hs2 Hys]. apply reaches_ret. split; [done|]. constructor; [done| |done|].
  - rewrite <- Hn. clear -Hys. induction Hys as [|? ? ? ? [? _]]; [done|]. csimpl. congruence.
  - intros f t w tr Ht Hw%field_get_elem Htr. apply list_elem_of_lookup in Hw as [i Hi].
    destruct (Forall2_lookup_r _ _ _ _ _ Hys Hi) as ([g x] & Hx & Hy1 & Hy2). simpl in *. subst g. eauto.
Qed.

Lemma reflect_ptr n h t p v tr :
  read h p = Some v -> copies_at n h t v tr -> copies_at (S n) h (TPtr t) (GPtr p) (LPtr tr).
Proof.
  intros Hv IH h1 Hs. simpl. eapply reaches_load; [by eapply read_sub|].
  eapply reaches_then; [by apply IH|]. intros y h2 [Hs2 Hy].
  apply reaches_alloc. intros l Hl. apply reaches_ret.
  assert (Hl1 : h1 !! l = None) by exact (lookup_weaken_None _ _ _ Hl Hs2).
  split; [by apply sub_alloc|]. econstructor; [done|unfold read; simpl; by rewrite lookup_insert_eq|].
  eapply rep_fresh_mono; [done|done|]. by apply insert_subseteq.
Qed.

Lemma reflect_slice n P h t l off vs trs :
  h !! l = Some (CVar (GArray vs)) -> off + length trs <= length vs ->
  (forall i v tr, vs !! (off + i) = Some v -> trs !! i = Some tr -> rep P h t v tr /\ copies_at n h t v tr) ->
  copies_at (S n) h (TSlice t) (GSlice l off (length trs)) (LSlice trs).
Proof.
  intros Hvs Hlen IH h1 Hs. simpl. eapply reaches_then.
  { eapply (reaches_read_window _ _ _ vs); [by eapply lookup_weaken|done|lia|].
    instantiate (1 := fun xs h2 => h2 = h1 /\ xs = take (length trs) (drop off vs)). by rewrite Nat.add_0_r. }
  intros xs ? [-> ->]. eapply reaches_then.
  { apply (reaches_mapM _ (fun h2 (x y : gv) => forall i tr, vs !! (off + i) = Some x -> trs !! i = Some tr ->
      rep (fun l => h1 !! l = None) h2 t y tr) _ h1); [| |done].
    - intros ha hb x y Hab Hy i tr Hx Htr. eauto using rep_fresh_mono.
    - intros x h2 Hx Hs2. apply list_elem_of_lookup in Hx as [j [Hj Hlt]%lookup_take_Some].
      rewrite lookup_drop in Hj. destruct (lookup_lt_is_Some_2 trs j) as [tr Htr]; [done|].
      destruct (IH j x tr Hj Htr) as [Hr Hc]. eapply reaches_mono; [apply Hc; by etrans|].
      simpl. intros y h3 [Hs3 Hy]. split; [done|]. intros i tr' Hi Htr'.
      destruct (IH i x tr' Hi Htr') as [Hr' _]. rewrite (rep_det _ _ _ _ _ Hr' _ _ Hr).
      by eapply rep_fresh_mono. }
  intros ys h2 [Hs2 Hys]. apply reaches_alloc. intros l' Hl'. apply reaches_ret.
  assert (Hl1 : h1 !! l' = None) by exact (lookup_weaken_None _ _ _ Hl' Hs2).
  assert (Hy : length ys = length trs).
  { rewrite <- (list.Forall2_length _ _ _ Hys), length_take, length_drop. lia. }
  split; [by apply sub_alloc|]. econstructor; [done|by rewrite lookup_insert_eq|lia|done|].
  intros i w tr Hw Htr. destruct (Forall2_lookup_r _ _ _ _ _ Hys Hw) as (x & Hx & Hr).
  apply lookup_take_Some in Hx as [Hx _]. rewrite lookup_drop in Hx.
  eapply rep_fresh_mono; [by eapply Hr|done|]. by apply insert_subseteq.
Qed.

Lemma reflect_map n h t l (m : gmap string gv) mt :
  h !! l = Some (CMap m) -> (forall k, is_Some (m !! k) <-> is_Some (mt !! k)) ->
  (forall k v tr, m !! k = Some v -> mt !! k = Some tr -> copies_at n h t v tr) ->
  copies_at (S n) h (TMap t) (GMap l) (LMap mt).
Proof.
  intros Hm Hdom IH h1 Hs. simpl. eapply reaches_entries; [by eapply lookup_weaken|]. eapply reaches_then.
  { apply (reaches_mapM _ (fun h2 (kx ky : string * gv) => ky.1 = kx.1 /\ forall tr, mt !! kx.1 = Some tr ->
      rep (fun l => h1 !! l = None) h2 t ky.2 tr) _ h1); [| |done].
    - intros ha hb x y Hab [Hy1 Hy2]. split; [done|]. eauto using rep_fresh_mono.
    - intros [k x] h2 Hx%range_elem Hs2. destruct (proj1 (Hdom k)) as [tr Htr]; [eauto|].
      eapply reaches_then; [apply (IH k x tr Hx Htr h2); by etrans|].
      simpl. intros y h3 [Hs3 Hy]. apply reaches_ret. split; [done|]. split; [done|].
      intros tr' Htr'. simplify_eq. by eapply rep_fresh_mono. }
  intros ys h2 [Hs2 Hys]. apply reaches_alloc. intros l' Hl'. apply reaches_ret.
  assert (Hl1 : h1 !! l' = None) by exact (lookup_weaken_None _ _ _ Hl' Hs2).
  assert (Hkeys : ys.*1 = (range m).*1).
  { clear -Hys. induction Hys as [|? ? ? ? [? _]]; [done|]. csimpl. congruence. }
  split; [by apply sub_alloc|]. econstructor; [done|by rewrite lookup_insert_eq|..].
  - intros k. rewrite <- Hdom, <- !elem_of_dom, dom_list_to_map, Hkeys, elem_of_list_to_set, list_elem_of_fmap.
    rewrite elem_of_dom. split; [intros ([k' v] & -> & Hv%range_elem); simpl; eauto|].
    intros [v Hv]. exists (k, v). by rewrite range_elem.
  - intros k w tr Hw%elem_of_list_to_map_2 Htr. apply list_elem_of_lookup in Hw as [i Hi].
    destruct (Forall2_lookup_r _ _ _ _ _ Hys Hi) as ([g x] & Hx & Hy1 & Hy2). simpl in *. subst g.
    eapply rep_fresh_mono; [by eapply Hy2|done|]. by apply insert_subseteq.
Qed.

(** With enough depth the reference copy is deep. *)
Lemma reflect_copy_deep P h t v tr : rep P h t v tr -> forall n, tdepth tr <= n -> copies_at n h t v tr.
Proof.
  induction 1 as [s|z|s|b|fts fs trs Hnd Hn Htn Hf IH|t Ht|t p v tr Hp Hv Hr IH
                 |t l off k vs trs Hl Hvs Hlen Htrs Hel IH|t l m mt Hl Hm Hdom Hel IH|v tr Hr IH|t v tr Hr IH];
    intros n Hd.
  10-11: (intros h1 Hs; eapply reaches_mono; [by apply (IH n)|]; intros w h2 [? ?]; split; [done|by econstructor]).
  all: destruct n as [|n]; [simpl in Hd; lia|].
  1-4, 6: (intros h1 Hs; apply reaches_ret; split; [done|by constructor]).
  - apply reflect_struct; [done..|]. intros f t v tr Ht Hv Htr. apply (IH f t v tr Ht Hv Htr).
    pose proof (tdepth_field _ _ _ Htr). lia.
  - eapply reflect_ptr; [done|]. apply IH. simpl in Hd. lia.
  - subst k. eapply reflect_slice; [done|done|]. intros i v tr Hv Htr. split; [by eapply Hel|].
    apply (IH i v tr Hv Htr). pose proof (tdepth_elem _ _ _ Htr). lia.
  - eapply reflect_map; [done|done|]. intros k v tr Hv Htr. apply (IH k v tr Hv Htr).
    pose proof (tdepth_entry _ _ _ Htr). lia.
Qed.

(** *** A depth that is enough

    The values on a way down a tree are all different, since a value stands for one tree:
    there are no more of them than values in the heap. *)
Fixpoint subvals (v : gv) : list gv :=
  v :: match v with
       | GStruct fs => flat_map (fun fx => subvals fx.2) fs
       | GArray vs => flat_map subvals vs
       | _ => []
       end.

Definition cellvals (c : cell) : list gv :=
  match c with CVar v => subvals v | CMap m => flat_map (fun kx => subvals kx.2) (map_to_list m) end.
Definition allvals (h : heap) : list gv := flat_map (fun lc => cellvals lc.2) (map_to_list h).

Lemma flat_map_elem {A B} (f : A -> list B) l x : x ∈ l -> f x ⊆ flat_map f l.
Proof.
  intros Hx y Hy. apply list_elem_of_In, in_flat_map. exists x. by rewrite <- !list_elem_of_In.
Qed.

Lemma allvals_cell h l c : h !! l = Some c -> cellvals c ⊆ allvals h.
Proof. intros Hl. by apply (flat_map_elem (fun lc => cellvals lc.2) _ (l, c)), elem_of_map_to_list. Qed.

Lemma subvals_self v : v ∈ subvals v.
Proof. destruct v; apply list_elem_of_here. Qed.

Lemma subvals_field fs f x : field_get f fs = Some x -> subvals x ⊆ subvals (GStruct fs).
Proof.
  intros Hf%field_get_elem. etrans; [by apply (flat_map_elem (fun fx : string * gv => subvals fx.2) fs (f, x))|].
  simpl. set_solver.
Qed.

Lemma subvals_elem vs i x : vs !! i = Some x -> subvals x ⊆ subvals (GArray vs).
Proof.
  intros Hi%list_elem_of_lookup_2. etrans; [by apply (flat_map_elem subvals vs)|]. simpl. set_solver.
Qed.

Lemma subvals_path p v x : get_path p v = Some x -> subvals x ⊆ subvals v.
Proof.
  revert v. induction p as [|[f|i] p IH]; intros v; [by intros [= ->]|..]; destruct v; try done; simpl.
  - intros (y & Hy & Hx)%bind_Some. etrans; [by apply IH|]. by eapply subvals_field.
  - intros (y & Hy & Hx)%bind_Some. etrans; [by apply IH|]. by eapply subvals_elem.
Qed.

Lemma max_list_with_le {A} (f : A -> nat) l n : (forall x, x ∈ l -> f x <= n) -> max_list_with f l <= n.
Proof. induction l as [|x l IH]; intros Hl; simpl; [lia|]. pose proof (Hl x). assert (max_list_with f l <= n) by set_solver. set_solver by lia. Qed.

Lemma map_depth_le (m : gmap string tree) n : (forall k tr, m !! k = Some tr -> tdepth tr <= n) ->
  map_fold (fun _ tr n => Nat.max (tdepth tr) n) 0 m <= n.
Proof.
  apply (map_fold_weak_ind (fun r m => (forall k tr, m !! k = Some tr -> tdepth tr <= n) -> r <= n)); [lia|].
  intros k tr m' r Hk IH Hm. apply Nat.max_lub; [eapply Hm, lookup_insert_eq|].
  apply IH. intros k' tr' Hk'. eapply (Hm k'). rewrite lookup_insert_ne; [done|congruence].
Qed.

(** [L] are the values above one whose tree has depth [d]. *)
Definition above P (h : heap) (A : list gv) (d : nat) (L : list gv) : Prop :=
  NoDup L /\ L ⊆ A /\ forall u, u ∈ L -> exists t tr, rep P h t u tr /\ d < tdepth tr.

Lemma above_cons P h A t v tr L : rep P h t v tr -> subvals v ⊆ A -> above P h A (tdepth tr) L ->
  S (length L) <= length A /\ forall d, d < tdepth tr -> above P h A d (v :: L).
Proof.
  intros Hr Hv (Hnd & HL & Hbig).
  assert (v ∉ L) as Hnew.
  { intros (t' & tr' & Hr' & Hlt)%Hbig. rewrite (rep_det _ _ _ _ _ Hr _ _ Hr') in Hlt. lia. }
  assert (NoDup (v :: L)) by (by constructor).
  assert (v :: L ⊆ A) by (pose proof (subvals_self v); set_solver).
  split; [apply (submseteq_length (v :: L) A); by apply NoDup_submseteq|].
  intros d Hd. split_and!; [done..|]. intros u [->|Hu]%elem_of_cons; [eauto|].
  destruct (Hbig u Hu) as (t2 & tr2 & ? & ?). exists t2, tr2. split; [done|lia].
Qed.

Lemma depth_bound P h A t v tr : allvals h ⊆ A -> rep P h t v tr ->
  forall L, subvals v ⊆ A -> above P h A (tdepth tr) L -> tdepth tr + length L <= length A.
Proof.
  intros Hh Hr.
  induction Hr as [s|z|s|b|fts fs trs Hnd Hn Htn Hf IH|t Ht|t p v tr Hp Hv' Hr IH
                 |t l off k vs trs Hl Hvs Hlen Htrs Hel IH|t l m mt Hl Hm Hdom Hel IH|v tr Hr IH|t v tr Hr IH];
    intros L Hv Hab; [..|eauto|eauto];
    match type of Hab with above _ _ _ (tdepth ?tr) _ => match type of Hv with subvals ?v ⊆ _ =>
        assert (Hrep : exists t, rep P h t v tr) by (eexists; by econstructor); destruct Hrep as [t0 Hrep];
        destruct (above_cons _ _ _ _ _ _ _ Hrep Hv Hab) as [Hroom Hdown]
    end end; try (simpl; lia).
  - assert (max_list_with (fun ft : string * tree => tdepth ft.2) trs <= length A - S (length L)); [|simpl; lia].
    apply max_list_with_le. intros [f tr] Htr. simpl. apply elem_field_get in Htr; [|by rewrite Htn].
    destruct (field_get_names f trs fts tr Htn Htr) as [t Ht].
    destruct (field_get_names f fts fs t (eq_sym Hn) Ht) as [x Hx].
    enough (tdepth tr + length (GStruct fs :: L) <= length A) by (simpl in *; lia).
    apply (IH f t x tr Ht Hx Htr); [etrans; [by eapply subvals_field|done]|]. by eapply Hdown, tdepth_field.
  - enough (tdepth tr + length (GPtr p :: L) <= length A) by (simpl in *; lia).
    apply IH; [|apply Hdown; simpl; lia]. apply read_inv in Hv' as (x & Hx & Hpath).
    etrans; [by eapply subvals_path|]. etrans; [by apply (allvals_cell h (p_base p) (CVar x))|done].
  - assert (max_list_with tdepth trs <= length A - S (length L)); [|simpl; lia].
    apply max_list_with_le. intros tr [i Hi]%list_elem_of_lookup.
    destruct (lookup_lt_is_Some_2 vs (off + i)) as [x Hx]; [apply lookup_lt_Some in Hi; lia|].
    enough (tdepth tr + length (GSlice l off k :: L) <= length A) by (simpl in *; lia).
    apply (IH i x tr Hx Hi); [|by eapply Hdown, tdepth_elem].
    etrans; [by eapply subvals_elem|]. etrans; [by apply (allvals_cell h l (CVar (GArray vs)))|done].
  - assert (map_fold (fun _ tr n => Nat.max (tdepth tr) n) 0 mt <= length A - S (length L)); [|simpl; lia].
    apply map_depth_le. intros k tr Hk. destruct (proj2 (Hdom k)) as [x Hx]; [eauto|].
    enough (tdepth tr + length (GMap l :: L) <= length A) by (simpl in *; lia).
    apply (IH k x tr Hx Hk); [|by eapply Hdown, tdepth_entry].
    etrans; [|etrans; [by apply (allvals_cell h l (CMap m))|done]].
    by apply (flat_map_elem (fun kx : string * gv => subvals kx.2) _ (k, x)), elem_of_map_to_list.
Qed.

(** The reference copy, with a depth that is enough for every acyclic value. *)
Definition Copy (v : gv) : M heap gv := fun h => reflect_copy (length (subvals v ++ allvals h)) v h.

Lemma Copy_deep t : lossless t = true -> deep_value t Copy.
Proof.
  intros Ht h v tr P Hr. rewrite copied_lossless by done. unfold Copy.
  apply (reflect_copy_deep P h t v tr Hr); [|done].
  pose proof (depth_bound P h (subvals v ++ allvals h) t v tr) as Hb.
  rewrite <- (Nat.add_0_r (tdepth tr)). apply (Hb ltac:(set_solver) Hr []); [set_solver|].
  split_and!; [constructor|set_solver|set_solver].
Qed.
End Reflect.

(** ** Libraries that copy by reflection *)

Section ReflectLib.
Context `{MapRange}.

(** Some fields of the types of the API machinery. *)
Definition reflect_lib : DeepCopyLib := {|
  T_TypeMeta := TStruct ["Kind" ~> TString; "APIVersion" ~> TString];
  T_ObjectMeta := TStruct ["Name" ~> TString; "Labels" ~> TMap TString; "Finalizers" ~> TSlice TString];
  T_ListMeta := TStruct ["ResourceVersion" ~> TString; "RemainingItemCount" ~> TPtr TInt];
  T_LabelSelector := TStruct ["MatchLabels" ~> TMap TString];
  T_Time := TStruct ["wall" ~> TInt];
  ObjectMeta_DeepCopyInto := by_DeepCopy Copy;
  ListMeta_DeepCopyInto := by_DeepCopy Copy;
  LabelSelector_DeepCopyInto := by_DeepCopy Copy;
  Time_DeepCopy := Copy;
  deepcopy_Copy := Copy
|}.

Lemma reflect_laws : @DeepCopyLaws reflect_lib.
Proof.
  split; [done|..]; try (by apply by_DeepCopy_deep, Copy_deep); try (by apply Copy_deep).
  by repeat constructor.
Qed.
End ReflectLib.

(** ** The tree of a value, computed *)

Fixpoint reify (n : nat) (h : heap) (t : ty) (v : gv) : option tree :=
  match n with
  | 0 => None
  | S n =>
      match t, v with
      | TString, GString s => Some (LString s)
      | TInt, GInt z => Some (LInt z)
      | TFloat, GFloat s => Some (LFloat s)
      | TBool, GBool b => Some (LBool b)
      | TStruct fts, GStruct fs =>
          guard (NoDup fts.*1 /\ fs.*1 = fts.*1);;
          trs ← mapM (fun ft : string * ty =>
            x ← field_get ft.1 fs; tr ← reify n h ft.2 x; Some (ft.1, tr)) fts;
          Some (LStruct trs)
      | TPtr t, GPtr p => x ← read h p; LPtr <$> reify n h t x
      | TSlice t, GSlice l off k =>
          match h !! l with
          | Some (CVar (GArray vs)) =>
              guard (off + k <= length vs);; LSlice <$> mapM (reify n h t) (take k (drop off vs))
          | _ => None
          end
      | TMap t, GMap l =>
          match h !! l with
          | Some (CMap m) =>
              guard (map_Forall (fun _ x => is_Some (reify n h t x)) m);; Some (LMap (omap (reify n h t) m))
          | _ => None
          end
      | TRestriction, v => reify n h (TMap (TSlice TString)) v
      | TAny, GString _ => reify n h TString v
      | TAny, GFloat _ => reify n h TFloat v
      | TAny, GBool _ => reify n h TBool v
      | TAny, GSlice _ _ _ => reify n h (TSlice TAny) v
      | TAny, GMap _ => reify n h (TMap TAny) v
      | t, GNil => if nilable t then Some LNil else None
      | _, _ => None
      end
  end.

Lemma guard_inv (P : Prop) `{Decision P} {A} (x : option A) y : (guard P;; x) = Some y -> P /\ x = Some y.
Proof. case_guard; [done|]. done. Qed.

Lemma reify_sound n h t v tr : reify n h t v = Some tr -> rep (fun _ => True) h t v tr.
Proof.
  revert t v tr. induction n as [|n IH]; intros t v tr E; [done|].
  destruct t, v; simpl in E; simplify_eq; try (by constructor);
    try (by constructor; apply IH); try (by econstructor; apply IH); try done.
  - apply guard_inv in E as [[Hnd Hn] (trs & Htrs & [= <-])%bind_Some].
    apply mapM_Some in Htrs. constructor; [done|done|..].
    + clear -Htrs. induction Htrs as [|[f t] [g tr] ? ? (x & _ & (y & _ & [= <- <-])%bind_Some)%bind_Some]; [done|].
      csimpl. congruence.
    + intros f t v tr Ht Hv Htr%field_get_elem. apply list_elem_of_lookup in Htr as [i Hi].
      destruct (Forall2_lookup_r _ _ _ _ _ Htrs Hi) as ([g t'] & Hg & (x & Hx & (y & Hy & [= <- <-])%bind_Some)%bind_Some).
      simpl in *. simplify_eq. apply IH. rewrite <- Hy. do 2 f_equal.
      apply list_elem_of_lookup_2, elem_field_get in Hg; [|done]. congruence.
  - apply bind_Some in E as (x & Hx & Htr). apply fmap_Some in Htr as (tr' & Htr & ->).
    econstructor; [done|done|]. by apply IH.
  - destruct (h !! l) as [[[]|]|] eqn:El; try done. apply guard_inv in E as [Hlen Htr].
    apply fmap_Some in Htr as (trs & Htrs & ->). apply mapM_Some in Htrs.
    econstructor; [done|done|done| |].
    + rewrite <- (list.Forall2_length _ _ _ Htrs), length_take, length_drop. lia.
    + intros i x tr Hx Htr. destruct (Forall2_lookup_r _ _ _ _ _ Htrs Htr) as (y & Hy & Hr).
      apply lookup_take_Some in Hy as [Hy _]. rewrite lookup_drop in Hy. simplify_eq. by apply IH.
  - destruct (h !! l) as [[|m]|] eqn:El; try done. apply guard_inv in E as [Hall [= <-]].
    econstructor; [done|done|..].
    + intros k. rewrite lookup_omap. destruct (m !! k) as [x|] eqn:Ex; simpl; [|done].
      split; [intros _; by apply (Hall k x)|eauto].
    + intros k x tr Hx Htr. rewrite lookup_omap, Hx in Htr. by apply IH.
Qed.
