(* ===== verification/DeepCopyExamples.v ===== *)
(** * Deep copies are independent

    The theorem about all generated copies, and a copy that is evaluated. *)
From stdpp Require Import base gmap strings list numbers.
From S2P Require Import Prelude GoHeap GoHeapFacts DeepCopy DeepCopyFacts DeepCopyTypes DeepCopyProps DeepCopyReflect.

(** ** The property *)

(** [q] is a copy of what [p] points to, and neither sees what happens to the other. *)
Definition independent_copy (h : heap) (t : ty) (p : place) (v : gv) (tr : tree) (q : gv) (h' : heap) : Prop :=
  h ⊆ h' /\
  (forall h2, (forall l, h !! l = None -> h2 !! l = h' !! l) ->
     rep (fun l => h !! l = None) h2 (TPtr t) q (LPtr (copied t tr))) /\
  (forall h2, (forall l, is_Some (h !! l) -> h2 !! l = h' !! l) ->
     read h2 p = Some v /\ rep (fun l => is_Some (h !! l)) h2 t v tr).

(** The types of the decisions of configuration policies, which contain
    [adminrules.Restriction]. *)
Definition lossy_types : list string :=
  ["Restrictions"; "Decision"; "DecisionPerCapability"; "EvaluationOutputStructure"].

Lemma lossless_or_listed `{MapRange} `{DeepCopyLaws} :
  Forall (fun g => lossless g.1.2 || existsb (String.eqb g.1.1) lossy_types = true) generated_copies.
Proof.
  pose proof meta_lossless as HM.
  apply list.Forall_cons in HM as [HO HM]. apply list.Forall_cons in HM as [HL HM].
  apply list.Forall_cons in HM as [HS HM]. apply list.Forall_cons in HM as [HT _].
  pose proof (flat_lossless _ TypeMeta_flat) as Hty.
  unfold generated_copies.
  repeat (apply Forall_cons_2; [cbn; rewrite ?Hty, ?HO, ?HL, ?HS, ?HT; reflexivity|]). apply Forall_nil_2.
Qed.

(** The other copies lose nothing. *)
Lemma other_copies_exact `{MapRange} `{DeepCopyLaws} name t c tr :
  (name, t, c) ∈ generated_copies -> name ∉ lossy_types -> copied t tr = tr.
Proof.
  intros Hg Hn. apply copied_lossless.
  pose proof (proj1 (list.Forall_forall _ _) lossless_or_listed _ Hg) as Hl. simpl in Hl.
  apply orb_prop in Hl as [Hl|Hl]; [done|]. exfalso. apply Hn.
  change (existsb (String.eqb name) lossy_types = true) in Hl.
  apply existsb_exists in Hl as (x & Hx%list_elem_of_In & ->%String.eqb_eq). done.
Qed.

(** C17: every generated [DeepCopy] is deep: it runs to completion on every value of its type and
    changes no memory there was; the copy stands for the tree of the original, whatever is
    written to that memory later; and the original stands for the same tree whatever is written
    through the copy.  Only the copies of the decisions of configuration policies lose
    something: the lists of their restrictions. *)
Theorem generated_DeepCopy_independent `{MapRange} `{DeepCopyLaws} name t c h p v tr :
  (name, t, c) ∈ generated_copies -> read h p = Some v -> rep (fun _ => True) h t v tr ->
  reaches (DeepCopy_of t c (GPtr p)) h (independent_copy h t p v tr) /\
  (name ∉ lossy_types -> copied t tr = tr).
Proof.
  intros Hg Hp Hr. pose proof (proj1 (list.Forall_forall _ _) generated_deep _ Hg) as Hc. simpl in Hc.
  split; [|by apply other_copies_exact with (c := c)]. eapply reaches_mono.
  { eapply (DeepCopy_of_deep t c Hc h (GPtr p) (LPtr tr) (fun _ => True)). by econstructor. }
  intros q h' [Hs Hq]. split_and!; [done|..].
  - intros h2 Hag. eapply rep_frame; [exact Hq|]. intros l Hl _. split; [done|]. auto.
  - intros h2 Hag. assert (Hag' : forall l, is_Some (h !! l) -> h2 !! l = h !! l).
    { intros l [d Hd]. rewrite Hag by eauto. rewrite Hd. by eapply lookup_weaken. }
    split; [|eapply rep_frame; [done|]; by auto].
    rewrite <- Hp. apply read_agree, Hag'. apply read_inv in Hp as (? & -> & _). eauto.
Qed.



(** ** A copy, evaluated *)
Module CopyExample.
#[local] Existing Instance canonical_range.
#[local] Existing Instance reflect_lib.
#[local] Existing Instance reflect_laws.

(** The state of an asset with a condition, and an endpoint whose properties have a list. *)
Definition state : gv := GStruct [
  "Conditions" ~> GSlice 2 0 1;
  "CatalogedAsset" ~> GString "";
  "Endpoint" ~> GStruct ["Name" ~> GString "s3";
    "AdditionalProperties" ~> GStruct ["Items" ~> GMap 3]]].
Definition memory : heap := {[
  1%positive := CVar state;
  2%positive := CVar (GArray [GStruct ["Type" ~> GString "Ready"; "Status" ~> GString "True";
    "Message" ~> GString ""; "ObservedGeneration" ~> GInt 3]]);
  3%positive := CMap {[ "endpoint" := GString "http://localhost"; "buckets" := GSlice 4 0 2 ]};
  4%positive := CVar (GArray [GString "a"; GString "b"])
]}.
Definition original : place := mkPlace 1 [].

Definition state_tree : option tree := reify 10 memory T_AssetState state.

Definition run : option (gv * heap) :=
  match AssetState_DeepCopy (GPtr original) memory with Done r => Some r | Panic _ => None end.

(** The copy has the tree of the original and memory of its own. *)
Example copy_evaluates :
  match run with
  | Some (GPtr q, h') =>
      bool_decide (p_base q ∈ dom memory) = false /\ is_Some state_tree /\
      read h' q ≫= reify 10 h' T_AssetState = state_tree
  | _ => False
  end.
Proof. vm_compute. split_and!; [done|by eexists|done]. Qed.

(** The list of buckets of the original is changed afterwards: the copy keeps its own. *)
Example copy_is_independent :
  match run with
  | Some (GPtr q, h') =>
      let h2 := <[4%positive := CVar (GArray [GString "x"; GString "b"])]> h' in
      read h2 q ≫= reify 10 h2 T_AssetState = state_tree /\
      read h2 original ≫= reify 10 h2 T_AssetState <> state_tree
  | _ => False
  end.
Proof. vm_compute. split; [done|]. intros [=]. Qed.

Lemma listed : ("AssetState", T_AssetState, AssetState_DeepCopyInto) ∈ generated_copies.
Proof. by apply (list_elem_of_lookup_2 _ 25). Qed.

Definition the_tree : tree := default LNil state_tree.

Lemma state_rep : rep (fun _ => True) memory T_AssetState state the_tree.
Proof. apply (reify_sound 10). vm_compute. reflexivity. Qed.

Lemma not_lossy : "AssetState" ∉ lossy_types.
Proof. apply (bool_decide_unpack _). vm_compute. exact I. Qed.

Lemma generated_DeepCopy_independent_witness :
  reaches (AssetState_DeepCopy (GPtr original)) memory (independent_copy memory T_AssetState original state the_tree) /\
  copied T_AssetState the_tree = the_tree.
Proof.
  destruct (generated_DeepCopy_independent "AssetState" T_AssetState AssetState_DeepCopyInto memory original state the_tree
              listed eq_refl state_rep) as [Hcopy Hexact].
  exact (conj Hcopy (Hexact not_lossy)).
Defined.
End CopyExample.
