(* ===== verification/RestServer.v ===== *)
(** * The sample server of the data user

    [samples/rest-server]: HTTP endpoints that create, read, update and delete the
    FybrikApplications of the namespace the server runs in, and the secrets with the
    credentials of their users.  The handlers of [datauser] work on the two package
    variables [dmaClient] and [k8sClient], the pointers [main.go] sets when it builds the
    routes.  A handler answers through [go-chi/render]: the calls it makes of that library
    are kept in order, since a handler that does not return after an answer goes on to
    the next one.  A panic of a handler ends it; the answers given before stay. *)
From stdpp Require Import base gmap strings list numbers.
From S2P Require Import Prelude GoStrings Base64 Types External World.

(** ** The data of the package *)

(** [corev1.Secret], as the server uses it *)
Record CoreSecret := mkCoreSecret {
  sec_Meta : ObjectMeta;
  sec_Data : gomap string;
  sec_StringData : gomap string;
  sec_Type : string
}.
Definition secretKey (s : CoreSecret) : NamespacedName :=
  mkNamespacedName (meta_Name (sec_Meta s)) (meta_Namespace (sec_Meta s)).

(** [client] is the client of controller-runtime at the two types of objects the server
    works on. *)
Record K8sClient (W : Type) := mkK8sClient {
  k8s_apps : ObjectClient W FybrikApplication;
  k8s_secrets : ObjectClient W CoreSecret;
  k8s_namespace : string
}.
Arguments mkK8sClient {W}.
Arguments k8s_apps {W}.
Arguments k8s_secrets {W}.
Arguments k8s_namespace {W}.

Record UserCredentials := mkUserCredentials {
  SecretName : string;
  System : string;
  Credentials : gomap string
}.

Record DMASuccessResponse := mkDMASuccessResponse {
  dma_UniqueID : string;
  dma_DMA : option FybrikApplication; (* [None]: the zero value *)
  dma_Message : string
}.

Record CredsSuccessResponse := mkCredsSuccessResponse {
  creds_Secret : string;
  creds_Name : string;
  creds_Message : string
}.

Record EnvironmentInfo := mkEnvironmentInfo {
  env_Namespace : string;
  env_Geography : string;
  env_Systems : gomap (list string);
  env_DataSetIDFormat : string
}.

Record ErrResponse := mkErrResponse {
  er_Err : error;
  er_HTTPStatusCode : Z;
  er_StatusText : string;
  er_AppCode : Z;
  er_ErrorText : string
}.

(** What the server sends as JSON. *)
Inductive Body :=
| BApplication (a : FybrikApplication)
| BApplications (l : list FybrikApplication)
| BSuccess (r : DMASuccessResponse)
| BSecretData (d : value)
| BCreds (r : CredsSuccessResponse)
| BEnvironment (e : EnvironmentInfo)
| BError (e : ErrResponse).

(** The calls of [render]: [render.Status] sets the status of the answer, the others
    write a body with the status set last. *)
Inductive Answer :=
| Status (code : Z)
| JSON (b : Body).

(** ** Handlers *)

(** A handler goes from a world and the answers given so far to the world it leaves and
    the answers, with a result or a panic. *)
Definition Handler (W A : Type) : Type := W -> list Answer -> outcome A * W * list Answer.

#[export] Instance Handler_ret W : MRet (Handler W) := fun _ a w out => (Done a, w, out).
#[export] Instance Handler_bind W : MBind (Handler W) := fun _ _ k c w out =>
  match c w out with
  | (Done a, w', out') => k a w' out'
  | (Panic why, w', out') => (Panic why, w', out')
  end.

Definition answer {W} (a : Answer) : Handler W unit := fun w out => (Done tt, w, out ++ [a]).

(** A call of the Kubernetes client.  The only panics of the methods below come from a nil
    pointer, before any request is made. *)
Definition request {W A} (c : M W A) : Handler W A := fun w out =>
  match c w with
  | Done (a, w') => (Done a, w', out)
  | Panic why => (Panic why, w, out)
  end.

Definition deref {W A} (p : option A) : M W A :=
  match p with Some a => mret a | None => panic "invalid memory address or nil pointer dereference" end.

(** ** utils.go *)

Definition ErrResponse_Render {W} (e : ErrResponse) : Handler W unit := answer (Status (er_HTTPStatusCode e)).

(** [render.Render(w, r, v)]: the method [Render] of [v], then [v] as JSON, the content type
    the server sets. *)
Definition render_Render {W} (e : ErrResponse) : Handler W unit :=
  ErrResponse_Render e ;; answer (JSON (BError e)).

Definition ErrConfigProblem (err : error) : ErrResponse := {|
  er_Err := err; er_HTTPStatusCode := 500; er_StatusText := "Configuration problem.";
  er_AppCode := 0; er_ErrorText := Error err |}.
Definition ErrInvalidRequest (err : error) : ErrResponse := {|
  er_Err := err; er_HTTPStatusCode := 400; er_StatusText := "Invalid request.";
  er_AppCode := 0; er_ErrorText := Error err |}.
Definition SysErrRender (err : error) : ErrResponse := {|
  er_Err := err; er_HTTPStatusCode := 500; er_StatusText := "System Error: ";
  er_AppCode := 0; er_ErrorText := Error err |}.
Definition ErrRender (err : error) : ErrResponse := {|
  er_Err := err; er_HTTPStatusCode := 422; er_StatusText := "Error rendering response.";
  er_AppCode := 0; er_ErrorText := Error err |}.

(** A request: the parameters of its path and its body. *)
Record Request := mkRequest { URLParam : string -> string; RequestBody : string }.

(** [json.NewDecoder(body)] with [DisallowUnknownFields], then [Decode] into a structure
    of the type.  The types of Kubernetes the structures contain have decoders of their own. *)
Class RequestDecoder := {
  decodeApplication : string -> FybrikApplication + error;
  decodeCredentials : string -> UserCredentials + error
}.

Section Server.
Context `{MapRange, Runtime, RequestDecoder} {W : Type}.

(** ** k8sclient.go: the methods of K8sClient *)
Section Methods.
(** The package variable of credentialapis.go, and the receiver. *)
Context (k8sClient : option (K8sClient W)) (f : option (K8sClient W)).

Definition CreateApplication (obj : FybrikApplication) : M W (FybrikApplication + error) :=
  c ← deref f;
  r ← Create (k8s_apps c) obj;
  match r with
  | inr err => mret (inr err)
  | inl obj => mret (inl obj)
  end.

(** The key is that of the object: the name the caller gives is not used. *)
Definition UpdateApplication (name : string) (obj : FybrikApplication) : M W (FybrikApplication + error) :=
  let key := ObjectKey obj in
  c ← deref f;
  r ← Get (k8s_apps c) key;
  match r with
  | inr err => mret (inr err)
  | inl result =>
      let result := result <| app_Spec := app_Spec obj |> in
      r ← Update (k8s_apps c) result;
      match r with
      | inr err => mret (inr err)
      | inl result => mret (inl result)
      end
  end.

(** [types.NamespacedName{Name: name, Namespace: k8sClient.namespace}] *)
Definition keyOf (name : string) : M W NamespacedName :=
  g ← deref k8sClient;
  mret (mkNamespacedName name (k8s_namespace g)).

Definition DeleteApplication (name : string) : M W (option error) :=
  key ← keyOf name;
  c ← deref f;
  r ← Get (k8s_apps c) key;
  match r with
  | inr err => mret (Some err)
  | inl result => Delete (k8s_apps c) result
  end.

Definition GetApplication (name : string) : M W (FybrikApplication + error) :=
  key ← keyOf name;
  c ← deref f;
  r ← Get (k8s_apps c) key;
  match r with
  | inr err => mret (inr err)
  | inl result => mret (inl result)
  end.

Definition ListApplications : M W (list FybrikApplication + error) :=
  g ← deref k8sClient;
  c ← deref f;
  List_ (k8s_apps c) (k8s_namespace g).

(** [for key, val := range m { existing[key] = val }] *)
Definition mergeInto (existing m : gomap string) : outcome (gomap string) :=
  foldl (fun acc kv => acc ≫= fun e => mset e kv.1 kv.2) (Done existing) (range (gm m)).

Definition orEmpty (m : gomap string) : gomap string :=
  match m with None => Some ∅ | Some _ => m end.

Definition CreateOrUpdateSecret (obj : CoreSecret) : M W (CoreSecret + error) :=
  let key := secretKey obj in
  c ← deref f;
  r ← Get (k8s_secrets c) key;
  match r with
  | inl existing =>
      let existing := existing <| sec_Data := orEmpty (sec_Data existing) |> in
      let existing := existing <| sec_StringData := orEmpty (sec_StringData existing) |> in
      d ← lift (mergeInto (sec_Data existing) (sec_Data obj));
      let existing := existing <| sec_Data := d |> in
      s ← lift (mergeInto (sec_StringData existing) (sec_StringData obj));
      let existing := existing <| sec_StringData := s |> in
      r ← Update (k8s_secrets c) existing;
      match r with
      | inr err => mret (inr err)
      | inl existing => mret (inl existing)
      end
  | inr _ =>
      r ← Create (k8s_secrets c) obj;
      match r with
      | inr err => mret (inr err)
      | inl obj => mret (inl obj)
      end
  end.

Definition DeleteSecret (name : string) : M W (option error) :=
  key ← keyOf name;
  c ← deref f;
  r ← Get (k8s_secrets c) key;
  match r with
  | inr err => mret (Some err)
  | inl result => Delete (k8s_secrets c) result
  end.

Definition GetSecret (name : string) : M W (CoreSecret + error) :=
  key ← keyOf name;
  c ← deref f;
  r ← Get (k8s_secrets c) key;
  match r with
  | inr err => mret (inr err)
  | inl result => mret (inl result)
  end.
End Methods.

(** ** The handlers *)
Section Handlers.
Context (dmaClient k8sClient : option (K8sClient W)).

(** [if client == nil { render.Render(w, r, ErrConfigProblem(..)) }], without a return *)
Definition reportNil (client : option (K8sClient W)) (why : string) : Handler W unit :=
  match client with
  | None => render_Render (ErrConfigProblem (newError why))
  | Some _ => mret tt
  end.

Definition FybrikApplicationOptions (r : Request) : Handler W unit := answer (Status 200).

Definition ListFybrikApplications (r : Request) : Handler W unit :=
  reportNil dmaClient "no dmaClient set" ;;
  res ← request (ListApplications k8sClient dmaClient);
  match res with
  | inr err => render_Render (ErrRender err)
  | inl dmaList => answer (JSON (BApplications dmaList))
  end.

Definition GetFybrikApplication (r : Request) : Handler W unit :=
  reportNil dmaClient "no dmaClient set" ;;
  let fybrikapplicationID := URLParam r "fybrikapplicationID" in
  res ← request (GetApplication k8sClient dmaClient fybrikapplicationID);
  match res with
  | inr err => render_Render (ErrRender err)
  | inl dma => answer (JSON (BApplication dma))
  end.

(** [dmaStruct.Namespace = dmaClient.namespace] *)
Definition inNamespace (ns : string) (a : FybrikApplication) : FybrikApplication :=
  a <| app_Meta := (app_Meta a) <| meta_Namespace := ns |> |>.

Definition UpdateFybrikApplication (r : Request) : Handler W unit :=
  reportNil dmaClient "no dmaClient set" ;;
  match decodeApplication (RequestBody r) with
  | inr err => render_Render (ErrInvalidRequest err)
  | inl dmaStruct =>
      let fybrikapplicationID := URLParam r "fybrikapplicationID" in
      c ← request (deref dmaClient);
      let dmaStruct := inNamespace (k8s_namespace c) dmaStruct in
      res ← request (UpdateApplication dmaClient fybrikapplicationID dmaStruct);
      match res with
      | inr err => render_Render (ErrRender err)
      | inl dma =>
          answer (Status 200) ;;
          answer (JSON (BSuccess {| dma_UniqueID := app_Name dma; dma_DMA := Some dma; dma_Message := "Updated!!" |}))
      end
  end.

Definition DeleteFybrikApplication (r : Request) : Handler W unit :=
  reportNil dmaClient "no dmaClient set" ;;
  let fybrikapplicationID := URLParam r "fybrikapplicationID" in
  err ← request (DeleteApplication k8sClient dmaClient fybrikapplicationID);
  match err with
  | Some err => render_Render (ErrRender err)
  | None =>
      answer (Status 200) ;;
      answer (JSON (BSuccess {| dma_UniqueID := fybrikapplicationID; dma_DMA := None; dma_Message := "Deleted!!" |}))
  end.

Definition CreateFybrikApplication (r : Request) : Handler W unit :=
  match decodeApplication (RequestBody r) with
  | inr err => render_Render (ErrInvalidRequest err)
  | inl dmaStruct =>
      reportNil dmaClient "no dmaClient set" ;;
      c ← request (deref dmaClient);
      let dmaStruct := inNamespace (k8s_namespace c) dmaStruct in
      res ← request (CreateApplication dmaClient dmaStruct);
      match res with
      | inr err => render_Render (ErrRender err)
      | inl dma =>
          answer (Status 201) ;;
          answer (JSON (BSuccess {| dma_UniqueID := "123"; dma_DMA := Some dma; dma_Message := "Created!!" |}))
      end
  end.

(** *** credentialapis.go *)

Definition CredentialOptions (r : Request) : Handler W unit := answer (Status 200).

(** The JSON of [map[string][]byte]: byte slices are written in base64. *)
Definition Data_JSON (d : gomap string) : value :=
  match d with Some m => VMap ((fun bytes => VString (base64 bytes)) <$> m) | None => VNull end.

Definition GetCredentials (r : Request) : Handler W unit :=
  reportNil k8sClient "no k8sClient set" ;;
  let secretName := URLParam r "secret" in
  res ← request (GetSecret k8sClient k8sClient secretName);
  match res with
  | inr err => render_Render (ErrRender err)
  | inl secret => answer (JSON (BSecretData (Data_JSON (sec_Data secret))))
  end.

Definition DeleteCredentials (r : Request) : Handler W unit :=
  reportNil k8sClient "no client set" ;;
  let secretName := URLParam r "secret" in
  err ← request (DeleteSecret k8sClient k8sClient secretName);
  match err with
  | Some err => render_Render (ErrRender err)
  | None =>
      answer (Status 200) ;;
      answer (JSON (BCreds {| creds_Secret := ""; creds_Name := secretName; creds_Message := "Deleted!!" |}))
  end.

(** [metav1.ObjectMeta{Name: name, Namespace: ns}] *)
Definition metaOf (name ns : string) : ObjectMeta := {|
  meta_Name := name; meta_Namespace := ns; meta_UID := ""; meta_Generation := 0;
  meta_DeletionTimestamp := None; meta_Finalizers := []; meta_Labels := None;
  meta_Annotations := None; meta_ClusterName := "" |}.

(** The loop that adds the name of the system as a prefix to the credentials. *)
Definition prefixed (u : UserCredentials) : outcome (gomap string) :=
  foldl (fun acc kv => acc ≫= fun d => mset d (System u +:+ "_" +:+ kv.1) kv.2)
    (Done (Some ∅)) (range (gm (Credentials u))).

Definition StoreCredentials (r : Request) : Handler W unit :=
  reportNil k8sClient "no k8sClient set" ;;
  match decodeCredentials (RequestBody r) with
  | inr err => render_Render (ErrInvalidRequest err)
  | inl userCredentials =>
      c ← request (deref k8sClient);
      d ← request (lift (prefixed userCredentials));
      let secretStruct := {|
        sec_Meta := metaOf (SecretName userCredentials) (k8s_namespace c);
        sec_Data := d; sec_StringData := None; sec_Type := "Opaque" |} in
      res ← request (CreateOrUpdateSecret k8sClient secretStruct);
      match res with
      | inr err => render_Render (ErrConfigProblem err)
      | inl secret =>
          answer (Status 201) ;;
          answer (JSON (BCreds {| creds_Secret := ""; creds_Name := meta_Name (sec_Meta secret); creds_Message := "Created!!" |}))
      end
  end.

(** *** environmentapis.go, k8sInit.go *)

Definition GetCurrentNamespace : string :=
  match ReadFile "/var/run/secrets/kubernetes.io/serviceaccount/namespace" with
  | Some data =>
      let ns := TrimSpace data in
      if Nat.ltb 0 (String.length ns) then ns else "default"
  | None => "default"
  end.

Definition EnvOptions (r : Request) : Handler W unit := answer (Status 200).

(** A double quote, which the format of the identifiers contains. *)
Definition dquote : string := String (Ascii.ascii_of_nat 34) EmptyString.
Definition quoted (s : string) : string := dquote +:+ s +:+ dquote.

Definition GetEnvInfo (r : Request) : Handler W unit :=
  answer (JSON (BEnvironment {|
    env_Geography := Getenv "GEOGRAPHY";
    env_Namespace := GetCurrentNamespace;
    env_Systems := Some {[ "Egeria" := ["username"] ]};
    env_DataSetIDFormat :=
      "{" +:+ quoted "ServerName" +:+ ":" +:+ quoted "---" +:+ "," +:+
      quoted "AssetGuid" +:+ ":" +:+ quoted "---" +:+ "}" |})).
End Handlers.

(** [K8sInit], for what [kclient.New] gives for the configuration of the cluster. *)
Definition K8sInit (New : (ObjectClient W FybrikApplication * ObjectClient W CoreSecret) + error)
    : K8sClient W + error :=
  match New with
  | inr err => inr (wrapError "failed to create client" err)
  | inl (apps, secrets) => inl {| k8s_apps := apps; k8s_secrets := secrets; k8s_namespace := GetCurrentNamespace |}
  end.

(** ** The routes *)

Inductive Method := MGet | MDelete | MPost | MPut | MOptions.
Record Route := mkRoute { rt_Method : Method; rt_Pattern : string; rt_Handler : Request -> Handler W unit }.

(** The functions that build the routes set the package variables to the client; a
    handler reads both when a request comes in. *)
Section Routes.
Context (dmaClient k8sClient : option (K8sClient W)).

Definition DMARoutes : list Route := [
  mkRoute MGet "/{fybrikapplicationID}" (GetFybrikApplication dmaClient k8sClient);
  mkRoute MGet "/" (ListFybrikApplications dmaClient k8sClient);
  mkRoute MDelete "/{fybrikapplicationID}" (DeleteFybrikApplication dmaClient k8sClient);
  mkRoute MPost "/" (CreateFybrikApplication dmaClient);
  mkRoute MPut "/{fybrikapplicationID}" (UpdateFybrikApplication dmaClient);
  mkRoute MOptions "/*" FybrikApplicationOptions].

Definition CredentialRoutes : list Route := [
  mkRoute MGet "/{secret}" (GetCredentials k8sClient);
  mkRoute MDelete "/{secret}" (DeleteCredentials k8sClient);
  mkRoute MPost "/" (StoreCredentials k8sClient);
  mkRoute MOptions "/*" CredentialOptions].

Definition EnvironmentRoutes : list Route := [
  mkRoute MGet "/" GetEnvInfo;
  mkRoute MOptions "/" EnvOptions].
End Routes.

(** [r.Mount(prefix, routes)] below a route *)
Definition Mount (prefix : string) (l : list Route) : list Route :=
  (fun r => mkRoute (rt_Method r) (prefix +:+ rt_Pattern r) (rt_Handler r)) <$> l.

(** Both variables are set to the client the routes are built for. *)
Definition Routes (client : option (K8sClient W)) : list Route :=
  Mount "/v1/dma/fybrikapplication" (DMARoutes client client) ++
  Mount "/v1/creds/usercredentials" (CredentialRoutes client) ++
  Mount "/v1/env/datauserenv" EnvironmentRoutes.

(** [main], up to the point where it listens: the routes it serves. *)
Definition main (New : (ObjectClient W FybrikApplication * ObjectClient W CoreSecret) + error) : outcome (list Route) :=
  match K8sInit New with
  | inr err => Panic (Error err)
  | inl k8sclient => Done (Routes (Some k8sclient))
  end.
End Server.
