(* ===== verification/RestFacts.v ===== *)
(** * The sample server, as a registry of applications and a store of credentials

    The five endpoints for FybrikApplications implement a registry: a map from names to
    what the user asked for, with the answers of such a registry, for every sequence of
    requests.  Credentials that are stored can be read back, next to those stored before. *)
From stdpp Require Import base gmap strings list numbers fin_maps.
From S2P Require Import Prelude GoStrings Base64 Types External World RestServer.

(** ** Running handlers *)

Section Run.
Context {W : Type}.

Lemma run_ret {A B} (a : A) (k : A -> Handler W B) w out : (mret a ≫= k) w out = k a w out.
Proof. done. Qed.

Lemma run_answer {B} x (k : unit -> Handler W B) w out : (answer x ≫= k) w out = k tt w (out ++ [x]).
Proof. done. Qed.

Lemma run_request {A B} (c : M W A) (k : A -> Handler W B) w out a w' :
  c w = Done (a, w') -> (request c ≫= k) w out = k a w' out.
Proof. intros E. unfold mbind, Handler_bind, request. by rewrite E. Qed.

Lemma run_request_panic {A B} (c : M W A) (k : A -> Handler W B) w out why :
  c w = Panic why -> (request c ≫= k) w out = (Panic why, w, out).
Proof. intros E. unfold mbind, Handler_bind, request. by rewrite E. Qed.

Lemma run_Render e (w : W) out :
  render_Render e w out = (Done tt, w, out ++ [Status (er_HTTPStatusCode e); JSON (BError e)]).
Proof. unfold render_Render, ErrResponse_Render. rewrite run_answer. unfold answer. by rewrite <- app_assoc. Qed.
End Run.

(** ** Maps built by assignments *)

Lemma foldl_mset_Some {A} (f : string -> string) (l : list (string * A)) (m : gmap string A) :
  foldl (fun acc kv => acc ≫= fun d => mset d (f kv.1) kv.2) (Done (Some m)) l =
  Done (Some (foldl (fun m kv => <[f kv.1 := kv.2]> m) m l)).
Proof. revert m. induction l as [|[k v] l IH]; intros m; simpl; [done|apply IH]. Qed.

Lemma foldl_insert_union {A} (l : list (string * A)) (m : gmap string A) :
  NoDup l.*1 -> foldl (fun m kv => <[kv.1 := kv.2]> m) m l = list_to_map l ∪ m.
Proof.
  revert m. induction l as [|[k v] l IH]; intros m Hnd; simpl; [by rewrite map_empty_union|].
  apply list.NoDup_cons in Hnd as [Hk Hnd]. simpl in Hk. rewrite IH by done.
  rewrite <- insert_union_l, insert_union_r; [done|]. by apply not_elem_of_list_to_map_1.
Qed.

Lemma foldl_range_kmap `{MapRange} {A} (f : string -> string) `{!Inj (=) (=) f} (c m : gmap string A) :
  foldl (fun m kv => <[f kv.1 := kv.2]> m) m (range c) = kmap f c ∪ m.
Proof.
  assert (E : foldl (fun m kv => <[f kv.1 := kv.2]> m) m (range c) =
              foldl (fun m kv => <[kv.1 := kv.2]> m) m (prod_map f id <$> range c)).
  { generalize (range c). intros l. revert m. induction l as [|[k v] l IH]; intros m; simpl; [done|apply IH]. }
  assert (Hnd : NoDup (prod_map f id <$> range c).*1).
  { rewrite <- list_fmap_compose. replace (fst ∘ prod_map f id) with (f ∘ (fst : string * A -> string)) by done.
    rewrite list_fmap_compose. apply NoDup_fmap; [done|]. apply range_NoDup. }
  rewrite E, foldl_insert_union by done. f_equal. unfold kmap.
  apply list_to_map_proper; [done|]. by rewrite range_perm.
Qed.

Lemma foldl_range_union `{MapRange} {A} (c m : gmap string A) :
  foldl (fun m kv => <[kv.1 := kv.2]> m) m (range c) = c ∪ m.
Proof.
  rewrite foldl_insert_union by apply range_NoDup. f_equal.
  rewrite (list_to_map_proper _ _ (range_NoDup c) (range_perm c)). apply list_to_map_to_list.
Qed.

(** ** The registry *)

(** What a user asked for: the specification, and the finalizers that hold back a deletion. *)
Record Desired := mkDesired { des_Spec : FybrikApplicationSpec; des_Finalizers : list string }.
Definition desired (a : FybrikApplication) : Desired := mkDesired (app_Spec a) (meta_Finalizers (app_Meta a)).
Notation Registry := (gmap string Desired).

Inductive Endpoint := EGet | EList | EDelete | EPost | EPut.

Inductive Shown :=
| Found (name : string) (d : Desired)
| Listed (m : Registry)
| Created (name : string) (d : Desired)
| Updated (name : string) (d : Desired)
| Deleted (name : string)
| Rejected (code : Z).

(** Which applications the API server accepts: the schema of the custom resource and the
    admission webhook decide by name and specification. *)
Definition registry_step `{RequestDecoder} (admits : string -> FybrikApplicationSpec -> bool)
    (e : Endpoint) (r : Request) (m : Registry) : Registry * Shown :=
  let id := URLParam r "fybrikapplicationID" in
  match e with
  | EGet => (m, if m !! id is Some d then Found id d else Rejected 422)
  | EList => (m, Listed m)
  | EDelete =>
      match m !! id with
      | None => (m, Rejected 422)
      | Some d => (if des_Finalizers d is [] then delete id m else m, Deleted id)
      end
  | EPost =>
      match decodeApplication (RequestBody r) with
      | inr _ => (m, Rejected 400)
      | inl a =>
          if decide (m !! app_Name a = None /\ admits (app_Name a) (app_Spec a) = true)
          then (<[app_Name a := desired a]> m, Created (app_Name a) (desired a))
          else (m, Rejected 422)
      end
  | EPut =>
      match decodeApplication (RequestBody r) with
      | inr _ => (m, Rejected 400)
      | inl a =>
          match m !! app_Name a with
          | None => (m, Rejected 422)
          | Some d =>
              let d := mkDesired (app_Spec a) (des_Finalizers d) in
              if admits (app_Name a) (app_Spec a)
              then (<[app_Name a := d]> m, Updated (app_Name a) d)
              else (m, Rejected 422)
          end
      end
  end.

Definition registry_run `{RequestDecoder} (admits : string -> FybrikApplicationSpec -> bool)
    (calls : list (Endpoint * Request)) (m : Registry) : Registry * list Shown :=
  foldl (fun acc call => let (m', s) := registry_step admits call.1 call.2 acc.1 in (m', acc.2 ++ [s])) (m, []) calls.

(** The answers of the server that show an outcome of the registry. *)
Definition is_application (name : string) (d : Desired) (a : FybrikApplication) : Prop :=
  app_Name a = name /\ desired a = d.

Definition shows (out : list Answer) (s : Shown) : Prop :=
  match s with
  | Found name d => exists a, out = [JSON (BApplication a)] /\ is_application name d a
  | Listed m => exists l, out = [JSON (BApplications l)] /\
      (fun a => (app_Name a, desired a)) <$> l ≡ₚ map_to_list m
  | Created name d => exists a, is_application name d a /\
      out = [Status 201; JSON (BSuccess (mkDMASuccessResponse "123" (Some a) "Created!!"))]
  | Updated name d => exists a, is_application name d a /\
      out = [Status 200; JSON (BSuccess (mkDMASuccessResponse name (Some a) "Updated!!"))]
  | Deleted name => out = [Status 200; JSON (BSuccess (mkDMASuccessResponse name None "Deleted!!"))]
  | Rejected code => exists e, out = [Status code; JSON (BError e)]
  end.

(** *** The API server on FybrikApplications, when the server is the only writer

    The server fills in fields of its own (generation, identifiers) and keeps the name,
    the specification and the finalizers; an object with finalizers stays until they are
    removed. *)
Class ApplicationServer {W : Type} (cl : ObjectClient W FybrikApplication)
    (admits : string -> FybrikApplicationSpec -> bool)
    (objects : W -> NamespacedName -> option FybrikApplication) : Prop := {
  srv_key w k o : objects w k = Some o -> ObjectKey o = k;
  srv_Get k w : exists r, Get cl k w = Done (r, w) /\
    match objects w k with Some o => r = inl o | None => exists e, r = inr e end;
  srv_List ns w : exists l, List_ cl ns w = Done (inl l, w) /\ NoDup (ObjectKey <$> l) /\
    forall o, o ∈ l <-> objects w (ObjectKey o) = Some o /\ app_Namespace o = ns;
  srv_Create o w :
    if decide (objects w (ObjectKey o) = None /\ admits (app_Name o) (app_Spec o) = true)
    then exists o' w', Create cl o w = Done (inl o', w') /\ ObjectKey o' = ObjectKey o /\ desired o' = desired o /\
      forall k, objects w' k = if decide (k = ObjectKey o) then Some o' else objects w k
    else exists e, Create cl o w = Done (inr e, w);
  srv_Update o w : is_Some (objects w (ObjectKey o)) ->
    if admits (app_Name o) (app_Spec o)
    then exists o' w', Update cl o w = Done (inl o', w') /\ ObjectKey o' = ObjectKey o /\ desired o' = desired o /\
      forall k, objects w' k = if decide (k = ObjectKey o) then Some o' else objects w k
    else exists e, Update cl o w = Done (inr e, w);
  srv_Delete o w : objects w (ObjectKey o) = Some o ->
    exists w', Delete cl o w = Done (None, w') /\
      if decide (meta_Finalizers (app_Meta o) = [])
      then forall k, objects w' k = if decide (k = ObjectKey o) then None else objects w k
      else exists o', ObjectKey o' = ObjectKey o /\ desired o' = desired o /\
        forall k, objects w' k = if decide (k = ObjectKey o) then Some o' else objects w k
}.

Section RegistryRefinement.
Context `{MapRange, Runtime, RequestDecoder} {W : Type}.
Context (cl : K8sClient W) (admits : string -> FybrikApplicationSpec -> bool)
  (objects : W -> NamespacedName -> option FybrikApplication)
  `{!ApplicationServer (k8s_apps cl) admits objects}.

(** The handler of an endpoint, as the routes of the executable have it. *)
Definition endpoint (e : Endpoint) : Request -> Handler W unit :=
  match e with
  | EGet => GetFybrikApplication (Some cl) (Some cl)
  | EList => ListFybrikApplications (Some cl) (Some cl)
  | EDelete => DeleteFybrikApplication (Some cl) (Some cl)
  | EPost => CreateFybrikApplication (Some cl)
  | EPut => UpdateFybrikApplication (Some cl)
  end.

(** A sequence of requests: how each handler ended and what it answered. *)
Fixpoint serve (calls : list (Endpoint * Request)) (w : W) : list (outcome unit * list Answer) * W :=
  match calls with
  | [] => ([], w)
  | (e, r) :: calls =>
      let '(res, w1, out) := endpoint e r w [] in
      let '(rest, w2) := serve calls w1 in
      ((res, out) :: rest, w2)
  end.

Definition at_ns (name : string) : NamespacedName := mkNamespacedName name (k8s_namespace cl).

(** The registry holds what the server stores in the namespace of the executable. *)
Definition registers (w : W) (m : Registry) : Prop :=
  forall name, desired <$> objects w (at_ns name) = m !! name.

Definition elsewhere_same (w w' : W) : Prop :=
  forall k, nn_Namespace k <> k8s_namespace cl -> objects w' k = objects w k.

(** *** One write of the server, as an update of the registry *)

Lemma at_ns_elsewhere k name : nn_Namespace k <> k8s_namespace cl -> k <> at_ns name.
Proof. by intros Hk ->. Qed.

Lemma registers_write w w' m name o :
  registers w m ->
  (forall k, objects w' k = if decide (k = at_ns name) then o else objects w k) ->
  registers w' (partial_alter (fun _ => desired <$> o) name m) /\ elsewhere_same w w'.
Proof.
  intros Hm Hw. split.
  - intros n. rewrite Hw. case_decide as E.
    + injection E as ->. by rewrite lookup_partial_alter_eq.
    + rewrite lookup_partial_alter_ne by (by intros ->). apply Hm.
  - intros k Hk. rewrite Hw, decide_False by (by apply at_ns_elsewhere). done.
Qed.

Lemma registers_insert w w' m name o d :
  registers w m -> desired o = d ->
  (forall k, objects w' k = if decide (k = at_ns name) then Some o else objects w k) ->
  registers w' (<[name := d]> m) /\ elsewhere_same w w'.
Proof. intros Hm <- Hw. apply (registers_write w w' m name (Some o)); done. Qed.

Lemma registers_lookup w m name :
  registers w m ->
  match objects w (at_ns name) with
  | Some o => m !! name = Some (desired o) /\ ObjectKey o = at_ns name /\ app_Name o = name
  | None => m !! name = None
  end.
Proof.
  intros Hm. specialize (Hm name). destruct (objects w (at_ns name)) as [o|] eqn:E; simpl in Hm; [|done].
  pose proof (srv_key _ _ _ E) as Hk. split; [done|]. split; [done|]. by injection Hk.
Qed.

Lemma registers_none w m name : registers w m -> (objects w (at_ns name) = None <-> m !! name = None).
Proof. intros Hm. rewrite <- Hm. by rewrite fmap_None. Qed.

Lemma inNamespace_key a : ObjectKey (inNamespace (k8s_namespace cl) a) = at_ns (app_Name a).
Proof. by destruct a as [[] ? ?]. Qed.
Lemma inNamespace_desired ns a : desired (inNamespace ns a) = desired a.
Proof. by destruct a as [[] ? ?]. Qed.
Lemma inNamespace_name ns a : app_Name (inNamespace ns a) = app_Name a.
Proof. by destruct a as [[] ? ?]. Qed.
Lemma ObjectKey_name (a b : FybrikApplication) : ObjectKey a = ObjectKey b -> app_Name a = app_Name b.
Proof. by intros [=]. Qed.

(** *** The endpoints *)

Definition implements (e : Endpoint) (r : Request) (w : W) (m : Registry) : Prop :=
  exists out w', endpoint e r w [] = (Done tt, w', out) /\
    let (m', s) := registry_step admits e r m in
    shows out s /\ registers w' m' /\ elsewhere_same w w'.

Lemma implements_same e r w m out s :
  registers w m -> endpoint e r w [] = (Done tt, w, out) -> registry_step admits e r m = (m, s) -> shows out s ->
  implements e r w m.
Proof. intros Hm E Es Hs. exists out, w. rewrite Es. split; [done|]. split; [done|]. by split. Qed.

(** The call of the client behind a method, when both pointers are set. *)
Lemma run_Get (name : string) w : exists r, Get (k8s_apps cl) (at_ns name) w = Done (r, w) /\
  match objects w (at_ns name) with Some o => r = inl o | None => exists e, r = inr e end.
Proof. apply srv_Get. Qed.

Lemma get_implements r w m : registers w m -> implements EGet r w m.
Proof.
  intros Hm. set (id := URLParam r "fybrikapplicationID").
  destruct (run_Get id w) as (res & E & Hres). pose proof (registers_lookup w m id Hm) as Hl.
  assert (Eg : GetApplication (Some cl) (Some cl) id w = Done (res, w)).
  { unfold GetApplication, keyOf, deref, mbind, M_bind, mret, M_ret. fold (at_ns id). rewrite E. by destruct res. }
  assert (Er : endpoint EGet r w [] = match res with
    | inr err => render_Render (ErrRender err) | inl dma => answer (JSON (BApplication dma)) end w []).
  { simpl. unfold GetFybrikApplication. simpl. rewrite run_ret. by rewrite (run_request _ _ _ _ _ _ Eg). }
  destruct (objects w (at_ns id)) as [o|].
  - destruct Hl as (Hmid & _ & Hn). subst res.
    eapply implements_same; [done|exact Er| |].
    + simpl. fold id. by rewrite Hmid.
    + by exists o.
  - destruct Hres as [err ->]. eapply implements_same; [done|by rewrite Er, run_Render| |].
    + simpl. fold id. by rewrite Hl.
    + by eexists.
Qed.

Lemma list_registry l w m :
  registers w m -> NoDup (ObjectKey <$> l) ->
  (forall o, o ∈ l <-> objects w (ObjectKey o) = Some o /\ app_Namespace o = k8s_namespace cl) ->
  (fun a => (app_Name a, desired a)) <$> l ≡ₚ map_to_list m.
Proof.
  intros Hm Hnd Hl. apply NoDup_Permutation.
  - apply NoDup_fmap_2_strong; [|by apply NoDup_fmap_1 in Hnd].
    intros x y [Ex Nx]%Hl [Ey Ny]%Hl [= Hxy _ _].
    assert (ObjectKey x = ObjectKey y) as Hk by (unfold ObjectKey, app_Name, app_Namespace in *; simpl; congruence).
    rewrite Hk in Ex. congruence.
  - apply NoDup_map_to_list.
  - intros [n d]. rewrite elem_of_map_to_list, list_elem_of_fmap. rewrite <- Hm. split.
    + intros (o & [= -> ->] & [Eo Ho]%Hl). unfold at_ns. rewrite <- Ho.
      change (mkNamespacedName (app_Name o) (app_Namespace o)) with (ObjectKey o). by rewrite Eo.
    + intros (o & Eo & Ho)%fmap_Some. pose proof (srv_key _ _ _ Eo) as Hk.
      exists o. split.
      * injection Hk as Hn _. by rewrite <- Hn, Ho.
      * apply Hl. rewrite Hk. split; [done|]. by injection Hk.
Qed.

Lemma list_implements r w m : registers w m -> implements EList r w m.
Proof.
  intros Hm. destruct (srv_List (k8s_namespace cl) w) as (l & E & Hnd & Hl).
  eapply implements_same with (out := [JSON (BApplications l)]); [done| |done|].
  - simpl. unfold ListFybrikApplications. simpl. rewrite run_ret.
    erewrite run_request; [|unfold ListApplications, deref, mbind, M_bind, mret, M_ret; exact E]. done.
  - exists l. split; [done|]. by eapply list_registry.
Qed.

Lemma delete_implements r w m : registers w m -> implements EDelete r w m.
Proof.
  intros Hm. set (id := URLParam r "fybrikapplicationID").
  destruct (run_Get id w) as (res & E & Hres). pose proof (registers_lookup w m id Hm) as Hl.
  assert (Ed : DeleteApplication (Some cl) (Some cl) id w =
    match res with inr err => mret (Some err) | inl o => Delete (k8s_apps cl) o end w).
  { unfold DeleteApplication, keyOf, deref, mbind, M_bind, mret, M_ret. fold (at_ns id). by rewrite E. }
  assert (Er : forall err w', DeleteApplication (Some cl) (Some cl) id w = Done (err, w') ->
    endpoint EDelete r w [] = match err with
    | Some err => render_Render (ErrRender err)
    | None => answer (Status 200) ;;
        answer (JSON (BSuccess {| dma_UniqueID := id; dma_DMA := None; dma_Message := "Deleted!!" |})) end w' []).
  { intros err w' Ec. simpl. unfold DeleteFybrikApplication. simpl. rewrite run_ret.
    by rewrite (run_request _ _ _ _ _ _ Ec). }
  destruct (objects w (at_ns id)) as [o|] eqn:Eo.
  - destruct Hl as (Hmid & Hk & Hn). subst res. rewrite <- Hk in Eo.
    destruct (srv_Delete o w Eo) as (w' & Edel & Hw'). rewrite Edel in Ed.
    assert (Es : registry_step admits EDelete r m =
      (if meta_Finalizers (app_Meta o) is [] then delete id m else m, Deleted id)).
    { simpl. fold id. by rewrite Hmid. }
    eexists _, w'. split; [by rewrite (Er _ _ Ed)|]. rewrite Es.
    split; [done|]. rewrite Hk in Hw'. case_decide as Hf.
    + rewrite Hf. by apply (registers_write w w' m id None).
    + destruct Hw' as (o' & Hk' & Hd' & Hw').
      destruct (registers_insert w w' m id o' _ Hm Hd' Hw') as [Hr He].
      rewrite insert_id in Hr by done. by destruct (meta_Finalizers (app_Meta o)).
  - destruct Hres as [err ->]. eapply implements_same; [done|by rewrite (Er _ _ Ed), run_Render| |].
    + simpl. fold id. by rewrite Hl.
    + by eexists.
Qed.

Lemma create_implements r w m : registers w m -> implements EPost r w m.
Proof.
  intros Hm. unfold implements. simpl. unfold CreateFybrikApplication.
  destruct (decodeApplication (RequestBody r)) as [a|err]; simpl.
  2:{ eexists _, w. split; [apply run_Render|]. split; [by eexists|]. by split. }
  rewrite run_ret. erewrite (run_request (mret cl)) by reflexivity.
  set (o := inNamespace (k8s_namespace cl) a).
  pose proof (srv_Create o w) as Hc. unfold o in Hc.
  rewrite inNamespace_key, inNamespace_desired, inNamespace_name in Hc. fold o in Hc.
  replace (app_Spec o) with (app_Spec a) in Hc by (by destruct a as [[] ? ?]).
  rewrite (decide_ext _ (m !! app_Name a = None /\ admits (app_Name a) (app_Spec a) = true)) in Hc
    by (by rewrite (registers_none w m)).
  case_decide as Ha.
  - destruct Hc as (o' & w' & E & Hk & Hd & Hw').
    erewrite run_request by (unfold CreateApplication, deref, mbind, M_bind, mret, M_ret; by rewrite E).
    eexists _, w'. split; [reflexivity|]. split.
    + exists o'. split; [|done]. split; [by injection Hk|done].
    + by apply (registers_insert w w' m _ o').
  - destruct Hc as (err & E).
    erewrite run_request by (unfold CreateApplication, deref, mbind, M_bind, mret, M_ret; by rewrite E).
    eexists _, w. split; [apply run_Render|]. split; [by eexists|]. by split.
Qed.

Lemma update_implements r w m : registers w m -> implements EPut r w m.
Proof.
  intros Hm. unfold implements. simpl. unfold UpdateFybrikApplication. simpl. rewrite run_ret.
  destruct (decodeApplication (RequestBody r)) as [a|err]; simpl.
  2:{ eexists _, w. split; [apply run_Render|]. split; [by eexists|]. by split. }
  erewrite (run_request (mret cl)) by reflexivity.
  set (o := inNamespace (k8s_namespace cl) a).
  assert (Hspec : app_Spec o = app_Spec a) by (by destruct a as [[] ? ?]).
  destruct (run_Get (app_Name a) w) as (res & E & Hres). pose proof (registers_lookup w m (app_Name a) Hm) as Hl.
  unfold UpdateApplication. rewrite Hspec, (inNamespace_key a : ObjectKey o = _).
  destruct (objects w (at_ns (app_Name a))) as [old|] eqn:Eo.
  - destruct Hl as (Hmid & Hk & Hn). subst res. rewrite Hmid.
    set (new := old <| app_Spec := app_Spec a |>).
    assert (Hnew : ObjectKey new = at_ns (app_Name a) /\ app_Name new = app_Name a /\ app_Spec new = app_Spec a /\
      desired new = mkDesired (app_Spec a) (des_Finalizers (desired old))) by (by destruct old as [[] ? ?]).
    destruct Hnew as (Hk1 & Hn1 & Hs1 & Hd1).
    pose proof (srv_Update new w) as Hu. rewrite Hk1, Hn1, Hs1, Hd1, Eo in Hu. specialize (Hu ltac:(eauto)).
    destruct (admits (app_Name a) (app_Spec a)).
    + destruct Hu as (o' & w' & Eu & Hk' & Hd' & Hw'). injection Hk' as Hn' _.
      erewrite run_request by (unfold deref, mbind, M_bind, mret, M_ret; rewrite E; fold new; by rewrite Eu).
      eexists _, w'. split; [reflexivity|]. split.
      * exists o'. split; [by split|]. unfold app_Name at 1. by rewrite Hn'.
      * by apply (registers_insert w w' m _ o').
    + destruct Hu as (err & Eu).
      erewrite run_request by (unfold deref, mbind, M_bind, mret, M_ret; rewrite E; fold new; by rewrite Eu).
      eexists _, w. split; [apply run_Render|]. split; [by eexists|]. by split.
  - destruct Hres as [err ->]. rewrite Hl.
    erewrite run_request by (unfold deref, mbind, M_bind, mret, M_ret; by rewrite E).
    eexists _, w. split; [apply run_Render|]. split; [by eexists|]. by split.
Qed.

Lemma endpoint_implements e r w m : registers w m -> implements e r w m.
Proof.
  destruct e; [apply get_implements|apply list_implements|apply delete_implements
    |apply create_implements|apply update_implements].
Qed.

Lemma registry_run_cons e r calls m :
  registry_run admits ((e, r) :: calls) m =
  let (m1, s) := registry_step admits e r m in
  let (m2, rest) := registry_run admits calls m1 in (m2, s :: rest).
Proof.
  unfold registry_run. simpl. destruct (registry_step admits e r m) as [m1 s]. simpl.
  assert (Hacc : forall calls m acc,
    foldl (fun acc call => let (m', s) := registry_step admits call.1 call.2 acc.1 in (m', acc.2 ++ [s])) (m, acc) calls =
    let (m', rest) := foldl (fun acc call => let (m', s) := registry_step admits call.1 call.2 acc.1 in (m', acc.2 ++ [s])) (m, []) calls
    in (m', acc ++ rest)).
  { clear. induction calls as [|[e r] calls IH]; intros m acc; simpl; [by rewrite app_nil_r|].
    destruct (registry_step admits e r m) as [m1 s]. simpl. rewrite IH, (IH m1 [s]).
    destruct (foldl _ (m1, []) calls) as [m2 rest]. by rewrite <- app_assoc. }
  by rewrite Hacc.
Qed.

(** C24: the sample server is a registry of applications, on an API server that carries out
    what it admits, does not fail otherwise and has no other writer: for every sequence of
    requests to its five endpoints, each handler returns, its answer (status and body) is that
    of the registry, what the API server stores in the namespace of the server is the state of
    the registry afterwards, and no other namespace is touched.  In the registry an application
    is created under its name once, changed in its specification only, and gone after a
    deletion unless a finalizer holds it; what is refused leaves it as it is.  The registry has
    two particularities of the code that its documentation does not have: a PUT changes the
    application that is named in the body, whatever the path says, and the answer to a
    creation always carries the identifier 123. *)
Theorem server_implements_registry calls w m :
  registers w m ->
  let '(served, w') := serve calls w in
  let '(m', shown) := registry_run admits calls m in
  Forall2 (fun r s => r.1 = Done tt /\ shows r.2 s) served shown /\
  registers w' m' /\ elsewhere_same w w'.
Proof.
  revert w m. induction calls as [|[e r] calls IH]; intros w m Hm; [by split; [constructor|split]|].
  rewrite registry_run_cons. simpl.
  destruct (endpoint_implements e r w m Hm) as (out & w1 & E & Hs). rewrite E.
  destruct (registry_step admits e r m) as [m1 s]. destruct Hs as (Hshow & Hm1 & He1).
  specialize (IH w1 m1 Hm1). destruct (serve calls w1) as [rest w2].
  destruct (registry_run admits calls m1) as [m2 shown]. destruct IH as (Hall & Hm2 & He2).
  split; [by constructor|]. split; [done|]. intros k Hk. by rewrite He2, He1.
Qed.
End RegistryRefinement.

(** ** Credentials *)

(** The API server on secrets, when the server is the only writer: [stringData] is never
    read back, and a secret is accepted by its name and its data. *)
Class SecretServer {W : Type} (cl : ObjectClient W CoreSecret)
    (admits : string -> gmap string string -> bool)
    (objects : W -> NamespacedName -> option CoreSecret) : Prop := {
  sec_key w k o : objects w k = Some o -> secretKey o = k;
  sec_write_only w k o : objects w k = Some o -> gm (sec_StringData o) = ∅;
  sec_Get k w : exists r, Get cl k w = Done (r, w) /\
    match objects w k with Some o => r = inl o | None => exists e, r = inr e end;
  sec_Create o w : gm (sec_StringData o) = ∅ -> objects w (secretKey o) = None ->
    if admits (meta_Name (sec_Meta o)) (gm (sec_Data o))
    then exists o' w', Create cl o w = Done (inl o', w') /\ secretKey o' = secretKey o /\
      gm (sec_Data o') = gm (sec_Data o) /\
      forall k, objects w' k = if decide (k = secretKey o) then Some o' else objects w k
    else exists e, Create cl o w = Done (inr e, w);
  sec_Update o w : gm (sec_StringData o) = ∅ -> is_Some (objects w (secretKey o)) ->
    if admits (meta_Name (sec_Meta o)) (gm (sec_Data o))
    then exists o' w', Update cl o w = Done (inl o', w') /\ secretKey o' = secretKey o /\
      gm (sec_Data o') = gm (sec_Data o) /\
      forall k, objects w' k = if decide (k = secretKey o) then Some o' else objects w k
    else exists e, Update cl o w = Done (inr e, w)
}.

(** The data a request adds: each credential under the name of the system and its own. *)
Definition under (system key : string) : string := system +:+ "_" +:+ key.
#[export] Instance under_inj system : Inj (=) (=) (under system).
Proof. intros x y E. unfold under in E. by apply str_app_inj_l, str_app_inj_l in E. Qed.

Definition added (u : UserCredentials) : gmap string string := kmap (under (System u)) (gm (Credentials u)).

Lemma prefixed_added `{MapRange} u : prefixed u = Done (Some (added u)).
Proof.
  etrans; [apply (foldl_mset_Some (under (System u)))|].
  by rewrite foldl_range_kmap, map_union_empty by apply _.
Qed.

Lemma mergeInto_union `{MapRange} (e m : gomap string) :
  mergeInto (orEmpty e) m = Done (Some (gm m ∪ gm e)).
Proof.
  unfold mergeInto. replace (orEmpty e) with (Some (gm e)) by (by destruct e).
  etrans; [apply (foldl_mset_Some id)|]. simpl. by rewrite foldl_range_union.
Qed.

Section CredentialStore.
Context `{MapRange, Runtime, RequestDecoder} {W : Type}.
Context (cl : K8sClient W) (admits : string -> gmap string string -> bool)
  (objects : W -> NamespacedName -> option CoreSecret)
  `{!SecretServer (k8s_secrets cl) admits objects}.

Definition stored (w : W) (name : string) : gmap string string :=
  default ∅ ((fun s => gm (sec_Data s)) <$> objects w (mkNamespacedName name (k8s_namespace cl))).

(** Writing a secret keeps what is stored under other keys of its data. *)
Lemma CreateOrUpdateSecret_merges o w :
  meta_Namespace (sec_Meta o) = k8s_namespace cl -> gm (sec_StringData o) = ∅ ->
  let name := meta_Name (sec_Meta o) in
  if admits name (gm (sec_Data o) ∪ stored w name)
  then exists o' w', CreateOrUpdateSecret (Some cl) o w = Done (inl o', w') /\ meta_Name (sec_Meta o') = name /\
    gm (sec_Data o') = gm (sec_Data o) ∪ stored w name /\
    forall k, objects w' k = if decide (k = mkNamespacedName name (k8s_namespace cl)) then Some o' else objects w k
  else exists e, CreateOrUpdateSecret (Some cl) o w = Done (inr e, w).
Proof.
  intros Hns Hsd name. unfold stored.
  assert (Hkey : secretKey o = mkNamespacedName name (k8s_namespace cl)) by (unfold secretKey; by rewrite Hns).
  set (key := mkNamespacedName name (k8s_namespace cl)) in *.
  destruct (sec_Get key w) as (res & Eg & Hres). destruct (objects w key) as [old|] eqn:Eo; simpl.
  - subst res. pose proof (sec_key _ _ _ Eo) as Hko. pose proof (sec_write_only _ _ _ Eo) as Hso.
    set (new := mkCoreSecret (sec_Meta old) (Some (gm (sec_Data o) ∪ gm (sec_Data old))) (Some ∅) (sec_Type old)).
    assert (Hkn : secretKey new = key) by done. assert (Hnn : meta_Name (sec_Meta new) = name) by (by injection Hko).
    pose proof (sec_Update new w eq_refl) as Hu. rewrite Hkn, Hnn, Eo in Hu. specialize (Hu ltac:(eauto)). simpl in Hu.
    assert (E : forall res w', Update (k8s_secrets cl) new w = Done (res, w') ->
      CreateOrUpdateSecret (Some cl) o w = Done (res, w')).
    { intros res w' Ew. unfold CreateOrUpdateSecret. rewrite Hkey. unfold deref, mbind, M_bind, mret, M_ret, lift.
      fold key. rewrite Eg. clear - Ew Hso Hsd. destruct old as [om od os ot]. simpl in *.
      rewrite !mergeInto_union, Hso, Hsd, map_empty_union. fold new. rewrite Ew. by destruct res. }
    destruct (admits name _).
    + destruct Hu as (o' & w' & Ew & Hk' & Hd & Hw). exists o', w'. split; [by apply E|].
      split; [by injection Hk'|]. by split.
    + destruct Hu as (e & Ew). exists e. by apply E.
  - destruct Hres as [e0 ->]. rewrite map_union_empty.
    pose proof (sec_Create o w Hsd) as Hc. rewrite Hkey in Hc. specialize (Hc Eo). fold name in Hc.
    assert (E : forall res w', Create (k8s_secrets cl) o w = Done (res, w') ->
      CreateOrUpdateSecret (Some cl) o w = Done (res, w')).
    { intros res w' Ew. unfold CreateOrUpdateSecret. rewrite Hkey. unfold deref, mbind, M_bind, mret, M_ret.
      fold key. rewrite Eg, Ew. by destruct res. }
    destruct (admits name _).
    + destruct Hc as (o' & w' & Ew & Hk' & Hd & Hw). exists o', w'. split; [by apply E|].
      split; [by injection Hk'|]. by split.
    + destruct Hc as (e & Ew). exists e. by apply E.
Qed.

Lemma GetCredentials_found r w name s :
  URLParam r "secret" = name -> objects w (mkNamespacedName name (k8s_namespace cl)) = Some s ->
  GetCredentials (Some cl) r w [] = (Done tt, w, [JSON (BSecretData (Data_JSON (sec_Data s)))]).
Proof.
  intros <- Es. destruct (sec_Get (mkNamespacedName (URLParam r "secret") (k8s_namespace cl)) w) as (res & Eg & Hres).
  rewrite Es in Hres. subst res. unfold GetCredentials. simpl. rewrite run_ret.
  erewrite run_request by (unfold GetSecret, keyOf, deref, mbind, M_bind, mret, M_ret; by rewrite Eg). done.
Qed.

(** The JSON document has exactly these data, each value in base64. *)
Definition carries_data (body : value) (data : gmap string string) : Prop :=
  match body with
  | VNull => data = ∅
  | VMap m => forall k bytes, data !! k = Some bytes <->
      exists text, m !! k = Some (VString text) /\ DecodeString text = Some bytes
  | _ => False
  end.

Lemma Data_JSON_carries d : carries_data (Data_JSON d) (gm d).
Proof.
  destruct d as [m|]; [|done]. simpl. intros k bytes. rewrite lookup_fmap. split.
  - intros ->. eexists. split; [done|apply base64_roundtrip].
  - destruct (m !! k) as [b|]; simpl; intros (text & [= <-] & E). rewrite base64_roundtrip in E. congruence.
Qed.

(** C27: credentials that are stored can be read back: for a request that can be decoded, on an
    API server that keeps the data of the secrets it accepts, does not fail otherwise and has
    no other writer, after [StoreCredentials] the secret holds each credential under the name
    of the system and its own, on top of what was stored before; the document that
    [GetCredentials] answers with has exactly these keys, and each of its values decodes to
    the credential from base64 (the README shows the plain text there); and no other secret
    has changed.  A secret the API server does not accept is answered with status 500 and
    nothing changes. *)
Theorem credentials_roundtrip r w u :
  decodeCredentials (RequestBody r) = inl u ->
  let name := SecretName u in
  let data := added u ∪ stored w name in
  if admits name data
  then exists w' body,
    StoreCredentials (Some cl) r w [] = (Done tt, w', [Status 201; JSON (BCreds (mkCredsSuccessResponse "" name "Created!!"))]) /\
    (forall r', URLParam r' "secret" = name ->
       GetCredentials (Some cl) r' w' [] = (Done tt, w', [JSON (BSecretData body)])) /\
    carries_data body data /\
    (forall k, k <> mkNamespacedName name (k8s_namespace cl) -> objects w' k = objects w k)
  else exists e, StoreCredentials (Some cl) r w [] = (Done tt, w, [Status 500; JSON (BError e)]).
Proof.
  intros Hdec name data. unfold StoreCredentials. rewrite Hdec. simpl. rewrite run_ret.
  erewrite (run_request (mret cl)) by reflexivity.
  erewrite run_request by (unfold lift; by rewrite prefixed_added).
  set (o := mkCoreSecret (metaOf name (k8s_namespace cl)) (Some (added u)) None "Opaque").
  pose proof (CreateOrUpdateSecret_merges o w eq_refl eq_refl) as Hc. simpl in Hc. fold data in Hc.
  destruct (admits name data).
  - destruct Hc as (o' & w' & E & Hn & Hd & Hw). rewrite (run_request _ _ _ _ _ _ E).
    exists w', (Data_JSON (sec_Data o')). split; [by rewrite Hn|]. split; [|split].
    + intros r' Hr. eapply GetCredentials_found; [done|]. by rewrite Hw, decide_True.
    + rewrite <- Hd. apply Data_JSON_carries.
    + intros k Hk. by rewrite Hw, decide_False.
  - destruct Hc as (e & E). rewrite (run_request _ _ _ _ _ _ E). by eexists.
Qed.
End CredentialStore.

(** ** Every route answers once *)

(** The operations of a client return, with a result or an error. *)
Record returning_client {W T} (cl : ObjectClient W T) : Prop := {
  ret_Get k : total (Get cl k);
  ret_List ns : total (List_ cl ns);
  ret_Create o : total (Create cl o);
  ret_Update o : total (Update cl o);
  ret_Delete o : total (Delete cl o)
}.

(** One body, with at most one status before it. *)
Definition answered (out : list Answer) : Prop :=
  exists b, out = [JSON b] \/ exists code, out = [Status code; JSON b].

Definition answers_with {W} (P : list Answer -> Prop) (h : Handler W unit) : Prop :=
  forall w, exists w' out, h w [] = (Done tt, w', out) /\ P out.

Section AnswerOnce.
Context `{MapRange, Runtime, RequestDecoder} {W : Type}.

Lemma answers_Render e : answers_with (W := W) answered (render_Render e).
Proof. intros w. eexists _, _. split; [apply run_Render|]. eexists. right. by eexists. Qed.

Lemma answers_JSON b : answers_with (W := W) answered (answer (JSON b)).
Proof. intros w. eexists _, _. split; [done|]. eexists. by left. Qed.

Lemma answers_Status_JSON code b : answers_with (W := W) answered (answer (Status code) ;; answer (JSON b)).
Proof. intros w. eexists _, _. split; [done|]. eexists. right. by eexists. Qed.

Lemma answers_request {A} (c : M W A) (k : A -> Handler W unit) P :
  total c -> (forall a, answers_with P (k a)) -> answers_with P (request c ≫= k).
Proof.
  intros Hc Hk w. destruct (Hc w) as (a & w1 & E & _). rewrite (run_request _ _ _ _ _ _ E). apply Hk.
Qed.

Lemma answers_ret {A} (a : A) (k : A -> Handler W unit) P : answers_with P (k a) -> answers_with P (mret a ≫= k).
Proof. done. Qed.

Lemma total_deref {A} (a : A) : total (deref (Some a) : M W A).
Proof. apply total_ret. Qed.

Lemma total_prefixed u : total (lift (prefixed u) : M W _).
Proof. apply total_lift. rewrite prefixed_added. by eexists. Qed.

Lemma total_mergeInto e m : total (lift (mergeInto (orEmpty e) m) : M W _).
Proof. apply total_lift. rewrite mergeInto_union. by eexists. Qed.

Lemma total_deref_bind {A B} (a : A) (k : A -> M W B) : total (k a) -> total (deref (Some a) ≫= k).
Proof. done. Qed.

Lemma answers_deref {A} (a : A) (k : A -> Handler W unit) P :
  answers_with P (k a) -> answers_with P (request (deref (Some a)) ≫= k).
Proof. done. Qed.

Context (cl : K8sClient W) (Happs : returning_client (k8s_apps cl)) (Hsecrets : returning_client (k8s_secrets cl)).

#[local] Hint Resolve total_prefixed total_mergeInto ret_Get ret_List ret_Create ret_Update ret_Delete : go_total.

(** The methods of the client return. *)
Ltac method := repeat first
  [ progress cbn beta zeta
  | lazymatch goal with |- returning _ (deref (Some _) ≫= _) => apply total_deref_bind end
  | lazymatch goal with |- returning _ (match ?x with _ => _ end) => destruct x end
  | lazymatch goal with |- returning _ (_ ≫= _) => apply total_bind; [|intros ?] end
  | solve [eauto 2 with go_total] ].

Lemma total_keyOf name : total (keyOf (Some cl) name).
Proof. apply total_deref_bind, total_ret. Qed.
#[local] Hint Resolve total_keyOf : go_total.

Lemma total_ListApplications : total (ListApplications (Some cl) (Some cl)).
Proof. unfold ListApplications. method. Qed.
Lemma total_GetApplication name : total (GetApplication (Some cl) (Some cl) name).
Proof. unfold GetApplication. method. Qed.
Lemma total_DeleteApplication name : total (DeleteApplication (Some cl) (Some cl) name).
Proof. unfold DeleteApplication. method. Qed.
Lemma total_CreateApplication o : total (CreateApplication (Some cl) o).
Proof. unfold CreateApplication. method. Qed.
Lemma total_UpdateApplication name o : total (UpdateApplication (Some cl) name o).
Proof. unfold UpdateApplication. method. Qed.
Lemma total_GetSecret name : total (GetSecret (Some cl) (Some cl) name).
Proof. unfold GetSecret. method. Qed.
Lemma total_DeleteSecret name : total (DeleteSecret (Some cl) (Some cl) name).
Proof. unfold DeleteSecret. method. Qed.
Lemma total_CreateOrUpdateSecret o : total (CreateOrUpdateSecret (Some cl) o).
Proof.
  unfold CreateOrUpdateSecret. apply total_deref_bind. cbn beta zeta.
  apply total_bind; [eauto with go_total|]. intros [[om od os ot]|e]; simpl; method.
Qed.
#[local] Hint Resolve total_ListApplications total_GetApplication total_DeleteApplication total_CreateApplication
  total_UpdateApplication total_GetSecret total_DeleteSecret total_CreateOrUpdateSecret : go_total.
#[local] Hint Resolve answers_Render answers_JSON answers_Status_JSON : go_total.

(** The handlers answer once, by their structure. *)
Ltac handler := repeat first
  [ progress cbn beta zeta iota
  | solve [eauto 2 with go_total]
  | lazymatch goal with |- answers_with _ (mret _ ≫= _) => apply answers_ret end
  | lazymatch goal with |- answers_with _ (request (deref (Some _)) ≫= _) => apply answers_deref end
  | lazymatch goal with |- answers_with _ (request _ ≫= _) => apply answers_request; [|intros ?] end
  | lazymatch goal with |- answers_with _ (match ?x with _ => _ end) => destruct x end ].

Definition once (rt : Route) : Prop := forall r,
  answers_with (W := W) (match rt_Method rt with MOptions => fun out => out = [Status 200] | _ => answered end) (rt_Handler rt r).

Lemma once_Mount p l : Forall once l -> Forall once (Mount p l).
Proof. intros Hl. apply list.Forall_fmap. eapply list.Forall_impl; [exact Hl|]. done. Qed.

Lemma DMARoutes_once : Forall once (DMARoutes (Some cl) (Some cl)).
Proof.
  unfold DMARoutes. repeat constructor; intros r; cbn [rt_Method rt_Handler].
  - unfold GetFybrikApplication, reportNil. handler.
  - unfold ListFybrikApplications, reportNil. handler.
  - unfold DeleteFybrikApplication, reportNil. handler.
  - unfold CreateFybrikApplication, reportNil. handler.
  - unfold UpdateFybrikApplication, reportNil. handler.
  - intros w. by eexists _, _.
Qed.

Lemma CredentialRoutes_once : Forall once (CredentialRoutes (Some cl)).
Proof.
  unfold CredentialRoutes. repeat constructor; intros r; cbn [rt_Method rt_Handler].
  - unfold GetCredentials, reportNil. handler.
  - unfold DeleteCredentials, reportNil. handler.
  - unfold StoreCredentials, reportNil. handler.
  - intros w. by eexists _, _.
Qed.

Lemma EnvironmentRoutes_once : Forall once EnvironmentRoutes.
Proof.
  unfold EnvironmentRoutes. repeat constructor; intros r; cbn [rt_Method rt_Handler].
  - unfold GetEnvInfo. handler.
  - intros w. by eexists _, _.
Qed.

Lemma Routes_once : Forall once (Routes (Some cl)).
Proof.
  unfold Routes. rewrite !list.Forall_app.
  auto using once_Mount, DMARoutes_once, CredentialRoutes_once, EnvironmentRoutes_once.
Qed.
End AnswerOnce.

(** Each route the executable serves gives one answer to each request, whatever the API
    server does: one body with at most one status before it, and only the status for the
    method OPTIONS. *)
Theorem server_answers_once `{MapRange, Runtime, RequestDecoder} {W} New routes :
  (forall apps secrets, New = inl (apps, secrets) -> returning_client (W := W) apps /\ returning_client secrets) ->
  main New = Done routes -> Forall once routes.
Proof.
  intros Hnew. unfold main, K8sInit. destruct New as [[apps secrets]|]; [|done]. intros [= <-].
  destruct (Hnew _ _ eq_refl). by apply Routes_once.
Qed.

(** Without a client a handler reports the problem, goes on, and panics. *)
Lemma nil_client_panics `{MapRange, Runtime, RequestDecoder} {W} k8s r (w : W) :
  exists why e, GetFybrikApplication None k8s r w [] = (Panic why, w, [Status 500; JSON (BError e)]).
Proof. destruct k8s; do 2 eexists; vm_compute; reflexivity. Qed.

(** The handlers of FybrikApplications read the namespace from the variable of the credentials:
    routes for applications alone panic. *)
Lemma applications_alone_panic `{MapRange, Runtime, RequestDecoder} {W} cl r (w : W) :
  exists why, GetFybrikApplication (Some cl) None r w [] = (Panic why, w, []).
Proof. eexists. vm_compute. reflexivity. Qed.
