(* ===== verification/RestExamples.v ===== *)
(** * An API server for the sample server

    A store of applications and secrets in memory that behaves as the interfaces of
    RestFacts.v ask: it counts generations, keeps objects with finalizers, refuses objects
    without a name.  The theorems on the sample server are applied to it. *)
From stdpp Require Import base gmap strings list numbers fin_maps.
From S2P Require Import Prelude GoStrings Types External World RestServer RestFacts.

Module MemoryServer.

Definition World : Type := gmap NamespacedName FybrikApplication * gmap NamespacedName CoreSecret.
Definition refused : error := {| Error := "refused"; StatusReason := "Invalid" |}.
Definition notFound : error := {| Error := "not found"; StatusReason := "NotFound" |}.

(** ** Applications *)
Definition admits (name : string) (spec : FybrikApplicationSpec) : bool := negb (String.eqb name "").
Definition app_at (w : World) (k : NamespacedName) : option FybrikApplication :=
  match w.1 !! k with
  | Some o => if decide (ObjectKey o = k) then Some o else None
  | None => None
  end.
Definition put_app (o : FybrikApplication) (w : World) : World := (<[ObjectKey o := o]> w.1, w.2).
Definition with_generation (n : Z) (o : FybrikApplication) : FybrikApplication :=
  o <| app_Meta := (app_Meta o) <| meta_Generation := n |> |>.
Definition marked (o : FybrikApplication) : FybrikApplication :=
  o <| app_Meta := (app_Meta o) <| meta_DeletionTimestamp := Some 1%Z |> |>.

Definition apps : ObjectClient World FybrikApplication := {|
  Get k w := Done (match app_at w k with Some o => inl o | None => inr notFound end, w);
  List_ ns w := Done (inl (omap (fun k => if decide (nn_Namespace k = ns) then app_at w k else None) (elements (dom w.1))), w);
  Create o w :=
    if decide (app_at w (ObjectKey o) = None /\ admits (app_Name o) (app_Spec o) = true)
    then let o := with_generation 1 o in Done (inl o, put_app o w)
    else Done (inr refused, w);
  Update o w :=
    if admits (app_Name o) (app_Spec o)
    then let o := with_generation (meta_Generation (app_Meta o) + 1) o in Done (inl o, put_app o w)
    else Done (inr refused, w);
  StatusUpdate o w := Done (inl o, put_app o w);
  Delete o w :=
    if decide (meta_Finalizers (app_Meta o) = []) then Done (None, (delete (ObjectKey o) w.1, w.2))
    else Done (None, put_app (marked o) w);
  CreateOrUpdate o f w := Done (None, put_app (f (default o (app_at w (ObjectKey o)))) w);
  RetryOnConflict f o := f o
|}.

Lemma app_at_put o w k : app_at (put_app o w) k = if decide (k = ObjectKey o) then Some o else app_at w k.
Proof.
  unfold app_at, put_app. simpl. case_decide as E; [subst k; by rewrite lookup_insert_eq, decide_True|].
  by rewrite lookup_insert_ne by done.
Qed.

Lemma with_generation_key n o : ObjectKey (with_generation n o) = ObjectKey o.
Proof. by destruct o as [[] ? ?]. Qed.
Lemma with_generation_desired n o : desired (with_generation n o) = desired o.
Proof. by destruct o as [[] ? ?]. Qed.
Lemma marked_key o : ObjectKey (marked o) = ObjectKey o.
Proof. by destruct o as [[] ? ?]. Qed.
Lemma marked_desired o : desired (marked o) = desired o.
Proof. by destruct o as [[] ? ?]. Qed.

Lemma app_at_key w k o : app_at w k = Some o -> ObjectKey o = k.
Proof. unfold app_at. destruct (w.1 !! k); [|done]. case_decide; naive_solver. Qed.

Lemma app_at_elem w ns o :
  o ∈ omap (fun k => if decide (nn_Namespace k = ns) then app_at w k else None) (elements (dom w.1)) <->
  app_at w (ObjectKey o) = Some o /\ app_Namespace o = ns.
Proof.
  rewrite list_elem_of_omap. split.
  - intros (k & _ & Ek). case_decide as Hns; [|done]. pose proof (app_at_key _ _ _ Ek) as <-. by split.
  - intros [E Hns]. exists (ObjectKey o). split; [|by rewrite decide_True].
    apply elem_of_elements, elem_of_dom. unfold app_at in E. by destruct (w.1 !! ObjectKey o).
Qed.

Lemma app_list_NoDup w ns (l : list NamespacedName) : NoDup l ->
  NoDup (ObjectKey <$> omap (fun k => if decide (nn_Namespace k = ns) then app_at w k else None) l).
Proof.
  induction 1 as [|k l Hk Hnd IH]; simpl; [constructor|].
  destruct (if decide (nn_Namespace k = ns) then app_at w k else None) as [o|] eqn:E; [|done].
  simpl. apply list.NoDup_cons. split; [|done]. intros (o' & Ho & Hin)%list_elem_of_fmap.
  apply list_elem_of_omap in Hin as (k' & Hk' & Eo). do 2 case_decide; try done.
  apply app_at_key in E, Eo. congruence.
Qed.

#[export] Instance apps_laws : ApplicationServer apps admits app_at.
Proof.
  split; simpl.
  - apply app_at_key.
  - intros k w. eexists. split; [done|]. destruct (app_at w k); eauto.
  - intros ns w. eexists. split; [done|]. split; [apply app_list_NoDup, NoDup_elements|apply app_at_elem].
  - intros o w. case_decide; [|eauto]. eexists _, _. split; [done|].
    split; [apply with_generation_key|]. split; [apply with_generation_desired|].
    intros k. by rewrite app_at_put, with_generation_key.
  - intros o w _. destruct (admits _ _); [|eauto]. eexists _, _. split; [done|].
    split; [apply with_generation_key|]. split; [apply with_generation_desired|].
    intros k. by rewrite app_at_put, with_generation_key.
  - intros o w Ho. case_decide as Hf; eexists; (split; [done|]).
    + intros k. unfold app_at. simpl. case_decide as E; [subst k; by rewrite lookup_delete_eq|].
      by rewrite lookup_delete_ne.
    + exists (marked o). split; [apply marked_key|]. split; [apply marked_desired|].
      intros k. by rewrite app_at_put, marked_key.
Qed.

(** ** Secrets *)
Definition admitsSecret (name : string) (data : gmap string string) : bool := negb (String.eqb name "").
Definition secret_at (w : World) (k : NamespacedName) : option CoreSecret :=
  match w.2 !! k with
  | Some o => if decide (secretKey o = k /\ gm (sec_StringData o) = ∅) then Some o else None
  | None => None
  end.
Definition put_secret (o : CoreSecret) (w : World) : World := (w.1, <[secretKey o := o]> w.2).

Definition write_secret (o : CoreSecret) (w : World) : outcome ((CoreSecret + error) * World) :=
  if admitsSecret (meta_Name (sec_Meta o)) (gm (sec_Data o))
  then let o := o <| sec_StringData := None |> in Done (inl o, put_secret o w)
  else Done (inr refused, w).

Definition secrets : ObjectClient World CoreSecret := {|
  Get k w := Done (match secret_at w k with Some o => inl o | None => inr notFound end, w);
  List_ ns w := Done (inl [], w);
  Create := write_secret;
  Update := write_secret;
  StatusUpdate o w := Done (inl o, w);
  Delete o w := Done (None, (w.1, delete (secretKey o) w.2));
  CreateOrUpdate o f w := Done (None, put_secret (f (default o (secret_at w (secretKey o)))) w);
  RetryOnConflict f o := f o
|}.

Lemma write_secret_law o w :
  if admitsSecret (meta_Name (sec_Meta o)) (gm (sec_Data o))
  then exists o' w', write_secret o w = Done (inl o', w') /\ secretKey o' = secretKey o /\
    gm (sec_Data o') = gm (sec_Data o) /\
    forall k, secret_at w' k = if decide (k = secretKey o) then Some o' else secret_at w k
  else exists e, write_secret o w = Done (inr e, w).
Proof.
  unfold write_secret. destruct (admitsSecret _ _); [|eauto].
  eexists _, _. split; [done|]. destruct o as [m d s t]. do 2 (split; [done|]). intros k.
  unfold secret_at, put_secret. simpl. change (secretKey (mkCoreSecret m d s t)) with (secretKey (mkCoreSecret m d None t)).
  case_decide as E; [subst k; by rewrite lookup_insert_eq, decide_True|]. by rewrite lookup_insert_ne by done.
Qed.

#[export] Instance secrets_laws : SecretServer secrets admitsSecret secret_at.
Proof.
  split; simpl.
  - intros w k o. unfold secret_at. destruct (w.2 !! k); [|done]. case_decide; naive_solver.
  - intros w k o. unfold secret_at. destruct (w.2 !! k); [|done]. case_decide; naive_solver.
  - intros k w. eexists. split; [done|]. destruct (secret_at w k); eauto.
  - intros o w _ _. apply write_secret_law.
  - intros o w _ _. apply write_secret_law.
Qed.

(** ** Requests *)
Definition run_env : Runtime := {|
  LookupEnv _ := None; ReadFile _ := Some "tenant "; Abs s := inl s |}.
Definition client : K8sClient World := mkK8sClient apps secrets "tenant".

Definition spec (cluster : string) : FybrikApplicationSpec :=
  mkFybrikApplicationSpec (mkSelector cluster (mkLabelSelector ∅ [])) "" (mkAppInfo (mkProperties None)) [].
Definition application (name cluster : string) (finalizers : list string) : FybrikApplication :=
  mkFybrikApplication ((metaOf name "elsewhere") <| meta_Finalizers := finalizers |>) (spec cluster)
    (mkFybrikApplicationStatus false "" None 0 0 "" None None).

(** Bodies stand for what they decode to. *)
Definition decoder : RequestDecoder := {|
  decodeApplication s :=
    if String.eqb s "notebook" then inl (application "notebook" "green" [])
    else if String.eqb s "notebook on red" then inl (application "notebook" "red" [])
    else if String.eqb s "held" then inl (application "held" "green" ["release"])
    else if String.eqb s "unnamed" then inl (application "" "green" [])
    else inr (newError "invalid character");
  decodeCredentials s :=
    if String.eqb s "egeria" then inl (mkUserCredentials "notebook" "Egeria" (Some {[ "username" := "user1" ]}))
    else if String.eqb s "opa" then inl (mkUserCredentials "notebook" "OPA" (Some {[ "username" := "user2" ]}))
    else inr (newError "invalid character") |}.
#[local] Existing Instances canonical_range run_env decoder.

Definition request_for (id body : string) : Request := mkRequest (fun _ => id) body.
Definition empty : World := (∅, ∅).

Definition session : list (Endpoint * Request) := [
  (EPost, request_for "" "notebook");
  (EPost, request_for "" "notebook");
  (EPost, request_for "" "held");
  (EPost, request_for "" "unnamed");
  (EPost, request_for "" "{");
  (EPut, request_for "held" "notebook on red");
  (EGet, request_for "notebook" "");
  (EDelete, request_for "notebook" "");
  (EDelete, request_for "held" "");
  (EGet, request_for "notebook" "");
  (EList, request_for "" "")].

(** A second application of the same name, one without a name and a malformed body are
    refused; a deleted application is gone unless a finalizer holds it back. *)
Example registry_session :
  (registry_run admits session ∅).2 =
  [Created "notebook" (mkDesired (spec "green") []); Rejected 422;
   Created "held" (mkDesired (spec "green") ["release"]); Rejected 422; Rejected 400;
   Updated "notebook" (mkDesired (spec "red") []); Found "notebook" (mkDesired (spec "red") []);
   Deleted "notebook"; Deleted "held"; Rejected 422;
   Listed {[ "held" := mkDesired (spec "green") ["release"] ]}].
Proof. vm_compute. reflexivity. Qed.

(** The path of the sixth request names another application than its body: the one of the
    body is updated. *)
Example path_is_ignored :
  let '(served, w) := serve client (take 6 session) empty in
  (fun r => match r.2 with
            | [Status 200; JSON (BSuccess s)] => (dma_UniqueID s, app_Spec <$> dma_DMA s) = ("notebook", Some (spec "red"))
            | _ => False
            end) (default (Panic "", []) (served !! 5)) /\
  (app_Spec <$> app_at w (mkNamespacedName "held" "tenant")) = Some (spec "green").
Proof. vm_compute. done. Qed.

Lemma empty_registers : registers client app_at empty ∅.
Proof. intros name. done. Qed.

Lemma server_implements_registry_witness :
  registers client app_at empty ∅ /\
  let '(served, w') := serve client session empty in
  let '(m', shown) := registry_run admits session ∅ in
  Forall2 (fun r s => r.1 = Done tt /\ shows r.2 s) served shown /\
  registers client app_at w' m' /\ elsewhere_same client app_at empty w'.
Proof.
  split; [exact empty_registers|].
  exact (server_implements_registry client admits app_at session empty ∅ empty_registers).
Defined.

Definition after_egeria : World := ((StoreCredentials (Some client) (request_for "" "egeria") empty []).1).2.

Lemma credentials_roundtrip_witness :
  stored client secret_at after_egeria "notebook" = {[ "Egeria_username" := "user1" ]} /\
  (let u := mkUserCredentials "notebook" "OPA" (Some {[ "username" := "user2" ]}) in
   let data := added u ∪ stored client secret_at after_egeria "notebook" in
   if admitsSecret "notebook" data
   then exists w' body,
     StoreCredentials (Some client) (request_for "" "opa") after_egeria [] =
       (Done tt, w', [Status 201; JSON (BCreds (mkCredsSuccessResponse "" "notebook" "Created!!"))]) /\
     (forall r', URLParam r' "secret" = "notebook" ->
        GetCredentials (Some client) r' w' [] = (Done tt, w', [JSON (BSecretData body)])) /\
     carries_data body data /\
     (forall k, k <> mkNamespacedName "notebook" "tenant" -> secret_at w' k = secret_at after_egeria k)
   else exists e, StoreCredentials (Some client) (request_for "" "opa") after_egeria [] =
     (Done tt, after_egeria, [Status 500; JSON (BError e)])).
Proof.
  split; [vm_compute; reflexivity|].
  exact (credentials_roundtrip client admitsSecret secret_at (request_for "" "opa") after_egeria _ eq_refl).
Defined.

Lemma apps_return : returning_client apps.
Proof.
  split; intros x w; simpl; repeat first [case_decide | case_match]; by eexists _, _.
Qed.

Lemma secrets_return : returning_client secrets.
Proof.
  split; intros x w; simpl; unfold write_secret; repeat first [case_decide | case_match]; by eexists _, _.
Qed.

Lemma server_answers_once_witness : Forall once (Routes (Some client)).
Proof.
  apply (server_answers_once (inl (apps, secrets))).
  - intros a s [= <- <-]. split; [exact apps_return|exact secrets_return].
  - reflexivity.
Defined.
End MemoryServer.
